(** * TFS: the in-memory file system of ist-so-p1, and its specification

    A shallow embedding of [fs/state.c] and [fs/operations.c].

    - C [int] and [size_t] values are integers of [Z]; the one subtraction
      of the source that can wrap ([MAX_FILE_SIZE - of_offset]) goes
      through [size_t_wrap].
    - [fs_data] is the byte arena of the source, a list of bytes; the
      indirect references and the directory entries that the source reads
      through [int *] and [dir_entry_t *] casts are decoded from those
      bytes (4-byte little-endian [int], LP64 struct layout).
    - The pthread primitives are part of the state.  A call that has to
      wait for a lock nobody will release has no result, like a loop that
      runs out of fuel: operations are functions
      [state -> option (result * state)].  Every pthread call that
      returns is taken to return 0, so the [if (pthread_...) return -1]
      branches of the source are not represented.
    - [insert_delay] has no effect on the state and is left out. *)

From Stdlib Require Import ZArith Bool Lia.
From stdpp Require Import base numbers list.

Local Open Scope Z_scope.

(** ** Configuration

    [config.h] and [operations.h] are not part of the sources at hand;
    their constants are parameters of the development. *)

Class Config := {
  BLOCK_SIZE : Z;
  DATA_BLOCKS : Z;
  INODE_TABLE_SIZE : Z;
  INODE_DIRECT_REFS : Z;
  MAX_FILE_NAME : Z;
  MAX_OPEN_FILES : Z;
  TFS_O_CREAT : Z;
  TFS_O_TRUNC : Z;
  TFS_O_APPEND : Z
}.

(** ** Data model ([state.h]) *)

Inductive inode_type := T_FILE | T_DIRECTORY.

Inductive allocation_state_t := FREE | TAKEN.

Record inode_t := mk_inode {
  i_node_type : inode_type;
  i_size : Z;
  i_data_block_count : Z;
  i_data_block : list Z;
  i_data_extension_block : Z
}.

(** The [of_mutex] member of the source lives in [locks_t] below. *)
Record open_file_entry_t := mk_entry {
  of_inumber : Z;
  of_append : Z;
  of_offset : Z
}.

Inductive rwlock := RwFree | RwRead (others : nat) | RwWrite.

Record locks_t := mk_locks {
  lk_inode : list rwlock;
  lk_inode_table : bool;
  lk_data_blocks : bool;
  lk_open_file_table : bool;
  lk_of : list bool
}.

Record state := mk_state {
  inode_table : list inode_t;
  free_inode_ts : list allocation_state_t;
  fs_data : list Z;
  free_blocks : list allocation_state_t;
  open_file_table : list open_file_entry_t;
  free_open_file_entries : list allocation_state_t;
  open_file_count : Z;
  locks : locks_t
}.

Inductive mutex_id :=
| inode_table_mutex
| data_blocks_mutex
| open_file_table_mutex
| of_mutex (fhandle : Z).

Global Instance inode_type_eq_dec : EqDecision inode_type.
Proof. solve_decision. Defined.

Global Instance allocation_state_eq_dec : EqDecision allocation_state_t.
Proof. solve_decision. Defined.

Global Instance rwlock_eq_dec : EqDecision rwlock.
Proof. solve_decision. Defined.

Global Instance allocation_state_inhabited : Inhabited allocation_state_t :=
  populate FREE.

Global Instance inode_inhabited : Inhabited inode_t :=
  populate (mk_inode T_FILE 0 0 [] 0).

Global Instance entry_inhabited : Inhabited open_file_entry_t :=
  populate (mk_entry 0 0 0).

Global Instance rwlock_inhabited : Inhabited rwlock := populate RwFree.

(** ** Arrays indexed by C integers *)

Definition sel {A} `{!Inhabited A} (l : list A) (i : Z) : A :=
  l !!! Z.to_nat i.

Definition upd {A} (l : list A) (i : Z) (x : A) : list A :=
  <[Z.to_nat i := x]> l.

(** ** Record updates *)

Definition set_i_node_type (t : inode_type) (n : inode_t) : inode_t :=
  mk_inode t (i_size n) (i_data_block_count n) (i_data_block n)
           (i_data_extension_block n).

Definition set_i_size (z : Z) (n : inode_t) : inode_t :=
  mk_inode (i_node_type n) z (i_data_block_count n) (i_data_block n)
           (i_data_extension_block n).

Definition set_i_data_block_count (z : Z) (n : inode_t) : inode_t :=
  mk_inode (i_node_type n) (i_size n) z (i_data_block n)
           (i_data_extension_block n).

Definition set_i_data_block (l : list Z) (n : inode_t) : inode_t :=
  mk_inode (i_node_type n) (i_size n) (i_data_block_count n) l
           (i_data_extension_block n).

Definition set_i_data_extension_block (z : Z) (n : inode_t) : inode_t :=
  mk_inode (i_node_type n) (i_size n) (i_data_block_count n) (i_data_block n) z.

Definition set_of_offset (z : Z) (e : open_file_entry_t) : open_file_entry_t :=
  mk_entry (of_inumber e) (of_append e) z.

Definition set_inode_table (x : list inode_t) (s : state) : state :=
  mk_state x (free_inode_ts s) (fs_data s) (free_blocks s) (open_file_table s)
           (free_open_file_entries s) (open_file_count s) (locks s).

Definition set_free_inode_ts (x : list allocation_state_t) (s : state) : state :=
  mk_state (inode_table s) x (fs_data s) (free_blocks s) (open_file_table s)
           (free_open_file_entries s) (open_file_count s) (locks s).

Definition set_fs_data (x : list Z) (s : state) : state :=
  mk_state (inode_table s) (free_inode_ts s) x (free_blocks s)
           (open_file_table s) (free_open_file_entries s) (open_file_count s)
           (locks s).

Definition set_free_blocks (x : list allocation_state_t) (s : state) : state :=
  mk_state (inode_table s) (free_inode_ts s) (fs_data s) x (open_file_table s)
           (free_open_file_entries s) (open_file_count s) (locks s).

Definition set_open_file_table (x : list open_file_entry_t) (s : state) : state :=
  mk_state (inode_table s) (free_inode_ts s) (fs_data s) (free_blocks s) x
           (free_open_file_entries s) (open_file_count s) (locks s).

Definition set_free_open_file_entries (x : list allocation_state_t) (s : state)
  : state :=
  mk_state (inode_table s) (free_inode_ts s) (fs_data s) (free_blocks s)
           (open_file_table s) x (open_file_count s) (locks s).

Definition set_open_file_count (x : Z) (s : state) : state :=
  mk_state (inode_table s) (free_inode_ts s) (fs_data s) (free_blocks s)
           (open_file_table s) (free_open_file_entries s) x (locks s).

Definition set_locks (x : locks_t) (s : state) : state :=
  mk_state (inode_table s) (free_inode_ts s) (fs_data s) (free_blocks s)
           (open_file_table s) (free_open_file_entries s) (open_file_count s) x.

(** ** The monad of operations *)

Definition M (A : Type) : Type := state -> option (A * state).

Definition ret {A} (a : A) : M A := fun s => Some (a, s).

Definition bind {A B} (m : M A) (k : A -> M B) : M B :=
  fun s => match m s with
           | Some (a, s') => k a s'
           | None => None
           end.

Definition gets {A} (f : state -> A) : M A := fun s => Some (f s, s).

Definition modify (f : state -> state) : M unit := fun s => Some (tt, f s).

(** No result: the caller waits forever, or a loop ran out of fuel. *)
Definition stuck {A} : M A := fun _ => None.

Declare Scope tfs_scope.
Delimit Scope tfs_scope with tfs.

Notation "'let*' x ':=' m 'in' k" := (bind m (fun x => k))
  (at level 10, x name, m at level 100, k at level 200) : tfs_scope.

Notation "m ;; k" := (bind m (fun _ => k))
  (at level 100, k at level 200, right associativity) : tfs_scope.

Local Open Scope tfs_scope.

(** ** Byte arena: [memcpy], and [int] values read through a cast *)

Definition memcpy (mem : list Z) (dst : Z) (src : list Z) : list Z :=
  list_inserts (Z.to_nat dst) src mem.

Definition load_bytes (mem : list Z) (addr n : Z) : list Z :=
  take (Z.to_nat n) (drop (Z.to_nat addr) mem).

Definition SIZEOF_INT : Z := 4.

Definition encode_int (z : Z) : list Z :=
  [z mod 256; (z / 256) mod 256; (z / 65536) mod 256; (z / 16777216) mod 256].

Definition decode_int (bs : list Z) : Z :=
  let u := sel bs 0 + 256 * sel bs 1 + 65536 * sel bs 2 + 16777216 * sel bs 3 in
  if 2147483648 <=? u then u - 4294967296 else u.

Definition load_int (mem : list Z) (addr : Z) : Z :=
  decode_int (load_bytes mem addr SIZEOF_INT).

Definition store_int (mem : list Z) (addr z : Z) : list Z :=
  memcpy mem addr (encode_int z).

Definition size_t_wrap (z : Z) : Z := z mod 18446744073709551616.

(** ** C strings: a list of characters followed by an implicit NUL *)

Fixpoint c_chars (name : list Z) : list Z :=
  match name with
  | [] => []
  | c :: rest => if c =? 0 then [] else c :: c_chars rest
  end.

Definition strlen (name : list Z) : Z := Z.of_nat (length (c_chars name)).

(** The [n] bytes that [strncpy (dst, name, n)] stores. *)
Definition strncpy (name : list Z) (n : Z) : list Z :=
  let cs := take (Z.to_nat n) (c_chars name) in
  cs ++ replicate (Z.to_nat n - length cs)%nat 0.

(** [strncmp (a, b, n) == 0]. *)
Fixpoint strncmp_eq (n : nat) (a b : list Z) : bool :=
  match n with
  | O => true
  | S n' =>
      let x := hd 0 a in
      let y := hd 0 b in
      if x =? y then (if x =? 0 then true else strncmp_eq n' (tl a) (tl b))
      else false
  end.

(** ** pthread primitives *)

Definition mutex_held (m : mutex_id) (l : locks_t) : bool :=
  match m with
  | inode_table_mutex => lk_inode_table l
  | data_blocks_mutex => lk_data_blocks l
  | open_file_table_mutex => lk_open_file_table l
  | of_mutex fhandle => sel (lk_of l) fhandle
  end.

Definition set_mutex (m : mutex_id) (b : bool) (l : locks_t) : locks_t :=
  match m with
  | inode_table_mutex =>
      mk_locks (lk_inode l) b (lk_data_blocks l) (lk_open_file_table l) (lk_of l)
  | data_blocks_mutex =>
      mk_locks (lk_inode l) (lk_inode_table l) b (lk_open_file_table l) (lk_of l)
  | open_file_table_mutex =>
      mk_locks (lk_inode l) (lk_inode_table l) (lk_data_blocks l) b (lk_of l)
  | of_mutex fhandle =>
      mk_locks (lk_inode l) (lk_inode_table l) (lk_data_blocks l)
               (lk_open_file_table l) (upd (lk_of l) fhandle b)
  end.

Definition set_rwlock (inumber : Z) (r : rwlock) (l : locks_t) : locks_t :=
  mk_locks (upd (lk_inode l) inumber r) (lk_inode_table l) (lk_data_blocks l)
           (lk_open_file_table l) (lk_of l).

Definition pthread_mutex_lock (m : mutex_id) : M unit :=
  fun s => if mutex_held m (locks s) then None
           else Some (tt, set_locks (set_mutex m true (locks s)) s).

Definition pthread_mutex_unlock (m : mutex_id) : M unit :=
  modify (fun s => set_locks (set_mutex m false (locks s)) s).

Definition pthread_rwlock_wrlock (inumber : Z) : M unit :=
  fun s => match lk_inode (locks s) !! Z.to_nat inumber with
           | Some RwFree =>
               if 0 <=? inumber
               then Some (tt, set_locks (set_rwlock inumber RwWrite (locks s)) s)
               else None
           | _ => None
           end.

Definition pthread_rwlock_rdlock (inumber : Z) : M unit :=
  fun s => match lk_inode (locks s) !! Z.to_nat inumber with
           | Some RwFree =>
               if 0 <=? inumber
               then Some (tt, set_locks (set_rwlock inumber (RwRead 0) (locks s)) s)
               else None
           | Some (RwRead n) =>
               if 0 <=? inumber
               then Some (tt, set_locks (set_rwlock inumber (RwRead (S n)) (locks s)) s)
               else None
           | _ => None
           end.

Definition rwlock_release (r : rwlock) : rwlock :=
  match r with
  | RwRead (S n) => RwRead n
  | _ => RwFree
  end.

Definition pthread_rwlock_unlock (inumber : Z) : M unit :=
  modify (fun s =>
    set_locks
      (set_rwlock inumber (rwlock_release (sel (lk_inode (locks s)) inumber))
                  (locks s)) s).

(** With no other thread to be woken, a signal changes nothing. *)
Definition pthread_cond_signal : M unit := ret tt.

(** With no other thread to send the signal, the wait never returns. *)
Definition pthread_cond_wait (m : mutex_id) : M unit :=
  pthread_mutex_unlock m ;; stuck.

Section TFS.

Context {cfg : Config}.

(** ** Derived constants ([state.h]) *)

(** [sizeof (dir_entry_t)]: [d_name], padding up to the alignment of
    [int], [d_inumber]. *)
Definition D_INUMBER_OFFSET : Z := (MAX_FILE_NAME + 3) / 4 * 4.
Definition SIZEOF_DIR_ENTRY : Z := D_INUMBER_OFFSET + SIZEOF_INT.

Definition MAX_DIR_ENTRIES : Z := BLOCK_SIZE / SIZEOF_DIR_ENTRY.
Definition MAX_INDIRECT_REFS : Z := BLOCK_SIZE / SIZEOF_INT.
Definition MAX_FILE_SIZE : Z :=
  BLOCK_SIZE * (INODE_DIRECT_REFS + MAX_INDIRECT_REFS).

Definition ROOT_DIR_INUM : Z := 0.

Definition valid_inumber (inumber : Z) : bool :=
  (0 <=? inumber) && (inumber <? INODE_TABLE_SIZE).

Definition valid_block_number (block_number : Z) : bool :=
  (0 <=? block_number) && (block_number <? DATA_BLOCKS).

Definition valid_file_handle (file_handle : Z) : bool :=
  (0 <=? file_handle) && (file_handle <? MAX_OPEN_FILES).

(** The scan shared by the three allocators: the first index at or after
    [i], among [n], whose slot is [FREE]. *)
Fixpoint first_free (tbl : list allocation_state_t) (n : nat) (i : Z)
  : option Z :=
  match n with
  | O => None
  | S n' =>
      if decide (sel tbl i = FREE) then Some i
      else first_free tbl n' (i + 1)
  end.

(** ** Initial state and [state_init] *)

(** The statics of the source, zero-initialised. *)
Definition static_state : state :=
  mk_state
    (replicate (Z.to_nat INODE_TABLE_SIZE)
       (mk_inode T_FILE 0 0 (replicate (Z.to_nat INODE_DIRECT_REFS) 0) 0))
    (replicate (Z.to_nat INODE_TABLE_SIZE) FREE)
    (replicate (Z.to_nat (BLOCK_SIZE * DATA_BLOCKS)) 0)
    (replicate (Z.to_nat DATA_BLOCKS) FREE)
    (replicate (Z.to_nat MAX_OPEN_FILES) (mk_entry 0 0 0))
    (replicate (Z.to_nat MAX_OPEN_FILES) FREE)
    0
    (mk_locks (replicate (Z.to_nat INODE_TABLE_SIZE) RwFree) false false false
              (replicate (Z.to_nat MAX_OPEN_FILES) false)).

Definition state_init : M Z :=
  modify (fun s =>
    set_locks
      (mk_locks (replicate (Z.to_nat INODE_TABLE_SIZE) RwFree)
                (lk_inode_table (locks s)) (lk_data_blocks (locks s))
                (lk_open_file_table (locks s))
                (replicate (Z.to_nat MAX_OPEN_FILES) false))
      (set_open_file_count 0
         (set_free_open_file_entries (replicate (Z.to_nat MAX_OPEN_FILES) FREE)
            (set_free_blocks (replicate (Z.to_nat DATA_BLOCKS) FREE)
               (set_free_inode_ts (replicate (Z.to_nat INODE_TABLE_SIZE) FREE)
                  s))))) ;;
  ret 0.

Definition state_destroy : M Z := ret 0.

Definition state_destroy_after_all_closed : M Z :=
  pthread_mutex_lock open_file_table_mutex ;;
  pthread_cond_wait open_file_table_mutex ;;
  pthread_mutex_unlock open_file_table_mutex ;;
  state_destroy ;;
  ret 0.

(** ** Block store *)

Definition data_block_alloc : M Z :=
  pthread_mutex_lock data_blocks_mutex ;;
  let* found := gets (fun s => first_free (free_blocks s)
                                          (Z.to_nat DATA_BLOCKS) 0) in
  match found with
  | Some i =>
      modify (fun s => set_free_blocks (upd (free_blocks s) i TAKEN) s) ;;
      pthread_mutex_unlock data_blocks_mutex ;;
      ret i
  | None =>
      pthread_mutex_unlock data_blocks_mutex ;;
      ret (-1)
  end.

Definition data_block_free (block_number : Z) : M Z :=
  if negb (valid_block_number block_number) then ret (-1)
  else
    pthread_mutex_lock data_blocks_mutex ;;
    modify (fun s => set_free_blocks (upd (free_blocks s) block_number FREE) s) ;;
    pthread_mutex_unlock data_blocks_mutex ;;
    ret 0.

(** The address, within [fs_data], of the block; [None] is [NULL]. *)
Definition data_block_get (block_number : Z) : option Z :=
  if negb (valid_block_number block_number) then None
  else Some (block_number * BLOCK_SIZE).

(** ** Inode table *)

Definition inode_at (s : state) (inumber : Z) : inode_t :=
  sel (inode_table s) inumber.

Definition upd_inode (inumber : Z) (f : inode_t -> inode_t) (s : state) : state :=
  set_inode_table (upd (inode_table s) inumber (f (inode_at s inumber))) s.

Definition set_inode_state (inumber : Z) (a : allocation_state_t) (s : state)
  : state :=
  set_free_inode_ts (upd (free_inode_ts s) inumber a) s.

Definition inode_extend_unsafe (inumber : Z) : M Z :=
  let* fr := gets (fun s => sel (free_inode_ts s) inumber) in
  if negb (valid_inumber inumber) || bool_decide (fr = FREE) then ret (-1)
  else
    (* Allocates a new data block *)
    let* b := data_block_alloc in
    if b =? -1 then ret (-1)
    else
      let* count := gets (fun s => i_data_block_count (inode_at s inumber)) in
      if count <? INODE_DIRECT_REFS then
        (* Add a direct reference to the block *)
        modify (upd_inode inumber
                  (fun n => set_i_data_block (upd (i_data_block n) count b) n)) ;;
        modify (upd_inode inumber
                  (fun n => set_i_data_block_count (i_data_block_count n + 1) n)) ;;
        ret b
      else if count <? INODE_DIRECT_REFS + MAX_INDIRECT_REFS then
        (* Create the indirect reference block *)
        let* created :=
          (if count =? INODE_DIRECT_REFS then
             let* e := data_block_alloc in
             modify (upd_inode inumber (set_i_data_extension_block e)) ;;
             ret (negb (e =? -1))
           else ret true) in
        if negb created then data_block_free b ;; ret (-1)
        else
          (* Add a indirect reference to the block *)
          let bc := count - INODE_DIRECT_REFS in
          let* ext := gets (fun s => i_data_extension_block (inode_at s inumber)) in
          match data_block_get ext with
          | None => data_block_free b ;; ret (-1)
          | Some indirect_refs =>
              modify (fun s =>
                set_fs_data
                  (store_int (fs_data s) (indirect_refs + bc * SIZEOF_INT) b) s) ;;
              modify (upd_inode inumber
                        (fun n => set_i_data_block_count
                                    (i_data_block_count n + 1) n)) ;;
              ret b
          end
      else data_block_free b ;; ret (-1).

(** [dir_entry[i].d_inumber = -1] for [i] from [i] to [i + n - 1]. *)
Fixpoint clear_dir_entries (n : nat) (i dir_entry : Z) (mem : list Z) : list Z :=
  match n with
  | O => mem
  | S n' =>
      clear_dir_entries n' (i + 1) dir_entry
        (store_int mem (dir_entry + i * SIZEOF_DIR_ENTRY + D_INUMBER_OFFSET) (-1))
  end.

Definition inode_create_unsafe (n_type : inode_type) : M Z :=
  let* found := gets (fun s => first_free (free_inode_ts s)
                                          (Z.to_nat INODE_TABLE_SIZE) 0) in
  match found with
  | None => ret (-1)
  | Some inumber =>
      (* Found a free entry, so takes it for the new i-node *)
      modify (set_inode_state inumber TAKEN) ;;
      modify (upd_inode inumber
                (fun n => set_i_data_block_count 0
                            (set_i_size 0 (set_i_node_type n_type n)))) ;;
      if decide (n_type = T_DIRECTORY) then
        let* b := inode_extend_unsafe inumber in
        if b =? -1 then modify (set_inode_state inumber FREE) ;; ret (-1)
        else
          match data_block_get b with
          | None => modify (set_inode_state inumber FREE) ;; ret (-1)
          | Some dir_entry =>
              modify (fun s =>
                set_fs_data
                  (clear_dir_entries (Z.to_nat MAX_DIR_ENTRIES) 0 dir_entry
                                     (fs_data s)) s) ;;
              ret inumber
          end
      else ret inumber
  end.

(** The two loops of [inode_clear_unsafe]; the result is the counter [i]
    on leaving the loop, or [None] for [return -1]. *)
Fixpoint clear_direct_loop (fuel : nat) (inumber i : Z) : M (option Z) :=
  match fuel with
  | O => stuck
  | S fuel' =>
      let* n := gets (fun s => inode_at s inumber) in
      if (i <? i_data_block_count n) && (i <? INODE_DIRECT_REFS) then
        let* r := data_block_free (sel (i_data_block n) i) in
        if r =? -1 then ret None
        else clear_direct_loop fuel' inumber (i + 1)
      else ret (Some i)
  end.

Fixpoint clear_indirect_loop (fuel : nat) (inumber indirect_refs i : Z)
  : M (option Z) :=
  match fuel with
  | O => stuck
  | S fuel' =>
      let* n := gets (fun s => inode_at s inumber) in
      if i <? i_data_block_count n then
        if MAX_INDIRECT_REFS + INODE_DIRECT_REFS <=? i then ret None
        else
          let* blk := gets (fun s =>
            load_int (fs_data s)
                     (indirect_refs + (i - INODE_DIRECT_REFS) * SIZEOF_INT)) in
          let* r := data_block_free blk in
          if r =? -1 then ret None
          else clear_indirect_loop fuel' inumber indirect_refs (i + 1)
      else ret (Some i)
  end.

Definition inode_clear_unsafe (inumber : Z) : M Z :=
  let* fr := gets (fun s => sel (free_inode_ts s) inumber) in
  if bool_decide (fr = FREE) then ret (-1)
  else
    (* Free direct data blocks *)
    let* after_direct :=
      clear_direct_loop (S (Z.to_nat INODE_DIRECT_REFS)) inumber 0 in
    match after_direct with
    | None => ret (-1)
    | Some i =>
        let reset :=
          modify (upd_inode inumber
                    (fun n => set_i_data_block_count 0 (set_i_size 0 n))) ;;
          ret 0 in
        let* n := gets (fun s => inode_at s inumber) in
        if i <? i_data_block_count n then
          (* Get indirect block *)
          let indirect_refs_block := i_data_extension_block n in
          match data_block_get indirect_refs_block with
          | None => ret (-1)
          | Some indirect_refs =>
              (* Free all indirect references *)
              let* after_indirect :=
                clear_indirect_loop (S (S (Z.to_nat MAX_INDIRECT_REFS)))
                                    inumber indirect_refs i in
              match after_indirect with
              | None => ret (-1)
              | Some _ =>
                  let* r := data_block_free indirect_refs_block in
                  if r =? -1 then ret (-1) else reset
              end
          end
        else reset
    end.

Definition inode_create (n_type : inode_type) : M Z :=
  pthread_mutex_lock inode_table_mutex ;;
  let* inumber := inode_create_unsafe n_type in
  pthread_mutex_unlock inode_table_mutex ;;
  ret inumber.

Definition inode_clear (inumber : Z) : M Z :=
  if negb (valid_inumber inumber) then ret (-1)
  else
    pthread_rwlock_wrlock inumber ;;
    let* result := inode_clear_unsafe inumber in
    pthread_rwlock_unlock inumber ;;
    ret result.

Definition inode_delete (inumber : Z) : M Z :=
  pthread_mutex_lock inode_table_mutex ;;
  pthread_rwlock_wrlock inumber ;;
  let* fr := gets (fun s => sel (free_inode_ts s) inumber) in
  if negb (valid_inumber inumber) || bool_decide (fr = FREE) then
    pthread_rwlock_unlock inumber ;;
    pthread_mutex_unlock inode_table_mutex ;;
    ret (-1)
  else
    let* r := inode_clear_unsafe inumber in
    if r =? -1 then
      pthread_rwlock_unlock inumber ;;
      pthread_mutex_unlock inode_table_mutex ;;
      ret (-1)
    else
      modify (set_inode_state inumber FREE) ;;
      pthread_rwlock_unlock inumber ;;
      pthread_mutex_unlock inode_table_mutex ;;
      ret 0.

(** The inode behind the pointer is [inode_at s inumber]; [None] is [NULL]. *)
Definition inode_get (inumber : Z) : option Z :=
  if negb (valid_inumber inumber) then None else Some inumber.

Definition inode_get_block_unsafe (s : state) (inumber index : Z) : Z :=
  if negb (valid_inumber inumber)
     || bool_decide (sel (free_inode_ts s) inumber = FREE) then -1
  else if (index <? 0) || (i_data_block_count (inode_at s inumber) <=? index)
  then -1
  else if index <? INODE_DIRECT_REFS then
    sel (i_data_block (inode_at s inumber)) index
  else
    match data_block_get (i_data_extension_block (inode_at s inumber)) with
    | None => -1
    | Some refs =>
        load_int (fs_data s) (refs + (index - INODE_DIRECT_REFS) * SIZEOF_INT)
    end.

(** ** Directory logic *)

Definition d_inumber (mem : list Z) (dir_entry i : Z) : Z :=
  load_int mem (dir_entry + i * SIZEOF_DIR_ENTRY + D_INUMBER_OFFSET).

Definition d_name (mem : list Z) (dir_entry i : Z) : list Z :=
  load_bytes mem (dir_entry + i * SIZEOF_DIR_ENTRY) MAX_FILE_NAME.

Fixpoint first_empty_entry (mem : list Z) (dir_entry : Z) (n : nat) (i : Z)
  : option Z :=
  match n with
  | O => None
  | S n' =>
      if d_inumber mem dir_entry i =? -1 then Some i
      else first_empty_entry mem dir_entry n' (i + 1)
  end.

Definition add_dir_entry_unsafe (inumber sub_inumber : Z) (sub_name : list Z)
  : M Z :=
  if negb (valid_inumber inumber) || negb (valid_inumber sub_inumber)
  then ret (-1)
  else
    let* n := gets (fun s => inode_at s inumber) in
    if negb (bool_decide (i_node_type n = T_DIRECTORY)) then ret (-1)
    else if strlen sub_name =? 0 then ret (-1)
    else
      (* Locates the block containing the directory's entries *)
      match data_block_get (sel (i_data_block n) 0) with
      | None => ret (-1)
      | Some dir_entry =>
          (* Finds and fills the first empty entry *)
          let* found := gets (fun s =>
            first_empty_entry (fs_data s) dir_entry
                              (Z.to_nat MAX_DIR_ENTRIES) 0) in
          match found with
          | None => ret (-1)
          | Some i =>
              let entry := dir_entry + i * SIZEOF_DIR_ENTRY in
              modify (fun s =>
                set_fs_data
                  (store_int (fs_data s) (entry + D_INUMBER_OFFSET) sub_inumber)
                  s) ;;
              modify (fun s =>
                set_fs_data
                  (memcpy (fs_data s) entry
                          (strncpy sub_name (MAX_FILE_NAME - 1))) s) ;;
              modify (fun s =>
                set_fs_data
                  (memcpy (fs_data s) (entry + (MAX_FILE_NAME - 1)) [0]) s) ;;
              ret 0
          end
      end.

Fixpoint find_entry (mem : list Z) (dir_entry : Z) (sub_name : list Z)
         (n : nat) (i : Z) : Z :=
  match n with
  | O => -1
  | S n' =>
      if negb (d_inumber mem dir_entry i =? -1)
         && strncmp_eq (Z.to_nat MAX_FILE_NAME) (d_name mem dir_entry i) sub_name
      then d_inumber mem dir_entry i
      else find_entry mem dir_entry sub_name n' (i + 1)
  end.

Definition find_in_dir_unsafe (s : state) (inumber : Z) (sub_name : list Z) : Z :=
  if negb (bool_decide (i_node_type (inode_at s inumber) = T_DIRECTORY)) then -1
  else
    match data_block_get (sel (i_data_block (inode_at s inumber)) 0) with
    | None => -1
    | Some dir_entry =>
        find_entry (fs_data s) dir_entry sub_name (Z.to_nat MAX_DIR_ENTRIES) 0
    end.

Definition find_in_dir (inumber : Z) (sub_name : list Z) : M Z :=
  if negb (valid_inumber inumber) then ret (-1)
  else
    pthread_rwlock_rdlock inumber ;;
    let* result := gets (fun s => find_in_dir_unsafe s inumber sub_name) in
    if result =? -1 then
      pthread_rwlock_unlock inumber ;;
      ret (-1)
    else
      pthread_rwlock_unlock inumber ;;
      ret result.

Definition create_in_dir (inumber : Z) (type : inode_type) (sub_name : list Z)
  : M Z :=
  if negb (valid_inumber inumber) then ret (-1)
  else
    pthread_mutex_lock inode_table_mutex ;;
    pthread_rwlock_wrlock inumber ;;
    let* sub_inumber := gets (fun s => find_in_dir_unsafe s inumber sub_name) in
    if 0 <=? sub_inumber then
      pthread_rwlock_unlock inumber ;;
      pthread_mutex_unlock inode_table_mutex ;;
      ret sub_inumber
    else
      (* If the target name is not found, creates a new i-node for it *)
      let* sub_inumber := inode_create_unsafe type in
      if sub_inumber =? -1 then
        pthread_rwlock_unlock inumber ;;
        pthread_mutex_unlock inode_table_mutex ;;
        ret (-1)
      else
        let* r := add_dir_entry_unsafe inumber sub_inumber sub_name in
        if r =? -1 then
          pthread_rwlock_unlock inumber ;;
          pthread_mutex_unlock inode_table_mutex ;;
          ret (-1)
        else
          pthread_rwlock_unlock inumber ;;
          pthread_mutex_unlock inode_table_mutex ;;
          ret sub_inumber.

(** ** Open-file table *)

Definition entry_at (s : state) (fhandle : Z) : open_file_entry_t :=
  sel (open_file_table s) fhandle.

Definition upd_entry (fhandle : Z) (f : open_file_entry_t -> open_file_entry_t)
           (s : state) : state :=
  set_open_file_table (upd (open_file_table s) fhandle (f (entry_at s fhandle))) s.

Definition add_to_open_file_table (inumber append : Z) : M Z :=
  pthread_mutex_lock open_file_table_mutex ;;
  let* found := gets (fun s => first_free (free_open_file_entries s)
                                          (Z.to_nat MAX_OPEN_FILES) 0) in
  match found with
  | Some i =>
      modify (fun s =>
        set_free_open_file_entries (upd (free_open_file_entries s) i TAKEN) s) ;;
      modify (upd_entry i (fun _ => mk_entry inumber append 0)) ;;
      modify (fun s => set_open_file_count (open_file_count s + 1) s) ;;
      pthread_mutex_unlock open_file_table_mutex ;;
      ret i
  | None =>
      pthread_mutex_unlock open_file_table_mutex ;;
      ret (-1)
  end.

Definition remove_from_open_file_table (fhandle : Z) : M Z :=
  pthread_mutex_lock open_file_table_mutex ;;
  let* st := gets (fun s => sel (free_open_file_entries s) fhandle) in
  if negb (valid_file_handle fhandle) || negb (bool_decide (st = TAKEN)) then
    pthread_mutex_unlock open_file_table_mutex ;;
    ret (-1)
  else
    modify (fun s =>
      set_free_open_file_entries (upd (free_open_file_entries s) fhandle FREE) s) ;;
    modify (fun s => set_open_file_count (open_file_count s - 1) s) ;;
    let* count := gets open_file_count in
    (if count =? 0 then pthread_cond_signal else ret tt) ;;
    pthread_mutex_unlock open_file_table_mutex ;;
    ret 0.

(** ** Read and write *)

(** The loop of [write_to_open_file]; [false] stands for its
    [unlock; unlock; return -1] exits, which the caller performs. *)
Fixpoint write_loop (fuel : nat) (fhandle : Z) (buffer : list Z)
         (to_write written : Z) : M bool :=
  if written <? to_write then
    match fuel with
    | O => stuck
    | S fuel' =>
        let* file := gets (fun s => entry_at s fhandle) in
        (* Get block index and offset *)
        let bi := of_offset file / BLOCK_SIZE in
        let offset := of_offset file mod BLOCK_SIZE in
        let* count := gets (fun s =>
          i_data_block_count (inode_at s (of_inumber file))) in
        (* Check if an extra block is necessary *)
        let* extended :=
          (if count =? bi then
             let* r := inode_extend_unsafe (of_inumber file) in
             ret (negb (r =? -1))
           else ret true) in
        if negb extended then ret false
        else
          (* Get the block *)
          let* b := gets (fun s =>
            inode_get_block_unsafe s (of_inumber file) bi) in
          if b =? -1 then ret false
          else
            match data_block_get b with
            | None => ret false
            | Some block =>
                (* Write the data *)
                let to_write_in_block :=
                  if offset + to_write - written <? BLOCK_SIZE
                  then to_write - written
                  else BLOCK_SIZE - offset in
                modify (fun s =>
                  set_fs_data
                    (memcpy (fs_data s) (block + offset)
                            (load_bytes buffer written to_write_in_block)) s) ;;
                modify (upd_entry fhandle
                          (fun e => set_of_offset
                                      (of_offset e + to_write_in_block) e)) ;;
                write_loop fuel' fhandle buffer to_write
                           (written + to_write_in_block)
            end
    end
  else ret true.

Definition write_to_open_file (fhandle : Z) (buffer : list Z) (to_write : Z)
  : M Z :=
  if negb (valid_file_handle fhandle) then ret (-1)
  else
    (* Lock the file entry mutex *)
    pthread_mutex_lock (of_mutex fhandle) ;;
    (* From the open file table entry, we get the inode *)
    let* inumber := gets (fun s => of_inumber (entry_at s fhandle)) in
    match inode_get inumber with
    | None =>
        pthread_mutex_unlock (of_mutex fhandle) ;;
        ret (-1)
    | Some _ =>
        (* Lock the inode *)
        pthread_rwlock_wrlock inumber ;;
        (* If opened in append mode, set offset to end of file *)
        let* file := gets (fun s => entry_at s fhandle) in
        let* size := gets (fun s => i_size (inode_at s inumber)) in
        (if negb (of_append file =? 0)
         then modify (upd_entry fhandle (set_of_offset size))
         else ret tt) ;;
        (* Check if offset is out of bounds *)
        let* offset := gets (fun s => of_offset (entry_at s fhandle)) in
        if size <? offset then
          pthread_rwlock_unlock inumber ;;
          pthread_mutex_unlock (of_mutex fhandle) ;;
          ret (-1)
        else
          (* Determine how many bytes to write *)
          let to_write :=
            if size_t_wrap (MAX_FILE_SIZE - offset) <? to_write
            then size_t_wrap (MAX_FILE_SIZE - offset)
            else to_write in
          (* Write the data for each necessary block *)
          let* done := write_loop (Z.to_nat to_write) fhandle buffer to_write 0 in
          if negb done then
            pthread_rwlock_unlock inumber ;;
            pthread_mutex_unlock (of_mutex fhandle) ;;
            ret (-1)
          else
            (* Update the size of the file *)
            let* offset := gets (fun s => of_offset (entry_at s fhandle)) in
            let* size := gets (fun s => i_size (inode_at s inumber)) in
            (if size <? offset
             then modify (upd_inode inumber (set_i_size offset))
             else ret tt) ;;
            pthread_rwlock_unlock inumber ;;
            pthread_mutex_unlock (of_mutex fhandle) ;;
            ret to_write
    end.

(** The loop of [read_from_open_file]: the caller's buffer after the
    copies, with [false] for the [unlock; unlock; return -1] exits. *)
Fixpoint read_loop (fuel : nat) (fhandle : Z) (buffer : list Z)
         (to_read read : Z) : M (bool * list Z) :=
  if read <? to_read then
    match fuel with
    | O => stuck
    | S fuel' =>
        let* file := gets (fun s => entry_at s fhandle) in
        (* Get block index and offset *)
        let bi := of_offset file / BLOCK_SIZE in
        let offset := of_offset file mod BLOCK_SIZE in
        (* Get the block *)
        let* b := gets (fun s => inode_get_block_unsafe s (of_inumber file) bi) in
        if b =? -1 then ret (false, buffer)
        else
          match data_block_get b with
          | None => ret (false, buffer)
          | Some block =>
              (* Read the data *)
              let to_read_in_block :=
                if offset + to_read - read <? BLOCK_SIZE
                then to_read - read
                else BLOCK_SIZE - offset in
              let* bytes := gets (fun s =>
                load_bytes (fs_data s) (block + offset) to_read_in_block) in
              modify (upd_entry fhandle
                        (fun e => set_of_offset
                                    (of_offset e + to_read_in_block) e)) ;;
              read_loop fuel' fhandle (memcpy buffer read bytes) to_read
                        (read + to_read_in_block)
          end
    end
  else ret (true, buffer).

(** The result is the returned count and the caller's buffer on return. *)
Definition read_from_open_file (fhandle : Z) (buffer : list Z) (to_read : Z)
  : M (Z * list Z) :=
  if negb (valid_file_handle fhandle) then ret (-1, buffer)
  else
    (* Lock the file entry mutex *)
    pthread_mutex_lock (of_mutex fhandle) ;;
    (* From the open file table entry, we get the inode *)
    let* inumber := gets (fun s => of_inumber (entry_at s fhandle)) in
    match inode_get inumber with
    | None => ret (-1, buffer)
    | Some _ =>
        (* Lock the inode *)
        pthread_rwlock_rdlock inumber ;;
        (* If opened in append mode, set offset to end of file *)
        let* file := gets (fun s => entry_at s fhandle) in
        let* size := gets (fun s => i_size (inode_at s inumber)) in
        (if negb (of_append file =? 0)
         then modify (upd_entry fhandle (set_of_offset size))
         else ret tt) ;;
        (* Check if offset is out of bounds *)
        let* offset := gets (fun s => of_offset (entry_at s fhandle)) in
        if size <? offset then
          pthread_rwlock_unlock inumber ;;
          pthread_mutex_unlock (of_mutex fhandle) ;;
          ret (-1, buffer)
        else
          (* Determine how many bytes to read *)
          let to_read :=
            if size - offset <? to_read then size - offset else to_read in
          (* Read the data from each necessary block *)
          let* copied := read_loop (Z.to_nat to_read) fhandle buffer to_read 0 in
          if negb (fst copied) then
            pthread_rwlock_unlock inumber ;;
            pthread_mutex_unlock (of_mutex fhandle) ;;
            ret (-1, snd copied)
          else
            pthread_rwlock_unlock inumber ;;
            pthread_mutex_unlock (of_mutex fhandle) ;;
            ret (to_read, snd copied)
    end.

(** ** Public surface ([operations.c]) *)

Definition tfs_init : M Z :=
  let* r := state_init in
  if r =? -1 then ret (-1)
  else
    (* create root inode *)
    let* root := inode_create T_DIRECTORY in
    if negb (root =? ROOT_DIR_INUM) then ret (-1) else ret 0.

Definition tfs_destroy : M Z := state_destroy.

Definition tfs_destroy_after_all_closed : M Z := state_destroy_after_all_closed.

Definition valid_pathname (name : list Z) : bool :=
  (1 <? strlen name) && (hd 0 name =? 47).

Definition tfs_lookup (name : list Z) : M Z :=
  if negb (valid_pathname name) then ret (-1)
  else find_in_dir ROOT_DIR_INUM (tl name).

Definition tfs_create (name : list Z) (type : inode_type) : M Z :=
  if negb (valid_pathname name) then ret (-1)
  else create_in_dir ROOT_DIR_INUM type (tl name).

Definition tfs_open (name : list Z) (flags : Z) : M Z :=
  (* Checks if the path name is valid *)
  if negb (valid_pathname name) then ret (-1)
  else
    let* inum := (if negb (Z.land flags TFS_O_CREAT =? 0)
                  then tfs_create name T_FILE
                  else tfs_lookup name) in
    if inum =? -1 then ret (-1)
    else
      (* Truncate (if requested) *)
      let* truncated :=
        (if negb (Z.land flags TFS_O_TRUNC =? 0) then
           let* r := inode_clear inum in ret (negb (r =? -1))
         else ret true) in
      if negb truncated then ret (-1)
      else
        (* Add entry to the open file table and return the file descriptor *)
        add_to_open_file_table inum (Z.land flags TFS_O_APPEND).

Definition tfs_close (fhandle : Z) : M Z := remove_from_open_file_table fhandle.

Definition tfs_write (fhandle : Z) (buffer : list Z) (to_write : Z) : M Z :=
  write_to_open_file fhandle buffer to_write.

Definition tfs_read (fhandle : Z) (buffer : list Z) (len : Z) : M (Z * list Z) :=
  read_from_open_file fhandle buffer len.

(** ** Well-formedness of configurations and states *)

(** The constants are positive, a block holds a directory entry and an
    indirect reference, and the quantities that the source keeps in an
    [int] fit one. *)
Record config_ok : Prop := {
  BLOCK_SIZE_pos : 0 < BLOCK_SIZE;
  DATA_BLOCKS_pos : 0 < DATA_BLOCKS;
  INODE_TABLE_SIZE_pos : 0 < INODE_TABLE_SIZE;
  INODE_DIRECT_REFS_pos : 0 < INODE_DIRECT_REFS;
  MAX_FILE_NAME_pos : 0 < MAX_FILE_NAME;
  MAX_OPEN_FILES_pos : 0 < MAX_OPEN_FILES;
  dir_entry_fits : SIZEOF_DIR_ENTRY <= BLOCK_SIZE;
  indirect_ref_fits : SIZEOF_INT <= BLOCK_SIZE;
  arena_fits_int : BLOCK_SIZE * DATA_BLOCKS < 2147483648;
  file_size_fits_int : MAX_FILE_SIZE < 2147483648;
  inumber_fits_int : INODE_TABLE_SIZE < 2147483648
}.

(** The arrays have the sizes of their declarations. *)
Record shape (s : state) : Prop := {
  shape_inode_table : length (inode_table s) = Z.to_nat INODE_TABLE_SIZE;
  shape_free_inode_ts : length (free_inode_ts s) = Z.to_nat INODE_TABLE_SIZE;
  shape_fs_data : length (fs_data s) = Z.to_nat (BLOCK_SIZE * DATA_BLOCKS);
  shape_free_blocks : length (free_blocks s) = Z.to_nat DATA_BLOCKS;
  shape_open_file_table : length (open_file_table s) = Z.to_nat MAX_OPEN_FILES;
  shape_free_open_file_entries :
    length (free_open_file_entries s) = Z.to_nat MAX_OPEN_FILES;
  shape_lk_inode : length (lk_inode (locks s)) = Z.to_nat INODE_TABLE_SIZE;
  shape_lk_of : length (lk_of (locks s)) = Z.to_nat MAX_OPEN_FILES;
  shape_i_data_block :
    Forall (fun n => length (i_data_block n) = Z.to_nat INODE_DIRECT_REFS)
           (inode_table s)
}.

(** No lock is held. *)
Definition locks_free (s : state) : Prop :=
  locks s = mk_locks (replicate (Z.to_nat INODE_TABLE_SIZE) RwFree)
                     false false false
                     (replicate (Z.to_nat MAX_OPEN_FILES) false).

(** ** Files as seen through an inode *)

(** The blocks that the inode refers to: its content blocks and, past
    the direct references, its indirect block. *)
Definition owned (s : state) (i q : Z) : Prop :=
  (exists k, 0 <= k < i_data_block_count (inode_at s i)
             /\ inode_get_block_unsafe s i k = q)
  \/ (INODE_DIRECT_REFS < i_data_block_count (inode_at s i)
      /\ q = i_data_extension_block (inode_at s i)).

(** A taken inode whose references are valid, allocated and distinct. *)
Record wf_file (s : state) (i : Z) : Prop := {
  wf_valid : valid_inumber i = true;
  wf_taken : sel (free_inode_ts s) i = TAKEN;
  wf_count : 0 <= i_data_block_count (inode_at s i)
             <= INODE_DIRECT_REFS + MAX_INDIRECT_REFS;
  wf_size : 0 <= i_size (inode_at s i)
            <= i_data_block_count (inode_at s i) * BLOCK_SIZE;
  wf_owned : forall q, owned s i q ->
             valid_block_number q = true /\ sel (free_blocks s) q = TAKEN;
  wf_distinct : forall k k',
      0 <= k < k' -> k' < i_data_block_count (inode_at s i) ->
      inode_get_block_unsafe s i k <> inode_get_block_unsafe s i k';
  wf_indirect : forall k,
      INODE_DIRECT_REFS < i_data_block_count (inode_at s i) ->
      0 <= k < i_data_block_count (inode_at s i) ->
      inode_get_block_unsafe s i k <> i_data_extension_block (inode_at s i)
}.

(** The byte at position [p] of the file. *)
Definition file_byte (s : state) (i p : Z) : Z :=
  sel (fs_data s)
      (inode_get_block_unsafe s i (p / BLOCK_SIZE) * BLOCK_SIZE
       + p mod BLOCK_SIZE).

Definition free_count (s : state) : Z :=
  Z.of_nat (length (filter (fun a => a = FREE) (free_blocks s))).

Definition owned_count (s : state) (i : Z) : Z :=
  i_data_block_count (inode_at s i)
  + (if INODE_DIRECT_REFS <? i_data_block_count (inode_at s i) then 1 else 0).

Definition block_region (q a : Z) : Prop :=
  q * BLOCK_SIZE <= a < q * BLOCK_SIZE + BLOCK_SIZE.

(** What a successful [inode_extend_unsafe i], returning [r], changes
    between [s] and [s1]. *)
Record extended (s : state) (i r : Z) (s1 : state) : Prop := {
  ex_free_inode_ts : free_inode_ts s1 = free_inode_ts s;
  ex_open_file_table : open_file_table s1 = open_file_table s;
  ex_free_open_file_entries :
    free_open_file_entries s1 = free_open_file_entries s;
  ex_open_file_count : open_file_count s1 = open_file_count s;
  ex_locks : locks s1 = locks s;
  ex_shape : shape s1;
  ex_others : forall j, 0 <= j -> j <> i -> inode_at s1 j = inode_at s j;
  ex_type : i_node_type (inode_at s1 i) = i_node_type (inode_at s i);
  ex_size : i_size (inode_at s1 i) = i_size (inode_at s i);
  ex_room : i_data_block_count (inode_at s i)
            < INODE_DIRECT_REFS + MAX_INDIRECT_REFS;
  ex_count : i_data_block_count (inode_at s1 i)
             = i_data_block_count (inode_at s i) + 1;
  ex_old : forall k, 0 <= k < i_data_block_count (inode_at s i) ->
           inode_get_block_unsafe s1 i k = inode_get_block_unsafe s i k;
  ex_new : inode_get_block_unsafe s1 i (i_data_block_count (inode_at s i)) = r;
  ex_new_valid : valid_block_number r = true;
  ex_new_free : sel (free_blocks s) r = FREE;
  ex_new_taken : sel (free_blocks s1) r = TAKEN;
  ex_taken : forall q, 0 <= q -> sel (free_blocks s) q = TAKEN ->
             sel (free_blocks s1) q = TAKEN;
  ex_indirect :
    INODE_DIRECT_REFS <= i_data_block_count (inode_at s i) ->
    valid_block_number (i_data_extension_block (inode_at s1 i)) = true
    /\ sel (free_blocks s1) (i_data_extension_block (inode_at s1 i)) = TAKEN
    /\ i_data_extension_block (inode_at s1 i) <> r
    /\ (if INODE_DIRECT_REFS <? i_data_block_count (inode_at s i)
        then i_data_extension_block (inode_at s1 i)
             = i_data_extension_block (inode_at s i)
        else sel (free_blocks s) (i_data_extension_block (inode_at s1 i))
             = FREE);
  ex_fs_data : forall a, 0 <= a ->
    ~ (INODE_DIRECT_REFS <= i_data_block_count (inode_at s i)
       /\ block_region (i_data_extension_block (inode_at s1 i)) a) ->
    sel (fs_data s1) a = sel (fs_data s) a;
  ex_free_count : free_count s1 + owned_count s1 i
                  = free_count s + owned_count s i
}.

(** An allocated block that the inode does not refer to. *)
Definition protected (s : state) (i q : Z) : Prop :=
  valid_block_number q = true /\ sel (free_blocks s) q = TAKEN
  /\ ~ owned s i q.

(** What the loop of [write_to_open_file] changes between [s] and [s1]
    when it copies [buffer[w .. w + n)] to the file of inode [i] through
    the handle [fhandle]. *)
Record wrote (i fhandle : Z) (buffer : list Z) (w n : Z) (s s1 : state)
  : Prop := {
  wr_shape : shape s1;
  wr_wf : wf_file s1 i;
  wr_free_inode_ts : free_inode_ts s1 = free_inode_ts s;
  wr_free_open_file_entries :
    free_open_file_entries s1 = free_open_file_entries s;
  wr_open_file_count : open_file_count s1 = open_file_count s;
  wr_locks : locks s1 = locks s;
  wr_others : forall j, 0 <= j -> j <> i -> inode_at s1 j = inode_at s j;
  wr_type : i_node_type (inode_at s1 i) = i_node_type (inode_at s i);
  wr_size : i_size (inode_at s1 i) = i_size (inode_at s i);
  wr_count : i_data_block_count (inode_at s i)
             <= i_data_block_count (inode_at s1 i);
  wr_entry : entry_at s1 fhandle
             = set_of_offset (of_offset (entry_at s fhandle) + n)
                             (entry_at s fhandle);
  wr_entries : forall g, 0 <= g -> g <> fhandle ->
               entry_at s1 g = entry_at s g;
  wr_fits : of_offset (entry_at s fhandle) + n
            <= i_data_block_count (inode_at s1 i) * BLOCK_SIZE;
  wr_bytes : forall k, 0 <= k < n ->
             file_byte s1 i (of_offset (entry_at s fhandle) + k)
             = sel buffer (w + k);
  wr_before : forall p, 0 <= p < of_offset (entry_at s fhandle) ->
              file_byte s1 i p = file_byte s i p;
  wr_protected : forall q, protected s i q ->
      protected s1 i q
      /\ forall a, block_region q a -> sel (fs_data s1) a = sel (fs_data s) a;
  wr_free_count : free_count s1 + owned_count s1 i
                  = free_count s + owned_count s i
}.

(** The two states hold the same file system: they differ at most in the
    open-file table and in the locks. *)
Record same_fs (s s1 : state) : Prop := {
  sf_inode_table : inode_table s1 = inode_table s;
  sf_free_inode_ts : free_inode_ts s1 = free_inode_ts s;
  sf_fs_data : fs_data s1 = fs_data s;
  sf_free_blocks : free_blocks s1 = free_blocks s
}.

(** The offset at which a read or a write through the handle starts. *)
Definition start_offset (s : state) (fhandle : Z) : Z :=
  if of_append (entry_at s fhandle) =? 0
  then of_offset (entry_at s fhandle)
  else i_size (inode_at s (of_inumber (entry_at s fhandle))).

(** What a successful [write_to_open_file], returning [n], changes
    between [s] and [s1]. *)
Record write_ok (fhandle : Z) (buffer : list Z) (n : Z) (s s1 : state)
  : Prop := {
  wo_shape : shape s1;
  wo_wf : wf_file s1 (of_inumber (entry_at s fhandle));
  wo_locks : locks s1 = locks s;
  wo_free_inode_ts : free_inode_ts s1 = free_inode_ts s;
  wo_free_open_file_entries :
    free_open_file_entries s1 = free_open_file_entries s;
  wo_open_file_count : open_file_count s1 = open_file_count s;
  wo_others : forall j, 0 <= j -> j <> of_inumber (entry_at s fhandle) ->
              inode_at s1 j = inode_at s j;
  wo_type : i_node_type (inode_at s1 (of_inumber (entry_at s fhandle)))
            = i_node_type (inode_at s (of_inumber (entry_at s fhandle)));
  wo_size : i_size (inode_at s1 (of_inumber (entry_at s fhandle)))
            = Z.max (i_size (inode_at s (of_inumber (entry_at s fhandle))))
                    (start_offset s fhandle + n);
  wo_entry : entry_at s1 fhandle
             = set_of_offset (start_offset s fhandle + n) (entry_at s fhandle);
  wo_entries : forall g, 0 <= g -> g <> fhandle ->
               entry_at s1 g = entry_at s g;
  wo_bytes : forall k, 0 <= k < n ->
             file_byte s1 (of_inumber (entry_at s fhandle))
                       (start_offset s fhandle + k)
             = sel buffer k;
  wo_before : forall p, 0 <= p < start_offset s fhandle ->
              file_byte s1 (of_inumber (entry_at s fhandle)) p
              = file_byte s (of_inumber (entry_at s fhandle)) p;
  wo_protected : forall q, protected s (of_inumber (entry_at s fhandle)) q ->
      protected s1 (of_inumber (entry_at s fhandle)) q
      /\ forall a, block_region q a -> sel (fs_data s1) a = sel (fs_data s) a
}.

(** The state in which the loops of [read_from_open_file] and
    [write_to_open_file] start: both locks taken, the offset moved to the
    end of the file for a handle in append mode. *)
Definition at_loop (s : state) (fhandle : Z) (rw : rwlock) : state :=
  set_open_file_table
    (upd (open_file_table s) fhandle
       (set_of_offset (start_offset s fhandle) (entry_at s fhandle)))
    (set_locks
       (set_rwlock (of_inumber (entry_at s fhandle)) rw
          (set_mutex (of_mutex fhandle) true (locks s))) s).

(** The invariant of the sizes: a taken inode holds no more bytes than its
    blocks can hold, and no more blocks than an inode can refer to. *)
Definition size_inv (s : state) : Prop :=
  forall i, valid_inumber i = true -> sel (free_inode_ts s) i = TAKEN ->
    i_size (inode_at s i) <= i_data_block_count (inode_at s i) * BLOCK_SIZE
    /\ i_data_block_count (inode_at s i) * BLOCK_SIZE <= MAX_FILE_SIZE
    /\ i_data_block_count (inode_at s i)
       <= INODE_DIRECT_REFS + MAX_INDIRECT_REFS.

(** The two states have the same inodes, and arrays of the same sizes. *)
Record same_inodes (s s1 : state) : Prop := {
  si_inode_table : inode_table s1 = inode_table s;
  si_free_inode_ts : free_inode_ts s1 = free_inode_ts s;
  si_fs_data : length (fs_data s1) = length (fs_data s);
  si_free_blocks : length (free_blocks s1) = length (free_blocks s);
  si_open_file_table :
    length (open_file_table s1) = length (open_file_table s);
  si_free_open_file_entries :
    length (free_open_file_entries s1) = length (free_open_file_entries s);
  si_lk_inode : length (lk_inode (locks s1)) = length (lk_inode (locks s));
  si_lk_of : length (lk_of (locks s1)) = length (lk_of (locks s))
}.

End TFS.

(** ** A small configuration, for running the model *)

Definition small_cfg : Config := {|
  BLOCK_SIZE := 32;
  DATA_BLOCKS := 16;
  INODE_TABLE_SIZE := 4;
  INODE_DIRECT_REFS := 2;
  MAX_FILE_NAME := 4;
  MAX_OPEN_FILES := 4;
  TFS_O_CREAT := 1;
  TFS_O_TRUNC := 2;
  TFS_O_APPEND := 4
|}.

(** * Calls, the teardown beside other threads, and runs in a small configuration *)

Section Calls.

Context {cfg : Config}.

(** ** The operations as calls *)

(** The public surface of [operations.c], and the inode operations of
    [state.c] that it is built from. *)
Inductive api_call :=
  | Call_tfs_init
  | Call_tfs_destroy
  | Call_tfs_lookup (name : list Z)
  | Call_tfs_open (name : list Z) (flags : Z)
  | Call_tfs_close (fhandle : Z)
  | Call_tfs_write (fhandle : Z) (buffer : list Z) (to_write : Z)
  | Call_tfs_read (fhandle : Z) (buffer : list Z) (len : Z)
  | Call_inode_create (n_type : inode_type)
  | Call_inode_delete (inumber : Z)
  | Call_inode_clear (inumber : Z)
  | Call_inode_extend_unsafe (inumber : Z)
  | Call_create_in_dir (inumber : Z) (n_type : inode_type) (sub_name : list Z).

(** The returned integer of a call. *)
Definition run_call (c : api_call) : M Z :=
  match c with
  | Call_tfs_init => tfs_init
  | Call_tfs_destroy => tfs_destroy
  | Call_tfs_lookup name => tfs_lookup name
  | Call_tfs_open name flags => tfs_open name flags
  | Call_tfs_close fhandle => tfs_close fhandle
  | Call_tfs_write fhandle buffer to_write => tfs_write fhandle buffer to_write
  | Call_tfs_read fhandle buffer len =>
      let* r := tfs_read fhandle buffer len in ret (fst r)
  | Call_inode_create n_type => inode_create n_type
  | Call_inode_delete inumber => inode_delete inumber
  | Call_inode_clear inumber => inode_clear inumber
  | Call_inode_extend_unsafe inumber => inode_extend_unsafe inumber
  | Call_create_in_dir inumber n_type sub_name =>
      create_in_dir inumber n_type sub_name
  end.

(** The arrays have their sizes and the sizes of the taken inodes are
    within their bounds. *)
Definition fs_inv (s : state) : Prop := shape s /\ size_inv s.

(** An indirect reference that refers to no block. *)
Definition indirect_unset (n : inode_t) : Prop :=
  valid_block_number (i_data_extension_block n) = false.

(** A taken inode whose blocks are all direct has no indirect reference. *)
Definition indirect_inv (s : state) : Prop :=
  forall i, valid_inumber i = true -> sel (free_inode_ts s) i = TAKEN ->
    i_data_block_count (inode_at s i) <= INODE_DIRECT_REFS ->
    indirect_unset (inode_at s i).

(** The indirect references of [s1] are those of [s]. *)
Definition indirect_kept (s s1 : state) : Prop :=
  forall j, i_data_extension_block (inode_at s1 j)
            = i_data_extension_block (inode_at s j).

(** The blocks that an inode with [count] data blocks holds: the data
    blocks and, past the direct references, the indirect block. *)
Definition owned_blocks (count : Z) : Z :=
  count + (if INODE_DIRECT_REFS <? count then 1 else 0).

(** The data blocks of a file of [count] blocks once [n] bytes are written
    at the offset [off]: the loop of [write_to_open_file] extends the file
    up to the block of the last byte it writes. *)
Definition blocks_after (count off n : Z) : Z :=
  if 0 <? n then Z.max count ((off + n - 1) / BLOCK_SIZE + 1) else count.

(** The blocks that the calls of [inode_extend_unsafe] allocate for a
    write of [n] bytes at the offset [off] through the inode [i]. *)
Definition blocks_needed (s : state) (i off n : Z) : Z :=
  owned_blocks (blocks_after (i_data_block_count (inode_at s i)) off n)
  - owned_blocks (i_data_block_count (inode_at s i)).

End Calls.

(** ** The teardown that waits for the open files

    [state_destroy_after_all_closed] runs beside the threads that open
    and close files.  Its steps are the calls it makes, in their order:
    [pthread_mutex_lock], [pthread_cond_wait] (which releases the mutex,
    blocks until the condition is signalled or, as POSIX allows, until it
    wakes with no signal, and takes the mutex again before it returns),
    [pthread_mutex_unlock], [state_destroy].  The
    other threads run [add_to_open_file_table] and
    [remove_from_open_file_table], each of which holds the mutex from its
    first to its last statement and is therefore one step. *)

Module Teardown.

Section Steps.

Context {cfg : Config}.

(** Where the thread of [state_destroy_after_all_closed] stands. *)
Inductive destroyer_pc :=
  | At_lock          (* before pthread_mutex_lock *)
  | At_wait          (* holds the mutex, before pthread_cond_wait *)
  | Waiting          (* in pthread_cond_wait, mutex released, not woken *)
  | Signalled        (* in pthread_cond_wait, woken, mutex not yet taken *)
  | At_unlock        (* pthread_cond_wait has returned, holds the mutex *)
  | At_destroy       (* before state_destroy *)
  | Returned.        (* state_destroy is done, 0 is returned *)

Record world := mk_world {
  w_state : state;
  w_pc : destroyer_pc
}.

Inductive event :=
  | Ev_destroyer                      (* the next step of the teardown *)
  | Ev_open (inumber append : Z)      (* add_to_open_file_table *)
  | Ev_close (fhandle : Z)            (* remove_from_open_file_table *)
  | Ev_spurious.                      (* pthread_cond_wait wakes unsignalled *)

(** [remove_from_open_file_table] beside a thread that may wait for the
    condition: the call as in the source, where the second component of
    the result tells whether [pthread_cond_signal] was called. *)
Definition remove_from_open_file_table_cond (fhandle : Z) : M (Z * bool) :=
  pthread_mutex_lock open_file_table_mutex ;;
  let* st := gets (fun s => sel (free_open_file_entries s) fhandle) in
  if negb (valid_file_handle fhandle) || negb (bool_decide (st = TAKEN)) then
    pthread_mutex_unlock open_file_table_mutex ;;
    ret (-1, false)
  else
    modify (fun s =>
      set_free_open_file_entries (upd (free_open_file_entries s) fhandle FREE) s) ;;
    modify (fun s => set_open_file_count (open_file_count s - 1) s) ;;
    let* count := gets open_file_count in
    let* signalled :=
      (if count =? 0 then pthread_cond_signal ;; ret true else ret false) in
    pthread_mutex_unlock open_file_table_mutex ;;
    ret (0, signalled).

(** A call of [pthread_cond_signal] wakes the thread that waits for the
    condition; with no thread in the wait the signal is lost. *)
Definition wake (pc : destroyer_pc) : destroyer_pc :=
  match pc with
  | Waiting => Signalled
  | _ => pc
  end.

Definition step (e : event) (w : world) : option world :=
  match e with
  | Ev_open inumber append =>
      match add_to_open_file_table inumber append (w_state w) with
      | Some (_, s) => Some (mk_world s (w_pc w))
      | None => None
      end
  | Ev_close fhandle =>
      match remove_from_open_file_table_cond fhandle (w_state w) with
      | Some ((_, signalled), s) =>
          Some (mk_world s (if signalled : bool then wake (w_pc w) else w_pc w))
      | None => None
      end
  | Ev_spurious =>
      match w_pc w with
      | Waiting => Some (mk_world (w_state w) Signalled)
      | _ => None
      end
  | Ev_destroyer =>
      match w_pc w with
      | At_lock =>
          match pthread_mutex_lock open_file_table_mutex (w_state w) with
          | Some (_, s) => Some (mk_world s At_wait)
          | None => None
          end
      | At_wait =>
          match pthread_mutex_unlock open_file_table_mutex (w_state w) with
          | Some (_, s) => Some (mk_world s Waiting)
          | None => None
          end
      | Waiting => None
      | Signalled =>
          match pthread_mutex_lock open_file_table_mutex (w_state w) with
          | Some (_, s) => Some (mk_world s At_unlock)
          | None => None
          end
      | At_unlock =>
          match pthread_mutex_unlock open_file_table_mutex (w_state w) with
          | Some (_, s) => Some (mk_world s At_destroy)
          | None => None
          end
      | At_destroy =>
          match state_destroy (w_state w) with
          | Some (_, s) => Some (mk_world s Returned)
          | None => None
          end
      | Returned => None
      end
  end.

(** The worlds that a schedule goes through, the first one included;
    [None] when some thread of the schedule cannot take its step. *)
Fixpoint run (es : list event) (w : world) : option (list world) :=
  match es with
  | [] => Some [w]
  | e :: es' =>
      match step e w with
      | Some w' =>
          match run es' w' with
          | Some ws => Some (w :: ws)
          | None => None
          end
      | None => None
      end
  end.

(** Some slot of the open-file table is taken. *)
Definition some_open (s : state) : bool :=
  bool_decide (Exists (fun a => a = TAKEN) (free_open_file_entries s)).

End Steps.

End Teardown.

(** ** Runs in the small configuration *)

(** The state that a run leaves, the state it started in if it blocks. *)
Definition exec {A} (m : M A) (s : state) : state :=
  match m s with
  | Some (_, s1) => s1
  | None => s
  end.

Section Small.

#[local] Existing Instance small_cfg.

Definition path_a : list Z := [47; 97].
Definition path_b : list Z := [47; 98].
Definition path_abcd : list Z := [47; 97; 98; 99; 100].

(** After [tfs_init]. *)
Definition small_fresh : state := exec tfs_init static_state.

(** [/a] is created and open, as handle 0 on inode 1. *)
Definition small_opened : state :=
  exec (tfs_open path_a TFS_O_CREAT) small_fresh.

(** [ab] is written through handle 0. *)
Definition small_ab : state := exec (tfs_write 0 [97; 98] 2) small_opened.

(** [/a] holds [MAX_FILE_SIZE] bytes, and [/b] is created and open, as
    handle 1 on inode 2. *)
Definition small_full : state :=
  exec (tfs_open path_b TFS_O_CREAT)
    (exec (tfs_write 0 (replicate 320 7) 320) small_opened).

(** [/a] is open for appending as handle 0, one byte is written through
    it, and [/a] is opened again, truncating, as handle 1. *)
Definition small_append : state :=
  exec (tfs_open path_a TFS_O_TRUNC)
    (exec (tfs_write 0 [120] 1)
       (exec (tfs_open path_a (Z.lor TFS_O_CREAT TFS_O_APPEND)) small_fresh)).

(** The same without the append flag. *)
Definition small_stale : state :=
  exec (tfs_open path_a TFS_O_TRUNC)
    (exec (tfs_write 0 [120] 1) small_opened).

(** [/a] holds three blocks, one of them through the indirect block; the
    indirect reference of the root directory refers to no block. *)
Definition small_three : state :=
  upd_inode ROOT_DIR_INUM (set_i_data_extension_block (-1))
    (exec (tfs_write 0 (replicate 96 7) 96) small_opened).

(** An open file whose inumber is not one of the inode table. *)
Definition small_no_inode : state :=
  exec (add_to_open_file_table (-1) 0) small_fresh.

End Small.

(** * Further notions and runs, for the properties of the operations *)

Section More.

Context {cfg : Config}.

(** ** Further notions for the properties of the operations *)

(** The number of taken slots of the open-file table. *)
Definition taken_count (s : state) : Z :=
  Z.of_nat (length (filter (fun a => a = TAKEN) (free_open_file_entries s))).

(** The open-file table has its size and [open_file_count] counts its
    taken slots. *)
Definition count_inv (s : state) : Prop :=
  length (free_open_file_entries s) = Z.to_nat MAX_OPEN_FILES
  /\ open_file_count s = taken_count s.

(** Only the offset of the entry [fhandle] and the locks differ between
    [s] and [s1]. *)
Definition cursor_moved (fhandle : Z) (s s1 : state) : Prop :=
  inode_table s1 = inode_table s
  /\ free_inode_ts s1 = free_inode_ts s
  /\ fs_data s1 = fs_data s
  /\ free_blocks s1 = free_blocks s
  /\ free_open_file_entries s1 = free_open_file_entries s
  /\ open_file_count s1 = open_file_count s
  /\ length (open_file_table s1) = length (open_file_table s)
  /\ of_inumber (entry_at s1 fhandle) = of_inumber (entry_at s fhandle)
  /\ of_append (entry_at s1 fhandle) = of_append (entry_at s fhandle)
  /\ forall g, Z.to_nat g <> Z.to_nat fhandle -> entry_at s1 g = entry_at s g.

(** The test of the loop of [find_in_dir_unsafe] on the entry [j]. *)
Definition entry_matches (mem : list Z) (dir_entry : Z) (sub_name : list Z)
           (j : Z) : bool :=
  negb (d_inumber mem dir_entry j =? -1)
  && strncmp_eq (Z.to_nat MAX_FILE_NAME) (d_name mem dir_entry j) sub_name.

(** The arena after [add_dir_entry_unsafe] has filled the entry [i]. *)
Definition entry_filled (mem : list Z) (dir_entry i sub_inumber : Z)
           (sub_name : list Z) : list Z :=
  let entry := dir_entry + i * SIZEOF_DIR_ENTRY in
  memcpy
    (memcpy (store_int mem (entry + D_INUMBER_OFFSET) sub_inumber) entry
            (strncpy sub_name (MAX_FILE_NAME - 1)))
    (entry + (MAX_FILE_NAME - 1)) [0].

(** The state after [inode_create_unsafe] has taken the inode [k] and set
    its type, size and block count. *)
Definition inode_taken (n_type : inode_type) (k : Z) (s : state) : state :=
  upd_inode k
    (fun n => set_i_data_block_count 0 (set_i_size 0 (set_i_node_type n_type n)))
    (set_inode_state k TAKEN s).

(** The state after [inode_create_unsafe] has taken the inode [k] for a
    file. *)
Definition file_created (k : Z) (s : state) : state := inode_taken T_FILE k s.

(** Between [s] and [st] blocks of the inode [i] were released, and
    nothing else has changed. *)
Definition blocks_released (i : Z) (s st : state) : Prop :=
  inode_table st = inode_table s /\ free_inode_ts st = free_inode_ts s
  /\ fs_data st = fs_data s /\ open_file_table st = open_file_table s
  /\ free_open_file_entries st = free_open_file_entries s
  /\ open_file_count st = open_file_count s
  /\ locks st = locks s
  /\ length (free_blocks st) = length (free_blocks s)
  /\ forall q, valid_block_number q = true ->
       sel (free_blocks st) q = sel (free_blocks s) q
       \/ (owned s i q /\ sel (free_blocks st) q = FREE).

End More.

(** The thread of [state_destroy_after_all_closed] has not been woken
    from its wait: it has not reached it, or it is in it. *)
Definition before_wakeup (pc : Teardown.destroyer_pc) : bool :=
  match pc with
  | Teardown.At_lock | Teardown.At_wait | Teardown.Waiting => true
  | _ => false
  end.

Section MoreSmall.

#[local] Existing Instance small_cfg.

(** [/a] holds [ab]; it is open as handle 0, at offset 0. *)
Definition small_reopened : state :=
  exec (tfs_open path_a 0) (exec (tfs_close 0) small_ab).

Definition path_c : list Z := [47; 99].
Definition path_d : list Z := [47; 100].
Definition path_e : list Z := [47; 101].

(** [/a], [/b], [/c] and [/d] are created, the inode of [/c] having been
    deleted before [/d] was created and the inode of [/d] after: the root
    directory has no empty entry and the inode 3 is free. *)
Definition small_dir_full : state :=
  exec (inode_delete 3)
    (exec (tfs_create path_d T_FILE)
       (exec (inode_delete 3)
          (exec (tfs_create path_c T_FILE)
             (exec (tfs_create path_b T_FILE)
                (exec (tfs_create path_a T_FILE) small_fresh))))).

(** [/a] holds [ab], and [/b] is created and open, as handle 1 on inode
    2. *)
Definition small_two_files : state :=
  exec (tfs_open path_b TFS_O_CREAT) small_ab.

(** [/a] holds [ab] and is open four times: no slot of the open-file
    table is free. *)
Definition small_table_full : state :=
  exec (tfs_open path_a 0)
    (exec (tfs_open path_a 0) (exec (tfs_open path_a 0) small_ab)).

End MoreSmall.

(** * Proofs *)

(** ** The monad, indexed lists and the byte arena *)

(** * Proofs *)

(** ** Running the monad *)

Lemma bind_ret {A B} (a : A) (k : A -> M B) s : bind (ret a) k s = k a s.
Proof. reflexivity. Qed.

Lemma bind_gets {A B} (f : state -> A) (k : A -> M B) s :
  bind (gets f) k s = k (f s) s.
Proof. reflexivity. Qed.

Lemma bind_modify {B} (f : state -> state) (k : unit -> M B) s :
  bind (modify f) k s = k tt (f s).
Proof. reflexivity. Qed.

Lemma bind_run {A B} (m : M A) (k : A -> M B) s a s1 :
  m s = Some (a, s1) -> bind m k s = k a s1.
Proof. intros H. unfold bind. by rewrite H. Qed.

Lemma bind_inv {A B} (m : M A) (k : A -> M B) s x :
  bind m k s = Some x -> exists a s1, m s = Some (a, s1) /\ k a s1 = Some x.
Proof.
  unfold bind. destruct (m s) as [[a s1]|]; [|done]. eauto.
Qed.

Lemma ret_inv {A} (a b : A) s s' : ret a s = Some (b, s') -> b = a /\ s' = s.
Proof. unfold ret. intros H. by inversion H. Qed.

Lemma stuck_inv {A} s (x : A * state) : stuck s = Some x -> False.
Proof. done. Qed.

Ltac snorm :=
  unfold inode_at, upd_inode, set_inode_state, entry_at, upd_entry in *;
  cbn [inode_table free_inode_ts fs_data free_blocks open_file_table
       free_open_file_entries open_file_count locks
       set_inode_table set_free_inode_ts set_fs_data set_free_blocks
       set_open_file_table set_free_open_file_entries set_open_file_count
       set_locks
       lk_inode lk_inode_table lk_data_blocks lk_open_file_table lk_of
       set_mutex set_rwlock mutex_held
       i_node_type i_size i_data_block_count i_data_block
       i_data_extension_block
       set_i_node_type set_i_size set_i_data_block_count set_i_data_block
       set_i_data_extension_block
       of_inumber of_append of_offset set_of_offset
       fst snd negb] in *.

(** One step of a run in the goal. *)
Ltac mstep :=
  first [ rewrite bind_ret | rewrite bind_gets | rewrite bind_modify ];
  snorm.

(** One step of a run [H : m s = Some _]. *)
Ltac mstep_in H :=
  first [ rewrite bind_ret in H | rewrite bind_gets in H
        | rewrite bind_modify in H ];
  snorm.

Ltac minv H :=
  repeat mstep_in H;
  lazymatch type of H with
  | bind _ _ _ = Some _ =>
      let a := fresh "a" in
      let s1 := fresh "s" in
      let Hm := fresh "Hrun" in
      apply bind_inv in H as (a & s1 & Hm & H)
  | ret _ _ = Some _ =>
      let E1 := fresh "Hret" in
      let E2 := fresh "Hst" in
      apply ret_inv in H as [E1 E2]
  | stuck _ = Some _ => destruct (stuck_inv _ _ H)
  end.

(** ** Arrays *)

Lemma sel_upd_eq {A} `{!Inhabited A} (l : list A) i x :
  (Z.to_nat i < length l)%nat -> sel (upd l i x) i = x.
Proof.
  intros Hlen. unfold sel, upd.
  by rewrite list_lookup_total_insert_eq.
Qed.

Lemma sel_upd_ne {A} `{!Inhabited A} (l : list A) i j x :
  0 <= i -> 0 <= j -> i <> j -> sel (upd l i x) j = sel l j.
Proof.
  intros Hi Hj Hne. unfold sel, upd.
  rewrite list_lookup_total_insert_ne; [done | lia].
Qed.

Lemma length_upd {A} (l : list A) i x : length (upd l i x) = length l.
Proof. apply length_insert. Qed.

Lemma upd_sel_id {A} `{!Inhabited A} (l : list A) i :
  upd l i (sel l i) = l.
Proof.
  unfold upd, sel. apply list_insert_id'. intros H.
  by apply list_lookup_lookup_total_lt.
Qed.

Lemma upd_upd_eq {A} (l : list A) i x y : upd (upd l i x) i y = upd l i y.
Proof. unfold upd. apply list_insert_insert_eq. Qed.

Lemma sel_replicate {A} `{!Inhabited A} (n : nat) (x : A) i :
  (Z.to_nat i < n)%nat -> sel (replicate n x) i = x.
Proof.
  intros H. unfold sel. apply list_lookup_total_correct.
  by apply lookup_replicate_2.
Qed.

(** ** The byte arena *)

Lemma length_memcpy mem dst src : length (memcpy mem dst src) = length mem.
Proof. apply length_inserts. Qed.

Lemma sel_memcpy_in mem dst src a :
  0 <= dst -> dst <= a < dst + Z.of_nat (length src) ->
  (Z.to_nat a < length mem)%nat ->
  sel (memcpy mem dst src) a = sel src (a - dst).
Proof.
  intros Hd Ha Hlen. unfold sel, memcpy.
  rewrite list_lookup_total_inserts by lia.
  f_equal. lia.
Qed.

Lemma sel_memcpy_out mem dst src a :
  0 <= dst -> 0 <= a -> a < dst \/ dst + Z.of_nat (length src) <= a ->
  sel (memcpy mem dst src) a = sel mem a.
Proof.
  intros Hd Ha Hout. unfold sel, memcpy.
  destruct Hout.
  - apply list_lookup_total_inserts_lt. lia.
  - apply list_lookup_total_inserts_ge. lia.
Qed.

Lemma length_load_bytes mem addr n :
  0 <= addr -> 0 <= n -> addr + n <= Z.of_nat (length mem) ->
  length (load_bytes mem addr n) = Z.to_nat n.
Proof.
  intros Ha Hn Hfit. unfold load_bytes.
  rewrite length_take, length_drop. lia.
Qed.

Lemma sel_load_bytes mem addr n k :
  0 <= addr -> 0 <= k < n ->
  sel (load_bytes mem addr n) k = sel mem (addr + k).
Proof.
  intros Ha Hk. unfold sel, load_bytes.
  rewrite lookup_total_take_lt by lia.
  rewrite lookup_total_drop. f_equal. lia.
Qed.

Lemma load_bytes_ext mem1 mem2 addr n :
  0 <= addr -> length mem1 = length mem2 ->
  (forall a, addr <= a < addr + n -> sel mem1 a = sel mem2 a) ->
  load_bytes mem1 addr n = load_bytes mem2 addr n.
Proof.
  intros Ha Hlen Hext. unfold load_bytes.
  apply list_eq. intros k.
  destruct (decide (k < Z.to_nat n)%nat) as [Hk|Hk].
  - rewrite !lookup_take_lt, !lookup_drop by done.
    destruct (decide (Z.to_nat addr + k < length mem1)%nat) as [Hin|Hin].
    + rewrite !list_lookup_lookup_total_lt by lia. f_equal.
      specialize (Hext (addr + Z.of_nat k)). unfold sel in Hext.
      replace (Z.to_nat (addr + Z.of_nat k)) with (Z.to_nat addr + k)%nat
        in Hext by lia.
      apply Hext. lia.
    + rewrite !lookup_ge_None_2; [done | lia | lia].
  - rewrite !lookup_take_ge; [done | lia | lia].
Qed.

Lemma decode_encode_int z :
  -2147483648 <= z < 2147483648 -> decode_int (encode_int z) = z.
Proof.
  intros Hz. unfold decode_int, encode_int, sel.
  change (Z.to_nat 0) with 0%nat. change (Z.to_nat 1) with 1%nat.
  change (Z.to_nat 2) with 2%nat. change (Z.to_nat 3) with 3%nat.
  cbn [lookup_total list_lookup_total].
  case_match; Z.div_mod_to_equations; lia.
Qed.

Lemma load_store_int mem addr z :
  0 <= addr -> addr + SIZEOF_INT <= Z.of_nat (length mem) ->
  -2147483648 <= z < 2147483648 ->
  load_int (store_int mem addr z) addr = z.
Proof.
  intros Ha Hfit Hz. unfold load_int, store_int.
  rewrite <- (decode_encode_int z Hz) at 2. f_equal.
  unfold SIZEOF_INT in *.
  apply list_eq. intros k. unfold load_bytes, memcpy.
  destruct (decide (k < 4)%nat) as [Hk|Hk].
  - rewrite lookup_take_lt, lookup_drop by (simpl; lia).
    rewrite list_lookup_inserts by (simpl; lia).
    f_equal. lia.
  - rewrite lookup_take_ge by (simpl; lia).
    symmetry. apply lookup_ge_None_2. simpl. lia.
Qed.

Lemma load_int_memcpy_out mem dst src addr :
  0 <= dst -> 0 <= addr ->
  addr + SIZEOF_INT <= dst \/ dst + Z.of_nat (length src) <= addr ->
  load_int (memcpy mem dst src) addr = load_int mem addr.
Proof.
  intros Hd Ha Hout. unfold load_int. f_equal.
  apply load_bytes_ext; [done | apply length_memcpy |].
  intros a Hrange. apply sel_memcpy_out; lia.
Qed.

Lemma load_int_store_int_out mem dst z addr :
  0 <= dst -> 0 <= addr ->
  addr + SIZEOF_INT <= dst \/ dst + SIZEOF_INT <= addr ->
  load_int (store_int mem dst z) addr = load_int mem addr.
Proof.
  intros Hd Ha Hout. unfold store_int.
  apply load_int_memcpy_out; [done | done |]. simpl. unfold SIZEOF_INT in *. lia.
Qed.

Lemma sel_store_int_out mem dst z a :
  0 <= dst -> 0 <= a -> a < dst \/ dst + SIZEOF_INT <= a ->
  sel (store_int mem dst z) a = sel mem a.
Proof.
  intros Hd Ha Hout. unfold store_int.
  apply sel_memcpy_out; [done | done |]. simpl. unfold SIZEOF_INT in *. lia.
Qed.

Lemma length_store_int mem dst z : length (store_int mem dst z) = length mem.
Proof. apply length_memcpy. Qed.

(** ** Locks *)

Lemma mutex_lock_run m s :
  mutex_held m (locks s) = false ->
  pthread_mutex_lock m s = Some (tt, set_locks (set_mutex m true (locks s)) s).
Proof. intros H. unfold pthread_mutex_lock. by rewrite H. Qed.

Lemma mutex_lock_inv m s u s1 :
  pthread_mutex_lock m s = Some (u, s1) ->
  mutex_held m (locks s) = false /\
  s1 = set_locks (set_mutex m true (locks s)) s.
Proof.
  unfold pthread_mutex_lock. destruct (mutex_held m (locks s)); [done|].
  intros H. by inversion H.
Qed.

Lemma wrlock_run i s :
  0 <= i -> (Z.to_nat i < length (lk_inode (locks s)))%nat ->
  sel (lk_inode (locks s)) i = RwFree ->
  pthread_rwlock_wrlock i s
  = Some (tt, set_locks (set_rwlock i RwWrite (locks s)) s).
Proof.
  intros Hi Hlen Hfree. unfold pthread_rwlock_wrlock.
  unfold sel in Hfree.
  rewrite (list_lookup_lookup_total_lt _ _ Hlen), Hfree.
  by apply Z.leb_le in Hi as ->.
Qed.

Lemma rdlock_run i s :
  0 <= i -> (Z.to_nat i < length (lk_inode (locks s)))%nat ->
  sel (lk_inode (locks s)) i = RwFree ->
  pthread_rwlock_rdlock i s
  = Some (tt, set_locks (set_rwlock i (RwRead 0) (locks s)) s).
Proof.
  intros Hi Hlen Hfree. unfold pthread_rwlock_rdlock.
  unfold sel in Hfree.
  rewrite (list_lookup_lookup_total_lt _ _ Hlen), Hfree.
  by apply Z.leb_le in Hi as ->.
Qed.

Lemma wrlock_inv i s u s1 :
  pthread_rwlock_wrlock i s = Some (u, s1) ->
  s1 = set_locks (set_rwlock i RwWrite (locks s)) s.
Proof.
  unfold pthread_rwlock_wrlock. intros H.
  repeat case_match; try done. by inversion H.
Qed.

Lemma rdlock_inv i s u s1 :
  pthread_rwlock_rdlock i s = Some (u, s1) ->
  exists r, s1 = set_locks (set_rwlock i r (locks s)) s.
Proof.
  unfold pthread_rwlock_rdlock. intros H.
  repeat case_match; try done; inversion H; eauto.
Qed.

Lemma mutex_unlock_run m s :
  pthread_mutex_unlock m s
  = Some (tt, set_locks (set_mutex m false (locks s)) s).
Proof. reflexivity. Qed.

Lemma upd_same {A} `{!Inhabited A} (l : list A) i x :
  sel l i = x -> upd l i x = l.
Proof. intros <-. apply upd_sel_id. Qed.

Lemma state_eta s :
  mk_state (inode_table s) (free_inode_ts s) (fs_data s) (free_blocks s)
           (open_file_table s) (free_open_file_entries s) (open_file_count s)
           (locks s) = s.
Proof. by destruct s. Qed.

Lemma locks_eta l :
  mk_locks (lk_inode l) (lk_inode_table l) (lk_data_blocks l)
           (lk_open_file_table l) (lk_of l) = l.
Proof. by destruct l. Qed.

Lemma set_locks_id s : set_locks (locks s) s = s.
Proof. by destruct s. Qed.

Lemma of_mutex_restore s fhandle b :
  sel (lk_of (locks s)) fhandle = false ->
  set_mutex (of_mutex fhandle) false (set_mutex (of_mutex fhandle) b (locks s))
  = locks s.
Proof.
  intros H. snorm. rewrite upd_upd_eq, (upd_same _ _ _ H). apply locks_eta.
Qed.

Lemma rwlock_restore s inumber r l :
  sel (lk_inode (locks s)) inumber = RwFree ->
  lk_inode l = upd (lk_inode (locks s)) inumber r ->
  upd (lk_inode l) inumber RwFree = lk_inode (locks s).
Proof.
  intros H ->. by rewrite upd_upd_eq, (upd_same _ _ _ H).
Qed.

Section Proofs.
Context {cfg : Config}.

Lemma valid_file_handle_range fhandle :
  valid_file_handle fhandle = true <-> 0 <= fhandle < MAX_OPEN_FILES.
Proof. unfold valid_file_handle. lia. Qed.

Lemma valid_inumber_range inumber :
  valid_inumber inumber = true <-> 0 <= inumber < INODE_TABLE_SIZE.
Proof. unfold valid_inumber. lia. Qed.

Lemma valid_block_number_range b :
  valid_block_number b = true <-> 0 <= b < DATA_BLOCKS.
Proof. unfold valid_block_number. lia. Qed.

Lemma read_loop_done fuel fhandle buffer n s :
  read_loop fuel fhandle buffer n n s = Some ((true, buffer), s).
Proof. destruct fuel; simpl; by rewrite Z.ltb_irrefl. Qed.

Lemma write_loop_done fuel fhandle buffer n s :
  write_loop fuel fhandle buffer n n s = Some (true, s).
Proof. destruct fuel; simpl; by rewrite Z.ltb_irrefl. Qed.

Lemma read_invalid_inode s fhandle buffer to_read :
  valid_file_handle fhandle = true ->
  (Z.to_nat fhandle < length (lk_of (locks s)))%nat ->
  mutex_held (of_mutex fhandle) (locks s) = false ->
  valid_inumber (of_inumber (entry_at s fhandle)) = false ->
  read_from_open_file fhandle buffer to_read s
  = Some ((-1, buffer),
          set_locks (set_mutex (of_mutex fhandle) true (locks s)) s).
Proof.
  intros Hv Hlen Hm Hi.
  unfold read_from_open_file. rewrite Hv. cbn [negb].
  rewrite (bind_run _ _ _ _ _ (mutex_lock_run (of_mutex fhandle) s Hm)).
  rewrite bind_gets. unfold inode_get. snorm. by rewrite Hi.
Qed.

Lemma write_invalid_inode s fhandle buffer to_write :
  valid_file_handle fhandle = true ->
  mutex_held (of_mutex fhandle) (locks s) = false ->
  valid_inumber (of_inumber (entry_at s fhandle)) = false ->
  write_to_open_file fhandle buffer to_write s = Some (-1, s).
Proof.
  intros Hv Hm Hi.
  unfold write_to_open_file. rewrite Hv. cbn [negb].
  rewrite (bind_run _ _ _ _ _ (mutex_lock_run (of_mutex fhandle) s Hm)).
  rewrite bind_gets. unfold inode_get. snorm. rewrite Hi. cbn [negb].
  unfold pthread_mutex_unlock. rewrite bind_modify. unfold ret.
  do 2 f_equal.
  pose proof (of_mutex_restore s fhandle true Hm) as E. snorm.
  rewrite E. exact (set_locks_id s).
Qed.

Lemma read_append_zero s fhandle buffer to_read r buf' s' :
  shape s ->
  0 <= to_read ->
  of_append (entry_at s fhandle) <> 0 ->
  read_from_open_file fhandle buffer to_read s = Some ((r, buf'), s') ->
  r <> -1 ->
  r = 0 /\ buf' = buffer /\ fs_data s' = fs_data s.
Proof.
  intros Hsh Hn Happ Hrun Hr.
  unfold read_from_open_file in Hrun.
  destruct (valid_file_handle fhandle) eqn:Hv; cbn [negb] in Hrun;
    [|apply ret_inv in Hrun as [E _]; by inversion E].
  apply valid_file_handle_range in Hv. 
  minv Hrun. apply mutex_lock_inv in Hrun0 as [_ ->].
  mstep_in Hrun.
  destruct (inode_get _); [|apply ret_inv in Hrun as [E _]; by inversion E].
  minv Hrun. apply rdlock_inv in Hrun0 as [rw ->].
  repeat mstep_in Hrun.
  apply Z.eqb_neq in Happ. rewrite Happ in Hrun. cbn [negb] in Hrun.
  repeat mstep_in Hrun.
  rewrite sel_upd_eq in Hrun by (rewrite (shape_open_file_table s Hsh); lia).
  snorm. rewrite Z.ltb_irrefl, Z.sub_diag in Hrun.
  replace (if 0 <? to_read then 0 else to_read) with 0 in Hrun
    by (destruct (0 <? to_read) eqn:E; lia).
  rewrite (bind_run _ _ _ _ _ (read_loop_done _ _ _ _ _)) in Hrun.
  snorm. unfold pthread_rwlock_unlock, pthread_mutex_unlock in Hrun.
  repeat mstep_in Hrun.
  apply ret_inv in Hrun as [E ->]. by inversion E.
Qed.

End Proofs.

Section Proofs.
Context {cfg : Config}.

(** ** The allocator scan *)

Lemma first_free_Some tbl n i b :
  first_free tbl n i = Some b ->
  i <= b < i + Z.of_nat n /\ sel tbl b = FREE /\
  forall j, i <= j < b -> sel tbl j <> FREE.
Proof.
  revert i. induction n as [|n IH]; intros i; simpl; [done|].
  case_decide as Hfree.
  - intros [= <-]. split; [lia|]. split; [done|]. intros j Hj. lia.
  - intros H. apply IH in H as (Hr & Hb & Hbefore).
    split; [lia|]. split; [done|].
    intros j Hj. destruct (decide (j = i)) as [->|]; [done|].
    apply Hbefore. lia.
Qed.

Lemma first_free_None tbl n i :
  first_free tbl n i = None ->
  forall j, i <= j < i + Z.of_nat n -> sel tbl j <> FREE.
Proof.
  revert i. induction n as [|n IH]; intros i; simpl; [lia|].
  case_decide as Hfree; [done|].
  intros H j Hj. destruct (decide (j = i)) as [->|]; [done|].
  apply (IH _ H). lia.
Qed.

Lemma first_free_exists tbl n i j :
  i <= j < i + Z.of_nat n -> sel tbl j = FREE ->
  exists b, first_free tbl n i = Some b.
Proof.
  intros Hj Hfree. destruct (first_free tbl n i) eqn:E; [eauto|].
  by destruct (first_free_None _ _ _ E j Hj).
Qed.

(** ** Block store *)

Lemma data_mutex_restore s b :
  lk_data_blocks (locks s) = false ->
  set_mutex data_blocks_mutex false (set_mutex data_blocks_mutex b (locks s))
  = locks s.
Proof. intros H. snorm. rewrite <- H. apply locks_eta. Qed.

Lemma data_block_alloc_run s :
  lk_data_blocks (locks s) = false ->
  data_block_alloc s
  = Some (match first_free (free_blocks s) (Z.to_nat DATA_BLOCKS) 0 with
          | Some b => (b, set_free_blocks (upd (free_blocks s) b TAKEN) s)
          | None => (-1, s)
          end).
Proof.
  intros Hfree. unfold data_block_alloc.
  rewrite (bind_run _ _ _ _ _ (mutex_lock_run data_blocks_mutex s Hfree)).
  mstep. pose proof (data_mutex_restore s true Hfree) as E. snorm.
  destruct (first_free _ _ _) as [b|].
  - mstep. unfold pthread_mutex_unlock. mstep. unfold ret. rewrite E. do 2 f_equal; by destruct s.
  - unfold pthread_mutex_unlock. mstep. unfold ret. rewrite E. do 2 f_equal; by destruct s.
Qed.

Lemma data_block_free_run s b :
  lk_data_blocks (locks s) = false ->
  data_block_free b s
  = Some (if valid_block_number b
          then (0, set_free_blocks (upd (free_blocks s) b FREE) s)
          else (-1, s)).
Proof.
  intros Hfree. unfold data_block_free.
  destruct (valid_block_number b); cbn [negb]; [|done].
  rewrite (bind_run _ _ _ _ _ (mutex_lock_run data_blocks_mutex s Hfree)).
  mstep. pose proof (data_mutex_restore s true Hfree) as E. snorm.
  unfold pthread_mutex_unlock. mstep. unfold ret. rewrite E. do 2 f_equal; by destruct s.
Qed.

Lemma data_block_alloc_some s b :
  lk_data_blocks (locks s) = false ->
  first_free (free_blocks s) (Z.to_nat DATA_BLOCKS) 0 = Some b ->
  data_block_alloc s
  = Some (b, set_free_blocks (upd (free_blocks s) b TAKEN) s).
Proof. intros Hlk Hb. by rewrite data_block_alloc_run, Hb. Qed.

Lemma data_block_alloc_none s :
  lk_data_blocks (locks s) = false ->
  first_free (free_blocks s) (Z.to_nat DATA_BLOCKS) 0 = None ->
  data_block_alloc s = Some (-1, s).
Proof. intros Hlk Hb. by rewrite data_block_alloc_run, Hb. Qed.

Lemma data_block_free_valid s b :
  lk_data_blocks (locks s) = false ->
  valid_block_number b = true ->
  data_block_free b s
  = Some (0, set_free_blocks (upd (free_blocks s) b FREE) s).
Proof. intros Hlk Hb. by rewrite data_block_free_run, Hb. Qed.

Lemma data_block_free_invalid s b :
  valid_block_number b = false ->
  data_block_free b s = Some (-1, s).
Proof. intros Hb. unfold data_block_free. by rewrite Hb. Qed.

(** ** [inode_extend_unsafe], case by case *)

Lemma first_free_valid tbl b :
  first_free tbl (Z.to_nat DATA_BLOCKS) 0 = Some b ->
  valid_block_number b = true /\ sel tbl b = FREE /\ b <> -1.
Proof.
  intros H. apply first_free_Some in H as (Hr & Hb & _).
  split; [apply valid_block_number_range; lia|]. split; [done | lia].
Qed.

Lemma inode_in_range s i :
  shape s -> valid_inumber i = true ->
  (Z.to_nat i < length (inode_table s))%nat.
Proof.
  intros Hsh Hv. apply valid_inumber_range in Hv.
  rewrite (shape_inode_table s Hsh). lia.
Qed.

Lemma extend_no_block s i :
  lk_data_blocks (locks s) = false ->
  first_free (free_blocks s) (Z.to_nat DATA_BLOCKS) 0 = None ->
  inode_extend_unsafe i s = Some (-1, s).
Proof.
  intros Hlk Hnone. unfold inode_extend_unsafe. mstep.
  destruct (_ || _); [done|].
  by rewrite (bind_run _ _ _ _ _ (data_block_alloc_none s Hlk Hnone)).
Qed.

Lemma extend_not_taken s i :
  valid_inumber i = false \/ sel (free_inode_ts s) i = FREE ->
  inode_extend_unsafe i s = Some (-1, s).
Proof.
  intros H. unfold inode_extend_unsafe. mstep.
  destruct H as [-> | ->]; [done|].
  rewrite bool_decide_eq_true_2 by done. by rewrite orb_true_r.
Qed.

Lemma extend_direct s i b :
  shape s ->
  valid_inumber i = true -> sel (free_inode_ts s) i = TAKEN ->
  lk_data_blocks (locks s) = false ->
  first_free (free_blocks s) (Z.to_nat DATA_BLOCKS) 0 = Some b ->
  i_data_block_count (inode_at s i) < INODE_DIRECT_REFS ->
  inode_extend_unsafe i s
  = Some (b,
          set_inode_table
            (upd (inode_table s) i
               (set_i_data_block_count (i_data_block_count (inode_at s i) + 1)
                  (set_i_data_block
                     (upd (i_data_block (inode_at s i))
                          (i_data_block_count (inode_at s i)) b)
                     (inode_at s i))))
            (set_free_blocks (upd (free_blocks s) b TAKEN) s)).
Proof.
  intros Hsh Hv Ht Hlk Hb Hbc. unfold inode_extend_unsafe. mstep.
  rewrite Hv, Ht. cbn [negb orb].
  rewrite bool_decide_eq_false_2 by done.
  rewrite (bind_run _ _ _ _ _ (data_block_alloc_some s b Hlk Hb)).
  destruct (first_free_valid _ _ Hb) as (_ & _ & Hne).
  apply Z.eqb_neq in Hne as ->. mstep.
  apply Z.ltb_lt in Hbc as ->.
  do 2 mstep. unfold ret.
  rewrite sel_upd_eq by by apply inode_in_range.
  by rewrite upd_upd_eq.
Qed.

Lemma extend_full s i :
  valid_inumber i = true -> sel (free_inode_ts s) i = TAKEN ->
  lk_data_blocks (locks s) = false ->
  INODE_DIRECT_REFS + MAX_INDIRECT_REFS <= i_data_block_count (inode_at s i) ->
  0 <= MAX_INDIRECT_REFS ->
  inode_extend_unsafe i s = Some (-1, s).
Proof.
  intros Hv Ht Hlk Hbc Hm.
  destruct (first_free (free_blocks s) (Z.to_nat DATA_BLOCKS) 0) as [b|] eqn:Hb;
    [|by apply extend_no_block].
  unfold inode_extend_unsafe. mstep.
  rewrite Hv, Ht. cbn [negb orb].
  rewrite bool_decide_eq_false_2 by done.
  rewrite (bind_run _ _ _ _ _ (data_block_alloc_some s b Hlk Hb)).
  destruct (first_free_valid _ _ Hb) as (Hvb & Hfb & Hne).
  apply Z.eqb_neq in Hne as ->. mstep.
  replace (_ <? INODE_DIRECT_REFS) with false by lia.
  replace (_ <? INODE_DIRECT_REFS + _) with false by lia.
  erewrite bind_run by (by apply data_block_free_valid).
  snorm. unfold ret. rewrite upd_upd_eq, (upd_same _ _ _ Hfb).
  do 2 f_equal. by destruct s.
Qed.

Lemma extend_transition s i b e :
  shape s ->
  valid_inumber i = true -> sel (free_inode_ts s) i = TAKEN ->
  lk_data_blocks (locks s) = false ->
  first_free (free_blocks s) (Z.to_nat DATA_BLOCKS) 0 = Some b ->
  first_free (upd (free_blocks s) b TAKEN) (Z.to_nat DATA_BLOCKS) 0 = Some e ->
  i_data_block_count (inode_at s i) = INODE_DIRECT_REFS ->
  0 < MAX_INDIRECT_REFS ->
  inode_extend_unsafe i s
  = Some (b,
          set_inode_table
            (upd (inode_table s) i
               (set_i_data_block_count (INODE_DIRECT_REFS + 1)
                  (set_i_data_extension_block e (inode_at s i))))
            (set_fs_data
               (store_int (fs_data s) (e * BLOCK_SIZE + 0 * SIZEOF_INT) b)
               (set_free_blocks (upd (upd (free_blocks s) b TAKEN) e TAKEN) s))).
Proof.
  intros Hsh Hv Ht Hlk Hb He Hbc Hm. unfold inode_extend_unsafe. mstep.
  rewrite Hv, Ht. cbn [negb orb].
  rewrite bool_decide_eq_false_2 by done.
  rewrite (bind_run _ _ _ _ _ (data_block_alloc_some s b Hlk Hb)).
  destruct (first_free_valid _ _ Hb) as (_ & _ & Hne).
  apply Z.eqb_neq in Hne as ->. mstep. rewrite Hbc.
  rewrite Z.ltb_irrefl. replace (_ <? _) with true by lia.
  rewrite Z.eqb_refl.
  erewrite bind_run; cycle 1.
  { erewrite bind_run by (by apply data_block_alloc_some).
    mstep. reflexivity. }
  destruct (first_free_valid _ _ He) as (Hve & _ & Hne).
  apply Z.eqb_neq in Hne as ->. snorm. mstep.
  rewrite sel_upd_eq by by apply inode_in_range.
  snorm. unfold data_block_get. rewrite Hve. cbn [negb].
  do 2 mstep. unfold ret.
  rewrite sel_upd_eq by by apply inode_in_range.
  rewrite upd_upd_eq. snorm. rewrite Hbc, Z.sub_diag. done.
Qed.

Lemma extend_transition_fails s i b :
  shape s ->
  valid_inumber i = true -> sel (free_inode_ts s) i = TAKEN ->
  lk_data_blocks (locks s) = false ->
  first_free (free_blocks s) (Z.to_nat DATA_BLOCKS) 0 = Some b ->
  first_free (upd (free_blocks s) b TAKEN) (Z.to_nat DATA_BLOCKS) 0 = None ->
  i_data_block_count (inode_at s i) = INODE_DIRECT_REFS ->
  0 < MAX_INDIRECT_REFS ->
  inode_extend_unsafe i s
  = Some (-1,
          set_inode_table
            (upd (inode_table s) i
               (set_i_data_extension_block (-1) (inode_at s i))) s).
Proof.
  intros Hsh Hv Ht Hlk Hb He Hbc Hm. unfold inode_extend_unsafe. mstep.
  rewrite Hv, Ht. cbn [negb orb].
  rewrite bool_decide_eq_false_2 by done.
  rewrite (bind_run _ _ _ _ _ (data_block_alloc_some s b Hlk Hb)).
  destruct (first_free_valid _ _ Hb) as (Hvb & Hfb & Hne).
  apply Z.eqb_neq in Hne as ->. mstep. rewrite Hbc.
  rewrite Z.ltb_irrefl. replace (_ <? _) with true by lia.
  rewrite Z.eqb_refl.
  erewrite bind_run; cycle 1.
  { erewrite bind_run by (by apply data_block_alloc_none).
    mstep. reflexivity. }
  rewrite Z.eqb_refl. snorm.
  erewrite bind_run by (by apply data_block_free_valid).
  unfold ret. snorm. rewrite upd_upd_eq, (upd_same _ _ _ Hfb).
  do 2 f_equal.
Qed.

Lemma extend_indirect s i b refs :
  shape s ->
  valid_inumber i = true -> sel (free_inode_ts s) i = TAKEN ->
  lk_data_blocks (locks s) = false ->
  first_free (free_blocks s) (Z.to_nat DATA_BLOCKS) 0 = Some b ->
  INODE_DIRECT_REFS < i_data_block_count (inode_at s i)
  < INODE_DIRECT_REFS + MAX_INDIRECT_REFS ->
  data_block_get (i_data_extension_block (inode_at s i)) = Some refs ->
  inode_extend_unsafe i s
  = Some (b,
          set_inode_table
            (upd (inode_table s) i
               (set_i_data_block_count (i_data_block_count (inode_at s i) + 1)
                  (inode_at s i)))
            (set_fs_data
               (store_int (fs_data s)
                  (refs + (i_data_block_count (inode_at s i)
                           - INODE_DIRECT_REFS) * SIZEOF_INT) b)
               (set_free_blocks (upd (free_blocks s) b TAKEN) s))).
Proof.
  intros Hsh Hv Ht Hlk Hb Hbc Hrefs. unfold inode_extend_unsafe. mstep.
  rewrite Hv, Ht. cbn [negb orb].
  rewrite bool_decide_eq_false_2 by done.
  rewrite (bind_run _ _ _ _ _ (data_block_alloc_some s b Hlk Hb)).
  destruct (first_free_valid _ _ Hb) as (_ & _ & Hne).
  apply Z.eqb_neq in Hne as ->. mstep.
  replace (_ <? INODE_DIRECT_REFS) with false by lia.
  replace (_ <? INODE_DIRECT_REFS + _) with true by lia.
  replace (_ =? INODE_DIRECT_REFS) with false by lia.
  do 2 mstep. snorm. rewrite Hrefs. by do 2 mstep.
Qed.

Lemma extend_indirect_null s i b :
  valid_inumber i = true -> sel (free_inode_ts s) i = TAKEN ->
  lk_data_blocks (locks s) = false ->
  first_free (free_blocks s) (Z.to_nat DATA_BLOCKS) 0 = Some b ->
  INODE_DIRECT_REFS < i_data_block_count (inode_at s i)
  < INODE_DIRECT_REFS + MAX_INDIRECT_REFS ->
  data_block_get (i_data_extension_block (inode_at s i)) = None ->
  inode_extend_unsafe i s = Some (-1, s).
Proof.
  intros Hv Ht Hlk Hb Hbc Hrefs. unfold inode_extend_unsafe. mstep.
  rewrite Hv, Ht. cbn [negb orb].
  rewrite bool_decide_eq_false_2 by done.
  rewrite (bind_run _ _ _ _ _ (data_block_alloc_some s b Hlk Hb)).
  destruct (first_free_valid _ _ Hb) as (Hvb & Hfb & Hne).
  apply Z.eqb_neq in Hne as ->. mstep.
  replace (_ <? INODE_DIRECT_REFS) with false by lia.
  replace (_ <? INODE_DIRECT_REFS + _) with true by lia.
  replace (_ =? INODE_DIRECT_REFS) with false by lia.
  do 2 mstep. snorm. rewrite Hrefs.
  erewrite bind_run by (by apply data_block_free_valid).
  unfold ret. snorm. rewrite upd_upd_eq, (upd_same _ _ _ Hfb).
  do 2 f_equal. by destruct s.
Qed.

End Proofs.

Lemma filter_insert_drop {A} (P : A -> Prop) `{!forall x, Decision (P x)}
      (l : list A) (n : nat) (x y : A) :
  l !! n = Some y -> P y -> ~ P x ->
  (length (filter P (<[n:=x]> l)) + 1 = length (filter P l))%nat.
Proof.
  revert n. induction l as [|a l IH]; intros n Hn Hy Hx; [done|].
  destruct n as [|n]; simpl in *.
  - injection Hn as ->. rewrite filter_cons_False, filter_cons_True by done.
    simpl. lia.
  - specialize (IH n Hn Hy Hx).
    destruct (decide (P a)).
    + rewrite !filter_cons_True by done. simpl. lia.
    + by rewrite !filter_cons_False.
Qed.

Section Proofs.
Context {cfg : Config}.

Lemma free_count_alloc s b :
  (Z.to_nat b < length (free_blocks s))%nat ->
  sel (free_blocks s) b = FREE ->
  free_count (set_free_blocks (upd (free_blocks s) b TAKEN) s)
  = free_count s - 1.
Proof.
  intros Hlen Hfree. unfold free_count, upd. snorm.
  assert (free_blocks s !! Z.to_nat b = Some FREE) as Hl.
  { rewrite <- Hfree. by apply list_lookup_lookup_total_lt. }
  pose proof (filter_insert_drop (fun a => a = FREE) (free_blocks s)
                (Z.to_nat b) TAKEN FREE Hl eq_refl) as H.
  assert (TAKEN <> FREE) as Hne by done. specialize (H Hne). lia.
Qed.

Lemma free_count_pos s :
  0 < free_count s -> 0 <= DATA_BLOCKS ->
  length (free_blocks s) = Z.to_nat DATA_BLOCKS ->
  exists b, first_free (free_blocks s) (Z.to_nat DATA_BLOCKS) 0 = Some b.
Proof.
  intros Hpos Hd Hlen. unfold free_count in Hpos.
  destruct (filter (fun a => a = FREE) (free_blocks s)) as [|a l] eqn:E;
    [simpl in Hpos; lia|].
  assert (a ∈ filter (fun a => a = FREE) (free_blocks s)) as Hin
    by (rewrite E; left).
  apply list_elem_of_filter in Hin as [-> Hin].
  apply list_elem_of_lookup in Hin as [n Hn].
  apply (first_free_exists _ _ _ (Z.of_nat n)).
  - apply lookup_lt_Some in Hn. lia.
  - unfold sel. rewrite Nat2Z.id. by apply list_lookup_total_correct.
Qed.

Lemma block_in_range s b :
  shape s -> valid_block_number b = true ->
  (Z.to_nat b < length (free_blocks s))%nat.
Proof.
  intros Hsh Hv. apply valid_block_number_range in Hv.
  rewrite (shape_free_blocks s Hsh). lia.
Qed.

Lemma shape_direct_len s i :
  shape s -> valid_inumber i = true ->
  length (i_data_block (inode_at s i)) = Z.to_nat INODE_DIRECT_REFS.
Proof.
  intros Hsh Hv. pose proof (shape_i_data_block s Hsh) as HF.
  rewrite Forall_lookup in HF. apply (HF (Z.to_nat i)).
  apply list_lookup_lookup_total_lt. by apply inode_in_range.
Qed.

Lemma get_block_direct s i k :
  valid_inumber i = true -> sel (free_inode_ts s) i = TAKEN ->
  0 <= k < i_data_block_count (inode_at s i) -> k < INODE_DIRECT_REFS ->
  inode_get_block_unsafe s i k = sel (i_data_block (inode_at s i)) k.
Proof.
  intros Hv Ht Hk Hd. unfold inode_get_block_unsafe.
  rewrite Hv, Ht. cbn [negb orb].
  rewrite bool_decide_eq_false_2 by done.
  replace (k <? 0) with false by lia.
  replace (_ <=? k) with false by lia. cbn [orb].
  by replace (k <? INODE_DIRECT_REFS) with true by lia.
Qed.

Lemma get_block_indirect s i k :
  valid_inumber i = true -> sel (free_inode_ts s) i = TAKEN ->
  0 <= k < i_data_block_count (inode_at s i) -> INODE_DIRECT_REFS <= k ->
  valid_block_number (i_data_extension_block (inode_at s i)) = true ->
  inode_get_block_unsafe s i k
  = load_int (fs_data s)
      (i_data_extension_block (inode_at s i) * BLOCK_SIZE
       + (k - INODE_DIRECT_REFS) * SIZEOF_INT).
Proof.
  intros Hv Ht Hk Hd He. unfold inode_get_block_unsafe.
  rewrite Hv, Ht. cbn [negb orb].
  rewrite bool_decide_eq_false_2 by done.
  replace (k <? 0) with false by lia.
  replace (_ <=? k) with false by lia. cbn [orb].
  replace (k <? INODE_DIRECT_REFS) with false by lia.
  unfold data_block_get. by rewrite He.
Qed.

Lemma get_block_out_of_range s i k :
  k < 0 \/ i_data_block_count (inode_at s i) <= k ->
  inode_get_block_unsafe s i k = -1.
Proof.
  intros Hk. unfold inode_get_block_unsafe.
  destruct (_ || _); [done|].
  by replace ((k <? 0) || (_ <=? k)) with true by lia.
Qed.

Lemma max_indirect_refs_bound :
  0 < BLOCK_SIZE -> 0 <= MAX_INDIRECT_REFS /\
  MAX_INDIRECT_REFS * SIZEOF_INT <= BLOCK_SIZE.
Proof.
  unfold MAX_INDIRECT_REFS, SIZEOF_INT. intros H.
  split; [apply Z.div_pos; lia|].
  pose proof (Z.mul_div_le BLOCK_SIZE 4). lia.
Qed.

Lemma region_disjoint q q' a :
  0 < BLOCK_SIZE -> q <> q' -> block_region q a -> block_region q' a -> False.
Proof. unfold block_region. intros Hb Hne H1 H2. nia. Qed.

End Proofs.

Ltac lens Hsh :=
  rewrite ?length_upd, ?length_memcpy, ?length_store_int;
  first [ apply (shape_inode_table _ Hsh) | apply (shape_free_inode_ts _ Hsh)
        | apply (shape_fs_data _ Hsh) | apply (shape_free_blocks _ Hsh)
        | apply (shape_open_file_table _ Hsh)
        | apply (shape_free_open_file_entries _ Hsh)
        | apply (shape_lk_inode _ Hsh) | apply (shape_lk_of _ Hsh) ].

Section Proofs.
Context {cfg : Config}.
Hypothesis cfg_ok : config_ok.

Lemma shape_upd_inode s i n' tl :
  shape s ->
  length (i_data_block n') = Z.to_nat INODE_DIRECT_REFS ->
  inode_table tl = upd (inode_table s) i n' ->
  free_inode_ts tl = free_inode_ts s ->
  length (fs_data tl) = length (fs_data s) ->
  length (free_blocks tl) = length (free_blocks s) ->
  open_file_table tl = open_file_table s ->
  free_open_file_entries tl = free_open_file_entries s ->
  locks tl = locks s ->
  shape tl.
Proof.
  intros Hsh Hn E1 E2 E3 E4 E5 E6 E7.
  constructor; rewrite ?E1, ?E2, ?E3, ?E4, ?E5, ?E6, ?E7; try lens Hsh.
  apply Forall_insert; [apply (shape_i_data_block _ Hsh) | done].
Qed.

Lemma extended_direct s i b :
  shape s -> wf_file s i ->
  first_free (free_blocks s) (Z.to_nat DATA_BLOCKS) 0 = Some b ->
  i_data_block_count (inode_at s i) < INODE_DIRECT_REFS ->
  extended s i b
    (set_inode_table
       (upd (inode_table s) i
          (set_i_data_block_count (i_data_block_count (inode_at s i) + 1)
             (set_i_data_block
                (upd (i_data_block (inode_at s i))
                     (i_data_block_count (inode_at s i)) b)
                (inode_at s i))))
       (set_free_blocks (upd (free_blocks s) b TAKEN) s)).
Proof.
  intros Hsh Hwf Hb Hbc.
  destruct (first_free_valid _ _ Hb) as (Hvb & Hfb & Hne).
  pose proof (wf_valid _ _ Hwf) as Hv. pose proof (wf_taken _ _ Hwf) as Ht.
  pose proof (wf_count _ _ Hwf) as Hc.
  pose proof (inode_in_range s i Hsh Hv) as Hir.
  pose proof (block_in_range s b Hsh Hvb) as Hbr.
  pose proof (shape_direct_len s i Hsh Hv) as Hdl.
  apply valid_inumber_range in Hv as Hvr.
  apply valid_block_number_range in Hvb as Hvbr.
  set (s1 := set_inode_table _ _).
  assert (inode_at s1 i
          = set_i_data_block_count (i_data_block_count (inode_at s i) + 1)
              (set_i_data_block
                 (upd (i_data_block (inode_at s i))
                      (i_data_block_count (inode_at s i)) b)
                 (inode_at s i))) as Hi1.
  { subst s1. snorm. by rewrite sel_upd_eq. }
  constructor; try done.
  - subst s1.
    eapply shape_upd_inode;
      [exact Hsh | | reflexivity | reflexivity | | | reflexivity ..]; snorm.
    all: by rewrite ?length_upd.
  - intros j Hj Hji. subst s1. snorm. rewrite sel_upd_ne; [done|lia..].
  - by rewrite Hi1.
  - by rewrite Hi1.
  - pose proof (max_indirect_refs_bound (BLOCK_SIZE_pos cfg_ok)). lia.
  - by rewrite Hi1.
  - intros k Hk. rewrite !get_block_direct; try done; try lia.
    + rewrite Hi1. snorm. rewrite sel_upd_ne; [done|lia..].
    + rewrite Hi1. snorm. lia.
  - rewrite get_block_direct; try done; try lia.
    + rewrite Hi1. snorm. rewrite sel_upd_eq; [done|]. unfold inode_at in *. lia.
    + rewrite Hi1. snorm. lia.
  - subst s1. snorm. by rewrite sel_upd_eq.
  - intros q Hq Hqt. subst s1. snorm.
    destruct (decide (q = b)) as [->|]; [congruence|].
    rewrite sel_upd_ne; [done|lia..].
  - intros. lia.
  - unfold owned_count. rewrite Hi1. subst s1. cbn [i_data_block_count set_i_data_block_count].
    pose proof (free_count_alloc s b Hbr Hfb) as E. unfold free_count in *. snorm.
    rewrite E.
    replace (INODE_DIRECT_REFS <? _) with false by lia.
    replace (INODE_DIRECT_REFS <? _) with false by lia. lia.
Qed.

Lemma data_blocks_int :
  DATA_BLOCKS < 2147483648.
Proof.
  pose proof (arena_fits_int cfg_ok). pose proof (BLOCK_SIZE_pos cfg_ok).
  pose proof (DATA_BLOCKS_pos cfg_ok). nia.
Qed.

Lemma indirect_slot_fits s e k :
  shape s -> valid_block_number e = true -> 0 <= k < MAX_INDIRECT_REFS ->
  0 <= e * BLOCK_SIZE + k * SIZEOF_INT /\
  e * BLOCK_SIZE + k * SIZEOF_INT + SIZEOF_INT <= Z.of_nat (length (fs_data s)) /\
  e * BLOCK_SIZE + k * SIZEOF_INT + SIZEOF_INT <= e * BLOCK_SIZE + BLOCK_SIZE.
Proof.
  intros Hsh He Hk. apply valid_block_number_range in He.
  rewrite (shape_fs_data s Hsh).
  pose proof (BLOCK_SIZE_pos cfg_ok).
  destruct (max_indirect_refs_bound) as [_ Hm]; [done|].
  unfold SIZEOF_INT in *. nia.
Qed.

Lemma extended_transition s i b e :
  shape s -> wf_file s i ->
  first_free (free_blocks s) (Z.to_nat DATA_BLOCKS) 0 = Some b ->
  first_free (upd (free_blocks s) b TAKEN) (Z.to_nat DATA_BLOCKS) 0 = Some e ->
  i_data_block_count (inode_at s i) = INODE_DIRECT_REFS ->
  extended s i b
    (set_inode_table
       (upd (inode_table s) i
          (set_i_data_block_count (INODE_DIRECT_REFS + 1)
             (set_i_data_extension_block e (inode_at s i))))
       (set_fs_data
          (store_int (fs_data s) (e * BLOCK_SIZE + 0 * SIZEOF_INT) b)
          (set_free_blocks (upd (upd (free_blocks s) b TAKEN) e TAKEN) s))).
Proof.
  intros Hsh Hwf Hb He Hbc.
  destruct (first_free_valid _ _ Hb) as (Hvb & Hfb & Hne).
  destruct (first_free_valid _ _ He) as (Hve & Hfe & Hnee).
  pose proof (wf_valid _ _ Hwf) as Hv. pose proof (wf_taken _ _ Hwf) as Ht.
  pose proof (inode_in_range s i Hsh Hv) as Hir.
  pose proof (block_in_range s b Hsh Hvb) as Hbr.
  pose proof (block_in_range s e Hsh Hve) as Her.
  pose proof (INODE_DIRECT_REFS_pos cfg_ok) as Hdpos.
  pose proof (BLOCK_SIZE_pos cfg_ok) as Hbs.
  pose proof (indirect_ref_fits cfg_ok) as Hfit.
  pose proof data_blocks_int as Hint.
  assert (0 < MAX_INDIRECT_REFS) as Hmpos.
  { unfold MAX_INDIRECT_REFS. apply Z.div_str_pos. unfold SIZEOF_INT in *. lia. }
  destruct (indirect_slot_fits s e 0 Hsh Hve) as (Hs0 & Hs1 & Hs2); [lia|].
  apply valid_inumber_range in Hv as Hvr.
  apply valid_block_number_range in Hvb as Hvbr.
  apply valid_block_number_range in Hve as Hver.
  assert (e <> b) as Heb.
  { intros ->. rewrite sel_upd_eq in Hfe by done. done. }
  assert (sel (free_blocks s) e = FREE) as Hfe0.
  { rewrite sel_upd_ne in Hfe; [done|lia..]. }
  set (s1 := set_inode_table _ _).
  assert (inode_at s1 i
          = set_i_data_block_count (INODE_DIRECT_REFS + 1)
              (set_i_data_extension_block e (inode_at s i))) as Hi1.
  { subst s1. snorm. by rewrite sel_upd_eq. }
  assert (sel (free_inode_ts s1) i = TAKEN) as Ht1 by done.
  constructor; try done.
  - subst s1.
    eapply shape_upd_inode;
      [exact Hsh | | reflexivity | reflexivity | | | reflexivity ..]; snorm.
    + by apply shape_direct_len.
    + by rewrite length_store_int.
    + by rewrite !length_upd.
  - intros j Hj Hji. subst s1. snorm. rewrite sel_upd_ne; [done|lia..].
  - by rewrite Hi1.
  - by rewrite Hi1.
  - lia.
  - rewrite Hi1. snorm. lia.
  - intros k Hk. rewrite !get_block_direct; try done; try lia.
    + by rewrite Hi1.
    + rewrite Hi1. snorm. lia.
  - rewrite get_block_indirect; try done; try lia.
    + rewrite Hi1. snorm. subst s1. snorm. rewrite Hbc, Z.sub_diag.
      apply load_store_int; lia.
    + rewrite Hi1. snorm. lia.
    + by rewrite Hi1.
  - subst s1. snorm. rewrite sel_upd_ne by lia. by rewrite sel_upd_eq.
  - intros q Hq Hqt. subst s1. snorm.
    destruct (decide (q = e)) as [->|]; [congruence|].
    destruct (decide (q = b)) as [->|]; [congruence|].
    rewrite !sel_upd_ne; [done|lia..].
  - intros _. rewrite Hi1. snorm. split; [done|]. split.
    { subst s1. snorm. rewrite sel_upd_eq; [done|]. by rewrite length_upd. }
    split; [done|]. rewrite Hbc, Z.ltb_irrefl. done.
  - intros a Ha Hout. subst s1. snorm.
    apply sel_store_int_out; [lia|done|].
    rewrite sel_upd_eq in Hout by done. snorm.
    unfold block_region in Hout. lia.
  - unfold owned_count. rewrite Hi1. snorm. rewrite Hbc.
    rewrite Z.ltb_irrefl. replace (_ <? _) with true by lia.
    unfold free_count. subst s1. snorm.
    pose proof (free_count_alloc s b Hbr Hfb) as E1.
    pose proof (free_count_alloc (set_free_blocks (upd (free_blocks s) b TAKEN) s) e)
      as E2.
    unfold free_count in *. snorm. rewrite E2, E1; [lia| |done].
    by rewrite length_upd.
Qed.

Lemma wf_owned_indirect s i :
  wf_file s i ->
  INODE_DIRECT_REFS < i_data_block_count (inode_at s i) ->
  valid_block_number (i_data_extension_block (inode_at s i)) = true /\
  sel (free_blocks s) (i_data_extension_block (inode_at s i)) = TAKEN.
Proof.
  intros Hwf Hbc. apply (wf_owned _ _ Hwf). right. done.
Qed.

Lemma wf_owned_block s i k :
  wf_file s i ->
  0 <= k < i_data_block_count (inode_at s i) ->
  valid_block_number (inode_get_block_unsafe s i k) = true /\
  sel (free_blocks s) (inode_get_block_unsafe s i k) = TAKEN.
Proof.
  intros Hwf Hk. apply (wf_owned _ _ Hwf). left. eauto.
Qed.

Lemma extended_indirect s i b :
  shape s -> wf_file s i ->
  first_free (free_blocks s) (Z.to_nat DATA_BLOCKS) 0 = Some b ->
  INODE_DIRECT_REFS < i_data_block_count (inode_at s i)
  < INODE_DIRECT_REFS + MAX_INDIRECT_REFS ->
  extended s i b
    (set_inode_table
       (upd (inode_table s) i
          (set_i_data_block_count (i_data_block_count (inode_at s i) + 1)
             (inode_at s i)))
       (set_fs_data
          (store_int (fs_data s)
             (i_data_extension_block (inode_at s i) * BLOCK_SIZE
              + (i_data_block_count (inode_at s i) - INODE_DIRECT_REFS)
                * SIZEOF_INT) b)
          (set_free_blocks (upd (free_blocks s) b TAKEN) s))).
Proof.
  intros Hsh Hwf Hb Hbc.
  destruct (first_free_valid _ _ Hb) as (Hvb & Hfb & Hne).
  destruct (wf_owned_indirect s i Hwf) as [Hve Hte]; [lia|].
  pose proof (wf_valid _ _ Hwf) as Hv. pose proof (wf_taken _ _ Hwf) as Ht.
  pose proof (inode_in_range s i Hsh Hv) as Hir.
  pose proof (block_in_range s b Hsh Hvb) as Hbr.
  pose proof (INODE_DIRECT_REFS_pos cfg_ok) as Hdpos.
  pose proof (BLOCK_SIZE_pos cfg_ok) as Hbs.
  pose proof data_blocks_int as Hint.
  destruct (indirect_slot_fits s (i_data_extension_block (inode_at s i))
              (i_data_block_count (inode_at s i) - INODE_DIRECT_REFS) Hsh Hve)
    as (Hs0 & Hs1 & Hs2); [lia|].
  apply valid_inumber_range in Hv as Hvr.
  apply valid_block_number_range in Hvb as Hvbr.
  apply valid_block_number_range in Hve as Hver.
  assert (i_data_extension_block (inode_at s i) <> b) as Heb by congruence.
  set (s1 := set_inode_table _ _).
  assert (inode_at s1 i
          = set_i_data_block_count (i_data_block_count (inode_at s i) + 1)
              (inode_at s i)) as Hi1.
  { subst s1. snorm. by rewrite sel_upd_eq. }
  assert (sel (free_inode_ts s1) i = TAKEN) as Ht1 by done.
  constructor; try done.
  - subst s1.
    eapply shape_upd_inode;
      [exact Hsh | | reflexivity | reflexivity | | | reflexivity ..]; snorm.
    + by apply shape_direct_len.
    + by rewrite length_store_int.
    + by rewrite !length_upd.
  - intros j Hj Hji. subst s1. snorm. rewrite sel_upd_ne; [done|lia..].
  - by rewrite Hi1.
  - by rewrite Hi1.
  - lia.
  - by rewrite Hi1.
  - intros k Hk.
    destruct (decide (k < INODE_DIRECT_REFS)).
    + rewrite !get_block_direct; try done; try lia.
      * by rewrite Hi1.
      * rewrite Hi1. snorm. lia.
    + rewrite !get_block_indirect; try done; try lia.
      * destruct (indirect_slot_fits s (i_data_extension_block (inode_at s i))
                    (k - INODE_DIRECT_REFS) Hsh Hve)
          as (Hk0 & Hk1 & Hk2); [lia|].
        rewrite Hi1. snorm. subst s1. snorm.
        apply load_int_store_int_out; unfold SIZEOF_INT in *; lia.
      * rewrite Hi1. snorm. lia.
      * by rewrite Hi1.
  - rewrite get_block_indirect; try done; try lia.
    + rewrite Hi1. snorm. subst s1. snorm.
      apply load_store_int; lia.
    + rewrite Hi1. snorm. lia.
    + by rewrite Hi1.
  - subst s1. snorm. by rewrite sel_upd_eq.
  - intros q Hq Hqt. subst s1. snorm.
    destruct (decide (q = b)) as [->|]; [congruence|].
    rewrite !sel_upd_ne; [done|lia..].
  - intros _. rewrite Hi1. snorm. split; [done|]. split.
    { subst s1. snorm. rewrite sel_upd_ne; [done|lia..]. }
    split; [done|]. by replace (_ <? _) with true by lia.
  - intros a Ha Hout. subst s1. snorm.
    apply sel_store_int_out; [lia|done|].
    rewrite sel_upd_eq in Hout by done. snorm.
    unfold block_region in Hout. unfold SIZEOF_INT in *. lia.
  - unfold owned_count. rewrite Hi1. snorm.
    replace (_ <? _ + 1) with true by lia.
    replace (_ <? _) with true by lia.
    unfold free_count. subst s1. snorm.
    pose proof (free_count_alloc s b Hbr Hfb) as E1.
    unfold free_count in *. snorm. rewrite E1. lia.
Qed.

End Proofs.

Section Proofs.
Context {cfg : Config}.
Hypothesis cfg_ok : config_ok.

Lemma max_indirect_refs_pos : 0 < MAX_INDIRECT_REFS.
Proof.
  pose proof (indirect_ref_fits cfg_ok).
  unfold MAX_INDIRECT_REFS. apply Z.div_str_pos. unfold SIZEOF_INT in *. lia.
Qed.

Lemma free_count_nonneg s : 0 <= free_count s.
Proof. unfold free_count. lia. Qed.

(** [inode_extend_unsafe] returns; when it succeeds the file has one more
    block; it succeeds while the block store can hold a file of the
    largest size. *)
Lemma extend_total s i :
  shape s -> wf_file s i -> lk_data_blocks (locks s) = false ->
  exists r s1,
    inode_extend_unsafe i s = Some (r, s1)
    /\ (r <> -1 -> extended s i r s1)
    /\ (INODE_DIRECT_REFS + MAX_INDIRECT_REFS + 1
        <= free_count s + owned_count s i ->
        i_data_block_count (inode_at s i)
        < INODE_DIRECT_REFS + MAX_INDIRECT_REFS ->
        r <> -1).
Proof.
  intros Hsh Hwf Hlk.
  pose proof (wf_valid _ _ Hwf) as Hv. pose proof (wf_taken _ _ Hwf) as Ht.
  pose proof (wf_count _ _ Hwf) as Hc.
  pose proof max_indirect_refs_pos as Hm.
  pose proof (DATA_BLOCKS_pos cfg_ok) as Hdb.
  destruct (first_free (free_blocks s) (Z.to_nat DATA_BLOCKS) 0) as [b|] eqn:Hb.
  2: { exists (-1), s. split; [by apply extend_no_block|]. split; [done|].
       intros Hfree Hroom.
       destruct (free_count_pos s) as [b' Hb']; [|lia|apply Hsh|congruence].
       unfold owned_count in Hfree. case_match; lia. }
  destruct (first_free_valid _ _ Hb) as (Hvb & Hfb & Hne).
  destruct (Z.lt_trichotomy (i_data_block_count (inode_at s i)) INODE_DIRECT_REFS)
    as [Hlt | [Heq | Hgt]].
  - eexists _, _. split; [by apply extend_direct|].
    split; [intros _; by apply extended_direct | done].
  - destruct (first_free (upd (free_blocks s) b TAKEN) (Z.to_nat DATA_BLOCKS) 0)
      as [e|] eqn:He.
    + eexists _, _. split; [by eapply extend_transition|].
      split; [intros _; by apply extended_transition | done].
    + eexists _, _. split; [by eapply extend_transition_fails|].
      split; [done|]. intros Hfree _.
      pose proof (free_count_alloc s b (block_in_range s b Hsh Hvb) Hfb) as E.
      destruct (free_count_pos (set_free_blocks (upd (free_blocks s) b TAKEN) s))
        as [e He']; snorm; [| lia | | congruence].
      * unfold owned_count in Hfree. snorm. rewrite Heq, Z.ltb_irrefl in Hfree.
        unfold free_count in *. snorm. lia.
      * rewrite length_upd. apply Hsh.
  - destruct (decide (i_data_block_count (inode_at s i)
                      < INODE_DIRECT_REFS + MAX_INDIRECT_REFS)) as [Hroom|Hfull].
    + destruct (wf_owned_indirect s i Hwf Hgt) as [Hve Hte].
      eexists _, _. split.
      { eapply extend_indirect; try done. unfold data_block_get.
        by rewrite Hve. }
      split; [intros _; by apply extended_indirect | done].
    + exists (-1), s. split; [apply extend_full; try done; lia|].
      split; [done | lia].
Qed.

(** Consequences of [extended]. *)

Lemma extended_block_distinct s i r s1 k :
  wf_file s i -> extended s i r s1 ->
  0 <= k < i_data_block_count (inode_at s i) ->
  inode_get_block_unsafe s1 i k <> r.
Proof.
  intros Hwf Hex Hk. rewrite (ex_old _ _ _ _ Hex k Hk).
  destruct (wf_owned_block s i k Hwf Hk) as [_ Ht].
  pose proof (ex_new_free _ _ _ _ Hex). congruence.
Qed.

Lemma extended_block_not_indirect s i r s1 k :
  wf_file s i -> extended s i r s1 ->
  INODE_DIRECT_REFS <= i_data_block_count (inode_at s i) ->
  0 <= k < i_data_block_count (inode_at s i) ->
  inode_get_block_unsafe s i k <> i_data_extension_block (inode_at s1 i).
Proof.
  intros Hwf Hex Hd Hk.
  destruct (ex_indirect _ _ _ _ Hex Hd) as (_ & _ & _ & Hcase).
  destruct (wf_owned_block s i k Hwf Hk) as [_ Ht].
  destruct (INODE_DIRECT_REFS <? _) eqn:E.
  - rewrite Hcase. apply (wf_indirect _ _ Hwf); lia.
  - congruence.
Qed.

Lemma extended_wf s i r s1 :
  wf_file s i -> extended s i r s1 -> wf_file s1 i.
Proof.
  intros Hwf Hex.
  pose proof (wf_count _ _ Hwf) as Hc. pose proof (wf_size _ _ Hwf) as Hsz.
  pose proof (ex_count _ _ _ _ Hex) as Hc1.
  pose proof (ex_room _ _ _ _ Hex) as Hroom.
  pose proof (BLOCK_SIZE_pos cfg_ok) as Hbs.
  constructor.
  - apply Hwf.
  - rewrite (ex_free_inode_ts _ _ _ _ Hex). apply Hwf.
  - lia.
  - rewrite (ex_size _ _ _ _ Hex). nia.
  - intros q [(k & Hk & <-) | (Hd & ->)].
    + destruct (decide (k = i_data_block_count (inode_at s i))) as [->|].
      * rewrite (ex_new _ _ _ _ Hex). split; apply Hex.
      * rewrite (ex_old _ _ _ _ Hex) by lia.
        destruct (wf_owned_block s i k Hwf) as [Hv Ht]; [lia|].
        split; [done|]. apply (ex_taken _ _ _ _ Hex); [|done].
        apply valid_block_number_range in Hv. lia.
    + destruct (ex_indirect _ _ _ _ Hex) as (? & ? & _); [lia|done].
  - intros k k' Hk Hk'.
    destruct (decide (k' = i_data_block_count (inode_at s i))) as [->|].
    + rewrite (ex_new _ _ _ _ Hex). apply (extended_block_distinct s); done.
    + rewrite !(ex_old _ _ _ _ Hex) by lia. apply (wf_distinct _ _ Hwf); lia.
  - intros k Hd Hk.
    destruct (decide (k = i_data_block_count (inode_at s i))) as [->|].
    + rewrite (ex_new _ _ _ _ Hex).
      destruct (ex_indirect _ _ _ _ Hex) as (_ & _ & ? & _); [lia|done].
    + rewrite (ex_old _ _ _ _ Hex) by lia.
      apply extended_block_not_indirect with (r := r); try done; lia.
Qed.

Lemma block_offset_region q p :
  0 < BLOCK_SIZE -> block_region q (q * BLOCK_SIZE + p mod BLOCK_SIZE).
Proof.
  intros H. unfold block_region.
  pose proof (Z.mod_pos_bound p BLOCK_SIZE H). lia.
Qed.

Lemma extended_file_byte s i r s1 p :
  wf_file s i -> extended s i r s1 ->
  0 <= p < i_data_block_count (inode_at s i) * BLOCK_SIZE ->
  file_byte s1 i p = file_byte s i p.
Proof.
  intros Hwf Hex Hp.
  pose proof (BLOCK_SIZE_pos cfg_ok) as Hbs.
  assert (0 <= p / BLOCK_SIZE < i_data_block_count (inode_at s i)) as Hk.
  { split; [apply Z.div_pos; lia|]. apply Z.div_lt_upper_bound; lia. }
  unfold file_byte. rewrite (ex_old _ _ _ _ Hex) by done.
  destruct (wf_owned_block s i _ Hwf Hk) as [Hv Ht].
  apply valid_block_number_range in Hv.
  pose proof (block_offset_region (inode_get_block_unsafe s i (p / BLOCK_SIZE))
                p Hbs) as Hreg.
  apply (ex_fs_data _ _ _ _ Hex).
  - unfold block_region in Hreg. nia.
  - intros [Hd Hreg'].
    apply (extended_block_not_indirect s i r s1 (p / BLOCK_SIZE)); try done.
    destruct (decide (inode_get_block_unsafe s i (p / BLOCK_SIZE)
                      = i_data_extension_block (inode_at s1 i))); [done|].
    by destruct (region_disjoint _ _ _ Hbs n Hreg Hreg').
Qed.

Lemma extended_protected s i r s1 q :
  wf_file s i -> extended s i r s1 -> protected s i q ->
  protected s1 i q
  /\ forall a, block_region q a -> sel (fs_data s1) a = sel (fs_data s) a.
Proof.
  intros Hwf Hex (Hv & Ht & Hno).
  pose proof (BLOCK_SIZE_pos cfg_ok) as Hbs.
  apply valid_block_number_range in Hv as Hvr.
  assert (INODE_DIRECT_REFS <= i_data_block_count (inode_at s i) ->
          q <> i_data_extension_block (inode_at s1 i)) as Hqe.
  { intros Hd ->.
    destruct (ex_indirect _ _ _ _ Hex Hd) as (_ & _ & _ & Hcase).
    destruct (INODE_DIRECT_REFS <? _) eqn:E.
    - apply Hno. right. split; [lia | done].
    - congruence. }
  split.
  - split; [done|]. split; [apply (ex_taken _ _ _ _ Hex); [lia|done]|].
    intros [(k & Hk & Hq) | (Hd & ->)].
    + rewrite (ex_count _ _ _ _ Hex) in Hk.
      destruct (decide (k = i_data_block_count (inode_at s i))) as [->|].
      * rewrite (ex_new _ _ _ _ Hex) in Hq. subst q.
        pose proof (ex_new_free _ _ _ _ Hex). congruence.
      * rewrite (ex_old _ _ _ _ Hex) in Hq by lia.
        apply Hno. left. exists k. split; [lia | done].
    + rewrite (ex_count _ _ _ _ Hex) in Hd. apply Hqe; [lia | done].
  - intros a Ha. apply (ex_fs_data _ _ _ _ Hex).
    + unfold block_region in Ha. nia.
    + intros [Hd Hreg]. specialize (Hqe Hd).
      by destruct (region_disjoint _ _ _ Hbs Hqe Ha Hreg).
Qed.

End Proofs.

Section Proofs.
Context {cfg : Config}.
Hypothesis cfg_ok : config_ok.

Lemma entry_in_range s fhandle :
  shape s -> valid_file_handle fhandle = true ->
  (Z.to_nat fhandle < length (open_file_table s))%nat.
Proof.
  intros Hsh Hv. apply valid_file_handle_range in Hv.
  rewrite (shape_open_file_table s Hsh). lia.
Qed.

Lemma entry_eta e : mk_entry (of_inumber e) (of_append e) (of_offset e) = e.
Proof. by destruct e. Qed.

Lemma set_of_offset_id e : set_of_offset (of_offset e) e = e.
Proof. by destruct e. Qed.

Lemma owned_ext s s' i :
  inode_at s' i = inode_at s i ->
  (forall k, inode_get_block_unsafe s' i k = inode_get_block_unsafe s i k) ->
  forall q, owned s' i q <-> owned s i q.
Proof.
  intros Hi Hb q. unfold owned. rewrite Hi.
  split; intros [(k & Hk & <-) | H]; eauto.
Qed.

Lemma wrote_refl i fhandle buffer w s :
  shape s -> wf_file s i ->
  of_offset (entry_at s fhandle)
  <= i_data_block_count (inode_at s i) * BLOCK_SIZE ->
  wrote i fhandle buffer w 0 s s.
Proof.
  intros Hsh Hwf Hoff. constructor; try done.
  - by rewrite Z.add_0_r, set_of_offset_id.
  - lia.
  - intros k Hk. lia.
Qed.

Lemma wrote_trans i fhandle buffer w n m s s' s1 :
  0 <= n -> 0 <= m -> 0 <= of_offset (entry_at s fhandle) ->
  wrote i fhandle buffer w n s s' ->
  wrote i fhandle buffer (w + n) m s' s1 ->
  wrote i fhandle buffer w (n + m) s s1.
Proof.
  intros Hn Hm Hpos H1 H2.
  assert (of_offset (entry_at s' fhandle) = of_offset (entry_at s fhandle) + n)
    as Hoff by (by rewrite (wr_entry _ _ _ _ _ _ _ H1)).
  constructor.
  - apply H2.
  - apply H2.
  - rewrite (wr_free_inode_ts _ _ _ _ _ _ _ H2). apply H1.
  - rewrite (wr_free_open_file_entries _ _ _ _ _ _ _ H2). apply H1.
  - rewrite (wr_open_file_count _ _ _ _ _ _ _ H2). apply H1.
  - rewrite (wr_locks _ _ _ _ _ _ _ H2). apply H1.
  - intros j Hj Hji. rewrite (wr_others _ _ _ _ _ _ _ H2) by done.
    by apply H1.
  - rewrite (wr_type _ _ _ _ _ _ _ H2). apply H1.
  - rewrite (wr_size _ _ _ _ _ _ _ H2). apply H1.
  - pose proof (wr_count _ _ _ _ _ _ _ H1).
    pose proof (wr_count _ _ _ _ _ _ _ H2). lia.
  - rewrite (wr_entry _ _ _ _ _ _ _ H2), (wr_entry _ _ _ _ _ _ _ H1).
    unfold set_of_offset. cbn. f_equal. lia.
  - intros g Hg Hgf. rewrite (wr_entries _ _ _ _ _ _ _ H2) by done.
    by apply H1.
  - pose proof (wr_fits _ _ _ _ _ _ _ H2) as H. rewrite Hoff in H.
    rewrite Z.add_assoc. exact H.
  - intros k Hk. destruct (decide (k < n)).
    + rewrite (wr_before _ _ _ _ _ _ _ H2) by lia.
      apply (wr_bytes _ _ _ _ _ _ _ H1). lia.
    + pose proof (wr_bytes _ _ _ _ _ _ _ H2 (k - n)) as Hb.
      rewrite Hoff in Hb.
      replace (of_offset (entry_at s fhandle) + n + (k - n))
        with (of_offset (entry_at s fhandle) + k) in Hb by lia.
      replace (w + n + (k - n)) with (w + k) in Hb by lia.
      apply Hb. lia.
  - intros p Hp. rewrite (wr_before _ _ _ _ _ _ _ H2) by lia.
    by apply (wr_before _ _ _ _ _ _ _ H1).
  - intros q Hq.
    destruct (wr_protected _ _ _ _ _ _ _ H1 q Hq) as [Hq' Hm1].
    destruct (wr_protected _ _ _ _ _ _ _ H2 q Hq') as [Hq'' Hm2].
    split; [done|]. intros a Ha. rewrite Hm2 by done. by apply Hm1.
  - rewrite (wr_free_count _ _ _ _ _ _ _ H2). apply H1.
Qed.

Lemma wrote_extended i fhandle buffer w r s s1 :
  wf_file s i -> extended s i r s1 ->
  0 <= of_offset (entry_at s fhandle)
  <= i_data_block_count (inode_at s i) * BLOCK_SIZE ->
  wrote i fhandle buffer w 0 s s1.
Proof.
  intros Hwf Hex Hoff.
  pose proof (BLOCK_SIZE_pos cfg_ok) as Hbs.
  pose proof (ex_count _ _ _ _ Hex) as Hc.
  constructor; try apply Hex.
  - by apply (extended_wf cfg_ok s i r).
  - lia.
  - unfold entry_at. rewrite (ex_open_file_table _ _ _ _ Hex).
    by rewrite Z.add_0_r, set_of_offset_id.
  - intros g _ _. unfold entry_at. by rewrite (ex_open_file_table _ _ _ _ Hex).
  - nia.
  - intros k Hk. lia.
  - intros p Hp. apply (extended_file_byte cfg_ok s i r); try done. lia.
  - intros q Hq. by apply (extended_protected cfg_ok s i r).
Qed.

Lemma get_block_nonneg s i k :
  wf_file s i -> 0 <= k < i_data_block_count (inode_at s i) ->
  0 <= inode_get_block_unsafe s i k < DATA_BLOCKS.
Proof.
  intros Hwf Hk. destruct (wf_owned_block s i k Hwf Hk) as [Hv _].
  by apply valid_block_number_range.
Qed.

(** A copy into a content block leaves the references of the file as
    they are. *)
Lemma get_block_memcpy s s2 i kb dst src k :
  shape s -> wf_file s i ->
  0 <= kb < i_data_block_count (inode_at s i) ->
  inode_get_block_unsafe s i kb * BLOCK_SIZE <= dst ->
  dst + Z.of_nat (length src)
  <= inode_get_block_unsafe s i kb * BLOCK_SIZE + BLOCK_SIZE ->
  inode_table s2 = inode_table s ->
  free_inode_ts s2 = free_inode_ts s ->
  fs_data s2 = memcpy (fs_data s) dst src ->
  inode_get_block_unsafe s2 i k = inode_get_block_unsafe s i k.
Proof.
  intros Hsh Hwf Hkb Hlo Hhi Ei Ef Em.
  pose proof (BLOCK_SIZE_pos cfg_ok) as Hbs.
  pose proof (wf_count _ _ Hwf) as Hc.
  unfold inode_get_block_unsafe. unfold inode_at. rewrite Ei, Ef, Em.
  destruct (_ || _) eqn:E1; [done|].
  destruct ((k <? 0) || _) eqn:E2; [done|].
  destruct (k <? INODE_DIRECT_REFS) eqn:E3; [done|].
  destruct (data_block_get _) as [refs|] eqn:E4; [|done].
  unfold data_block_get in E4.
  destruct (valid_block_number (i_data_extension_block _)) eqn:He;
    [|done]. cbn [negb] in E4. injection E4 as <-.
  apply orb_false_iff in E2 as [E2a E2b].
  assert (0 <= k < i_data_block_count (inode_at s i)) as Hk
    by (unfold inode_at; lia).
  assert (INODE_DIRECT_REFS < i_data_block_count (inode_at s i)) as Hd by lia.
  pose proof (wf_indirect _ _ Hwf kb Hd Hkb) as Hne.
  pose proof (get_block_nonneg s i kb Hwf Hkb) as Hb0.
  destruct (indirect_slot_fits cfg_ok s _ (k - INODE_DIRECT_REFS) Hsh He)
    as (Hs0 & Hs1 & Hs2); [lia|].
  apply valid_block_number_range in He.
  apply load_int_memcpy_out; [lia | done |].
  unfold inode_at in *. unfold SIZEOF_INT in *.
  set (b := inode_get_block_unsafe s i kb) in *.
  set (e := i_data_extension_block (sel (inode_table s) i)) in *.
  clearbody b e.
  destruct (Z.lt_trichotomy b e) as [Hlt | [Heq | Hgt]]; [|done|].
  - right. assert (b * BLOCK_SIZE + BLOCK_SIZE <= e * BLOCK_SIZE) by nia. lia.
  - left. assert (e * BLOCK_SIZE + BLOCK_SIZE <= b * BLOCK_SIZE) by nia. lia.
Qed.

Lemma div_mod_block off k :
  0 < BLOCK_SIZE -> 0 <= k -> off mod BLOCK_SIZE + k < BLOCK_SIZE ->
  (off + k) / BLOCK_SIZE = off / BLOCK_SIZE /\
  (off + k) mod BLOCK_SIZE = off mod BLOCK_SIZE + k.
Proof.
  intros Hbs Hk Hfit.
  pose proof (Z.mod_pos_bound off BLOCK_SIZE Hbs) as Hm.
  assert (BLOCK_SIZE <> 0) as Hnz by lia.
  pose proof (Z.div_mod off BLOCK_SIZE Hnz) as Hdm.
  rewrite Z.mul_comm in Hdm.
  assert (off + k = off / BLOCK_SIZE * BLOCK_SIZE + (off mod BLOCK_SIZE + k))
    as E by lia.
  rewrite E. split.
  - rewrite Z.div_add_l by lia. rewrite (Z.div_small (_ + k)) by lia. lia.
  - rewrite Z.add_comm, Z.mod_add by lia. apply Z.mod_small. lia.
Qed.

Lemma wrote_copy i fhandle buffer w n s :
  shape s -> wf_file s i -> valid_file_handle fhandle = true ->
  0 <= of_offset (entry_at s fhandle) ->
  of_offset (entry_at s fhandle) / BLOCK_SIZE
  < i_data_block_count (inode_at s i) ->
  0 < n -> of_offset (entry_at s fhandle) mod BLOCK_SIZE + n <= BLOCK_SIZE ->
  0 <= w -> w + n <= Z.of_nat (length buffer) ->
  wrote i fhandle buffer w n s
    (set_open_file_table
       (upd (open_file_table s) fhandle
          (set_of_offset (of_offset (entry_at s fhandle) + n)
                         (entry_at s fhandle)))
       (set_fs_data
          (memcpy (fs_data s)
             (inode_get_block_unsafe s i
                (of_offset (entry_at s fhandle) / BLOCK_SIZE) * BLOCK_SIZE
              + of_offset (entry_at s fhandle) mod BLOCK_SIZE)
             (load_bytes buffer w n)) s)).
Proof.
  intros Hsh Hwf Hvf Hoff Hbi Hn Hfit Hw Hbuf.
  pose proof (BLOCK_SIZE_pos cfg_ok) as Hbs.
  set (off := of_offset (entry_at s fhandle)) in *.
  set (bi := off / BLOCK_SIZE) in *.
  set (b := inode_get_block_unsafe s i bi).
  set (src := load_bytes buffer w n).
  set (s2 := set_open_file_table _ _).
  assert (0 <= bi) as Hbi0 by (apply Z.div_pos; lia).
  pose proof (Z.mod_pos_bound off BLOCK_SIZE Hbs) as Hmod.
  assert (BLOCK_SIZE <> 0) as Hnz by lia.
  pose proof (Z.div_mod off BLOCK_SIZE Hnz) as Hdm.
  rewrite Z.mul_comm in Hdm. fold bi in Hdm.
  pose proof (get_block_nonneg s i bi Hwf (conj Hbi0 Hbi)) as Hb. fold b in Hb.
  assert (length src = Z.to_nat n) as Hlen
    by (apply length_load_bytes; lia).
  assert (b * BLOCK_SIZE + BLOCK_SIZE <= Z.of_nat (length (fs_data s))) as Hmem.
  { rewrite (shape_fs_data s Hsh). nia. }
  assert (forall k, inode_get_block_unsafe s2 i k = inode_get_block_unsafe s i k)
    as Hblk.
  { intros k. apply (get_block_memcpy s s2 i bi
                       (b * BLOCK_SIZE + off mod BLOCK_SIZE) src);
      try done; fold b; lia. }
  assert (forall q, owned s2 i q <-> owned s i q) as Hown
    by (by apply owned_ext).
  assert (forall a, 0 <= a ->
            a < b * BLOCK_SIZE + off mod BLOCK_SIZE
            \/ b * BLOCK_SIZE + off mod BLOCK_SIZE + n <= a ->
            sel (fs_data s2) a = sel (fs_data s) a) as Hout.
  { intros a Ha Hr. subst s2. snorm. apply sel_memcpy_out; lia. }
  pose proof (entry_in_range s fhandle Hsh Hvf) as Hfr.
  apply valid_file_handle_range in Hvf as Hvfr.
  constructor; try done.
  - constructor; subst s2; snorm; rewrite ?length_upd, ?length_memcpy;
      apply Hsh.
  - destruct Hwf as [Wv Wt Wc Ws Wo Wd Wi]. constructor; try done.
    + intros q Hq. apply Hown in Hq. by apply Wo.
    + intros k k' Hk Hk'. rewrite !Hblk. by apply Wd.
    + intros k Hd Hk. rewrite Hblk. by apply Wi.
  - subst s2. unfold entry_at. snorm. by rewrite sel_upd_eq.
  - intros g Hg Hgf. subst s2. unfold entry_at. snorm.
    rewrite sel_upd_ne; [done | lia..].
  - change (inode_at s2 i) with (inode_at s i). nia.
  - intros k Hk. unfold file_byte. fold off.
    destruct (div_mod_block off k Hbs) as [-> ->]; [lia..|].
    rewrite Hblk. fold bi b. subst s2. snorm.
    rewrite sel_memcpy_in by lia. subst src.
    rewrite sel_load_bytes by lia. f_equal. lia.
  - intros p Hp. fold off in Hp. unfold file_byte. rewrite Hblk.
    assert (0 <= p / BLOCK_SIZE <= bi) as Hpk.
    { split; [apply Z.div_pos; lia|]. apply Z.div_le_mono; lia. }
    pose proof (Z.mod_pos_bound p BLOCK_SIZE Hbs) as Hpm.
    pose proof (Z.div_mod p BLOCK_SIZE Hnz) as Hpdm.
    rewrite Z.mul_comm in Hpdm.
    assert (0 <= p / BLOCK_SIZE < i_data_block_count (inode_at s i)) as Hpr
      by lia.
    pose proof (get_block_nonneg s i (p / BLOCK_SIZE) Hwf Hpr) as Hpb.
    apply Hout; [nia|].
    destruct (decide (p / BLOCK_SIZE = bi)) as [E|E].
    + left. rewrite E. fold b. nia.
    + assert (0 <= p / BLOCK_SIZE < bi) as Hlt' by lia.
      pose proof (wf_distinct _ _ Hwf (p / BLOCK_SIZE) bi Hlt' Hbi) as Hne.
      fold b in Hne.
      set (c := inode_get_block_unsafe s i (p / BLOCK_SIZE)) in *. clearbody c.
      destruct (Z.lt_trichotomy c b) as [Hlt | [Heq | Hgt]]; [|done|].
      * left. assert (c * BLOCK_SIZE + BLOCK_SIZE <= b * BLOCK_SIZE) by nia. lia.
      * right. assert (b * BLOCK_SIZE + BLOCK_SIZE <= c * BLOCK_SIZE) by nia. lia.
  - intros q (Hvq & Htq & Hnq). split.
    + split; [done|]. split; [done|]. by rewrite Hown.
    + intros a Ha. unfold block_region in Ha.
      apply valid_block_number_range in Hvq.
      assert (q <> b) as Hqb.
      { intros ->. apply Hnq. left. exists bi. done. }
      apply Hout; [nia|].
      destruct (Z.lt_trichotomy q b) as [Hlt | [Heq | Hgt]]; [|done|].
      * left. assert (q * BLOCK_SIZE + BLOCK_SIZE <= b * BLOCK_SIZE) by nia. lia.
      * right. assert (b * BLOCK_SIZE + BLOCK_SIZE <= q * BLOCK_SIZE) by nia. lia.
Qed.

End Proofs.

Section Proofs.
Context {cfg : Config}.
Hypothesis cfg_ok : config_ok.

Lemma write_loop_skip fuel fhandle buffer to_write written s :
  to_write <= written ->
  write_loop fuel fhandle buffer to_write written s = Some (true, s).
Proof.
  intros H. destruct fuel; simpl; by replace (written <? to_write) with false by lia.
Qed.

Lemma max_file_size_blocks off :
  0 <= off < MAX_FILE_SIZE ->
  0 <= off / BLOCK_SIZE < INODE_DIRECT_REFS + MAX_INDIRECT_REFS.
Proof.
  intros H. pose proof (BLOCK_SIZE_pos cfg_ok) as Hbs. unfold MAX_FILE_SIZE in H.
  split; [apply Z.div_pos; lia|]. apply Z.div_lt_upper_bound; lia.
Qed.

Lemma write_loop_total i fhandle buffer to_write fuel : forall s written,
  shape s -> wf_file s i -> lk_data_blocks (locks s) = false ->
  valid_file_handle fhandle = true ->
  of_inumber (entry_at s fhandle) = i ->
  0 <= of_offset (entry_at s fhandle)
  <= i_data_block_count (inode_at s i) * BLOCK_SIZE ->
  0 <= written <= to_write ->
  to_write <= Z.of_nat (length buffer) ->
  of_offset (entry_at s fhandle) + (to_write - written) <= MAX_FILE_SIZE ->
  (Z.to_nat (to_write - written) <= fuel)%nat ->
  exists ok s1,
    write_loop fuel fhandle buffer to_write written s = Some (ok, s1)
    /\ (ok = true -> wrote i fhandle buffer written (to_write - written) s s1)
    /\ (INODE_DIRECT_REFS + MAX_INDIRECT_REFS + 1
        <= free_count s + owned_count s i -> ok = true).
Proof.
  pose proof (BLOCK_SIZE_pos cfg_ok) as Hbs.
  induction fuel as [|fuel IH]; intros s written Hsh Hwf Hlk Hvf Hino Hoff Hw
    Hbuf Hmax Hfuel.
  - exists true, s. rewrite write_loop_skip by lia.
    split; [done|]. split; [|done]. intros _.
    replace (to_write - written) with 0 by lia. apply wrote_refl; [done..|lia].
  - destruct (decide (to_write <= written)) as [Hdone|Hmore].
    { exists true, s. rewrite write_loop_skip by lia.
      split; [done|]. split; [|done]. intros _.
      replace (to_write - written) with 0 by lia. apply wrote_refl; [done..|lia]. }
    cbn [write_loop]. replace (written <? to_write) with true by lia.
    rewrite bind_gets. rewrite Hino.
    set (off := of_offset (entry_at s fhandle)) in *.
    rewrite bind_gets.
    destruct (max_file_size_blocks off) as [Hbi0 Hbi1]; [lia|].
    pose proof (Z.mod_pos_bound off BLOCK_SIZE Hbs) as Hmod.
    (* the optional extension *)
    assert (exists ok' s',
      (if i_data_block_count (inode_at s i) =? off / BLOCK_SIZE
       then let* r := inode_extend_unsafe i in ret (negb (r =? -1))
       else ret true) s = Some (ok', s')
      /\ (ok' = true ->
          wrote i fhandle buffer written 0 s s'
          /\ off / BLOCK_SIZE < i_data_block_count (inode_at s' i))
      /\ (INODE_DIRECT_REFS + MAX_INDIRECT_REFS + 1
          <= free_count s + owned_count s i -> ok' = true))
      as (ok' & s' & Hrun & Hok & Hsucc).
    { destruct (_ =? _) eqn:E.
      - apply Z.eqb_eq in E.
        destruct (extend_total cfg_ok s i Hsh Hwf Hlk) as (r & s' & Hr & Hex & Hs).
        exists (negb (r =? -1)), s'.
        split; [by rewrite (bind_run _ _ _ _ _ Hr)|].
        split.
        + intros Hne. apply negb_true_iff, Z.eqb_neq in Hne.
          specialize (Hex Hne). split.
          * by apply (wrote_extended cfg_ok i fhandle buffer written r).
          * rewrite (ex_count _ _ _ _ Hex). lia.
        + intros Hfree. apply negb_true_iff, Z.eqb_neq. apply Hs; [done|lia].
      - apply Z.eqb_neq in E. exists true, s. split; [done|].
        split; [|done]. intros _. split; [apply wrote_refl; [done..|lia]|].
        assert (off / BLOCK_SIZE <= i_data_block_count (inode_at s i)); [|lia].
        apply Z.div_le_upper_bound; lia. }
    rewrite (bind_run _ _ _ _ _ Hrun).
    destruct ok'; cbn [negb].
    2: { exists false, s'. split; [done|]. split; [done|]. intros H.
         by specialize (Hsucc H). }
    destruct (Hok eq_refl) as [Hw0 Hbi]. clear Hok Hsucc.
    pose proof (wr_shape _ _ _ _ _ _ _ Hw0) as Hsh'.
    pose proof (wr_wf _ _ _ _ _ _ _ Hw0) as Hwf'.
    assert (entry_at s' fhandle = entry_at s fhandle) as He'.
    { rewrite (wr_entry _ _ _ _ _ _ _ Hw0), Z.add_0_r.
      apply set_of_offset_id. }
    rewrite bind_gets.
    pose proof (get_block_nonneg s' i (off / BLOCK_SIZE) Hwf'
                  (conj Hbi0 Hbi)) as Hb.
    set (b := inode_get_block_unsafe s' i (off / BLOCK_SIZE)) in *.
    replace (b =? -1) with false by lia.
    unfold data_block_get.
    replace (valid_block_number b) with true
      by (symmetry; by apply valid_block_number_range).
    cbn [negb].
    set (n := if off mod BLOCK_SIZE + to_write - written <? BLOCK_SIZE
              then to_write - written else BLOCK_SIZE - off mod BLOCK_SIZE).
    assert (0 < n /\ off mod BLOCK_SIZE + n <= BLOCK_SIZE
            /\ n <= to_write - written) as (Hn0 & Hn1 & Hn2).
    { subst n.
      destruct (off mod BLOCK_SIZE + to_write - written <? BLOCK_SIZE) eqn:E;
        lia. }
    do 2 rewrite bind_modify.
    match goal with
    | |- exists ok s1, write_loop _ _ _ _ _ ?s2 = _ /\ _ =>
        set (s'' := s2) in *
    end.
    assert (wrote i fhandle buffer written n s' s'') as Hw1.
    { pose proof (wrote_copy cfg_ok i fhandle buffer written n s' Hsh' Hwf' Hvf)
        as Hcopy.
      rewrite He' in Hcopy. subst s''. unfold upd_entry.
      unfold entry_at in *. cbn [open_file_table set_fs_data] in *.
      rewrite He'. apply Hcopy; subst off n; cbv zeta in *; lia. }
    assert (of_offset (entry_at s'' fhandle) = off + n) as Hoff''.
    { rewrite (wr_entry _ _ _ _ _ _ _ Hw1), He'. done. }
    assert (of_inumber (entry_at s'' fhandle) = i) as Hino''.
    { rewrite (wr_entry _ _ _ _ _ _ _ Hw1), He'. done. }
    pose proof (wr_fits _ _ _ _ _ _ _ Hw1) as Hfits. rewrite He' in Hfits.
    fold off in Hfits.
    destruct (IH s'' (written + n)) as (ok & s1 & Hrun1 & Hok1 & Hsucc1);
      try done.
    + apply Hw1.
    + apply Hw1.
    + rewrite (wr_locks _ _ _ _ _ _ _ Hw1), (wr_locks _ _ _ _ _ _ _ Hw0). done.
    + rewrite Hoff''. lia.
    + lia.
    + rewrite Hoff''. lia.
    + lia.
    + exists ok, s1. split; [done|]. split.
      * intros Hok. specialize (Hok1 Hok).
        replace (to_write - written) with (0 + (n + (to_write - (written + n))))
          by lia.
        eapply wrote_trans; [lia | lia | lia | exact Hw0 |].
        rewrite Z.add_0_r.
        eapply wrote_trans; [lia | lia | | exact Hw1 | exact Hok1].
        rewrite He'. lia.
      * intros Hfree. apply Hsucc1.
        rewrite (wr_free_count _ _ _ _ _ _ _ Hw1).
        rewrite (wr_free_count _ _ _ _ _ _ _ Hw0). done.
Qed.

End Proofs.

Section Proofs.
Context {cfg : Config}.
Hypothesis cfg_ok : config_ok.

(** ** States that hold the same file system *)

Lemma same_fs_refl s : same_fs s s.
Proof. by constructor. Qed.

Lemma same_fs_trans s s1 s2 : same_fs s s1 -> same_fs s1 s2 -> same_fs s s2.
Proof.
  intros [] []. constructor; congruence.
Qed.

Lemma same_fs_sym s s1 : same_fs s s1 -> same_fs s1 s.
Proof. intros []. by constructor. Qed.

Lemma same_fs_inode s s1 i : same_fs s s1 -> inode_at s1 i = inode_at s i.
Proof. intros []. unfold inode_at. congruence. Qed.

Lemma same_fs_get_block s s1 i k :
  same_fs s s1 -> inode_get_block_unsafe s1 i k = inode_get_block_unsafe s i k.
Proof.
  intros H. unfold inode_get_block_unsafe.
  rewrite (same_fs_inode _ _ _ H). by destruct H as [_ -> -> _].
Qed.

Lemma same_fs_file_byte s s1 i p :
  same_fs s s1 -> file_byte s1 i p = file_byte s i p.
Proof.
  intros H. unfold file_byte. rewrite (same_fs_get_block _ _ _ _ H).
  by destruct H as [_ _ -> _].
Qed.

Lemma same_fs_owned s s1 i q : same_fs s s1 -> owned s1 i q <-> owned s i q.
Proof.
  intros H. apply owned_ext; [by apply same_fs_inode|].
  intros k. by apply same_fs_get_block.
Qed.

Lemma same_fs_wf s s1 i : same_fs s s1 -> wf_file s i -> wf_file s1 i.
Proof.
  intros H [Wv Wt Wc Ws Wo Wd Wi].
  constructor; rewrite ?(same_fs_inode _ _ _ H); try done.
  - by destruct H as [_ -> _ _].
  - intros q Hq. apply (same_fs_owned _ _ _ _ H) in Hq.
    destruct H as [_ _ _ ->]. by apply Wo.
  - intros k k' Hk Hk'. rewrite !(same_fs_get_block _ _ _ _ H).
    by apply Wd.
  - intros k Hd Hk. rewrite !(same_fs_get_block _ _ _ _ H).
    by apply Wi.
Qed.

Lemma same_fs_protected s s1 i q :
  same_fs s s1 -> protected s i q -> protected s1 i q.
Proof.
  intros H (Hv & Ht & Hn). split; [done|]. split.
  - by destruct H as [_ _ _ ->].
  - by rewrite (same_fs_owned _ _ _ _ H).
Qed.

Lemma same_fs_find s s1 i name :
  same_fs s s1 -> find_in_dir_unsafe s1 i name = find_in_dir_unsafe s i name.
Proof.
  intros H. unfold find_in_dir_unsafe.
  rewrite (same_fs_inode _ _ _ H). by destruct H as [_ _ -> _].
Qed.

Lemma same_fs_free_count s s1 : same_fs s s1 -> free_count s1 = free_count s.
Proof. intros H. unfold free_count. by destruct H as [_ _ _ ->]. Qed.

Lemma same_fs_owned_count s s1 i :
  same_fs s s1 -> owned_count s1 i = owned_count s i.
Proof. intros H. unfold owned_count. by rewrite (same_fs_inode _ _ _ H). Qed.

Lemma same_fs_set_locks s l : same_fs s (set_locks l s).
Proof. by constructor. Qed.

Lemma same_fs_set_open_file_table s t : same_fs s (set_open_file_table t s).
Proof. by constructor. Qed.

End Proofs.

Section Proofs.
Context {cfg : Config}.
Hypothesis cfg_ok : config_ok.

Lemma size_t_wrap_small z :
  0 <= z < 2147483648 -> size_t_wrap z = z.
Proof. intros H. unfold size_t_wrap. apply Z.mod_small. lia. Qed.

Lemma at_loop_same_fs s fhandle rw : same_fs s (at_loop s fhandle rw).
Proof. by constructor. Qed.

Lemma at_loop_shape s fhandle rw : shape s -> shape (at_loop s fhandle rw).
Proof.
  intros Hsh. constructor; unfold at_loop; snorm; rewrite ?length_upd;
    apply Hsh.
Qed.

Lemma at_loop_entry s fhandle rw :
  shape s -> valid_file_handle fhandle = true ->
  entry_at (at_loop s fhandle rw) fhandle
  = set_of_offset (start_offset s fhandle) (entry_at s fhandle).
Proof.
  intros Hsh Hv. unfold at_loop, entry_at. snorm.
  rewrite sel_upd_eq; [done|]. by apply entry_in_range.
Qed.

Lemma at_loop_entries s fhandle rw g :
  0 <= fhandle -> 0 <= g -> g <> fhandle ->
  entry_at (at_loop s fhandle rw) g = entry_at s g.
Proof.
  intros Hf Hg Hne. unfold at_loop, entry_at. snorm.
  rewrite sel_upd_ne; [done | lia..].
Qed.

Lemma offset_upd_id s fhandle :
  (of_append (entry_at s fhandle) =? 0) = true ->
  upd (open_file_table s) fhandle
      (set_of_offset (start_offset s fhandle) (entry_at s fhandle))
  = open_file_table s.
Proof.
  intros H. unfold start_offset. rewrite H.
  rewrite set_of_offset_id. apply upd_sel_id.
Qed.

(** After the two unlocks the locks are as they were. *)
Lemma unlock_both s fhandle i rw l :
  shape s ->
  sel (lk_of (locks s)) fhandle = false ->
  sel (lk_inode (locks s)) i = RwFree ->
  valid_inumber i = true ->
  rwlock_release rw = RwFree ->
  l = set_rwlock i rw (set_mutex (of_mutex fhandle) true (locks s)) ->
  set_mutex (of_mutex fhandle) false
    (set_rwlock i (rwlock_release (sel (lk_inode l) i)) l)
  = locks s.
Proof.
  intros Hsh Hm Hrw Hv Hrel ->. snorm.
  rewrite sel_upd_eq.
  2: { rewrite (shape_lk_inode s Hsh). apply valid_inumber_range in Hv. lia. }
  rewrite Hrel, !upd_upd_eq, (upd_same _ _ _ Hm), (upd_same _ _ _ Hrw).
  apply locks_eta.
Qed.

Lemma locks_set_locks l s : locks (set_locks l s) = l.
Proof. reflexivity. Qed.

(** The part of [read_from_open_file] and [write_to_open_file] before
    the test of the offset. *)
Lemma enter_loop s fhandle (wr : bool) {A} (k : Z -> Z -> M A) :
  shape s -> valid_file_handle fhandle = true ->
  valid_inumber (of_inumber (entry_at s fhandle)) = true ->
  sel (lk_of (locks s)) fhandle = false ->
  sel (lk_inode (locks s)) (of_inumber (entry_at s fhandle)) = RwFree ->
  ((if wr then pthread_rwlock_wrlock (of_inumber (entry_at s fhandle))
    else pthread_rwlock_rdlock (of_inumber (entry_at s fhandle))) ;;
   let* file := gets (fun s0 => entry_at s0 fhandle) in
   let* size := gets (fun s0 =>
     i_size (inode_at s0 (of_inumber (entry_at s fhandle)))) in
   (if negb (of_append file =? 0)
    then modify (upd_entry fhandle (set_of_offset size))
    else ret tt) ;;
   let* offset := gets (fun s0 => of_offset (entry_at s0 fhandle)) in
   k size offset)
    (set_locks (set_mutex (of_mutex fhandle) true (locks s)) s)
  = k (i_size (inode_at s (of_inumber (entry_at s fhandle))))
      (start_offset s fhandle)
      (at_loop s fhandle (if wr then RwWrite else RwRead 0)).
Proof.
  intros Hsh Hvf Hvi Hm Hrw.
  pose proof (entry_in_range s fhandle Hsh Hvf) as Hfr.
  apply valid_inumber_range in Hvi as Hvir.
  set (s_a := set_locks _ s).
  assert ((if wr then pthread_rwlock_wrlock (of_inumber (entry_at s fhandle))
           else pthread_rwlock_rdlock (of_inumber (entry_at s fhandle))) s_a
          = Some (tt, set_locks
                        (set_rwlock (of_inumber (entry_at s fhandle))
                           (if wr then RwWrite else RwRead 0) (locks s_a))
                        s_a)) as Hlock.
  { destruct wr; [apply wrlock_run | apply rdlock_run]; subst s_a; snorm;
      try done; try lia; rewrite (shape_lk_inode s Hsh); lia. }
  rewrite (bind_run _ _ _ _ _ Hlock). subst s_a.
  do 2 rewrite bind_gets.
  unfold at_loop, start_offset.
  destruct (of_append (entry_at s fhandle) =? 0) eqn:Happ.
  - change (of_append (entry_at _ fhandle)) with (of_append (entry_at s fhandle)).
    rewrite Happ. cbn [negb]. rewrite bind_ret, bind_gets.
    rewrite set_of_offset_id. unfold entry_at. rewrite upd_sel_id. done.
  - change (of_append (entry_at _ fhandle)) with (of_append (entry_at s fhandle)).
    rewrite Happ. cbn [negb]. rewrite bind_modify, bind_gets.
    unfold upd_entry, entry_at. snorm.
    rewrite sel_upd_eq by done. done.
Qed.

Lemma bind_if_modify {B} (c : bool) (f : state -> state) (k : unit -> M B) s :
  bind (if c then modify f else ret tt) k s = k tt (if c then f s else s).
Proof. by destruct c. Qed.

Lemma clamp_write s fhandle to_write :
  wf_file s (of_inumber (entry_at s fhandle)) ->
  0 <= start_offset s fhandle
  <= i_size (inode_at s (of_inumber (entry_at s fhandle))) ->
  0 <= to_write ->
  (if size_t_wrap (MAX_FILE_SIZE - start_offset s fhandle) <? to_write
   then size_t_wrap (MAX_FILE_SIZE - start_offset s fhandle)
   else to_write)
  = Z.min to_write (MAX_FILE_SIZE - start_offset s fhandle)
  /\ 0 <= Z.min to_write (MAX_FILE_SIZE - start_offset s fhandle).
Proof.
  intros Hwf Hoff Hn.
  pose proof (wf_size _ _ Hwf) as Hsz. pose proof (wf_count _ _ Hwf) as Hc.
  pose proof (BLOCK_SIZE_pos cfg_ok) as Hbs.
  pose proof (file_size_fits_int cfg_ok) as Hint.
  assert (i_data_block_count (inode_at s (of_inumber (entry_at s fhandle)))
          * BLOCK_SIZE <= MAX_FILE_SIZE) as Hmax
    by (unfold MAX_FILE_SIZE; nia).
  rewrite size_t_wrap_small by lia.
  split; [|lia]. case_match; lia.
Qed.

(** Setting the size of an inode. *)

Lemma inode_eta n :
  mk_inode (i_node_type n) (i_size n) (i_data_block_count n) (i_data_block n)
           (i_data_extension_block n) = n.
Proof. by destruct n. Qed.

Lemma set_size_id s i :
  upd_inode i (set_i_size (i_size (inode_at s i))) s = s.
Proof.
  unfold upd_inode, set_i_size. rewrite inode_eta. unfold inode_at.
  rewrite upd_sel_id. by destruct s.
Qed.

Lemma set_size_inode s i z :
  shape s -> valid_inumber i = true ->
  inode_at (upd_inode i (set_i_size z) s) i = set_i_size z (inode_at s i).
Proof.
  intros Hsh Hv. unfold upd_inode, inode_at. snorm.
  rewrite sel_upd_eq; [done|]. by apply inode_in_range.
Qed.

Lemma set_size_others s i z j :
  0 <= i -> 0 <= j -> j <> i ->
  inode_at (upd_inode i (set_i_size z) s) j = inode_at s j.
Proof.
  intros Hi Hj Hne. unfold upd_inode, inode_at. snorm.
  rewrite sel_upd_ne; [done | lia..].
Qed.

Lemma set_size_shape s i z :
  shape s -> valid_inumber i = true -> shape (upd_inode i (set_i_size z) s).
Proof.
  intros Hsh Hv.
  eapply shape_upd_inode; [exact Hsh | | reflexivity ..].
  cbn. by apply shape_direct_len.
Qed.

Lemma set_size_get_block s i z j k :
  shape s -> valid_inumber i = true -> 0 <= j ->
  inode_get_block_unsafe (upd_inode i (set_i_size z) s) j k
  = inode_get_block_unsafe s j k.
Proof.
  intros Hsh Hv Hj. apply valid_inumber_range in Hv as Hvr.
  unfold inode_get_block_unsafe.
  destruct (decide (j = i)) as [->|Hne].
  - rewrite set_size_inode by done. done.
  - rewrite set_size_others by lia. done.
Qed.

Lemma set_size_file_byte s i z j p :
  shape s -> valid_inumber i = true -> 0 <= j ->
  file_byte (upd_inode i (set_i_size z) s) j p = file_byte s j p.
Proof.
  intros Hsh Hv Hj. unfold file_byte. by rewrite set_size_get_block.
Qed.

Lemma set_size_owned s i z q :
  shape s -> valid_inumber i = true ->
  owned (upd_inode i (set_i_size z) s) i q <-> owned s i q.
Proof.
  intros Hsh Hv. apply valid_inumber_range in Hv as Hvr. unfold owned.
  rewrite set_size_inode by done. cbn [i_data_block_count set_i_size
    i_data_extension_block].
  split; intros [(k & Hk & Hq) | H]; eauto; left; exists k;
    rewrite set_size_get_block in *; try done; lia.
Qed.

Lemma set_size_wf s i z :
  shape s -> wf_file s i ->
  0 <= z <= i_data_block_count (inode_at s i) * BLOCK_SIZE ->
  wf_file (upd_inode i (set_i_size z) s) i.
Proof.
  intros Hsh Hwf Hz. pose proof (wf_valid _ _ Hwf) as Hv.
  apply valid_inumber_range in Hv as Hvr.
  destruct Hwf as [Wv Wt Wc Ws Wo Wd Wi].
  constructor; rewrite ?set_size_inode by done; try done.
  - intros q Hq. apply set_size_owned in Hq; try done. by apply Wo.
  - intros k k' Hk Hk'. rewrite !set_size_get_block by (done || lia).
    by apply Wd.
  - intros k Hd Hk. rewrite !set_size_get_block by (done || lia).
    by apply Wi.
Qed.

Lemma write_total s fhandle buffer to_write :
  shape s -> valid_file_handle fhandle = true ->
  wf_file s (of_inumber (entry_at s fhandle)) ->
  sel (lk_of (locks s)) fhandle = false ->
  sel (lk_inode (locks s)) (of_inumber (entry_at s fhandle)) = RwFree ->
  lk_data_blocks (locks s) = false ->
  0 <= start_offset s fhandle
  <= i_size (inode_at s (of_inumber (entry_at s fhandle))) ->
  0 <= to_write <= Z.of_nat (length buffer) ->
  exists r s1,
    write_to_open_file fhandle buffer to_write s = Some (r, s1)
    /\ (r <> -1 ->
        r = Z.min to_write (MAX_FILE_SIZE - start_offset s fhandle)
        /\ write_ok fhandle buffer r s s1)
    /\ (INODE_DIRECT_REFS + MAX_INDIRECT_REFS + 1
        <= free_count s + owned_count s (of_inumber (entry_at s fhandle)) ->
        r <> -1).
Proof.
  intros Hsh Hvf Hwf Hm Hrw Hlk Hoff Hn.
  pose proof (wf_valid _ _ Hwf) as Hvi.
  pose proof (wf_size _ _ Hwf) as Hsz. pose proof (wf_count _ _ Hwf) as Hc.
  pose proof (BLOCK_SIZE_pos cfg_ok) as Hbs.
  set (i := of_inumber (entry_at s fhandle)) in *.
  set (off := start_offset s fhandle) in *.
  unfold write_to_open_file. rewrite Hvf. cbn [negb].
  rewrite (bind_run _ _ _ _ _ (mutex_lock_run (of_mutex fhandle) s Hm)).
  rewrite bind_gets.
  change (of_inumber (entry_at (set_locks _ s) fhandle)) with i.
  unfold inode_get. rewrite Hvi. cbn [negb].
  erewrite (enter_loop s fhandle true) by done. fold i off.
  replace (i_size (inode_at s i) <? off) with false by lia.
  destruct (clamp_write s fhandle to_write Hwf Hoff) as [Hclamp Hmin]; [lia|].
  fold off in Hmin, Hclamp. rewrite !Hclamp. clear Hclamp.
  set (n := Z.min to_write (MAX_FILE_SIZE - off)) in *.
  set (s_c := at_loop s fhandle RwWrite).
  pose proof (at_loop_same_fs s fhandle RwWrite) as Hsame. fold s_c in Hsame.
  pose proof (at_loop_shape s fhandle RwWrite Hsh) as Hsh_c. fold s_c in Hsh_c.
  pose proof (at_loop_entry s fhandle RwWrite Hsh Hvf) as He_c.
  fold s_c off in He_c.
  destruct (write_loop_total cfg_ok i fhandle buffer n (Z.to_nat n) s_c 0)
    as (ok & s_l & Hrun & Hok & Hsucc); try done.
  { by apply (same_fs_wf s). }
  { rewrite He_c. done. }
  { rewrite He_c, (same_fs_inode _ _ _ Hsame).
    cbn [of_offset set_of_offset]. lia. }
  { subst n. lia. }
  { rewrite He_c. cbn [of_offset set_of_offset]. subst n. lia. }
  { lia. }
  rewrite (bind_run _ _ _ _ _ Hrun).
  destruct ok; cbn [negb].
  2: { unfold pthread_rwlock_unlock, pthread_mutex_unlock.
       rewrite !bind_modify. eexists _, _. split; [reflexivity|].
       split; [done|]. intros Hfree.
       rewrite (same_fs_free_count _ _ Hsame),
         (same_fs_owned_count _ _ _ Hsame) in Hsucc.
       by specialize (Hsucc Hfree). }
  specialize (Hok eq_refl). clear Hsucc.
  rewrite Z.sub_0_r in Hok.
  do 2 rewrite bind_gets.
  rewrite (wr_entry _ _ _ _ _ _ _ Hok), He_c.
  rewrite (wr_size _ _ _ _ _ _ _ Hok), (same_fs_inode _ _ _ Hsame).
  cbn [of_offset set_of_offset].
  rewrite bind_if_modify.
  set (s_u := if _ <? _ then _ else s_l).
  unfold pthread_rwlock_unlock, pthread_mutex_unlock.
  rewrite !bind_modify.
  eexists n, _. split; [reflexivity|].
  split; [|intros _; lia]. intros _. split; [done|].
  apply valid_inumber_range in Hvi as Hvir.
  apply valid_file_handle_range in Hvf as Hvfr.
  pose proof (wr_entry _ _ _ _ _ _ _ Hok) as He_l. rewrite He_c in He_l.
  cbn [of_offset set_of_offset] in He_l.
  assert (s_u = upd_inode i
                  (set_i_size (Z.max (i_size (inode_at s i)) (off + n))) s_l)
    as Hs_u.
  { subst s_u. destruct (_ <? _) eqn:E.
    - by replace (Z.max _ _) with (off + n) by lia.
    - replace (Z.max _ _) with (i_size (inode_at s_l i)).
      + by rewrite set_size_id.
      + rewrite (wr_size _ _ _ _ _ _ _ Hok), (same_fs_inode _ _ _ Hsame). lia. }
  clearbody s_u. subst s_u.
  set (z := Z.max _ _).
  set (s_u := upd_inode i (set_i_size z) s_l).
  pose proof (wr_shape _ _ _ _ _ _ _ Hok) as Hsh_l.
  pose proof (wr_wf _ _ _ _ _ _ _ Hok) as Hwf_l.
  pose proof (wr_fits _ _ _ _ _ _ _ Hok) as Hfits. rewrite He_c in Hfits.
  cbn [of_offset set_of_offset] in Hfits.
  assert (locks s_u = set_rwlock i RwWrite
                        (set_mutex (of_mutex fhandle) true (locks s))) as Hlk_u.
  { change (locks s_u) with (locks s_l). by rewrite (wr_locks _ _ _ _ _ _ _ Hok). }
  rewrite locks_set_locks.
  rewrite (unlock_both s fhandle i RwWrite (locks s_u) Hsh Hm Hrw Hvi eq_refl
             Hlk_u).
  change (set_locks (locks s) (set_locks _ s_u)) with (set_locks (locks s) s_u).
  assert (same_fs s_u (set_locks (locks s) s_u)) as Hsame_u
    by apply same_fs_set_locks.
  assert (wf_file s_u i) as Hwf_u.
  { apply set_size_wf; try done. subst z.
    pose proof (wr_count _ _ _ _ _ _ _ Hok) as Hcnt.
    rewrite (same_fs_inode _ _ _ Hsame) in Hcnt. nia. }
  constructor; fold i off.
  - pose proof (set_size_shape s_l i z Hsh_l Hvi) as Hsh_u. fold s_u in Hsh_u.
    destruct Hsh_u. constructor; try done.
    + cbn [locks set_locks]. apply Hsh.
    + cbn [locks set_locks]. apply Hsh.
  - by apply (same_fs_wf s_u).
  - done.
  - change (free_inode_ts s_l = free_inode_ts s).
    by rewrite (wr_free_inode_ts _ _ _ _ _ _ _ Hok).
  - change (free_open_file_entries s_l = free_open_file_entries s).
    by rewrite (wr_free_open_file_entries _ _ _ _ _ _ _ Hok).
  - change (open_file_count s_l = open_file_count s).
    by rewrite (wr_open_file_count _ _ _ _ _ _ _ Hok).
  - intros j Hj Hne. rewrite (same_fs_inode _ _ _ Hsame_u).
    subst s_u. rewrite set_size_others by lia.
    rewrite (wr_others _ _ _ _ _ _ _ Hok) by done.
    by apply same_fs_inode.
  - rewrite (same_fs_inode _ _ _ Hsame_u). subst s_u.
    rewrite set_size_inode by done. cbn [i_node_type set_i_size].
    rewrite (wr_type _ _ _ _ _ _ _ Hok). by rewrite (same_fs_inode _ _ _ Hsame).
  - rewrite (same_fs_inode _ _ _ Hsame_u). subst s_u.
    by rewrite set_size_inode.
  - change (entry_at s_l fhandle = set_of_offset (off + n) (entry_at s fhandle)).
    rewrite He_l. by destruct (entry_at s fhandle).
  - intros g Hg Hne.
    change (entry_at s_l g = entry_at s g).
    rewrite (wr_entries _ _ _ _ _ _ _ Hok) by done.
    subst s_c. apply at_loop_entries; lia.
  - intros k Hk. rewrite (same_fs_file_byte _ _ _ _ Hsame_u). subst s_u.
    rewrite set_size_file_byte by (done || lia).
    pose proof (wr_bytes _ _ _ _ _ _ _ Hok k Hk) as Hb.
    rewrite He_c in Hb. exact Hb.
  - intros p Hp. rewrite (same_fs_file_byte _ _ _ _ Hsame_u). subst s_u.
    rewrite set_size_file_byte by (done || lia).
    rewrite (wr_before _ _ _ _ _ _ _ Hok).
    + by apply same_fs_file_byte.
    + by rewrite He_c.
  - intros q Hq. apply (same_fs_protected _ _ _ _ Hsame) in Hq.
    destruct (wr_protected _ _ _ _ _ _ _ Hok q Hq) as [(Hv & Ht & Hno) Hmem].
    split.
    + apply (same_fs_protected s_u); [done|].
      split; [done|]. split; [done|]. subst s_u.
      by rewrite set_size_owned.
    + intros a Ha. change (sel (fs_data s_l) a = sel (fs_data s) a).
      rewrite Hmem by done. by destruct Hsame as [_ _ -> _].
Qed.

End Proofs.

Section Proofs.
Context {cfg : Config}.
Hypothesis cfg_ok : config_ok.

Lemma read_loop_skip fuel fhandle buffer to_read read s :
  to_read <= read ->
  read_loop fuel fhandle buffer to_read read s = Some ((true, buffer), s).
Proof.
  intros H. destruct fuel; simpl; by replace (read <? to_read) with false by lia.
Qed.

(** The state after a read or a write that moved the offset to [z]. *)
Lemma move_offset_same_fs s fhandle z :
  same_fs s (set_open_file_table
               (upd (open_file_table s) fhandle
                    (set_of_offset z (entry_at s fhandle))) s).
Proof. by constructor. Qed.

Lemma move_offset_id s fhandle :
  set_open_file_table
    (upd (open_file_table s) fhandle
         (set_of_offset (of_offset (entry_at s fhandle)) (entry_at s fhandle))) s
  = s.
Proof.
  rewrite set_of_offset_id. unfold entry_at. rewrite upd_sel_id. by destruct s.
Qed.

Lemma move_offset_twice s fhandle a b :
  shape s -> valid_file_handle fhandle = true ->
  let s' := set_open_file_table
              (upd (open_file_table s) fhandle
                   (set_of_offset a (entry_at s fhandle))) s in
  set_open_file_table
    (upd (open_file_table s') fhandle (set_of_offset b (entry_at s' fhandle))) s'
  = set_open_file_table
      (upd (open_file_table s) fhandle (set_of_offset b (entry_at s fhandle))) s.
Proof.
  intros Hsh Hv. cbn zeta. unfold entry_at. snorm.
  rewrite sel_upd_eq by by apply entry_in_range.
  by rewrite upd_upd_eq.
Qed.

Lemma read_loop_total i fhandle to_read fuel : forall s read buffer,
  shape s -> wf_file s i ->
  valid_file_handle fhandle = true ->
  of_inumber (entry_at s fhandle) = i ->
  0 <= of_offset (entry_at s fhandle) ->
  0 <= read <= to_read ->
  of_offset (entry_at s fhandle) + (to_read - read)
  <= i_data_block_count (inode_at s i) * BLOCK_SIZE ->
  to_read <= Z.of_nat (length buffer) ->
  (Z.to_nat (to_read - read) <= fuel)%nat ->
  exists buffer1,
    read_loop fuel fhandle buffer to_read read s
    = Some ((true, buffer1),
            set_open_file_table
              (upd (open_file_table s) fhandle
                 (set_of_offset
                    (of_offset (entry_at s fhandle) + (to_read - read))
                    (entry_at s fhandle))) s)
    /\ length buffer1 = length buffer
    /\ (forall k, 0 <= k -> k < read \/ to_read <= k ->
                  sel buffer1 k = sel buffer k)
    /\ (forall k, read <= k < to_read ->
                  sel buffer1 k
                  = file_byte s i (of_offset (entry_at s fhandle) + (k - read))).
Proof.
  pose proof (BLOCK_SIZE_pos cfg_ok) as Hbs.
  induction fuel as [|fuel IH]; intros s read buffer Hsh Hwf Hvf Hino Hoff Hr
    Hfit Hbuf Hfuel.
  - exists buffer. rewrite read_loop_skip by lia.
    replace (to_read - read) with 0 by lia.
    rewrite Z.add_0_r, move_offset_id.
    split; [done|]. split; [done|]. split; [done|]. intros k Hk. lia.
  - destruct (decide (to_read <= read)) as [Hdone|Hmore].
    { exists buffer. rewrite read_loop_skip by lia.
      replace (to_read - read) with 0 by lia.
      rewrite Z.add_0_r, move_offset_id.
      split; [done|]. split; [done|]. split; [done|]. intros k Hk. lia. }
    cbn [read_loop]. replace (read <? to_read) with true by lia.
    rewrite bind_gets, Hino.
    set (off := of_offset (entry_at s fhandle)) in *.
    rewrite bind_gets.
    pose proof (Z.mod_pos_bound off BLOCK_SIZE Hbs) as Hmod.
    assert (BLOCK_SIZE <> 0) as Hnz by lia.
    pose proof (Z.div_mod off BLOCK_SIZE Hnz) as Hdm.
    rewrite Z.mul_comm in Hdm.
    assert (0 <= off / BLOCK_SIZE < i_data_block_count (inode_at s i)) as Hbi.
    { split; [apply Z.div_pos; lia|]. apply Z.div_lt_upper_bound; lia. }
    pose proof (get_block_nonneg s i _ Hwf Hbi) as Hb.
    set (b := inode_get_block_unsafe s i (off / BLOCK_SIZE)) in *.
    replace (b =? -1) with false by lia.
    unfold data_block_get.
    replace (valid_block_number b) with true
      by (symmetry; by apply valid_block_number_range).
    cbn [negb].
    set (n := if off mod BLOCK_SIZE + to_read - read <? BLOCK_SIZE
              then to_read - read else BLOCK_SIZE - off mod BLOCK_SIZE).
    assert (0 < n /\ off mod BLOCK_SIZE + n <= BLOCK_SIZE
            /\ n <= to_read - read) as (Hn0 & Hn1 & Hn2).
    { subst n.
      destruct (off mod BLOCK_SIZE + to_read - read <? BLOCK_SIZE) eqn:E; lia. }
    rewrite bind_gets, bind_modify.
    set (bytes := load_bytes (fs_data s) (b * BLOCK_SIZE + off mod BLOCK_SIZE) n).
    assert (b * BLOCK_SIZE + BLOCK_SIZE <= Z.of_nat (length (fs_data s))) as Hmem.
    { rewrite (shape_fs_data s Hsh). nia. }
    assert (length bytes = Z.to_nat n) as Hlen
      by (apply length_load_bytes; nia).
    set (s' := upd_entry fhandle _ s).
    assert (same_fs s s') as Hsame by (by constructor).
    assert (entry_at s' fhandle = set_of_offset (off + n) (entry_at s fhandle))
      as He'.
    { subst s'. unfold upd_entry, entry_at. snorm.
      rewrite sel_upd_eq; [done|]. by apply entry_in_range. }
    destruct (IH s' (read + n) (memcpy buffer read bytes))
      as (buffer1 & Hrun & Hlen1 & Hkeep & Hnew).
    + subst s'. constructor; unfold upd_entry; snorm; rewrite ?length_upd;
        apply Hsh.
    + by apply (same_fs_wf s).
    + done.
    + by rewrite He'.
    + rewrite He'. cbn [of_offset set_of_offset]. lia.
    + lia.
    + rewrite He', (same_fs_inode _ _ _ Hsame). cbn [of_offset set_of_offset].
      lia.
    + by rewrite length_memcpy.
    + lia.
    + exists buffer1. split; [|split; [|split]].
      * rewrite Hrun. do 2 f_equal.
        pose proof (move_offset_twice s fhandle (off + n)
                      (of_offset (entry_at s' fhandle) + (to_read - (read + n)))
                      Hsh Hvf) as E.
        cbn zeta in E. etransitivity; [exact E|].
        rewrite He'. cbn [of_offset set_of_offset].
        by replace (off + n + (to_read - (read + n)))
          with (off + (to_read - read)) by lia.
      * by rewrite Hlen1, length_memcpy.
      * intros k Hk0 Hk. rewrite Hkeep by lia.
        apply sel_memcpy_out; lia.
      * intros k Hk. destruct (decide (k < read + n)) as [Hin|Hout].
        -- rewrite Hkeep by lia.
           rewrite sel_memcpy_in by lia. subst bytes.
           rewrite sel_load_bytes by nia.
           unfold file_byte.
           destruct (div_mod_block off (k - read) Hbs) as [-> ->]; [lia..|].
           fold b. f_equal. lia.
        -- rewrite Hnew by lia. rewrite (same_fs_file_byte _ _ _ _ Hsame).
           rewrite He'. cbn [of_offset set_of_offset]. f_equal. lia.
Qed.

Lemma read_total s fhandle buffer to_read :
  shape s -> valid_file_handle fhandle = true ->
  wf_file s (of_inumber (entry_at s fhandle)) ->
  sel (lk_of (locks s)) fhandle = false ->
  sel (lk_inode (locks s)) (of_inumber (entry_at s fhandle)) = RwFree ->
  0 <= start_offset s fhandle
  <= i_size (inode_at s (of_inumber (entry_at s fhandle))) ->
  0 <= to_read <= Z.of_nat (length buffer) ->
  exists buffer1,
    read_from_open_file fhandle buffer to_read s
    = Some ((Z.min to_read
               (i_size (inode_at s (of_inumber (entry_at s fhandle)))
                - start_offset s fhandle),
             buffer1),
            set_open_file_table
              (upd (open_file_table s) fhandle
                 (set_of_offset
                    (start_offset s fhandle
                     + Z.min to_read
                         (i_size (inode_at s (of_inumber (entry_at s fhandle)))
                          - start_offset s fhandle))
                    (entry_at s fhandle))) s)
    /\ length buffer1 = length buffer
    /\ (forall k,
          0 <= k < Z.min to_read
                     (i_size (inode_at s (of_inumber (entry_at s fhandle)))
                      - start_offset s fhandle) ->
          sel buffer1 k
          = file_byte s (of_inumber (entry_at s fhandle))
                      (start_offset s fhandle + k))
    /\ (forall k,
          Z.min to_read
                (i_size (inode_at s (of_inumber (entry_at s fhandle)))
                 - start_offset s fhandle) <= k ->
          sel buffer1 k = sel buffer k).
Proof.
  intros Hsh Hvf Hwf Hm Hrw Hoff Hn.
  pose proof (wf_valid _ _ Hwf) as Hvi.
  pose proof (wf_size _ _ Hwf) as Hsz.
  set (i := of_inumber (entry_at s fhandle)) in *.
  set (off := start_offset s fhandle) in *.
  unfold read_from_open_file. rewrite Hvf. cbn [negb].
  rewrite (bind_run _ _ _ _ _ (mutex_lock_run (of_mutex fhandle) s Hm)).
  rewrite bind_gets.
  change (of_inumber (entry_at (set_locks _ s) fhandle)) with i.
  unfold inode_get. rewrite Hvi. cbn [negb].
  erewrite (enter_loop s fhandle false) by done. fold i off.
  replace (i_size (inode_at s i) <? off) with false by lia.
  replace (if i_size (inode_at s i) - off <? to_read
           then i_size (inode_at s i) - off else to_read)
    with (Z.min to_read (i_size (inode_at s i) - off))
    by (case_match; lia).
  set (n := Z.min to_read (i_size (inode_at s i) - off)) in *.
  assert (0 <= n <= to_read) as Hnr by (subst n; lia).
  set (s_c := at_loop s fhandle (RwRead 0)).
  pose proof (at_loop_same_fs s fhandle (RwRead 0)) as Hsame. fold s_c in Hsame.
  pose proof (at_loop_shape s fhandle (RwRead 0) Hsh) as Hsh_c. fold s_c in Hsh_c.
  pose proof (at_loop_entry s fhandle (RwRead 0) Hsh Hvf) as He_c.
  fold s_c off in He_c.
  destruct (read_loop_total i fhandle n (Z.to_nat n) s_c 0 buffer)
    as (buffer1 & Hrun & Hlen & Hkeep & Hnew); try done.
  { by apply (same_fs_wf s). }
  { by rewrite He_c. }
  { rewrite He_c. cbn [of_offset set_of_offset]. lia. }
  { lia. }
  { rewrite He_c, (same_fs_inode _ _ _ Hsame). cbn [of_offset set_of_offset].
    subst n. lia. }
  { lia. }
  { lia. }
  rewrite (bind_run _ _ _ _ _ Hrun). cbn [fst snd negb].
  unfold pthread_rwlock_unlock, pthread_mutex_unlock.
  rewrite !bind_modify.
  exists buffer1. split; [|split; [done|split]].
  - unfold ret. do 2 f_equal. rewrite !locks_set_locks.
    match goal with
    | |- context [set_mutex _ false (set_rwlock i (rwlock_release (sel (lk_inode ?l) i)) ?l)] =>
        rewrite (unlock_both s fhandle i (RwRead 0) l Hsh Hm Hrw Hvi eq_refl)
          by reflexivity
    end.
    rewrite He_c, Z.sub_0_r. cbn [of_offset set_of_offset].
    subst s_c. unfold at_loop. snorm. rewrite upd_upd_eq.
    by destruct s.
  - intros k Hk. rewrite Hnew by lia.
    rewrite (same_fs_file_byte _ _ _ _ Hsame), He_c.
    cbn [of_offset set_of_offset]. f_equal. lia.
  - intros k Hk. apply Hkeep; lia.
Qed.

End Proofs.

Section Proofs.
Context {cfg : Config}.
Hypothesis cfg_ok : config_ok.

(** ** Lookup, open and close *)

Lemma rwlock_read_restore s i :
  shape s -> valid_inumber i = true ->
  sel (lk_inode (locks s)) i = RwFree ->
  set_locks
    (set_rwlock i
       (rwlock_release
          (sel (lk_inode (set_rwlock i (RwRead 0) (locks s))) i))
       (set_rwlock i (RwRead 0) (locks s))) s = s.
Proof.
  intros Hsh Hv Hfree. snorm.
  rewrite sel_upd_eq.
  2: { rewrite (shape_lk_inode s Hsh). apply valid_inumber_range in Hv. lia. }
  cbn [rwlock_release]. unfold set_rwlock. snorm.
  rewrite upd_upd_eq, (upd_same _ _ _ Hfree).
  rewrite locks_eta. by destruct s.
Qed.

Lemma find_in_dir_run s inumber name :
  shape s -> valid_inumber inumber = true ->
  sel (lk_inode (locks s)) inumber = RwFree ->
  find_in_dir inumber name s = Some (find_in_dir_unsafe s inumber name, s).
Proof.
  intros Hsh Hv Hfree. unfold find_in_dir. rewrite Hv. cbn [negb].
  apply valid_inumber_range in Hv as Hvr.
  erewrite bind_run.
  2: { apply rdlock_run; [lia | rewrite (shape_lk_inode s Hsh); lia | done]. }
  rewrite bind_gets.
  change (find_in_dir_unsafe (set_locks _ s) inumber name)
    with (find_in_dir_unsafe s inumber name).
  unfold pthread_rwlock_unlock.
  destruct (_ =? -1) eqn:E; rewrite bind_modify; unfold ret;
    rewrite locks_set_locks;
    change (set_locks ?l (set_locks _ s)) with (set_locks l s);
    rewrite rwlock_read_restore by done.
  - apply Z.eqb_eq in E. by rewrite E.
  - done.
Qed.

Lemma table_mutex_restore s b :
  lk_open_file_table (locks s) = false ->
  set_mutex open_file_table_mutex false
    (set_mutex open_file_table_mutex b (locks s)) = locks s.
Proof. intros H. snorm. rewrite <- H. apply locks_eta. Qed.

Lemma remove_from_open_file_table_run s fhandle :
  valid_file_handle fhandle = true ->
  sel (free_open_file_entries s) fhandle = TAKEN ->
  lk_open_file_table (locks s) = false ->
  remove_from_open_file_table fhandle s
  = Some (0, set_open_file_count (open_file_count s - 1)
               (set_free_open_file_entries
                  (upd (free_open_file_entries s) fhandle FREE) s)).
Proof.
  intros Hv Ht Hlk. unfold remove_from_open_file_table.
  rewrite (bind_run _ _ _ _ _ (mutex_lock_run open_file_table_mutex s Hlk)).
  rewrite bind_gets.
  change (free_open_file_entries (set_locks _ s)) with (free_open_file_entries s).
  rewrite Hv, Ht. cbn [negb orb]. rewrite bool_decide_eq_true_2 by done.
  cbn [negb]. rewrite !bind_modify, bind_gets.
  unfold pthread_cond_signal, pthread_mutex_unlock.
  pose proof (table_mutex_restore s true Hlk) as E.
  destruct (_ =? 0); rewrite ?bind_ret, bind_modify; unfold ret; snorm;
    rewrite E; by destruct s.
Qed.

Lemma add_to_open_file_table_run s inumber append g :
  lk_open_file_table (locks s) = false ->
  first_free (free_open_file_entries s) (Z.to_nat MAX_OPEN_FILES) 0 = Some g ->
  add_to_open_file_table inumber append s
  = Some (g, set_open_file_count (open_file_count s + 1)
               (set_open_file_table
                  (upd (open_file_table s) g (mk_entry inumber append 0))
                  (set_free_open_file_entries
                     (upd (free_open_file_entries s) g TAKEN) s))).
Proof.
  intros Hlk Hg. unfold add_to_open_file_table.
  rewrite (bind_run _ _ _ _ _ (mutex_lock_run open_file_table_mutex s Hlk)).
  rewrite bind_gets.
  change (free_open_file_entries (set_locks _ s)) with (free_open_file_entries s).
  rewrite Hg. rewrite !bind_modify. unfold pthread_mutex_unlock.
  rewrite bind_modify. unfold ret. snorm.
  pose proof (table_mutex_restore s true Hlk) as E. snorm. rewrite E.
  by destruct s.
Qed.

Lemma add_to_open_file_table_full s inumber append :
  lk_open_file_table (locks s) = false ->
  first_free (free_open_file_entries s) (Z.to_nat MAX_OPEN_FILES) 0 = None ->
  add_to_open_file_table inumber append s = Some (-1, s).
Proof.
  intros Hlk Hg. unfold add_to_open_file_table.
  rewrite (bind_run _ _ _ _ _ (mutex_lock_run open_file_table_mutex s Hlk)).
  rewrite bind_gets.
  change (free_open_file_entries (set_locks _ s)) with (free_open_file_entries s).
  rewrite Hg. unfold pthread_mutex_unlock.
  rewrite bind_modify. unfold ret. snorm.
  pose proof (table_mutex_restore s true Hlk) as E. snorm. rewrite E.
  by destruct s.
Qed.

Lemma dir_entry_bounds k :
  0 <= k < MAX_DIR_ENTRIES ->
  0 <= k * SIZEOF_DIR_ENTRY /\
  MAX_FILE_NAME <= D_INUMBER_OFFSET /\
  k * SIZEOF_DIR_ENTRY + SIZEOF_DIR_ENTRY <= BLOCK_SIZE.
Proof.
  intros Hk. pose proof (MAX_FILE_NAME_pos cfg_ok) as Hn.
  pose proof (BLOCK_SIZE_pos cfg_ok) as Hbs.
  assert (MAX_FILE_NAME <= D_INUMBER_OFFSET) as Hoff.
  { unfold D_INUMBER_OFFSET.
    pose proof (Z.div_mod (MAX_FILE_NAME + 3) 4 ltac:(done)).
    pose proof (Z.mod_pos_bound (MAX_FILE_NAME + 3) 4 ltac:(done)). lia. }
  assert (0 < SIZEOF_DIR_ENTRY) as Hs by (unfold SIZEOF_DIR_ENTRY, SIZEOF_INT; lia).
  assert (MAX_DIR_ENTRIES * SIZEOF_DIR_ENTRY <= BLOCK_SIZE) as Hm.
  { unfold MAX_DIR_ENTRIES. rewrite Z.mul_comm. apply Z.mul_div_le. lia. }
  split; [nia|]. split; [done|]. nia.
Qed.

Lemma find_entry_ext mem1 mem2 q name n : forall i0,
  0 <= q -> 0 <= i0 -> i0 + Z.of_nat n <= MAX_DIR_ENTRIES ->
  length mem1 = length mem2 ->
  (forall a, block_region q a -> sel mem1 a = sel mem2 a) ->
  find_entry mem1 (q * BLOCK_SIZE) name n i0
  = find_entry mem2 (q * BLOCK_SIZE) name n i0.
Proof.
  pose proof (BLOCK_SIZE_pos cfg_ok) as Hbs.
  pose proof (MAX_FILE_NAME_pos cfg_ok) as Hmfn.
  induction n as [|n IH]; intros i0 Hq Hi0 Hfit Hlen Hext; [done|].
  cbn [find_entry].
  destruct (dir_entry_bounds i0) as (Hk0 & Hoff & Hk1); [lia|].
  assert (0 <= q * BLOCK_SIZE) as Hqb by nia.
  assert (d_inumber mem1 (q * BLOCK_SIZE) i0 = d_inumber mem2 (q * BLOCK_SIZE) i0)
    as ->.
  { unfold d_inumber, load_int. f_equal.
    apply load_bytes_ext; [lia | done |].
    intros a Ha. apply Hext. unfold block_region.
    unfold SIZEOF_DIR_ENTRY, SIZEOF_INT in *. lia. }
  assert (d_name mem1 (q * BLOCK_SIZE) i0 = d_name mem2 (q * BLOCK_SIZE) i0)
    as ->.
  { unfold d_name. apply load_bytes_ext; [lia | done |].
    intros a Ha. apply Hext. unfold block_region.
    unfold SIZEOF_DIR_ENTRY, SIZEOF_INT in *. lia. }
  rewrite IH; [done | done | lia | lia | done | done].
Qed.

Lemma find_in_dir_unsafe_ext s s1 inumber name :
  inode_at s1 inumber = inode_at s inumber ->
  length (fs_data s1) = length (fs_data s) ->
  (forall a, block_region (sel (i_data_block (inode_at s inumber)) 0) a ->
             sel (fs_data s1) a = sel (fs_data s) a) ->
  find_in_dir_unsafe s1 inumber name = find_in_dir_unsafe s inumber name.
Proof.
  intros Hi Hlen Hext. unfold find_in_dir_unsafe. rewrite Hi.
  destruct (negb _); [done|].
  unfold data_block_get.
  destruct (valid_block_number _) eqn:Hv; [|done]. cbn [negb].
  apply valid_block_number_range in Hv.
  apply find_entry_ext; try done; try lia.
  pose proof (dir_entry_bounds 0). unfold MAX_DIR_ENTRIES.
  assert (0 <= BLOCK_SIZE / SIZEOF_DIR_ENTRY).
  { apply Z.div_pos; [pose proof (BLOCK_SIZE_pos cfg_ok); lia|].
    pose proof (MAX_FILE_NAME_pos cfg_ok).
    unfold SIZEOF_DIR_ENTRY, D_INUMBER_OFFSET, SIZEOF_INT.
    pose proof (Z.div_pos (MAX_FILE_NAME + 3) 4). lia. }
  lia.
Qed.

Lemma root_valid : valid_inumber ROOT_DIR_INUM = true.
Proof.
  apply valid_inumber_range. pose proof (INODE_TABLE_SIZE_pos cfg_ok).
  unfold ROOT_DIR_INUM. lia.
Qed.

(** [tfs_open] without flags on a path that names a file. *)
Lemma tfs_open_lookup_run s name g :
  shape s -> valid_pathname name = true ->
  sel (lk_inode (locks s)) ROOT_DIR_INUM = RwFree ->
  lk_open_file_table (locks s) = false ->
  find_in_dir_unsafe s ROOT_DIR_INUM (tl name) <> -1 ->
  first_free (free_open_file_entries s) (Z.to_nat MAX_OPEN_FILES) 0 = Some g ->
  tfs_open name 0 s
  = Some (g, set_open_file_count (open_file_count s + 1)
               (set_open_file_table
                  (upd (open_file_table s) g
                     (mk_entry (find_in_dir_unsafe s ROOT_DIR_INUM (tl name)) 0 0))
                  (set_free_open_file_entries
                     (upd (free_open_file_entries s) g TAKEN) s))).
Proof.
  intros Hsh Hvp Hrw Hlk Hfound Hg. unfold tfs_open. rewrite Hvp. cbn [negb].
  rewrite !Z.land_0_l. cbn [Z.eqb negb].
  unfold tfs_lookup. rewrite Hvp. cbn [negb].
  rewrite (bind_run _ _ _ _ _
             (find_in_dir_run s ROOT_DIR_INUM (tl name) Hsh root_valid Hrw)).
  apply Z.eqb_neq in Hfound as ->. rewrite bind_ret. cbn [negb].
  by apply add_to_open_file_table_run.
Qed.

End Proofs.

Section Proofs.
Context {cfg : Config}.
Hypothesis cfg_ok : config_ok.

Lemma locks_free_of s fhandle :
  locks_free s -> valid_file_handle fhandle = true ->
  sel (lk_of (locks s)) fhandle = false.
Proof.
  intros -> Hv. apply valid_file_handle_range in Hv. cbn.
  apply sel_replicate. lia.
Qed.

Lemma locks_free_inode s i :
  locks_free s -> valid_inumber i = true ->
  sel (lk_inode (locks s)) i = RwFree.
Proof.
  intros -> Hv. apply valid_inumber_range in Hv. cbn.
  apply sel_replicate. lia.
Qed.

Lemma locks_free_data s : locks_free s -> lk_data_blocks (locks s) = false.
Proof. by intros ->. Qed.

Lemma locks_free_table s : locks_free s -> lk_open_file_table (locks s) = false.
Proof. by intros ->. Qed.

Lemma locks_free_inode_table s :
  locks_free s -> lk_inode_table (locks s) = false.
Proof. by intros ->. Qed.

Lemma locks_free_eq s s1 : locks s1 = locks s -> locks_free s -> locks_free s1.
Proof. unfold locks_free. congruence. Qed.

Lemma drop_take_sel (data buffer : list Z) (off n : Z) :
  0 <= off -> 0 <= n ->
  length data = Z.to_nat (off + n) ->
  n <= Z.of_nat (length buffer) ->
  (forall k, 0 <= k < n -> sel data (off + k) = sel buffer k) ->
  drop (Z.to_nat off) data = take (Z.to_nat n) buffer.
Proof.
  intros Hoff Hn Hlen Hbuf Hsel. apply list_eq. intros j.
  rewrite lookup_drop.
  destruct (decide (j < Z.to_nat n)%nat) as [Hj|Hj].
  - rewrite lookup_take_lt by done.
    rewrite !list_lookup_lookup_total_lt by lia. f_equal.
    specialize (Hsel (Z.of_nat j) ltac:(lia)). unfold sel in Hsel.
    replace (Z.to_nat (off + Z.of_nat j)) with (Z.to_nat off + j)%nat in Hsel
      by lia.
    by rewrite Nat2Z.id in Hsel.
  - rewrite lookup_take_ge by lia. apply lookup_ge_None_2. lia.
Qed.

(** C1 (as amended). After a write through a handle that started at
    offset [off] and returned [n], closing the handle, opening the path
    again and reading [off + n] bytes returns [off + n] bytes whose last
    [n] are the first [n] bytes of the buffer written; when the write
    started at offset 0 these are all the bytes read. *)
Theorem write_read_roundtrip s path fhandle buffer to_write n s1 rbuf :
  shape s -> locks_free s ->
  valid_pathname path = true ->
  valid_file_handle fhandle = true ->
  sel (free_open_file_entries s) fhandle = TAKEN ->
  wf_file s (of_inumber (entry_at s fhandle)) ->
  find_in_dir_unsafe s ROOT_DIR_INUM (tl path) = of_inumber (entry_at s fhandle) ->
  of_inumber (entry_at s fhandle) <> ROOT_DIR_INUM ->
  protected s (of_inumber (entry_at s fhandle))
            (sel (i_data_block (inode_at s ROOT_DIR_INUM)) 0) ->
  0 <= start_offset s fhandle
  <= i_size (inode_at s (of_inumber (entry_at s fhandle))) ->
  0 <= to_write <= Z.of_nat (length buffer) ->
  tfs_write fhandle buffer to_write s = Some (n, s1) ->
  n <> -1 ->
  length rbuf = Z.to_nat (start_offset s fhandle + n) ->
  exists s2 g s3 data s4,
    tfs_close fhandle s1 = Some (0, s2)
    /\ tfs_open path 0 s2 = Some (g, s3) /\ g <> -1
    /\ tfs_read g rbuf (start_offset s fhandle + n) s3
       = Some ((start_offset s fhandle + n, data), s4)
    /\ drop (Z.to_nat (start_offset s fhandle)) data
       = take (Z.to_nat n) buffer.
Proof.
  intros Hsh Hlf Hvp Hvf Htaken Hwf Hfind Hnroot Hprot Hoff Hlen Hwrite Hn Hrbuf.
  set (i := of_inumber (entry_at s fhandle)) in *.
  set (off := start_offset s fhandle) in *.
  pose proof (wf_valid _ _ Hwf) as Hvi.
  apply valid_inumber_range in Hvi as Hvir.
  apply valid_file_handle_range in Hvf as Hvfr.
  (* the write *)
  destruct (write_total cfg_ok s fhandle buffer to_write Hsh Hvf Hwf)
    as (r & s1' & Hrun & Hok & _); try done.
  { by apply locks_free_of. }
  { by apply locks_free_inode. }
  { by apply locks_free_data. }
  unfold tfs_write in Hwrite. rewrite Hwrite in Hrun.
  injection Hrun as <- <-.
  destruct (Hok Hn) as [Hmin Hwo]. clear Hok. fold i off in Hmin.
  assert (0 <= n <= to_write) as Hnr.
  { pose proof (clamp_write cfg_ok s fhandle to_write Hwf Hoff) as [_ H]; lia. }
  pose proof (wo_shape _ _ _ _ _ Hwo) as Hsh1.
  pose proof (wo_wf _ _ _ _ _ Hwo) as Hwf1. fold i in Hwf1.
  pose proof (locks_free_eq _ _ (wo_locks _ _ _ _ _ Hwo) Hlf) as Hlf1.
  (* the close *)
  set (s2 := set_open_file_count (open_file_count s1 - 1)
               (set_free_open_file_entries
                  (upd (free_open_file_entries s1) fhandle FREE) s1)).
  assert (tfs_close fhandle s1 = Some (0, s2)) as Hclose.
  { apply remove_from_open_file_table_run; [done | | by apply locks_free_table].
    by rewrite (wo_free_open_file_entries _ _ _ _ _ Hwo). }
  assert (same_fs s1 s2) as Hsame12 by (by constructor).
  assert (shape s2) as Hsh2.
  { destruct Hsh1. constructor; subst s2; snorm; rewrite ?length_upd; done. }
  assert (locks_free s2) as Hlf2 by exact Hlf1.
  (* the lookup of the path *)
  assert (find_in_dir_unsafe s2 ROOT_DIR_INUM (tl path) = i) as Hfind2.
  { rewrite (same_fs_find _ _ _ _ Hsame12), <- Hfind.
    apply (find_in_dir_unsafe_ext cfg_ok).
    - apply (wo_others _ _ _ _ _ Hwo); [done | by fold i].
    - by rewrite (shape_fs_data _ Hsh1), (shape_fs_data _ Hsh).
    - by apply (wo_protected _ _ _ _ _ Hwo). }
  destruct (first_free_exists (free_open_file_entries s2)
              (Z.to_nat MAX_OPEN_FILES) 0 fhandle) as [g Hg]; [lia | |].
  { subst s2. snorm. apply sel_upd_eq.
    rewrite (shape_free_open_file_entries _ Hsh1). lia. }
  pose proof (first_free_Some _ _ _ _ Hg) as (Hgr & _ & _).
  set (s3 := set_open_file_count (open_file_count s2 + 1)
               (set_open_file_table
                  (upd (open_file_table s2) g (mk_entry i 0 0))
                  (set_free_open_file_entries
                     (upd (free_open_file_entries s2) g TAKEN) s2))).
  assert (tfs_open path 0 s2 = Some (g, s3)) as Hopen.
  { rewrite (tfs_open_lookup_run cfg_ok s2 path g); try done.
    - by rewrite Hfind2.
    - apply locks_free_inode; [done | by apply root_valid].
    - by apply locks_free_table.
    - rewrite Hfind2. lia. }
  assert (same_fs s2 s3) as Hsame23 by (by constructor).
  assert (shape s3) as Hsh3.
  { destruct Hsh2. constructor; subst s3; snorm; rewrite ?length_upd; done. }
  assert (valid_file_handle g = true) as Hvg
    by (apply valid_file_handle_range; lia).
  assert (entry_at s3 g = mk_entry i 0 0) as Hentry.
  { subst s3. unfold entry_at. snorm. apply sel_upd_eq.
    rewrite (shape_open_file_table _ Hsh2). lia. }
  (* the read *)
  pose proof (same_fs_trans _ _ _ Hsame12 Hsame23) as Hsame13.
  assert (i_size (inode_at s3 i) = Z.max (i_size (inode_at s i)) (off + n))
    as Hsize.
  { rewrite (same_fs_inode _ _ _ Hsame13). apply (wo_size _ _ _ _ _ Hwo). }
  destruct (read_total cfg_ok s3 g rbuf (off + n) Hsh3 Hvg)
    as (data & Hread & Hdlen & Hbytes & _).
  { rewrite Hentry. by apply (same_fs_wf s1). }
  { apply locks_free_of; [exact Hlf2 | done]. }
  { rewrite Hentry. apply locks_free_inode; [exact Hlf2 | done]. }
  { unfold start_offset. rewrite Hentry. cbn. rewrite Hsize. lia. }
  { lia. }
  assert (start_offset s3 g = 0) as Hstart
    by (unfold start_offset; by rewrite Hentry).
  rewrite Hentry, Hstart in Hread, Hbytes.
  cbn [of_inumber] in Hread, Hbytes. rewrite Hsize in Hread, Hbytes.
  replace (Z.min (off + n) (Z.max (i_size (inode_at s i)) (off + n) - 0))
    with (off + n) in Hread, Hbytes by lia.
  eexists s2, g, s3, data, _.
  split; [exact Hclose|]. split; [exact Hopen|]. split; [lia|].
  split; [exact Hread|].
  apply drop_take_sel; try lia.
  intros k Hk. rewrite Hbytes by lia.
  rewrite Z.add_0_l, (same_fs_file_byte _ _ _ _ Hsame13).
  by apply (wo_bytes _ _ _ _ _ Hwo).
Qed.

End Proofs.

(** ** What the operations change *)

Lemma gets_inv {A} (f : state -> A) s a s1 :
  gets f s = Some (a, s1) -> a = f s /\ s1 = s.
Proof. unfold gets. intros H. by inversion H. Qed.

Lemma modify_inv (f : state -> state) s u s1 :
  modify f s = Some (u, s1) -> s1 = f s.
Proof. unfold modify. intros H. by inversion H. Qed.

(** Decompose the runs [H : m s = Some (r, s1)] of the context along the
    structure of [m], splitting on every test; the runs of operations
    are left as they are. *)
Ltac run_inv :=
  repeat match goal with
    | H : ret _ _ = Some _ |- _ =>
        apply ret_inv in H; destruct H as [? ?]; subst
    | H : gets _ _ = Some _ |- _ =>
        apply gets_inv in H; destruct H as [? ?]; subst
    | H : modify _ _ = Some _ |- _ => apply modify_inv in H; subst
    | H : stuck _ = Some _ |- _ => destruct (stuck_inv _ _ H)
    | H : None = Some _ |- _ => discriminate H
    | H : bind _ _ _ = Some _ |- _ =>
        let a := fresh "a" in
        let s1 := fresh "s" in
        let Hm := fresh "Hrun" in
        apply bind_inv in H as (a & s1 & Hm & H)
    | H : (if ?c then _ else _) _ = Some _ |- _ =>
        let E := fresh "Hc" in destruct c eqn:E
    | H : (match ?c with Some _ => _ | None => _ end) _ = Some _ |- _ =>
        let E := fresh "Hc" in destruct c eqn:E
    end.

(** Equality of two states built from the same state by setters. *)
Ltac state_eq :=
  cbv [set_inode_table set_free_inode_ts set_fs_data set_free_blocks
       set_open_file_table set_free_open_file_entries set_open_file_count
       set_locks];
  cbn [inode_table free_inode_ts fs_data free_blocks open_file_table
       free_open_file_entries open_file_count locks];
  reflexivity.

(** Closes [same_inodes s s1] when [s1] is [s] under setters that keep
    the inodes. *)
Ltac same_inodes_tac :=
  constructor; cbn;
  repeat first [ rewrite length_upd | rewrite length_memcpy
               | rewrite length_store_int | rewrite length_insert ];
  try done.

Section Proofs.
Context {cfg : Config}.
Hypothesis cfg_ok : config_ok.

Lemma data_block_alloc_inv s r s1 :
  data_block_alloc s = Some (r, s1) ->
  lk_data_blocks (locks s) = false /\
  ((first_free (free_blocks s) (Z.to_nat DATA_BLOCKS) 0 = None
    /\ r = -1 /\ s1 = s)
   \/ (first_free (free_blocks s) (Z.to_nat DATA_BLOCKS) 0 = Some r
       /\ s1 = set_free_blocks (upd (free_blocks s) r TAKEN) s)).
Proof.
  intros H.
  assert (lk_data_blocks (locks s) = false) as Hlk.
  { unfold data_block_alloc in H. apply bind_inv in H as (? & ? & Hl & _).
    by apply mutex_lock_inv in Hl as [? _]. }
  split; [done|]. rewrite (data_block_alloc_run s Hlk) in H.
  destruct (first_free _ _ _); injection H as <- <-; eauto.
Qed.

Lemma data_block_free_inv s b r s1 :
  data_block_free b s = Some (r, s1) ->
  (valid_block_number b = false /\ r = -1 /\ s1 = s)
  \/ (valid_block_number b = true /\ r = 0 /\ lk_data_blocks (locks s) = false
      /\ s1 = set_free_blocks (upd (free_blocks s) b FREE) s).
Proof.
  intros H. destruct (valid_block_number b) eqn:Hv.
  - right.
    assert (lk_data_blocks (locks s) = false) as Hlk.
    { unfold data_block_free in H. rewrite Hv in H. cbn [negb] in H.
      apply bind_inv in H as (? & ? & Hl & _).
      by apply mutex_lock_inv in Hl as [? _]. }
    rewrite (data_block_free_valid s b Hlk Hv) in H. injection H as <- <-.
    done.
  - left. rewrite (data_block_free_invalid s b Hv) in H. by injection H as <- <-.
Qed.

Lemma state_rebuild s i :
  set_inode_table (upd (inode_table s) i (inode_at s i))
    (set_fs_data (fs_data s) (set_free_blocks (free_blocks s) s)) = s.
Proof. unfold inode_at. rewrite upd_sel_id. by destruct s. Qed.

(** The effect of [inode_extend_unsafe] on the state, whatever it
    returns: it changes the inode [i], the arena and the allocation map
    only; the inode keeps its type and size, gains at most one block and
    has its indirect reference assigned only at the transition. *)
Lemma extend_inv s i r s1 :
  shape s -> inode_extend_unsafe i s = Some (r, s1) ->
  exists n' mem' fb',
    s1 = set_inode_table (upd (inode_table s) i n')
           (set_fs_data mem' (set_free_blocks fb' s))
    /\ length mem' = length (fs_data s)
    /\ length fb' = length (free_blocks s)
    /\ i_node_type n' = i_node_type (inode_at s i)
    /\ i_size n' = i_size (inode_at s i)
    /\ length (i_data_block n') = length (i_data_block (inode_at s i))
    /\ (i_data_block_count n' = i_data_block_count (inode_at s i)
        \/ (r <> -1
            /\ i_data_block_count n' = i_data_block_count (inode_at s i) + 1
            /\ i_data_block_count (inode_at s i)
               < INODE_DIRECT_REFS + MAX_INDIRECT_REFS))
    /\ (i_data_extension_block n' = i_data_extension_block (inode_at s i)
        \/ i_data_block_count (inode_at s i) = INODE_DIRECT_REFS).
Proof.
  intros Hsh H.
  pose proof (max_indirect_refs_pos cfg_ok) as Hm.
  assert (forall s0, s0 = s ->
    exists n' mem' fb',
      s0 = set_inode_table (upd (inode_table s) i n')
             (set_fs_data mem' (set_free_blocks fb' s))
      /\ length mem' = length (fs_data s)
      /\ length fb' = length (free_blocks s)
      /\ i_node_type n' = i_node_type (inode_at s i)
      /\ i_size n' = i_size (inode_at s i)
      /\ length (i_data_block n') = length (i_data_block (inode_at s i))
      /\ (i_data_block_count n' = i_data_block_count (inode_at s i)
          \/ (r <> -1
              /\ i_data_block_count n' = i_data_block_count (inode_at s i) + 1
              /\ i_data_block_count (inode_at s i)
                 < INODE_DIRECT_REFS + MAX_INDIRECT_REFS))
      /\ (i_data_extension_block n' = i_data_extension_block (inode_at s i)
          \/ i_data_block_count (inode_at s i) = INODE_DIRECT_REFS)) as Hsame.
  { intros s0 ->. exists (inode_at s i), (fs_data s), (free_blocks s).
    rewrite state_rebuild. repeat split; auto. }
  destruct (valid_inumber i) eqn:Hv.
  2: { rewrite extend_not_taken in H by auto. injection H as <- <-. auto. }
  destruct (decide (sel (free_inode_ts s) i = FREE)) as [Hf|Ht].
  { rewrite extend_not_taken in H by auto. injection H as <- <-. auto. }
  assert (sel (free_inode_ts s) i = TAKEN) as Ht'
    by (by destruct (sel (free_inode_ts s) i)).
  assert (lk_data_blocks (locks s) = false) as Hlk.
  { unfold inode_extend_unsafe in H. rewrite bind_gets, Hv, Ht' in H.
    cbn [negb orb] in H. rewrite bool_decide_eq_false_2 in H by done.
    apply bind_inv in H as (? & ? & Ha & _).
    by apply data_block_alloc_inv in Ha as [? _]. }
  destruct (first_free (free_blocks s) (Z.to_nat DATA_BLOCKS) 0) as [b|] eqn:Hb.
  2: { rewrite extend_no_block in H by done. injection H as <- <-. auto. }
  destruct (first_free_valid _ _ Hb) as (Hvb & Hfb & Hne).
  destruct (Z.lt_trichotomy (i_data_block_count (inode_at s i)) INODE_DIRECT_REFS)
    as [Hlt | [Heq | Hgt]].
  - rewrite (extend_direct s i b) in H by done. injection H as <- <-.
    eexists _, (fs_data s), _. split; [state_eq|].
    rewrite !length_upd. cbn. repeat split; auto using length_upd.
    right. lia.
  - destruct (first_free (upd (free_blocks s) b TAKEN) (Z.to_nat DATA_BLOCKS) 0)
      as [e|] eqn:He.
    + rewrite (extend_transition s i b e) in H by done. injection H as <- <-.
      eexists _, _, _. split; [state_eq|].
      rewrite !length_upd, length_store_int. cbn. repeat split; auto.
      right. lia.
    + rewrite (extend_transition_fails s i b) in H by done.
      injection H as <- <-.
      eexists _, (fs_data s), (free_blocks s). split; [state_eq|].
      cbn. repeat split; auto.
  - destruct (decide (i_data_block_count (inode_at s i)
                      < INODE_DIRECT_REFS + MAX_INDIRECT_REFS)) as [Hroom|Hfull].
    + destruct (data_block_get (i_data_extension_block (inode_at s i)))
        as [refs|] eqn:Hrefs.
      * rewrite (extend_indirect s i b refs) in H by (done || lia).
        injection H as <- <-.
        eexists _, _, _. split; [state_eq|].
        rewrite !length_upd, length_store_int. cbn. repeat split; auto.
      * rewrite (extend_indirect_null s i b) in H by (done || lia).
        injection H as <- <-. auto.
    + rewrite extend_full in H by (done || lia). injection H as <- <-. auto.
Qed.

(** ** Operations that leave the inodes alone *)

Lemma same_inodes_refl s : same_inodes s s.
Proof. by constructor. Qed.

Lemma same_inodes_trans s s1 s2 :
  same_inodes s s1 -> same_inodes s1 s2 -> same_inodes s s2.
Proof. intros [] []. constructor; congruence. Qed.

Lemma same_inodes_shape s s1 : same_inodes s s1 -> shape s -> shape s1.
Proof.
  intros [] []. constructor; congruence.
Qed.

Lemma same_inodes_size_inv s s1 : same_inodes s s1 -> size_inv s -> size_inv s1.
Proof.
  intros [E1 E2 _ _ _ _ _ _] H i Hv Ht. unfold inode_at. rewrite E1.
  apply H; [done|]. by rewrite <- E2.
Qed.

Lemma mutex_lock_same s m u s1 :
  pthread_mutex_lock m s = Some (u, s1) -> same_inodes s s1.
Proof.
  intros H. apply mutex_lock_inv in H as [_ ->].
  destruct m; same_inodes_tac.
Qed.

Lemma mutex_unlock_same s m u s1 :
  pthread_mutex_unlock m s = Some (u, s1) -> same_inodes s s1.
Proof.
  intros H. unfold pthread_mutex_unlock, modify in H. injection H as _ <-.
  destruct m; same_inodes_tac.
Qed.

Lemma wrlock_same s i u s1 :
  pthread_rwlock_wrlock i s = Some (u, s1) -> same_inodes s s1.
Proof. intros H. apply wrlock_inv in H as ->. same_inodes_tac. Qed.

Lemma rdlock_same s i u s1 :
  pthread_rwlock_rdlock i s = Some (u, s1) -> same_inodes s s1.
Proof. intros H. apply rdlock_inv in H as [r ->]. same_inodes_tac. Qed.

Lemma rwlock_unlock_same s i u s1 :
  pthread_rwlock_unlock i s = Some (u, s1) -> same_inodes s s1.
Proof.
  intros H. unfold pthread_rwlock_unlock, modify in H. injection H as _ <-.
  same_inodes_tac.
Qed.

Lemma data_block_alloc_same s r s1 :
  data_block_alloc s = Some (r, s1) -> same_inodes s s1.
Proof.
  intros H. apply data_block_alloc_inv in H as [_ [(_ & _ & ->) | (_ & ->)]];
    same_inodes_tac.
Qed.

Lemma data_block_free_same s b r s1 :
  data_block_free b s = Some (r, s1) -> same_inodes s s1.
Proof.
  intros H.
  apply data_block_free_inv in H as [(_ & _ & ->) | (_ & _ & _ & ->)];
    same_inodes_tac.
Qed.

End Proofs.

(** Turn the runs of primitives in the context into [same_inodes] facts. *)
Ltac prim_same :=
  repeat match goal with
    | H : pthread_mutex_lock _ _ = Some _ |- _ => apply mutex_lock_same in H
    | H : pthread_mutex_unlock _ _ = Some _ |- _ => apply mutex_unlock_same in H
    | H : pthread_rwlock_wrlock _ _ = Some _ |- _ => apply wrlock_same in H
    | H : pthread_rwlock_rdlock _ _ = Some _ |- _ => apply rdlock_same in H
    | H : pthread_rwlock_unlock _ _ = Some _ |- _ =>
        apply rwlock_unlock_same in H
    | H : data_block_alloc _ = Some _ |- _ => apply data_block_alloc_same in H
    | H : data_block_free _ _ = Some _ |- _ => apply data_block_free_same in H
    | H : pthread_cond_signal _ = Some _ |- _ =>
        apply ret_inv in H as [_ ->]
    end.

(** Close [same_inodes s s1] by chaining the facts of the context. *)
Ltac chain_same :=
  prim_same;
  repeat (eapply same_inodes_trans; [eassumption|]);
  first [ apply same_inodes_refl | same_inodes_tac ].

Section Proofs.
Context {cfg : Config}.
Hypothesis cfg_ok : config_ok.

Lemma add_to_open_file_table_same s inumber append r s1 :
  add_to_open_file_table inumber append s = Some (r, s1) -> same_inodes s s1.
Proof.
  intros H. unfold add_to_open_file_table, pthread_mutex_unlock in H.
  run_inv; chain_same.
Qed.

Lemma remove_from_open_file_table_same s fhandle r s1 :
  remove_from_open_file_table fhandle s = Some (r, s1) -> same_inodes s s1.
Proof.
  intros H.
  unfold remove_from_open_file_table, pthread_mutex_unlock,
    pthread_cond_signal in H.
  run_inv; chain_same.
Qed.

Lemma find_in_dir_same s inumber name r s1 :
  find_in_dir inumber name s = Some (r, s1) -> same_inodes s s1.
Proof.
  intros H. unfold find_in_dir, pthread_rwlock_unlock in H.
  run_inv; chain_same.
Qed.

Lemma add_dir_entry_unsafe_same s inumber sub_inumber name r s1 :
  add_dir_entry_unsafe inumber sub_inumber name s = Some (r, s1) ->
  same_inodes s s1.
Proof.
  intros H. unfold add_dir_entry_unsafe in H.
  run_inv; chain_same.
Qed.

(** *** Updates of one inode *)

Lemma sel_alias {A} `{!Inhabited A} (l : list A) i j :
  Z.to_nat j = Z.to_nat i -> sel l j = sel l i.
Proof. unfold sel. by intros ->. Qed.

Lemma sel_upd_other {A} `{!Inhabited A} (l : list A) i j x :
  Z.to_nat j <> Z.to_nat i -> sel (upd l i x) j = sel l j.
Proof. intros Hne. unfold sel, upd. by rewrite list_lookup_total_insert_ne. Qed.

Lemma sel_upd_same {A} `{!Inhabited A} (l : list A) i j x :
  Z.to_nat j = Z.to_nat i -> (Z.to_nat i < length l)%nat ->
  sel (upd l i x) j = x.
Proof.
  intros E Hlen. unfold sel, upd. rewrite E.
  by rewrite list_lookup_total_insert_eq.
Qed.

Lemma upd_out {A} (l : list A) i x :
  ~ (Z.to_nat i < length l)%nat -> upd l i x = l.
Proof. intros H. unfold upd. apply list_insert_ge. lia. Qed.

Lemma shape_change s s1 i n' :
  shape s ->
  inode_table s1 = upd (inode_table s) i n' ->
  length (i_data_block n') = length (i_data_block (inode_at s i)) ->
  length (free_inode_ts s1) = length (free_inode_ts s) ->
  length (fs_data s1) = length (fs_data s) ->
  length (free_blocks s1) = length (free_blocks s) ->
  length (open_file_table s1) = length (open_file_table s) ->
  length (free_open_file_entries s1) = length (free_open_file_entries s) ->
  length (lk_inode (locks s1)) = length (lk_inode (locks s)) ->
  length (lk_of (locks s1)) = length (lk_of (locks s)) ->
  shape s1.
Proof.
  intros Hsh E1 Hn E2 E3 E4 E5 E6 E7 E8.
  constructor; rewrite ?E1, ?E2, ?E3, ?E4, ?E5, ?E6, ?E7, ?E8; try lens Hsh.
  destruct (decide (Z.to_nat i < length (inode_table s))%nat) as [Hin|Hout].
  - apply Forall_insert; [apply (shape_i_data_block _ Hsh)|].
    rewrite Hn. unfold inode_at, sel.
    destruct (lookup_lt_is_Some_2 _ _ Hin) as [n Hl].
    rewrite (list_lookup_total_correct _ _ _ Hl).
    eapply (proj1 (Forall_lookup _ _) (shape_i_data_block _ Hsh)); eauto.
  - rewrite upd_out by done. apply (shape_i_data_block _ Hsh).
Qed.

Lemma size_inv_change s s1 i n' :
  shape s -> size_inv s ->
  inode_table s1 = upd (inode_table s) i n' ->
  (forall j, valid_inumber j = true -> Z.to_nat j <> Z.to_nat i ->
     sel (free_inode_ts s1) j = TAKEN -> sel (free_inode_ts s) j = TAKEN) ->
  (forall j, valid_inumber j = true -> Z.to_nat j = Z.to_nat i ->
     sel (free_inode_ts s1) j = TAKEN ->
     i_size n' <= i_data_block_count n' * BLOCK_SIZE
     /\ i_data_block_count n' <= INODE_DIRECT_REFS + MAX_INDIRECT_REFS) ->
  size_inv s1.
Proof.
  intros Hsh Hinv E Hother Hsame j Hv Ht.
  pose proof (BLOCK_SIZE_pos cfg_ok) as Hbs.
  unfold inode_at. rewrite E.
  destruct (decide (Z.to_nat j = Z.to_nat i)) as [Ej|Ej].
  - pose proof (inode_in_range s j Hsh Hv) as Hin. rewrite Ej in Hin.
    rewrite sel_upd_same by done.
    destruct (Hsame j Hv Ej Ht) as [H1 H2]. unfold MAX_FILE_SIZE.
    repeat split; [done | nia | done].
  - rewrite sel_upd_other by done. apply Hinv; auto.
Qed.

Lemma same_inodes_fs_inv s s1 : same_inodes s s1 -> fs_inv s -> fs_inv s1.
Proof.
  intros H [H1 H2]. split;
    eauto using same_inodes_shape, same_inodes_size_inv.
Qed.

(** What [inode_extend_unsafe] leaves as it is. *)
Lemma extend_frame s i r s1 :
  shape s -> inode_extend_unsafe i s = Some (r, s1) ->
  free_inode_ts s1 = free_inode_ts s
  /\ open_file_table s1 = open_file_table s
  /\ free_open_file_entries s1 = free_open_file_entries s
  /\ open_file_count s1 = open_file_count s
  /\ locks s1 = locks s
  /\ (forall j, i_size (inode_at s1 j) = i_size (inode_at s j))
  /\ (forall j, i_node_type (inode_at s1 j) = i_node_type (inode_at s j))
  /\ (forall j, i_data_block_count (inode_at s j)
                <= i_data_block_count (inode_at s1 j)).
Proof.
  intros Hsh H.
  destruct (extend_inv cfg_ok s i r s1 Hsh H)
    as (n' & mem' & fb' & -> & _ & _ & Ht & Hs & _ & Hc & _).
  repeat split; try done; intros j; unfold inode_at;
    cbn [inode_table set_inode_table];
    (destruct (decide (Z.to_nat j = Z.to_nat i)) as [Ej|Ej];
     [ destruct (decide (Z.to_nat i < length (inode_table s))%nat);
       [ rewrite sel_upd_same by done; rewrite (sel_alias _ _ _ Ej)
       | rewrite upd_out by done ]
     | rewrite sel_upd_other by done ]); try done; unfold inode_at in *; lia.
Qed.

Lemma extend_fs_inv s i r s1 :
  fs_inv s -> inode_extend_unsafe i s = Some (r, s1) -> fs_inv s1.
Proof.
  intros [Hsh Hinv] H.
  destruct (extend_inv cfg_ok s i r s1 Hsh H)
    as (n' & mem' & fb' & -> & Hm & Hf & _ & Hs & Hl & Hc & _).
  split.
  - eapply (shape_change s _ i n'); try done.
  - eapply (size_inv_change s _ i n'); try done.
    intros j Hv Ej Ht. cbn in Ht.
    destruct (Hinv j Hv Ht) as (H1 & H2 & H3).
    unfold inode_at in *. rewrite (sel_alias _ _ _ Ej) in H1, H2, H3.
    pose proof (BLOCK_SIZE_pos cfg_ok). destruct Hc as [Hc|Hc]; [|nia].
    rewrite Hc, Hs. done.
Qed.

End Proofs.

(** Push [fs_inv] forward along the runs of the context. *)
Ltac same_fs_inv :=
  prim_same;
  repeat match goal with
    | Hi : fs_inv ?s, H : same_inodes ?s ?s1 |- _ =>
        apply (same_inodes_fs_inv _ _ H) in Hi; clear H
    end.

Section Proofs.
Context {cfg : Config}.
Hypothesis cfg_ok : config_ok.

Lemma length_clear_dir_entries n i dir_entry mem :
  length (clear_dir_entries n i dir_entry mem) = length mem.
Proof.
  revert i mem. induction n as [|n IH]; intros i mem; simpl; [done|].
  by rewrite IH, length_store_int.
Qed.

(** *** The setters of the inode table *)

Lemma fs_inv_take s i t :
  fs_inv s ->
  fs_inv (upd_inode i (fun n => set_i_data_block_count 0
                                  (set_i_size 0 (set_i_node_type t n)))
            (set_inode_state i TAKEN s)).
Proof.
  intros [Hsh Hinv]. split.
  - eapply (shape_change s _ i); try done; cbn; by rewrite ?length_upd.
  - eapply (size_inv_change cfg_ok s _ i); try done.
    + intros j Hv Ej Ht. cbn in Ht. by rewrite sel_upd_other in Ht.
    + intros j Hv Ej Ht. cbn.
      pose proof (max_indirect_refs_pos cfg_ok).
      pose proof (INODE_DIRECT_REFS_pos cfg_ok). lia.
Qed.

Lemma fs_inv_release s i : fs_inv s -> fs_inv (set_inode_state i FREE s).
Proof.
  intros [Hsh Hinv]. split.
  - eapply (shape_change s _ i (inode_at s i)); try done; cbn;
      rewrite ?length_upd; try done.
    unfold inode_at. by rewrite upd_sel_id.
  - eapply (size_inv_change cfg_ok s _ i (inode_at s i)); try done.
    + cbn. unfold inode_at. by rewrite upd_sel_id.
    + intros j Hv Ej Ht. cbn in Ht. by rewrite sel_upd_other in Ht.
    + intros j Hv Ej Ht. cbn in Ht.
      rewrite sel_upd_same in Ht; [done | done |].
      rewrite (shape_free_inode_ts s Hsh), <- (shape_inode_table s Hsh).
      rewrite <- Ej. by apply inode_in_range.
Qed.

Lemma fs_inv_reset s i :
  fs_inv s ->
  fs_inv (upd_inode i (fun n => set_i_data_block_count 0 (set_i_size 0 n)) s).
Proof.
  intros [Hsh Hinv]. split.
  - eapply (shape_change s _ i); try done.
  - eapply (size_inv_change cfg_ok s _ i); try done.
    intros j Hv Ej Ht. cbn.
    pose proof (max_indirect_refs_pos cfg_ok).
    pose proof (INODE_DIRECT_REFS_pos cfg_ok). lia.
Qed.

Lemma fs_inv_set_size s i v :
  fs_inv s ->
  v <= i_data_block_count (inode_at s i) * BLOCK_SIZE ->
  fs_inv (upd_inode i (set_i_size v) s).
Proof.
  intros [Hsh Hinv] Hle. split.
  - eapply (shape_change s _ i); try done.
  - eapply (size_inv_change cfg_ok s _ i); try done.
    intros j Hv Ej Ht. cbn in *. split; [done|].
    destruct (Hinv j Hv Ht) as (_ & _ & H3).
    unfold inode_at in *. by rewrite (sel_alias _ _ _ Ej) in H3.
Qed.

(** *** Creation, truncation and deletion of inodes *)

Lemma inode_create_unsafe_fs_inv s t r s1 :
  fs_inv s -> inode_create_unsafe t s = Some (r, s1) -> fs_inv s1.
Proof.
  intros Hi H. unfold inode_create_unsafe in H. run_inv.
  all: try match goal with
    | H : inode_extend_unsafe _ ?st = Some _ |- _ =>
        let Hi' := fresh in
        assert (fs_inv st) as Hi' by (by apply fs_inv_take);
        apply (extend_fs_inv cfg_ok _ _ _ _ Hi') in H
    end.
  all: try by apply fs_inv_release.
  all: try by apply fs_inv_take.
  all: try done.
  match goal with H : fs_inv ?s |- fs_inv (set_fs_data _ ?s) => revert H end.
  apply same_inodes_fs_inv. constructor; try done.
  unfold set_fs_data. cbn [fs_data]. by rewrite length_clear_dir_entries.
Qed.

Lemma clear_direct_loop_same fuel i k s r s1 :
  clear_direct_loop fuel i k s = Some (r, s1) -> same_inodes s s1.
Proof.
  revert k s. induction fuel as [|fuel IH]; intros k s H; simpl in H.
  - by destruct (stuck_inv _ _ H).
  - run_inv;
      try match goal with
        | H : clear_direct_loop _ _ _ _ = Some _ |- _ => apply IH in H
        end;
      chain_same.
Qed.

Lemma clear_indirect_loop_same fuel i refs k s r s1 :
  clear_indirect_loop fuel i refs k s = Some (r, s1) -> same_inodes s s1.
Proof.
  revert k s. induction fuel as [|fuel IH]; intros k s H; simpl in H.
  - by destruct (stuck_inv _ _ H).
  - run_inv;
      try match goal with
        | H : clear_indirect_loop _ _ _ _ _ = Some _ |- _ => apply IH in H
        end;
      chain_same.
Qed.

Lemma inode_clear_unsafe_fs_inv s i r s1 :
  fs_inv s -> inode_clear_unsafe i s = Some (r, s1) -> fs_inv s1.
Proof.
  intros Hi H. unfold inode_clear_unsafe in H. run_inv.
  all: repeat match goal with
    | H : clear_direct_loop _ _ _ _ = Some _ |- _ =>
        apply clear_direct_loop_same in H
    | H : clear_indirect_loop _ _ _ _ _ = Some _ |- _ =>
        apply clear_indirect_loop_same in H
    end.
  all: same_fs_inv; try done.
  all: by apply fs_inv_reset.
Qed.

End Proofs.

(** Strip the updates of the locks and of the open files off the state
    of the goal. *)
Ltac peel_locks :=
  repeat match goal with
    | |- fs_inv (set_locks ?l ?s) =>
        apply (same_inodes_fs_inv s); [same_inodes_tac|]
    | |- fs_inv (upd_entry ?h ?f ?s) =>
        apply (same_inodes_fs_inv s); [same_inodes_tac|]
    end.

(** [fs_inv s1] from [H : op s = Some (r, s1)], for a primitive [op]. *)
Ltac prim_fs_inv H Hst :=
  first
    [ pose proof (same_inodes_fs_inv _ _ (mutex_lock_same _ _ _ _ H) Hst)
    | pose proof (same_inodes_fs_inv _ _ (mutex_unlock_same _ _ _ _ H) Hst)
    | pose proof (same_inodes_fs_inv _ _ (wrlock_same _ _ _ _ H) Hst)
    | pose proof (same_inodes_fs_inv _ _ (rdlock_same _ _ _ _ H) Hst)
    | pose proof (same_inodes_fs_inv _ _ (rwlock_unlock_same _ _ _ _ H) Hst) ].

Section Proofs.
Context {cfg : Config}.
Hypothesis cfg_ok : config_ok.

(** *** Writing *)

Lemma get_block_some s i k :
  inode_get_block_unsafe s i k <> -1 ->
  0 <= k < i_data_block_count (inode_at s i).
Proof.
  unfold inode_get_block_unsafe. intros H.
  destruct (negb (valid_inumber i)
            || bool_decide (sel (free_inode_ts s) i = FREE)); [done|].
  destruct ((k <? 0) || (i_data_block_count (inode_at s i) <=? k)) eqn:E;
    [done | lia].
Qed.

(** One round of the loop of [write_to_open_file], from the state [s2]
    that the extension of the inode has left. *)
Lemma write_round_fs_inv s s2 s1 fhandle ok mem' k :
  fs_inv s2 -> valid_file_handle fhandle = true ->
  open_file_table s2 = open_file_table s ->
  inode_get_block_unsafe s2 (of_inumber (entry_at s fhandle))
    (of_offset (entry_at s fhandle) / BLOCK_SIZE) <> -1 ->
  k <= BLOCK_SIZE - of_offset (entry_at s fhandle) mod BLOCK_SIZE ->
  length mem' = length (fs_data s2) ->
  fs_inv (upd_entry fhandle (fun e => set_of_offset (of_offset e + k) e)
            (set_fs_data mem' s2))
  /\ (fs_inv s1
       /\ (ok = true ->
           s1 = upd_entry fhandle (fun e => set_of_offset (of_offset e + k) e)
                  (set_fs_data mem' s2)
           \/ (of_inumber (entry_at s1 fhandle)
                = of_inumber
                    (entry_at
                       (upd_entry fhandle
                          (fun e => set_of_offset (of_offset e + k) e)
                          (set_fs_data mem' s2)) fhandle)
               /\ of_offset (entry_at s1 fhandle)
                  <= i_data_block_count
                       (inode_at s1
                          (of_inumber
                             (entry_at
                                (upd_entry fhandle
                                   (fun e => set_of_offset (of_offset e + k) e)
                                   (set_fs_data mem' s2)) fhandle)))
                     * BLOCK_SIZE)) ->
       fs_inv s1
       /\ (ok = true ->
           s1 = s
           \/ (of_inumber (entry_at s1 fhandle)
                = of_inumber (entry_at s fhandle)
               /\ of_offset (entry_at s1 fhandle)
                  <= i_data_block_count
                       (inode_at s1 (of_inumber (entry_at s fhandle)))
                     * BLOCK_SIZE))).
Proof.
  intros Hi Hv Etab Hb Hk Hlen.
  pose proof (BLOCK_SIZE_pos cfg_ok) as Hbs.
  pose proof (entry_in_range s2 fhandle (proj1 Hi) Hv) as Hin.
  set (s' := upd_entry fhandle (fun e => set_of_offset (of_offset e + k) e)
               (set_fs_data mem' s2)).
  assert (entry_at s' fhandle
          = set_of_offset (of_offset (entry_at s fhandle) + k)
              (entry_at s fhandle)) as Ee.
  { subst s'. unfold entry_at, upd_entry, entry_at.
    cbn [open_file_table set_open_file_table set_fs_data].
    rewrite sel_upd_eq by done. by rewrite Etab. }
  assert (same_inodes s2 s') as Hsame by (subst s'; same_inodes_tac).
  split; [by apply (same_inodes_fs_inv s2)|].
  intros [Hi1 Hok]. split; [done|]. intros Eok. right.
  rewrite Ee in Hok. cbn [of_inumber set_of_offset] in Hok.
  destruct (Hok Eok) as [-> | [E1 E2]]; [|done].
  rewrite Ee. cbn [of_inumber of_offset set_of_offset]. split; [done|].
  apply get_block_some in Hb.
  unfold inode_at in *. rewrite (si_inode_table _ _ Hsame).
  assert (BLOCK_SIZE <> 0) as Hnz by lia.
  pose proof (Z.div_mod (of_offset (entry_at s fhandle)) BLOCK_SIZE Hnz) as Hdm.
  nia.
Qed.

Lemma write_loop_fs_inv fuel fhandle buffer to_write written s ok s1 :
  fs_inv s -> valid_file_handle fhandle = true ->
  write_loop fuel fhandle buffer to_write written s = Some (ok, s1) ->
  fs_inv s1
  /\ (ok = true ->
      s1 = s
      \/ (of_inumber (entry_at s1 fhandle) = of_inumber (entry_at s fhandle)
          /\ of_offset (entry_at s1 fhandle)
             <= i_data_block_count
                  (inode_at s1 (of_inumber (entry_at s fhandle)))
                * BLOCK_SIZE)).
Proof.
  revert written s. induction fuel as [|fuel IH]; intros written s Hi Hv H;
    simpl in H.
  - run_inv. auto.
  - run_inv; auto.
    all: try match goal with
      | H : inode_extend_unsafe _ _ = Some _ |- _ =>
          pose proof (extend_fs_inv cfg_ok _ _ _ _ Hi H);
          pose proof (extend_frame cfg_ok _ _ _ _ (proj1 Hi) H)
      end.
    all: try (split; [done | discriminate]).
    all: match goal with
      | H : write_loop _ _ _ _ (_ + ?k)
              (upd_entry _ _ (set_fs_data ?m ?s2)) = _ |- _ =>
          destruct (write_round_fs_inv s s2 s1 fhandle ok m k) as [Hi' Hconc];
            [ | | | | | | exact (Hconc (IH _ _ Hi' Hv H)) ]
      end.
    all: try done.
    all: try by rewrite length_memcpy.
    all: try lia.
    all: try (by destruct H1 as (_ & -> & _)).
    all: case_match; lia.
Qed.

Lemma wrlock_tables i s u s1 :
  pthread_rwlock_wrlock i s = Some (u, s1) ->
  inode_table s1 = inode_table s /\ open_file_table s1 = open_file_table s.
Proof. intros H. by apply wrlock_inv in H as ->. Qed.

Lemma rdlock_tables i s u s1 :
  pthread_rwlock_rdlock i s = Some (u, s1) ->
  inode_table s1 = inode_table s /\ open_file_table s1 = open_file_table s.
Proof. intros H. by apply rdlock_inv in H as [r ->]. Qed.

Lemma write_size_fs_inv s0 s4 fhandle i :
  fs_inv s4 ->
  (s4 = s0
   \/ (of_inumber (entry_at s4 fhandle) = of_inumber (entry_at s0 fhandle)
       /\ of_offset (entry_at s4 fhandle)
          <= i_data_block_count
               (inode_at s4 (of_inumber (entry_at s0 fhandle)))
             * BLOCK_SIZE)) ->
  of_inumber (entry_at s0 fhandle) = i ->
  (i_size (inode_at s0 i) <? of_offset (entry_at s0 fhandle)) = false ->
  (i_size (inode_at s4 i) <? of_offset (entry_at s4 fhandle)) = true ->
  fs_inv (upd_inode i (set_i_size (of_offset (entry_at s4 fhandle))) s4).
Proof.
  intros Hi Hor Ei H1 H2. destruct Hor as [E | [E1 E2]].
  - subst s4. lia.
  - apply (fs_inv_set_size cfg_ok); [done|]. by rewrite <- Ei.
Qed.

Lemma entry_inumber_offset s fhandle v :
  shape s -> valid_file_handle fhandle = true ->
  of_inumber (entry_at (upd_entry fhandle (set_of_offset v) s) fhandle)
  = of_inumber (entry_at s fhandle).
Proof.
  intros Hsh Hv. unfold entry_at, upd_entry, entry_at.
  cbn [open_file_table set_open_file_table].
  by rewrite sel_upd_eq by by apply entry_in_range.
Qed.

Lemma write_to_open_file_fs_inv s fhandle buffer to_write r s1 :
  fs_inv s -> write_to_open_file fhandle buffer to_write s = Some (r, s1) ->
  fs_inv s1.
Proof.
  intros Hi H. unfold write_to_open_file in H.
  destruct (valid_file_handle fhandle) eqn:Hv; cbn [negb] in H;
    [|by run_inv].
  run_inv.
  all: repeat match goal with
    | H : ?m ?st = Some (_, ?s') |- _ =>
        lazymatch goal with | _ : fs_inv s' |- _ => fail | _ => idtac end;
        let Hst := fresh "Hi" in
        assert (fs_inv st) as Hst
          by (first [assumption | peel_locks; assumption]);
        first [ prim_fs_inv H Hst
              | let Hi' := fresh "Hi" in
                let Hoff := fresh "Hoff" in
                destruct (write_loop_fs_inv _ _ _ _ _ _ _ _ Hst Hv H)
                  as [Hi' Hoff] ]
    end.
  all: try assumption.
  all: destruct a2; [|done].
  all: destruct (wrlock_tables _ _ _ _ Hrun0) as [Et Eo].
  all: match goal with
    | H : pthread_rwlock_unlock _ (upd_inode ?i ?f ?s4) = Some _,
      Hi4 : fs_inv ?s4, Hoff : _ -> ?s4 = ?st \/ _ |- _ =>
        assert (fs_inv (upd_inode i f s4))
          by (apply (write_size_fs_inv st); try done;
              [ by apply Hoff
              | rewrite ?entry_inumber_offset by (done || apply H0);
                unfold entry_at; by rewrite Eo ])
    end.
  all: repeat match goal with
    | H : ?m ?st = Some (_, ?s') |- _ =>
        lazymatch goal with | _ : fs_inv s' |- _ => fail | _ => idtac end;
        let Hst := fresh "Hi" in
        assert (fs_inv st) as Hst by assumption;
        prim_fs_inv H Hst
    end.
  all: assumption.
Qed.

End Proofs.

(** Push [fs_inv] along the runs of the context: [prim_fs_inv] for the
    primitives, [tac] for the others. *)
Ltac fwd_inv tac :=
  repeat match goal with
    | H : ?m ?st = Some (_, ?s') |- _ =>
        lazymatch goal with | _ : fs_inv s' |- _ => fail | _ => idtac end;
        let Hst := fresh "Hi" in
        assert (fs_inv st) as Hst
          by (first [assumption | peel_locks; assumption]);
        first [ prim_fs_inv H Hst
              | pose proof (same_inodes_fs_inv _ _
                              (data_block_free_same _ _ _ _ H) Hst)
              | let H' := fresh in pose proof H as H'; tac H';
                [ | exact Hst] ]
    end.

Section Proofs.
Context {cfg : Config}.
Hypothesis cfg_ok : config_ok.

(** *** Reading *)

Lemma read_loop_fs_inv fuel fhandle buffer to_read read s r s1 :
  fs_inv s ->
  read_loop fuel fhandle buffer to_read read s = Some (r, s1) -> fs_inv s1.
Proof.
  revert buffer read s. induction fuel as [|fuel IH]; intros buffer read s Hi H;
    simpl in H.
  - by run_inv.
  - run_inv; try done.
    eapply IH; [|exact H]. by peel_locks.
Qed.

Lemma read_from_open_file_fs_inv s fhandle buffer to_read r s1 :
  fs_inv s -> read_from_open_file fhandle buffer to_read s = Some (r, s1) ->
  fs_inv s1.
Proof.
  intros Hi H. unfold read_from_open_file in H. run_inv.
  all: fwd_inv ltac:(fun H => apply read_loop_fs_inv in H).
  all: assumption.
Qed.

(** *** The inode operations *)

Lemma inode_create_fs_inv s t r s1 :
  fs_inv s -> inode_create t s = Some (r, s1) -> fs_inv s1.
Proof.
  intros Hi H. unfold inode_create in H. run_inv.
  all: fwd_inv ltac:(fun H => apply (inode_create_unsafe_fs_inv cfg_ok) in H).
  all: assumption.
Qed.

Lemma inode_clear_fs_inv s i r s1 :
  fs_inv s -> inode_clear i s = Some (r, s1) -> fs_inv s1.
Proof.
  intros Hi H. unfold inode_clear in H. run_inv.
  all: fwd_inv ltac:(fun H => apply (inode_clear_unsafe_fs_inv cfg_ok) in H).
  all: assumption.
Qed.

Lemma inode_delete_fs_inv s i r s1 :
  fs_inv s -> inode_delete i s = Some (r, s1) -> fs_inv s1.
Proof.
  intros Hi H. unfold inode_delete in H. run_inv.
  all: fwd_inv ltac:(fun H => apply (inode_clear_unsafe_fs_inv cfg_ok) in H).
  all: try assumption.
  all: match goal with
    | H : pthread_rwlock_unlock _ (set_inode_state ?i FREE ?s) = Some _,
      Hi : fs_inv ?s |- _ =>
        pose proof (fs_inv_release cfg_ok s i Hi)
    end.
  all: fwd_inv ltac:(fun H => fail).
  all: assumption.
Qed.

Lemma find_in_dir_fs_inv s i name r s1 :
  fs_inv s -> find_in_dir i name s = Some (r, s1) -> fs_inv s1.
Proof.
  intros Hi H. apply find_in_dir_same in H. by apply (same_inodes_fs_inv s).
Qed.

Lemma create_in_dir_fs_inv s i t name r s1 :
  fs_inv s -> create_in_dir i t name s = Some (r, s1) -> fs_inv s1.
Proof.
  intros Hi H. unfold create_in_dir in H. run_inv.
  all: fwd_inv ltac:(fun H =>
         first [ apply (inode_create_unsafe_fs_inv cfg_ok) in H
               | apply add_dir_entry_unsafe_same in H;
                 eapply same_inodes_fs_inv in H ]).
  all: assumption.
Qed.

End Proofs.

Section Proofs.
Context {cfg : Config}.
Hypothesis cfg_ok : config_ok.

(** *** The public operations *)

Lemma state_init_fs_inv s r s1 :
  fs_inv s -> state_init s = Some (r, s1) -> fs_inv s1.
Proof.
  intros [Hsh _] H. unfold state_init in H. run_inv. split.
  - constructor; cbn; rewrite ?length_replicate; try done; try lens Hsh.
    apply (shape_i_data_block _ Hsh).
  - intros i Hv Ht. cbn in Ht. apply valid_inumber_range in Hv.
    rewrite sel_replicate in Ht by lia. done.
Qed.

Lemma tfs_init_fs_inv s r s1 :
  fs_inv s -> tfs_init s = Some (r, s1) -> fs_inv s1.
Proof.
  intros Hi H. unfold tfs_init in H. run_inv.
  all: fwd_inv ltac:(fun H =>
         first [ apply state_init_fs_inv in H
               | apply (inode_create_fs_inv cfg_ok) in H ]).
  all: assumption.
Qed.

Lemma tfs_lookup_fs_inv s name r s1 :
  fs_inv s -> tfs_lookup name s = Some (r, s1) -> fs_inv s1.
Proof.
  intros Hi H. unfold tfs_lookup in H. run_inv; [done|].
  by apply (find_in_dir_fs_inv s) in H.
Qed.

Lemma tfs_create_fs_inv s name t r s1 :
  fs_inv s -> tfs_create name t s = Some (r, s1) -> fs_inv s1.
Proof.
  intros Hi H. unfold tfs_create in H. run_inv; [done|].
  by apply (create_in_dir_fs_inv cfg_ok s) in H.
Qed.

Lemma add_to_open_file_table_fs_inv s i a r s1 :
  fs_inv s -> add_to_open_file_table i a s = Some (r, s1) -> fs_inv s1.
Proof.
  intros Hi H. apply add_to_open_file_table_same in H.
  by apply (same_inodes_fs_inv s).
Qed.

Lemma tfs_close_fs_inv s fhandle r s1 :
  fs_inv s -> tfs_close fhandle s = Some (r, s1) -> fs_inv s1.
Proof.
  intros Hi H. apply remove_from_open_file_table_same in H.
  by apply (same_inodes_fs_inv s).
Qed.

Lemma tfs_open_fs_inv s name flags r s1 :
  fs_inv s -> tfs_open name flags s = Some (r, s1) -> fs_inv s1.
Proof.
  intros Hi H. unfold tfs_open in H. run_inv.
  all: fwd_inv ltac:(fun H =>
         first [ apply tfs_create_fs_inv in H
               | apply tfs_lookup_fs_inv in H
               | apply (inode_clear_fs_inv cfg_ok) in H
               | apply add_to_open_file_table_fs_inv in H ]).
  all: assumption.
Qed.

End Proofs.

(** ** The small configuration and its states *)

Section SmallFacts.

#[local] Existing Instance small_cfg.

Lemma small_cfg_ok : config_ok.
Proof. constructor; by vm_compute. Qed.

Lemma small_inumbers i :
  valid_inumber i = true -> i = 0 \/ i = 1 \/ i = 2 \/ i = 3.
Proof. intros H. apply valid_inumber_range in H. cbn in H. lia. Qed.

Lemma small_fresh_shape : shape small_fresh.
Proof. constructor; try by vm_compute. vm_compute. repeat constructor. Qed.

Lemma small_fresh_size_inv : size_inv small_fresh.
Proof.
  intros i Hv Ht.
  destruct (small_inumbers i Hv) as [-> | [-> | [-> | ->]]];
    vm_compute in Ht; try discriminate Ht.
  vm_compute. intuition discriminate.
Qed.

Lemma small_opened_shape : shape small_opened.
Proof. constructor; try by vm_compute. vm_compute. repeat constructor. Qed.

End SmallFacts.

Section Claims.
Context {cfg : Config}.
Hypothesis cfg_ok : config_ok.

(** C6: every operation preserves the invariant of the sizes.  In a state
    whose arrays have their sizes and in which every taken inode has
    [size <= block_count * BLOCK_SIZE <= MAX_FILE_SIZE] and
    [block_count <= INODE_DIRECT_REFS + MAX_INDIRECT_REFS], a call of the
    public surface ([tfs_init], [tfs_destroy], [tfs_lookup], [tfs_open],
    [tfs_close], [tfs_write], [tfs_read]) or of the inode operations
    ([inode_create], [inode_delete], [inode_clear], [inode_extend_unsafe],
    [create_in_dir]) that returns leaves a state with the same
    properties. *)
Theorem size_invariant_preserved (c : api_call) s r s1 :
  shape s -> size_inv s -> run_call c s = Some (r, s1) ->
  shape s1 /\ size_inv s1.
Proof.
  intros Hsh Hinv H. assert (fs_inv s) as Hi by done.
  change (fs_inv s1). destruct c; cbn [run_call] in H.
  - eapply tfs_init_fs_inv in H; eauto.
  - unfold tfs_destroy, state_destroy in H. by run_inv.
  - eapply tfs_lookup_fs_inv in H; eauto.
  - eapply tfs_open_fs_inv in H; eauto.
  - eapply tfs_close_fs_inv in H; eauto.
  - eapply write_to_open_file_fs_inv in H; eauto.
  - run_inv. unfold tfs_read in *.
    match goal with
    | H : read_from_open_file _ _ _ _ = Some _ |- _ =>
        eapply read_from_open_file_fs_inv in H; eauto
    end.
  - eapply inode_create_fs_inv in H; eauto.
  - eapply inode_delete_fs_inv in H; eauto.
  - eapply inode_clear_fs_inv in H; eauto.
  - eapply extend_fs_inv in H; eauto.
  - eapply create_in_dir_fs_inv in H; eauto.
Qed.

End Claims.

Lemma size_invariant_preserved_witness :
  @shape small_cfg small_opened /\ @size_inv small_cfg small_opened.
Proof.
  apply (@size_invariant_preserved small_cfg small_cfg_ok
           (Call_tfs_open path_a 1) small_fresh 0 small_opened).
  - exact small_fresh_shape.
  - exact small_fresh_size_inv.
  - vm_compute. reflexivity.
Defined.

Section Claims.
Context {cfg : Config}.
Hypothesis cfg_ok : config_ok.

(** C9: [read_from_open_file] does not release the mutex of the entry on
    every exit.  When the inumber of the entry is not one of the inode
    table, so that [inode_get] returns [NULL], the read returns -1 with
    the mutex of the entry still held, and the next read through the
    same handle blocks; [write_to_open_file], in the same state, returns
    -1 with the mutex released. *)
Theorem read_keeps_entry_mutex s fhandle buffer to_read :
  shape s -> valid_file_handle fhandle = true ->
  mutex_held (of_mutex fhandle) (locks s) = false ->
  valid_inumber (of_inumber (entry_at s fhandle)) = false ->
  exists s1,
    read_from_open_file fhandle buffer to_read s = Some ((-1, buffer), s1)
    /\ mutex_held (of_mutex fhandle) (locks s1) = true
    /\ read_from_open_file fhandle buffer to_read s1 = None
    /\ write_to_open_file fhandle buffer to_read s1 = None
    /\ write_to_open_file fhandle buffer to_read s = Some (-1, s).
Proof.
  intros Hsh Hv Hfree Hinum.
  assert (Z.to_nat fhandle < length (lk_of (locks s)))%nat as Hin.
  { rewrite (shape_lk_of s Hsh). apply valid_file_handle_range in Hv. lia. }
  eexists. split; [by apply read_invalid_inode|].
  assert (mutex_held (of_mutex fhandle)
            (locks (set_locks (set_mutex (of_mutex fhandle) true (locks s)) s))
          = true) as Hheld.
  { cbn. by apply sel_upd_eq. }
  split; [done|].
  split; [|split].
  - unfold read_from_open_file. rewrite Hv. cbn [negb].
    unfold bind at 1. unfold pthread_mutex_lock at 1. by rewrite Hheld.
  - unfold write_to_open_file. rewrite Hv. cbn [negb].
    unfold bind at 1. unfold pthread_mutex_lock at 1. by rewrite Hheld.
  - by apply write_invalid_inode.
Qed.

(** C10: a read through a handle opened with the append flag transfers
    nothing.  The offset is moved to the size of the inode before the
    count is clamped, so that a read that does not fail returns 0, leaves
    the buffer of the caller and the bytes of the file system as they
    were; and on a well-formed file whose locks are free the read does
    return 0. *)
Theorem append_read_returns_zero s fhandle buffer to_read :
  shape s -> 0 <= to_read ->
  of_append (entry_at s fhandle) <> 0 ->
  (forall r buf' s',
     read_from_open_file fhandle buffer to_read s = Some ((r, buf'), s') ->
     r <> -1 -> r = 0 /\ buf' = buffer /\ fs_data s' = fs_data s)
  /\ (valid_file_handle fhandle = true ->
      wf_file s (of_inumber (entry_at s fhandle)) ->
      sel (lk_of (locks s)) fhandle = false ->
      sel (lk_inode (locks s)) (of_inumber (entry_at s fhandle)) = RwFree ->
      to_read <= Z.of_nat (length buffer) ->
      exists s', read_from_open_file fhandle buffer to_read s
                 = Some ((0, buffer), s')).
Proof.
  intros Hsh Hn Happ.
  assert (forall r buf' s',
     read_from_open_file fhandle buffer to_read s = Some ((r, buf'), s') ->
     r <> -1 -> r = 0 /\ buf' = buffer /\ fs_data s' = fs_data s) as Hpart.
  { intros r buf' s' H Hr. by apply (read_append_zero s fhandle buffer to_read). }
  split; [done|].
  intros Hv Hwf Hm Hrw Hlen.
  assert (start_offset s fhandle
          = i_size (inode_at s (of_inumber (entry_at s fhandle)))) as Est.
  { unfold start_offset. by rewrite (proj2 (Z.eqb_neq _ _) Happ). }
  pose proof (wf_size _ _ Hwf) as Hsz.
  destruct (read_total cfg_ok s fhandle buffer to_read Hsh Hv Hwf Hm Hrw)
    as (buffer1 & Hrun & _); [lia | lia |].
  rewrite Est in Hrun.
  replace (Z.min to_read _) with 0 in Hrun by lia.
  destruct (Hpart _ _ _ Hrun) as (_ & -> & _); [lia|]. eauto.
Qed.

End Claims.

Section SmallClaims.

#[local] Existing Instance small_cfg.

Lemma small_no_inode_shape : shape small_no_inode.
Proof. constructor; try by vm_compute. vm_compute. repeat constructor. Qed.

Lemma read_keeps_entry_mutex_witness :
  exists s1,
    read_from_open_file 0 [0] 1 small_no_inode = Some ((-1, [0]), s1)
    /\ mutex_held (of_mutex 0) (locks s1) = true
    /\ read_from_open_file 0 [0] 1 s1 = None
    /\ write_to_open_file 0 [0] 1 s1 = None
    /\ write_to_open_file 0 [0] 1 small_no_inode = Some (-1, small_no_inode).
Proof.
  apply (read_keeps_entry_mutex small_no_inode 0 [0] 1).
  - exact small_no_inode_shape.
  - reflexivity.
  - reflexivity.
  - reflexivity.
Defined.

Lemma small_append_shape : shape small_append.
Proof. constructor; try by vm_compute. vm_compute. repeat constructor. Qed.

(** C5: [tfs_open] with the create flag is not idempotent on a name of
    [MAX_FILE_NAME] characters or more.  [add_dir_entry_unsafe] keeps
    [MAX_FILE_NAME - 1] characters of the name and [find_in_dir_unsafe]
    compares [MAX_FILE_NAME] characters with the name that is looked up,
    so the entry is never found again: with [MAX_FILE_NAME = 4], opening
    [/abcd] twice with the create flag gives handles 0 and 1 on the
    inodes 1 and 2, and two entries of the root directory. *)
Theorem create_long_name_twice :
  valid_pathname path_abcd = true
  /\ exists s1 s2,
       tfs_open path_abcd TFS_O_CREAT small_fresh = Some (0, s1)
       /\ tfs_open path_abcd TFS_O_CREAT s1 = Some (1, s2)
       /\ of_inumber (entry_at s2 0) = 1
       /\ of_inumber (entry_at s2 1) = 2
       /\ find_in_dir_unsafe s2 ROOT_DIR_INUM (tl path_abcd) = -1.
Proof.
  split; [reflexivity|].
  eexists _, _. split; [vm_compute; reflexivity|].
  split; [vm_compute; reflexivity|]. by vm_compute.
Qed.

(** C8: [state_destroy_after_all_closed] can perform the teardown while a
    file is open.  [pthread_cond_wait] is called once, with no test of
    [open_file_count] before or after it.  In the schedule below one file
    is open when the teardown starts to wait; the file is closed, which
    brings [open_file_count] to zero and signals the condition; before the
    woken thread takes the mutex again another thread opens a file; the
    teardown then unlocks, destroys the state and returns, with
    [open_file_count = 1] and a taken slot in every state from its wake-up
    on. *)
Theorem teardown_with_open_file :
  exists w0 w1 w2 w3 w4 w5 w6 w7,
    Teardown.run
      [Teardown.Ev_destroyer; Teardown.Ev_destroyer; Teardown.Ev_close 0;
       Teardown.Ev_open 1 0; Teardown.Ev_destroyer; Teardown.Ev_destroyer;
       Teardown.Ev_destroyer]
      (Teardown.mk_world small_opened Teardown.At_lock)
    = Some [w0; w1; w2; w3; w4; w5; w6; w7]
    /\ Teardown.w_pc w2 = Teardown.Waiting
    /\ Teardown.w_pc w3 = Teardown.Signalled
    /\ Teardown.w_pc w5 = Teardown.At_unlock
    /\ Teardown.w_pc w7 = Teardown.Returned
    /\ Forall (fun w => open_file_count (Teardown.w_state w) = 1
                        /\ Teardown.some_open (Teardown.w_state w) = true)
              [w4; w5; w6; w7].
Proof.
  eexists _, _, _, _, _, _, _, _. split; [vm_compute; reflexivity|].
  repeat split; try reflexivity. repeat constructor.
Qed.

End SmallClaims.

Section Claims.
Context {cfg : Config}.
Hypothesis cfg_ok : config_ok.

(** A taken inode without blocks is a well-formed file. *)
Lemma wf_file_empty s i :
  valid_inumber i = true -> sel (free_inode_ts s) i = TAKEN ->
  i_data_block_count (inode_at s i) = 0 -> i_size (inode_at s i) = 0 ->
  wf_file s i.
Proof.
  intros Hv Ht Hc Hs.
  pose proof (max_indirect_refs_pos cfg_ok).
  pose proof (INODE_DIRECT_REFS_pos cfg_ok).
  constructor; try done; try lia.
  intros q [(k & Hk & _) | [Hk _]]; lia.
Qed.

(** C4: where [inode_extend_unsafe] puts the block that it allocates.
    For a taken inode [i] with [bc] blocks, in a state in which
    [data_block_alloc] returns [b]:
    - if [bc < INODE_DIRECT_REFS], [b] becomes [i_data_block[bc]];
    - if [bc = INODE_DIRECT_REFS], a second block [e] is allocated, it
      becomes the indirect block, and [b] its reference 0; when there is
      no second block, [b] is freed again and -1 is returned;
    - if [INODE_DIRECT_REFS < bc < INODE_DIRECT_REFS + MAX_INDIRECT_REFS],
      [b] becomes the reference [bc - INODE_DIRECT_REFS] of the indirect
      block, and no other block is allocated;
    - if [bc] has reached [INODE_DIRECT_REFS + MAX_INDIRECT_REFS], -1 is
      returned and the state is as before.
    Whenever the extension succeeds it returns [b], the inode has one
    more block, [b] is the block at index [bc], and the indirect
    reference is assigned only when [bc = INODE_DIRECT_REFS]: while a file
    grows, its indirect block is allocated once. *)
Theorem extend_places_block s i b :
  shape s -> wf_file s i -> lk_data_blocks (locks s) = false ->
  first_free (free_blocks s) (Z.to_nat DATA_BLOCKS) 0 = Some b ->
  (i_data_block_count (inode_at s i) < INODE_DIRECT_REFS ->
   inode_extend_unsafe i s
   = Some (b,
           set_inode_table
             (upd (inode_table s) i
                (set_i_data_block_count (i_data_block_count (inode_at s i) + 1)
                   (set_i_data_block
                      (upd (i_data_block (inode_at s i))
                           (i_data_block_count (inode_at s i)) b)
                      (inode_at s i))))
             (set_free_blocks (upd (free_blocks s) b TAKEN) s)))
  /\ (i_data_block_count (inode_at s i) = INODE_DIRECT_REFS ->
      forall e,
        first_free (upd (free_blocks s) b TAKEN) (Z.to_nat DATA_BLOCKS) 0
        = Some e ->
        inode_extend_unsafe i s
        = Some (b,
                set_inode_table
                  (upd (inode_table s) i
                     (set_i_data_block_count (INODE_DIRECT_REFS + 1)
                        (set_i_data_extension_block e (inode_at s i))))
                  (set_fs_data
                     (store_int (fs_data s) (e * BLOCK_SIZE + 0 * SIZEOF_INT) b)
                     (set_free_blocks
                        (upd (upd (free_blocks s) b TAKEN) e TAKEN) s))))
  /\ (i_data_block_count (inode_at s i) = INODE_DIRECT_REFS ->
      first_free (upd (free_blocks s) b TAKEN) (Z.to_nat DATA_BLOCKS) 0 = None ->
      inode_extend_unsafe i s
      = Some (-1,
              set_inode_table
                (upd (inode_table s) i
                   (set_i_data_extension_block (-1) (inode_at s i))) s))
  /\ (INODE_DIRECT_REFS < i_data_block_count (inode_at s i)
      < INODE_DIRECT_REFS + MAX_INDIRECT_REFS ->
      inode_extend_unsafe i s
      = Some (b,
              set_inode_table
                (upd (inode_table s) i
                   (set_i_data_block_count
                      (i_data_block_count (inode_at s i) + 1) (inode_at s i)))
                (set_fs_data
                   (store_int (fs_data s)
                      (i_data_extension_block (inode_at s i) * BLOCK_SIZE
                       + (i_data_block_count (inode_at s i)
                          - INODE_DIRECT_REFS) * SIZEOF_INT) b)
                   (set_free_blocks (upd (free_blocks s) b TAKEN) s))))
  /\ (INODE_DIRECT_REFS + MAX_INDIRECT_REFS
      <= i_data_block_count (inode_at s i) ->
      inode_extend_unsafe i s = Some (-1, s))
  /\ (forall r s1,
        inode_extend_unsafe i s = Some (r, s1) -> r <> -1 ->
        r = b
        /\ i_data_block_count (inode_at s1 i)
           = i_data_block_count (inode_at s i) + 1
        /\ inode_get_block_unsafe s1 i (i_data_block_count (inode_at s i)) = b
        /\ (i_data_block_count (inode_at s i) <> INODE_DIRECT_REFS ->
            i_data_extension_block (inode_at s1 i)
            = i_data_extension_block (inode_at s i))).
Proof.
  intros Hsh Hwf Hlk Hb.
  pose proof (max_indirect_refs_pos cfg_ok) as Hm.
  pose proof (wf_valid _ _ Hwf) as Hv. pose proof (wf_taken _ _ Hwf) as Ht.
  assert (INODE_DIRECT_REFS < i_data_block_count (inode_at s i) ->
          data_block_get (i_data_extension_block (inode_at s i))
          = Some (i_data_extension_block (inode_at s i) * BLOCK_SIZE)) as Hext.
  { intros Hgt. unfold data_block_get.
    destruct (wf_owned _ _ Hwf (i_data_extension_block (inode_at s i)))
      as [-> _]; [by right | done]. }
  assert (forall r s1,
            inode_extend_unsafe i s = Some (r, s1) -> r <> -1 -> r = b) as Hrb.
  { intros r s1 H Hr.
    destruct (Z.lt_trichotomy (i_data_block_count (inode_at s i))
                INODE_DIRECT_REFS) as [Hlt | [Heq | Hgt]].
    - rewrite (extend_direct s i b) in H by done. by injection H as <- _.
    - destruct (first_free (upd (free_blocks s) b TAKEN)
                  (Z.to_nat DATA_BLOCKS) 0) as [e|] eqn:He.
      + rewrite (extend_transition s i b e) in H by done. by injection H as <- _.
      + rewrite (extend_transition_fails s i b) in H by done.
        by injection H as <- _.
    - destruct (decide (i_data_block_count (inode_at s i)
                        < INODE_DIRECT_REFS + MAX_INDIRECT_REFS)) as [Hr'|Hr'].
      + rewrite (extend_indirect s i b _ Hsh Hv Ht Hlk Hb (conj Hgt Hr')
                   (Hext Hgt)) in H.
        by injection H as <- _.
      + rewrite extend_full in H by (done || lia). by injection H as <- _. }
  repeat split.
  - intros Hlt. by apply extend_direct.
  - intros Heq e He. by apply extend_transition.
  - intros Heq He. by apply (extend_transition_fails s i b).
  - intros Hin. apply extend_indirect; try done. apply Hext. lia.
  - intros Hfull. apply extend_full; try done. lia.
  - eauto.
  - destruct (extend_total cfg_ok s i Hsh Hwf Hlk) as (r' & s1' & Hrun & Hex & _).
    rewrite Hrun in H. injection H as -> ->. by destruct (Hex H0).
  - destruct (extend_total cfg_ok s i Hsh Hwf Hlk) as (r' & s1' & Hrun & Hex & _).
    rewrite Hrun in H. injection H as -> ->.
    rewrite <- (Hrb _ _ Hrun H0). by destruct (Hex H0).
  - intros Hne.
    destruct (extend_inv cfg_ok s i r s1 Hsh H)
      as (n' & mem' & fb' & -> & _ & _ & _ & _ & _ & _ & [He | He]); [|done].
    unfold inode_at. cbn [inode_table set_inode_table].
    rewrite sel_upd_eq by by apply inode_in_range. done.
Qed.

End Claims.

Section SmallClaims.

#[local] Existing Instance small_cfg.

Lemma small_opened_wf : wf_file small_opened 1.
Proof. by apply (wf_file_empty small_cfg_ok). Qed.

Lemma extend_places_block_witness :
  exists s1,
    inode_extend_unsafe 1 small_opened = Some (1, s1)
    /\ i_data_block (inode_at s1 1) = [1; 0]
    /\ i_data_block_count (inode_at s1 1) = 1.
Proof.
  destruct (extend_places_block small_cfg_ok small_opened 1 1
              small_opened_shape small_opened_wf eq_refl eq_refl)
    as (Hdirect & _).
  eexists. split; [apply Hdirect; by vm_compute|]. by vm_compute.
Defined.

End SmallClaims.

Section Claims.
Context {cfg : Config}.
Hypothesis cfg_ok : config_ok.

(** The state after the two unlocks of an exit of the loop, when the
    handle is not in append mode. *)
Lemma leave_loop s fhandle rw :
  shape s -> valid_inumber (of_inumber (entry_at s fhandle)) = true ->
  sel (lk_of (locks s)) fhandle = false ->
  sel (lk_inode (locks s)) (of_inumber (entry_at s fhandle)) = RwFree ->
  (of_append (entry_at s fhandle) =? 0) = true ->
  rwlock_release rw = RwFree ->
  (pthread_rwlock_unlock (of_inumber (entry_at s fhandle)) ;;
   pthread_mutex_unlock (of_mutex fhandle) ;;
   ret tt) (at_loop s fhandle rw)
  = Some (tt, s).
Proof.
  intros Hsh Hvi Hm Hrw Happ Hrel.
  unfold pthread_rwlock_unlock, pthread_mutex_unlock.
  rewrite !bind_modify. unfold ret. do 2 f_equal.
  rewrite locks_set_locks.
  rewrite (unlock_both s fhandle (of_inumber (entry_at s fhandle)) rw
             (locks (at_loop s fhandle rw)) Hsh Hm Hrw Hvi Hrel eq_refl).
  unfold at_loop. rewrite offset_upd_id by done. by destruct s.
Qed.

(** C3, for the handles that are not in append mode: when the offset
    kept in the entry is beyond the size of the inode, as it is after
    another handle has truncated the file, both [tfs_read] and
    [tfs_write] return -1, and the state, the locks included, is as
    before the call. *)
Theorem stale_offset_fails s fhandle buffer len :
  shape s -> valid_file_handle fhandle = true ->
  valid_inumber (of_inumber (entry_at s fhandle)) = true ->
  sel (lk_of (locks s)) fhandle = false ->
  sel (lk_inode (locks s)) (of_inumber (entry_at s fhandle)) = RwFree ->
  of_append (entry_at s fhandle) = 0 ->
  i_size (inode_at s (of_inumber (entry_at s fhandle)))
  < of_offset (entry_at s fhandle) ->
  tfs_read fhandle buffer len s = Some ((-1, buffer), s)
  /\ tfs_write fhandle buffer len s = Some (-1, s).
Proof.
  intros Hsh Hvf Hvi Hm Hrw Happ Hstale.
  assert ((of_append (entry_at s fhandle) =? 0) = true) as Happ' by lia.
  assert (start_offset s fhandle = of_offset (entry_at s fhandle)) as Est.
  { unfold start_offset. by rewrite Happ'. }
  split.
  - unfold tfs_read, read_from_open_file. rewrite Hvf. cbn [negb].
    rewrite (bind_run _ _ _ _ _ (mutex_lock_run (of_mutex fhandle) s Hm)).
    rewrite bind_gets.
    change (of_inumber (entry_at (set_locks _ s) fhandle))
      with (of_inumber (entry_at s fhandle)).
    unfold inode_get. rewrite Hvi. cbn [negb].
    erewrite (enter_loop s fhandle false) by done. rewrite Est.
    replace (_ <? _) with true by lia.
    pose proof (leave_loop s fhandle (RwRead 0) Hsh Hvi Hm Hrw Happ' eq_refl)
      as Hl.
    apply bind_inv in Hl as (u1 & s1 & H1 & Hl).
    apply bind_inv in Hl as (u2 & s2 & H2 & Hl).
    apply ret_inv in Hl as [_ ->].
    rewrite (bind_run _ _ _ _ _ H1), (bind_run _ _ _ _ _ H2). done.
  - unfold tfs_write, write_to_open_file. rewrite Hvf. cbn [negb].
    rewrite (bind_run _ _ _ _ _ (mutex_lock_run (of_mutex fhandle) s Hm)).
    rewrite bind_gets.
    change (of_inumber (entry_at (set_locks _ s) fhandle))
      with (of_inumber (entry_at s fhandle)).
    unfold inode_get. rewrite Hvi. cbn [negb].
    erewrite (enter_loop s fhandle true) by done. rewrite Est.
    replace (_ <? _) with true by lia.
    pose proof (leave_loop s fhandle RwWrite Hsh Hvi Hm Hrw Happ' eq_refl)
      as Hl.
    apply bind_inv in Hl as (u1 & s1 & H1 & Hl).
    apply bind_inv in Hl as (u2 & s2 & H2 & Hl).
    apply ret_inv in Hl as [_ ->].
    rewrite (bind_run _ _ _ _ _ H1), (bind_run _ _ _ _ _ H2). done.
Qed.

End Claims.

Section SmallClaims.

#[local] Existing Instance small_cfg.

Lemma small_stale_shape : shape small_stale.
Proof. constructor; try by vm_compute. vm_compute. repeat constructor. Qed.

(** The scenario of the claim: one byte is written through handle 0,
    the file is opened again with the truncate flag, and handle 0 is
    used again. *)
Lemma stale_offset_fails_witness :
  tfs_read 0 [0] 1 small_stale = Some ((-1, [0]), small_stale)
  /\ tfs_write 0 [121] 1 small_stale = Some (-1, small_stale).
Proof.
  split.
  - apply (stale_offset_fails small_stale 0 [0] 1); try reflexivity.
    exact small_stale_shape.
  - apply (stale_offset_fails small_stale 0 [121] 1); try reflexivity.
    exact small_stale_shape.
Defined.

(** C3 does not hold for a handle in append mode: after one byte is
    written through handle 0, opened with the append flag, and the file
    is truncated through another [tfs_open], the offset kept in the entry
    of handle 0 is beyond the size of the inode, and yet [tfs_read]
    returns 0 and [tfs_write] returns the length. *)
Lemma append_handle_survives_truncate :
  of_offset (entry_at small_append 0) = 1
  /\ i_size (inode_at small_append (of_inumber (entry_at small_append 0))) = 0
  /\ (exists s1, tfs_read 0 [0] 1 small_append = Some ((0, [0]), s1))
  /\ (exists s1, tfs_write 0 [121] 1 small_append = Some (1, s1)).
Proof.
  split; [reflexivity|]. split; [reflexivity|].
  split; eexists; vm_compute; reflexivity.
Qed.

End SmallClaims.

Section Claims.
Context {cfg : Config}.
Hypothesis cfg_ok : config_ok.

(** *** The indirect reference *)

Lemma indirect_kept_refl s : indirect_kept s s.
Proof. by intros j. Qed.

Lemma indirect_kept_trans s s1 s2 :
  indirect_kept s s1 -> indirect_kept s1 s2 -> indirect_kept s s2.
Proof. intros H1 H2 j. by rewrite H2, H1. Qed.

Lemma same_inodes_indirect_kept s s1 : same_inodes s s1 -> indirect_kept s s1.
Proof. intros H j. unfold inode_at. by rewrite (si_inode_table _ _ H). Qed.

Lemma inode_at_upd s s1 i n' j :
  inode_table s1 = upd (inode_table s) i n' ->
  (inode_at s j = inode_at s i /\ inode_at s1 j = n')
  \/ inode_at s1 j = inode_at s j.
Proof.
  intros E. unfold inode_at. rewrite E.
  destruct (decide (Z.to_nat j = Z.to_nat i)) as [Ej|Ej].
  - destruct (decide (Z.to_nat i < length (inode_table s))%nat).
    + left. split; [by apply sel_alias | by apply sel_upd_same].
    + right. by rewrite upd_out.
  - right. by apply sel_upd_other.
Qed.

Lemma upd_inode_indirect_kept s i f :
  (forall n, i_data_extension_block (f n) = i_data_extension_block n) ->
  indirect_kept s (upd_inode i f s).
Proof.
  intros Hf j.
  destruct (inode_at_upd s (upd_inode i f s) i (f (inode_at s i)) j eq_refl)
    as [[E0 E]|E]; rewrite E; [|done].
  by rewrite Hf, E0.
Qed.

Lemma extend_indirect_kept s i r s1 :
  shape s -> inode_extend_unsafe i s = Some (r, s1) ->
  i_data_block_count (inode_at s i) <> INODE_DIRECT_REFS ->
  indirect_kept s s1.
Proof.
  intros Hsh H Hne.
  destruct (extend_inv cfg_ok s i r s1 Hsh H)
    as (n' & mem' & fb' & -> & _ & _ & _ & _ & _ & _ & [He | He]); [|done].
  intros j.
  destruct (inode_at_upd s
              (set_inode_table (upd (inode_table s) i n')
                 (set_fs_data mem' (set_free_blocks fb' s))) i n' j eq_refl)
    as [[E0 E]|E]; rewrite E; [|done].
  by rewrite He, E0.
Qed.

Lemma inode_create_unsafe_indirect_kept s t r s1 :
  shape s -> inode_create_unsafe t s = Some (r, s1) -> indirect_kept s s1.
Proof.
  intros Hsh H. unfold inode_create_unsafe in H.
  pose proof (INODE_DIRECT_REFS_pos cfg_ok) as Hd.
  assert (forall z t',
            indirect_kept s
              (upd_inode z
                 (fun n => set_i_data_block_count 0
                             (set_i_size 0 (set_i_node_type t' n)))
                 (set_inode_state z TAKEN s))) as Hk0.
  { intros z t' j.
    by apply (upd_inode_indirect_kept (set_inode_state z TAKEN s)). }
  run_inv; try apply indirect_kept_refl; try apply Hk0.
  all: match goal with
    | Hf : first_free _ _ _ = Some ?z,
      H : inode_extend_unsafe ?z ?st = Some (_, ?s2) |- _ =>
        destruct (first_free_Some _ _ _ _ Hf) as (Hvz & _);
        assert (indirect_kept st s2) as Hk1;
        [ eapply extend_indirect_kept; [|exact H|]
        | eapply indirect_kept_trans; [apply Hk0|];
          eapply indirect_kept_trans; [apply Hk1|];
          by intros j ]
    end.
  all: try (eapply (shape_change s _ z); try done; cbn;
            by rewrite ?length_upd).
  all: unfold inode_at, upd_inode; cbn [inode_table set_inode_table set_inode_state
                                        set_free_inode_ts];
    rewrite sel_upd_eq by (rewrite (shape_inode_table _ Hsh); lia);
    cbn; lia.
Qed.

Lemma inode_clear_unsafe_indirect_kept s i r s1 :
  inode_clear_unsafe i s = Some (r, s1) -> indirect_kept s s1.
Proof.
  intros H. unfold inode_clear_unsafe in H. run_inv.
  all: repeat match goal with
    | H : clear_direct_loop _ _ _ _ = Some _ |- _ =>
        apply clear_direct_loop_same, same_inodes_indirect_kept in H
    | H : clear_indirect_loop _ _ _ _ _ = Some _ |- _ =>
        apply clear_indirect_loop_same, same_inodes_indirect_kept in H
    | H : data_block_free _ _ = Some _ |- _ =>
        apply data_block_free_same, same_inodes_indirect_kept in H
    end.
  all: repeat (eapply indirect_kept_trans; [eassumption|]).
  all: try apply indirect_kept_refl.
  all: by apply upd_inode_indirect_kept.
Qed.

(** The blocks of an inode whose blocks are all direct do not depend on
    its indirect reference. *)
Lemma get_block_direct_only s i v k :
  shape s ->
  i_data_block_count (inode_at s i) <= INODE_DIRECT_REFS ->
  inode_get_block_unsafe (upd_inode i (set_i_data_extension_block v) s) i k
  = inode_get_block_unsafe s i k.
Proof.
  intros Hsh Hc. unfold inode_get_block_unsafe.
  change (free_inode_ts (upd_inode i (set_i_data_extension_block v) s))
    with (free_inode_ts s).
  destruct (valid_inumber i) eqn:Hv; [|done]. cbn [negb orb].
  destruct (bool_decide (sel (free_inode_ts s) i = FREE)); [done|].
  assert (inode_at (upd_inode i (set_i_data_extension_block v) s) i
          = set_i_data_extension_block v (inode_at s i)) as ->.
  { unfold inode_at, upd_inode. cbn [inode_table set_inode_table].
    rewrite sel_upd_eq by by apply inode_in_range. done. }
  cbn [i_data_block_count i_data_block set_i_data_extension_block].
  destruct ((k <? 0) || (i_data_block_count (inode_at s i) <=? k)) eqn:E;
    [done|].
  replace (k <? INODE_DIRECT_REFS) with true by lia. done.
Qed.

(** C7, as the code has it: the indirect reference of an inode is not
    part of what creation and truncation reset.  [inode_create_unsafe]
    and [inode_clear_unsafe] leave the indirect reference of every inode
    as it was, whatever its value; and the blocks of an inode that has no
    more than [INODE_DIRECT_REFS] blocks are the same whatever its
    indirect reference is. *)
Theorem indirect_reference_kept s :
  shape s ->
  (forall t r s1,
     inode_create_unsafe t s = Some (r, s1) -> indirect_kept s s1)
  /\ (forall i r s1,
        inode_clear_unsafe i s = Some (r, s1) -> indirect_kept s s1)
  /\ (forall i v k,
        i_data_block_count (inode_at s i) <= INODE_DIRECT_REFS ->
        inode_get_block_unsafe
          (upd_inode i (set_i_data_extension_block v) s) i k
        = inode_get_block_unsafe s i k).
Proof.
  intros Hsh. repeat split.
  - intros t r s1 H. by apply (inode_create_unsafe_indirect_kept s t r).
  - intros i r s1 H. by apply (inode_clear_unsafe_indirect_kept s i r).
  - intros i v k Hc. by apply get_block_direct_only.
Qed.

End Claims.

Section SmallClaims.

#[local] Existing Instance small_cfg.

Lemma small_three_shape : shape small_three.
Proof. constructor; try by vm_compute. vm_compute. repeat constructor. Qed.

Lemma indirect_reference_kept_witness :
  exists s1,
    inode_clear_unsafe 1 small_three = Some (0, s1)
    /\ i_data_block_count (inode_at s1 1) = 0
    /\ i_data_extension_block (inode_at s1 1) = 4.
Proof.
  destruct (indirect_reference_kept small_cfg_ok small_three small_three_shape)
    as (_ & Hclear & _).
  eexists. split; [vm_compute; reflexivity|]. split; [reflexivity|].
  etransitivity; [eapply (Hclear 1 0); vm_compute; reflexivity|].
  reflexivity.
Defined.

(** C7 does not hold of the code.  In [small_three] no taken inode with
    at most [INODE_DIRECT_REFS] blocks has an indirect reference to a
    block.  Opening [/a] with the truncate flag leaves the inode of
    [/a] taken, without blocks, and with the indirect reference 4, the
    number of the block that was its indirect block and is now free.
    And [tfs_init] itself leaves the root directory with one block and
    the indirect reference 0, the number of a block. *)
Lemma truncate_keeps_indirect_reference :
  indirect_inv small_three
  /\ (exists s1,
        run_call (Call_tfs_open path_a TFS_O_TRUNC) small_three = Some (1, s1)
        /\ sel (free_inode_ts s1) 1 = TAKEN
        /\ i_data_block_count (inode_at s1 1) = 0
        /\ i_data_extension_block (inode_at s1 1) = 4
        /\ valid_block_number 4 = true
        /\ sel (free_blocks s1) 4 = FREE
        /\ ~ indirect_inv s1)
  /\ indirect_inv static_state
  /\ run_call Call_tfs_init static_state = Some (0, small_fresh)
  /\ ~ indirect_inv small_fresh.
Proof.
  split.
  { intros i Hv Ht Hc.
    destruct (small_inumbers i Hv) as [-> | [-> | [-> | ->]]];
      vm_compute in Ht; try discriminate Ht.
    - reflexivity.
    - vm_compute in Hc. by destruct Hc. }
  split.
  { eexists. split; [vm_compute; reflexivity|].
    repeat (split; [reflexivity|]).
    intros Hinv. specialize (Hinv 1 eq_refl eq_refl).
    vm_compute in Hinv. by specialize (Hinv ltac:(discriminate)). }
  split.
  { intros i Hv Ht.
    destruct (small_inumbers i Hv) as [-> | [-> | [-> | ->]]];
      vm_compute in Ht; discriminate Ht. }
  split; [vm_compute; reflexivity|].
  intros Hinv. specialize (Hinv 0 eq_refl eq_refl).
  vm_compute in Hinv. by specialize (Hinv ltac:(discriminate)).
Qed.

End SmallClaims.

(** ** The blocks that a write needs *)

Section Proofs.
Context {cfg : Config}.
Hypothesis cfg_ok : config_ok.

Lemma owned_count_blocks s i :
  owned_count s i = owned_blocks (i_data_block_count (inode_at s i)).
Proof. reflexivity. Qed.

Lemma owned_blocks_mono c c' : c <= c' -> owned_blocks c <= owned_blocks c'.
Proof.
  intros H. unfold owned_blocks.
  destruct (Z.ltb_spec INODE_DIRECT_REFS c);
    destruct (Z.ltb_spec INODE_DIRECT_REFS c'); lia.
Qed.

Lemma owned_blocks_succ c :
  1 <= owned_blocks (c + 1) - owned_blocks c <= 2.
Proof.
  unfold owned_blocks.
  destruct (Z.ltb_spec INODE_DIRECT_REFS c);
    destruct (Z.ltb_spec INODE_DIRECT_REFS (c + 1)); lia.
Qed.

Lemma first_free_none_count s :
  shape s ->
  first_free (free_blocks s) (Z.to_nat DATA_BLOCKS) 0 = None ->
  free_count s = 0.
Proof.
  intros Hsh Hnone. pose proof (free_count_nonneg s) as H0.
  pose proof (DATA_BLOCKS_pos cfg_ok) as Hdb.
  destruct (decide (0 < free_count s)) as [Hpos|]; [|lia].
  assert (0 <= DATA_BLOCKS) as Hdb0 by lia.
  destruct (free_count_pos s Hpos Hdb0 (shape_free_blocks s Hsh)) as [b Hb].
  congruence.
Qed.

(** [inode_extend_unsafe] returns a block exactly when the inode has room
    for a reference and the blocks it allocates, two at the transition to
    the indirect block and one otherwise, are free. *)
Lemma extend_exact s i :
  shape s -> wf_file s i -> lk_data_blocks (locks s) = false ->
  exists r s1,
    inode_extend_unsafe i s = Some (r, s1)
    /\ (r <> -1 -> extended s i r s1)
    /\ (r <> -1 <->
        i_data_block_count (inode_at s i)
        < INODE_DIRECT_REFS + MAX_INDIRECT_REFS
        /\ owned_blocks (i_data_block_count (inode_at s i) + 1)
           - owned_blocks (i_data_block_count (inode_at s i))
           <= free_count s).
Proof.
  intros Hsh Hwf Hlk.
  destruct (extend_total cfg_ok s i Hsh Hwf Hlk) as (r & s1 & Hrun & Hex & _).
  exists r, s1. split; [done|]. split; [done|]. split.
  - intros Hr. specialize (Hex Hr). split; [apply Hex|].
    pose proof (ex_free_count _ _ _ _ Hex) as Hfc.
    rewrite !owned_count_blocks, (ex_count _ _ _ _ Hex) in Hfc.
    pose proof (free_count_nonneg s1). lia.
  - intros [Hroom Hfree] ->.
    pose proof (wf_valid _ _ Hwf) as Hv. pose proof (wf_taken _ _ Hwf) as Ht.
    pose proof (max_indirect_refs_pos cfg_ok) as Hm.
    pose proof (owned_blocks_succ (i_data_block_count (inode_at s i))) as Hd.
    destruct (first_free (free_blocks s) (Z.to_nat DATA_BLOCKS) 0) as [b|] eqn:Hb.
    2: { pose proof (first_free_none_count s Hsh Hb). lia. }
    destruct (first_free_valid _ _ Hb) as (Hvb & Hfb & Hne).
    destruct (Z.lt_trichotomy (i_data_block_count (inode_at s i))
                INODE_DIRECT_REFS) as [Hlt | [Heq | Hgt]].
    + rewrite (extend_direct s i b) in Hrun by done.
      injection Hrun as E _. lia.
    + destruct (first_free (upd (free_blocks s) b TAKEN)
                  (Z.to_nat DATA_BLOCKS) 0) as [e|] eqn:He.
      * rewrite (extend_transition s i b e) in Hrun by done.
        injection Hrun as E _. lia.
      * pose proof (free_count_alloc s b (block_in_range s b Hsh Hvb) Hfb) as E.
        assert (shape (set_free_blocks (upd (free_blocks s) b TAKEN) s))
          as Hsh'.
        { destruct Hsh as [H1 H2 H3 H4 H5 H6 H7 H8 H9].
          constructor; try done. cbn. by rewrite length_upd. }
        pose proof (first_free_none_count _ Hsh' He) as E0.
        rewrite E0 in E. unfold owned_blocks in Hfree.
        rewrite Heq in Hfree.
        replace (INODE_DIRECT_REFS <? INODE_DIRECT_REFS + 1) with true
          in Hfree by lia.
        rewrite Z.ltb_irrefl in Hfree. lia.
    + destruct (wf_owned_indirect s i Hwf Hgt) as [Hve Hte].
      rewrite (extend_indirect s i b
                 (i_data_extension_block (inode_at s i) * BLOCK_SIZE))
        in Hrun; try done.
      * injection Hrun as E _. lia.
      * unfold data_block_get. by rewrite Hve.
Qed.

Lemma blocks_after_le c off n : c <= blocks_after c off n.
Proof. unfold blocks_after. destruct (0 <? n); lia. Qed.

Lemma blocks_after_none c off n : n <= 0 -> blocks_after c off n = c.
Proof. intros H. unfold blocks_after. by replace (0 <? n) with false by lia. Qed.

(** The last chunk of a write stays in the block of its offset. *)
Lemma blocks_after_last c off n :
  0 < n -> 0 <= off -> off mod BLOCK_SIZE + n <= BLOCK_SIZE ->
  off / BLOCK_SIZE < c ->
  blocks_after c off n = c.
Proof.
  intros Hn Hoff Hfit Hc. pose proof (BLOCK_SIZE_pos cfg_ok) as Hbs.
  pose proof (Z.mod_pos_bound off BLOCK_SIZE Hbs) as Hmod.
  assert (BLOCK_SIZE <> 0) as Hnz by lia.
  pose proof (Z.div_mod off BLOCK_SIZE Hnz) as Hdm.
  unfold blocks_after. replace (0 <? n) with true by lia.
  assert ((off + n - 1) / BLOCK_SIZE = off / BLOCK_SIZE) as ->.
  - symmetry. apply (Z.div_unique _ _ _ (off mod BLOCK_SIZE + n - 1)).
    + left. revert Hmod Hfit. generalize (off mod BLOCK_SIZE). lia.
    + revert Hdm. generalize (off mod BLOCK_SIZE) (off / BLOCK_SIZE). lia.
  - revert Hc. generalize (off / BLOCK_SIZE). lia.
Qed.

(** After a chunk that is not the last one, the rest of the write ends in
    the same block. *)
Lemma blocks_after_chunk c off m n :
  0 < n < m -> blocks_after c (off + n) (m - n) = blocks_after c off m.
Proof.
  intros H. unfold blocks_after.
  replace (0 <? m - n) with true by lia. replace (0 <? m) with true by lia.
  by replace (off + n + (m - n) - 1) with (off + m - 1) by lia.
Qed.

(** A write that starts at the end of the last block needs a block. *)
Lemma blocks_after_extend c off m :
  0 < m -> 0 <= off -> c = off / BLOCK_SIZE ->
  c + 1 <= blocks_after c off m
  /\ blocks_after (c + 1) off m = blocks_after c off m.
Proof.
  intros Hm Hoff ->. pose proof (BLOCK_SIZE_pos cfg_ok) as Hbs.
  unfold blocks_after. replace (0 <? m) with true by lia.
  assert (off / BLOCK_SIZE <= (off + m - 1) / BLOCK_SIZE)
    by (apply Z.div_le_mono; lia).
  lia.
Qed.

(** The loop of [write_to_open_file] returns; it writes all its bytes
    exactly when the blocks that the write needs are free, and gives up
    otherwise. *)
Lemma write_loop_exact i fhandle buffer to_write fuel : forall s written,
  shape s -> wf_file s i -> lk_data_blocks (locks s) = false ->
  valid_file_handle fhandle = true ->
  of_inumber (entry_at s fhandle) = i ->
  0 <= of_offset (entry_at s fhandle)
  <= i_data_block_count (inode_at s i) * BLOCK_SIZE ->
  0 <= written <= to_write ->
  to_write <= Z.of_nat (length buffer) ->
  of_offset (entry_at s fhandle) + (to_write - written) <= MAX_FILE_SIZE ->
  (Z.to_nat (to_write - written) <= fuel)%nat ->
  exists ok s1,
    write_loop fuel fhandle buffer to_write written s = Some (ok, s1)
    /\ (ok = true -> wrote i fhandle buffer written (to_write - written) s s1)
    /\ (ok = true <->
        blocks_needed s i (of_offset (entry_at s fhandle))
                      (to_write - written) <= free_count s).
Proof.
  pose proof (BLOCK_SIZE_pos cfg_ok) as Hbs.
  induction fuel as [|fuel IH]; intros s written Hsh Hwf Hlk Hvf Hino Hoff Hw
    Hbuf Hmax Hfuel.
  - exists true, s. rewrite write_loop_skip by lia.
    split; [done|]. split.
    + intros _. replace (to_write - written) with 0 by lia.
      apply wrote_refl; [done..|lia].
    + split; [|done]. intros _. unfold blocks_needed.
      rewrite blocks_after_none by lia. pose proof (free_count_nonneg s). lia.
  - destruct (decide (to_write <= written)) as [Hdone|Hmore].
    { exists true, s. rewrite write_loop_skip by lia.
      split; [done|]. split.
      - intros _. replace (to_write - written) with 0 by lia.
        apply wrote_refl; [done..|lia].
      - split; [|done]. intros _. unfold blocks_needed.
        rewrite blocks_after_none by lia. pose proof (free_count_nonneg s).
        lia. }
    cbn [write_loop]. replace (written <? to_write) with true by lia.
    rewrite bind_gets. rewrite Hino.
    set (off := of_offset (entry_at s fhandle)) in *.
    set (c := i_data_block_count (inode_at s i)) in *.
    set (m := to_write - written) in *.
    rewrite bind_gets. fold c.
    destruct (max_file_size_blocks cfg_ok off) as [Hbi0 Hbi1]; [lia|].
    pose proof (Z.mod_pos_bound off BLOCK_SIZE Hbs) as Hmod.
    (* the optional extension *)
    assert (exists ok' s',
      (if c =? off / BLOCK_SIZE
       then let* r := inode_extend_unsafe i in ret (negb (r =? -1))
       else ret true) s = Some (ok', s')
      /\ (ok' = true ->
          wrote i fhandle buffer written 0 s s'
          /\ off / BLOCK_SIZE < i_data_block_count (inode_at s' i)
          /\ blocks_after (i_data_block_count (inode_at s' i)) off m
             = blocks_after c off m)
      /\ (ok' = false ->
          free_count s < owned_blocks (blocks_after c off m) - owned_blocks c))
      as (ok' & s' & Hrun & Hok & Hfail).
    { destruct (_ =? _) eqn:E.
      - apply Z.eqb_eq in E.
        destruct (extend_exact s i Hsh Hwf Hlk) as (r & s' & Hr & Hex & Hiff).
        fold c in Hiff.
        destruct (blocks_after_extend c off m) as [Hge Hsame]; [lia | lia | done |].
        exists (negb (r =? -1)), s'.
        split; [by rewrite (bind_run _ _ _ _ _ Hr)|].
        split.
        + intros Hne. apply negb_true_iff, Z.eqb_neq in Hne.
          specialize (Hex Hne). split; [|split].
          * by apply (wrote_extended cfg_ok i fhandle buffer written r).
          * rewrite (ex_count _ _ _ _ Hex). fold c. lia.
          * rewrite (ex_count _ _ _ _ Hex). by fold c.
        + intros Hne. apply negb_false_iff, Z.eqb_eq in Hne.
          pose proof (owned_blocks_mono _ _ Hge) as Hmono.
          destruct (decide (owned_blocks (c + 1) - owned_blocks c
                            <= free_count s)) as [Hfree|Hfree]; [|lia].
          exfalso. by apply (proj2 Hiff (conj ltac:(lia) Hfree)).
      - apply Z.eqb_neq in E. exists true, s. split; [done|].
        split; [|done]. intros _. split; [apply wrote_refl; [done..|lia]|].
        split; [|done]. fold c.
        assert (off / BLOCK_SIZE <= c); [|lia].
        apply Z.div_le_upper_bound; lia. }
    rewrite (bind_run _ _ _ _ _ Hrun).
    destruct ok'; cbn [negb].
    2: { exists false, s'. split; [done|]. split; [done|].
         specialize (Hfail eq_refl). unfold blocks_needed. fold c.
         split; [done|]. lia. }
    destruct (Hok eq_refl) as (Hw0 & Hbi & Hafter). clear Hok Hfail.
    pose proof (wr_shape _ _ _ _ _ _ _ Hw0) as Hsh'.
    pose proof (wr_wf _ _ _ _ _ _ _ Hw0) as Hwf'.
    pose proof (wr_free_count _ _ _ _ _ _ _ Hw0) as Hfc'.
    rewrite !owned_count_blocks in Hfc'. fold c in Hfc'.
    assert (entry_at s' fhandle = entry_at s fhandle) as He'.
    { rewrite (wr_entry _ _ _ _ _ _ _ Hw0), Z.add_0_r.
      apply set_of_offset_id. }
    set (c' := i_data_block_count (inode_at s' i)) in *.
    rewrite bind_gets.
    pose proof (get_block_nonneg s' i (off / BLOCK_SIZE) Hwf'
                  (conj Hbi0 Hbi)) as Hb.
    set (b := inode_get_block_unsafe s' i (off / BLOCK_SIZE)) in *.
    replace (b =? -1) with false by lia.
    unfold data_block_get.
    replace (valid_block_number b) with true
      by (symmetry; by apply valid_block_number_range).
    cbn [negb].
    set (n := if off mod BLOCK_SIZE + to_write - written <? BLOCK_SIZE
              then to_write - written else BLOCK_SIZE - off mod BLOCK_SIZE).
    assert (0 < n /\ off mod BLOCK_SIZE + n <= BLOCK_SIZE
            /\ n <= m) as (Hn0 & Hn1 & Hn2).
    { subst n m.
      destruct (off mod BLOCK_SIZE + to_write - written <? BLOCK_SIZE) eqn:E;
        lia. }
    do 2 rewrite bind_modify.
    match goal with
    | |- exists ok s1, write_loop _ _ _ _ _ ?s2 = _ /\ _ =>
        set (s'' := s2) in *
    end.
    assert (wrote i fhandle buffer written n s' s'') as Hw1.
    { pose proof (wrote_copy cfg_ok i fhandle buffer written n s' Hsh' Hwf' Hvf)
        as Hcopy.
      rewrite He' in Hcopy. subst s''. unfold upd_entry.
      unfold entry_at in *. cbn [open_file_table set_fs_data] in *.
      rewrite He'. apply Hcopy; subst off n m; cbv zeta in *; lia. }
    assert (of_offset (entry_at s'' fhandle) = off + n) as Hoff''.
    { rewrite (wr_entry _ _ _ _ _ _ _ Hw1), He'. done. }
    assert (of_inumber (entry_at s'' fhandle) = i) as Hino''.
    { rewrite (wr_entry _ _ _ _ _ _ _ Hw1), He'. done. }
    assert (i_data_block_count (inode_at s'' i) = c') as Hc'' by reflexivity.
    assert (free_count s'' = free_count s') as Hfc'' by reflexivity.
    pose proof (wr_fits _ _ _ _ _ _ _ Hw1) as Hfits. rewrite He' in Hfits.
    fold off in Hfits.
    destruct (IH s'' (written + n)) as (ok & s1 & Hrun1 & Hok1 & Hiff1);
      try done.
    + apply Hw1.
    + apply Hw1.
    + rewrite (wr_locks _ _ _ _ _ _ _ Hw1), (wr_locks _ _ _ _ _ _ _ Hw0). done.
    + rewrite Hoff''. lia.
    + lia.
    + rewrite Hoff''. lia.
    + lia.
    + exists ok, s1. split; [done|]. split.
      * intros Hok. specialize (Hok1 Hok).
        replace m with (0 + (n + (to_write - (written + n))))
          by lia.
        eapply wrote_trans; [lia | lia | lia | exact Hw0 |].
        rewrite Z.add_0_r.
        eapply wrote_trans; [lia | lia | | exact Hw1 | exact Hok1].
        rewrite He'. lia.
      * rewrite Hiff1. unfold blocks_needed. rewrite Hc'', Hfc'', Hoff''.
        fold c. replace (to_write - (written + n)) with (m - n) by lia.
        pose proof (free_count_nonneg s') as Hnn.
        destruct (decide (n = m)) as [Hlast|Hnot].
        -- rewrite blocks_after_none by lia.
           rewrite <- Hafter.
           rewrite (blocks_after_last c' off m) by lia. lia.
        -- rewrite blocks_after_chunk by lia. rewrite Hafter. lia.
Qed.

(** [write_to_open_file] returns -1 exactly when the blocks that the
    clamped write needs are not free. *)
Lemma write_fails_iff s fhandle buffer to_write :
  shape s -> valid_file_handle fhandle = true ->
  wf_file s (of_inumber (entry_at s fhandle)) ->
  sel (lk_of (locks s)) fhandle = false ->
  sel (lk_inode (locks s)) (of_inumber (entry_at s fhandle)) = RwFree ->
  lk_data_blocks (locks s) = false ->
  0 <= start_offset s fhandle
  <= i_size (inode_at s (of_inumber (entry_at s fhandle))) ->
  0 <= to_write <= Z.of_nat (length buffer) ->
  exists r s1,
    write_to_open_file fhandle buffer to_write s = Some (r, s1)
    /\ (r <> -1 <->
        blocks_needed s (of_inumber (entry_at s fhandle))
          (start_offset s fhandle)
          (Z.min to_write (MAX_FILE_SIZE - start_offset s fhandle))
        <= free_count s).
Proof.
  intros Hsh Hvf Hwf Hm Hrw Hlk Hoff Hn.
  pose proof (wf_valid _ _ Hwf) as Hvi.
  pose proof (wf_size _ _ Hwf) as Hsz. pose proof (wf_count _ _ Hwf) as Hc.
  pose proof (BLOCK_SIZE_pos cfg_ok) as Hbs.
  set (i := of_inumber (entry_at s fhandle)) in *.
  set (off := start_offset s fhandle) in *.
  unfold write_to_open_file. rewrite Hvf. cbn [negb].
  rewrite (bind_run _ _ _ _ _ (mutex_lock_run (of_mutex fhandle) s Hm)).
  rewrite bind_gets.
  change (of_inumber (entry_at (set_locks _ s) fhandle)) with i.
  unfold inode_get. rewrite Hvi. cbn [negb].
  erewrite (enter_loop s fhandle true) by done. fold i off.
  replace (i_size (inode_at s i) <? off) with false by lia.
  destruct (clamp_write cfg_ok s fhandle to_write Hwf Hoff) as [Hclamp Hmin];
    [lia|].
  fold off in Hmin, Hclamp. rewrite !Hclamp. clear Hclamp.
  set (n := Z.min to_write (MAX_FILE_SIZE - off)) in *.
  set (s_c := at_loop s fhandle RwWrite).
  pose proof (at_loop_same_fs s fhandle RwWrite) as Hsame. fold s_c in Hsame.
  pose proof (at_loop_shape s fhandle RwWrite Hsh) as Hsh_c. fold s_c in Hsh_c.
  pose proof (at_loop_entry s fhandle RwWrite Hsh Hvf) as He_c.
  fold s_c off in He_c.
  destruct (write_loop_exact i fhandle buffer n (Z.to_nat n) s_c 0)
    as (ok & s_l & Hrun & Hok & Hiff); try done.
  { by apply (same_fs_wf s). }
  { rewrite He_c. done. }
  { rewrite He_c, (same_fs_inode _ _ _ Hsame).
    cbn [of_offset set_of_offset]. lia. }
  { subst n. lia. }
  { rewrite He_c. cbn [of_offset set_of_offset]. subst n. lia. }
  { lia. }
  assert (blocks_needed s_c i (of_offset (entry_at s_c fhandle)) (n - 0)
          = blocks_needed s i off n) as Eneeded.
  { unfold blocks_needed. rewrite He_c, (same_fs_inode _ _ _ Hsame), Z.sub_0_r.
    done. }
  rewrite Eneeded, (same_fs_free_count _ _ Hsame) in Hiff.
  rewrite (bind_run _ _ _ _ _ Hrun).
  destruct ok; cbn [negb].
  2: { unfold pthread_rwlock_unlock, pthread_mutex_unlock.
       rewrite !bind_modify. eexists _, _. split; [reflexivity|].
       split; [done|]. intros Hfree. by apply Hiff in Hfree. }
  do 2 rewrite bind_gets. rewrite bind_if_modify.
  unfold pthread_rwlock_unlock, pthread_mutex_unlock.
  rewrite !bind_modify.
  eexists n, _. split; [reflexivity|].
  split; [intros _; by apply Hiff | intros _; lia].
Qed.

End Proofs.

Section Claims.
Context {cfg : Config}.
Hypothesis cfg_ok : config_ok.

(** A write of no byte does not enter the loop. *)
Lemma write_zero s fhandle buffer :
  shape s -> valid_file_handle fhandle = true ->
  wf_file s (of_inumber (entry_at s fhandle)) ->
  sel (lk_of (locks s)) fhandle = false ->
  sel (lk_inode (locks s)) (of_inumber (entry_at s fhandle)) = RwFree ->
  0 <= start_offset s fhandle
  <= i_size (inode_at s (of_inumber (entry_at s fhandle))) ->
  exists s1, write_to_open_file fhandle buffer 0 s = Some (0, s1).
Proof.
  intros Hsh Hvf Hwf Hm Hrw Hoff.
  pose proof (wf_valid _ _ Hwf) as Hvi.
  unfold write_to_open_file. rewrite Hvf. cbn [negb].
  rewrite (bind_run _ _ _ _ _ (mutex_lock_run (of_mutex fhandle) s Hm)).
  rewrite bind_gets.
  change (of_inumber (entry_at (set_locks _ s) fhandle))
    with (of_inumber (entry_at s fhandle)).
  unfold inode_get. rewrite Hvi. cbn [negb].
  erewrite (enter_loop s fhandle true) by done.
  replace (_ <? start_offset s fhandle) with false by lia.
  destruct (clamp_write cfg_ok s fhandle 0 Hwf Hoff) as [Hclamp Hmin]; [lia|].
  rewrite !Hclamp.
  replace (Z.min 0 (MAX_FILE_SIZE - start_offset s fhandle)) with 0 by lia.
  rewrite (bind_run _ _ _ _ _
             (write_loop_skip (Z.to_nat 0) fhandle buffer 0 0 _ (Z.le_refl 0))).
  cbn [negb]. do 2 rewrite bind_gets. rewrite bind_if_modify.
  unfold pthread_rwlock_unlock, pthread_mutex_unlock.
  rewrite !bind_modify. eexists. reflexivity.
Qed.

(** C2, with the failure that the claim leaves out: a write through a
    handle whose offset is within the file returns.  It returns
    [min (to_write, MAX_FILE_SIZE - offset)], the length clamped to what
    the file can still take, with the bytes in the file ([write_ok]),
    exactly when the blocks that the clamped write needs are free
    ([blocks_needed]: the blocks up to that of its last byte that the file
    does not have yet, and the indirect block when the file grows past
    [INODE_DIRECT_REFS] blocks).  When they are not, a call of
    [inode_extend_unsafe] in the loop finds no block and the write returns
    -1.  A write of length 0 needs no block and returns 0. *)
Theorem write_returns_clamped_length s fhandle buffer to_write :
  shape s -> valid_file_handle fhandle = true ->
  wf_file s (of_inumber (entry_at s fhandle)) ->
  sel (lk_of (locks s)) fhandle = false ->
  sel (lk_inode (locks s)) (of_inumber (entry_at s fhandle)) = RwFree ->
  lk_data_blocks (locks s) = false ->
  0 <= start_offset s fhandle
  <= i_size (inode_at s (of_inumber (entry_at s fhandle))) ->
  0 <= to_write <= Z.of_nat (length buffer) ->
  exists r s1,
    tfs_write fhandle buffer to_write s = Some (r, s1)
    /\ (blocks_needed s (of_inumber (entry_at s fhandle))
          (start_offset s fhandle)
          (Z.min to_write (MAX_FILE_SIZE - start_offset s fhandle))
        <= free_count s ->
        r = Z.min to_write (MAX_FILE_SIZE - start_offset s fhandle)
        /\ write_ok fhandle buffer r s s1)
    /\ (free_count s
        < blocks_needed s (of_inumber (entry_at s fhandle))
            (start_offset s fhandle)
            (Z.min to_write (MAX_FILE_SIZE - start_offset s fhandle)) ->
        r = -1)
    /\ (to_write = 0 -> r = 0).
Proof.
  intros Hsh Hvf Hwf Hm Hrw Hlk Hoff Hn.
  destruct (write_total cfg_ok s fhandle buffer to_write
              Hsh Hvf Hwf Hm Hrw Hlk Hoff Hn)
    as (r & s1 & Hrun & Hok & _).
  destruct (write_fails_iff cfg_ok s fhandle buffer to_write
              Hsh Hvf Hwf Hm Hrw Hlk Hoff Hn)
    as (r' & s1' & Hrun' & Hiff).
  rewrite Hrun in Hrun'. injection Hrun' as <- <-.
  exists r, s1. split; [exact Hrun|].
  split; [|split].
  - intros Hfree. apply Hok. by apply Hiff.
  - intros Hfree. destruct (decide (r = -1)) as [|Hr]; [done|].
    apply Hiff in Hr. lia.
  - intros ->.
    destruct (write_zero s fhandle buffer Hsh Hvf Hwf Hm Hrw Hoff) as [s0 H0].
    rewrite H0 in Hrun. by injection Hrun as <- _.
Qed.

End Claims.

Section SmallClaims.

#[local] Existing Instance small_cfg.

Lemma small_full_shape : shape small_full.
Proof. constructor; try by vm_compute. vm_compute. repeat constructor. Qed.

Lemma small_full_wf : wf_file small_full (of_inumber (entry_at small_full 1)).
Proof. apply (wf_file_empty small_cfg_ok); by vm_compute. Qed.

(** In [small_full] four blocks are free: a write of 96 bytes to the
    empty file [/b] needs three blocks and the indirect block, a write of
    97 bytes one block more. *)
Lemma small_full_free : free_count small_full = 4.
Proof. by vm_compute. Qed.

Lemma small_full_clamp_96 :
  Z.min 96 (MAX_FILE_SIZE - start_offset small_full 1) = 96.
Proof. by vm_compute. Qed.

Lemma small_full_needs_96 :
  blocks_needed small_full (of_inumber (entry_at small_full 1))
    (start_offset small_full 1)
    (Z.min 96 (MAX_FILE_SIZE - start_offset small_full 1))
  <= free_count small_full.
Proof. by vm_compute. Qed.

Lemma small_full_needs_97 :
  free_count small_full
  < blocks_needed small_full (of_inumber (entry_at small_full 1))
      (start_offset small_full 1)
      (Z.min 97 (MAX_FILE_SIZE - start_offset small_full 1)).
Proof. by vm_compute. Qed.

Lemma write_returns_clamped_length_witness :
  (exists s1, tfs_write 1 (replicate 96 7) 96 small_full = Some (96, s1))
  /\ (exists s1, tfs_write 1 (replicate 97 7) 97 small_full = Some (-1, s1)).
Proof.
  split.
  - destruct (write_returns_clamped_length small_cfg_ok small_full 1
                (replicate 96 7) 96)
      as (r & s1 & Hrun & Hok & _).
    + exact small_full_shape.
    + by vm_compute.
    + exact small_full_wf.
    + by vm_compute.
    + by vm_compute.
    + by vm_compute.
    + by vm_compute.
    + by vm_compute.
    + destruct (Hok small_full_needs_96) as [Hr _].
      rewrite small_full_clamp_96 in Hr. subst r.
      exists s1. exact Hrun.
  - destruct (write_returns_clamped_length small_cfg_ok small_full 1
                (replicate 97 7) 97)
      as (r & s1 & Hrun & _ & Hfail & _).
    + exact small_full_shape.
    + by vm_compute.
    + exact small_full_wf.
    + by vm_compute.
    + by vm_compute.
    + by vm_compute.
    + by vm_compute.
    + by vm_compute.
    + rewrite (Hfail small_full_needs_97) in Hrun. exists s1. exact Hrun.
Defined.

(** C2 does not hold when no block can be allocated: in [small_full] the
    file [/a] holds 11 of the 16 blocks and the root directory one; the
    offset of handle 1, on the empty file [/b], is 0, as is the size of
    [/b]; and a write of 320 bytes, which is [MAX_FILE_SIZE - 0], returns
    -1. *)
Lemma write_without_blocks_fails :
  of_offset (entry_at small_full 1) = 0
  /\ i_size (inode_at small_full (of_inumber (entry_at small_full 1))) = 0
  /\ Z.min 320 (MAX_FILE_SIZE - start_offset small_full 1) = 320
  /\ exists s1, tfs_write 1 (replicate 320 7) 320 small_full = Some (-1, s1).
Proof.
  split; [reflexivity|]. split; [reflexivity|]. split; [reflexivity|].
  eexists. vm_compute. reflexivity.
Qed.

End SmallClaims.

Section Claims.
Context {cfg : Config}.
Hypothesis cfg_ok : config_ok.

(** A taken block is none of the blocks of a file without blocks. *)
Lemma protected_empty s i q :
  i_data_block_count (inode_at s i) = 0 ->
  valid_block_number q = true -> sel (free_blocks s) q = TAKEN ->
  protected s i q.
Proof.
  intros Hc Hv Ht. pose proof (INODE_DIRECT_REFS_pos cfg_ok).
  split; [done|]. split; [done|].
  intros [(k & Hk & _) | [Hk _]]; lia.
Qed.

End Claims.

Section SmallClaims.

#[local] Existing Instance small_cfg.

Lemma write_read_roundtrip_witness :
  exists s1 s2 g s3 data s4,
    tfs_write 0 [104; 101; 108; 108; 111] 5 small_opened = Some (5, s1)
    /\ tfs_close 0 s1 = Some (0, s2)
    /\ tfs_open path_a 0 s2 = Some (g, s3) /\ g <> -1
    /\ tfs_read g (replicate 5 0) 5 s3 = Some ((5, data), s4)
    /\ data = [104; 101; 108; 108; 111].
Proof.
  eexists.
  destruct (write_read_roundtrip small_cfg_ok small_opened path_a 0
              [104; 101; 108; 108; 111] 5 5
              (exec (tfs_write 0 [104; 101; 108; 108; 111] 5) small_opened)
              (replicate 5 0))
    as (s2 & g & s3 & data & s4 & Hclose & Hopen & Hg & Hread & Hdata).
  - exact small_opened_shape.
  - reflexivity.
  - reflexivity.
  - reflexivity.
  - reflexivity.
  - exact small_opened_wf.
  - reflexivity.
  - by vm_compute.
  - apply (protected_empty small_cfg_ok); reflexivity.
  - by vm_compute.
  - by vm_compute.
  - vm_compute. reflexivity.
  - discriminate.
  - reflexivity.
  - exists s2, g, s3, data, s4.
    split; [vm_compute; reflexivity|].
    split; [exact Hclose|]. split; [exact Hopen|]. split; [exact Hg|].
    split; [exact Hread|]. exact Hdata.
Defined.

(** C1 does not hold for a write at an offset other than 0.  In
    [small_ab] the file [/a] holds [ab], written through handle 0, whose
    offset is 2.  Writing [cd] through handle 0 returns 2, far from the
    capacity; after [tfs_close] and [tfs_open] of the same path, reading 2
    bytes returns [ab], the first two bytes of the file, not [cd]. *)
Lemma roundtrip_reads_start_of_file :
  exists s1 s2 s3 s4,
    tfs_write 0 [99; 100] 2 small_ab = Some (2, s1)
    /\ 2 <= MAX_FILE_SIZE - of_offset (entry_at small_ab 0)
    /\ tfs_close 0 s1 = Some (0, s2)
    /\ tfs_open path_a 0 s2 = Some (0, s3)
    /\ tfs_read 0 [0; 0] 2 s3 = Some ((2, [97; 98]), s4)
    /\ [97; 98] <> [99; 100].
Proof.
  eexists _, _, _, _.
  split; [vm_compute; reflexivity|]. split; [by vm_compute|].
  split; [vm_compute; reflexivity|]. split; [vm_compute; reflexivity|].
  split; [vm_compute; reflexivity|]. discriminate.
Qed.

Lemma small_append_wf : wf_file small_append 1.
Proof. by apply (wf_file_empty small_cfg_ok). Qed.

Lemma append_read_returns_zero_witness :
  exists s', read_from_open_file 0 [0] 1 small_append = Some ((0, [0]), s').
Proof.
  destruct (append_read_returns_zero small_cfg_ok small_append 0 [0] 1)
    as [_ Hruns].
  - exact small_append_shape.
  - lia.
  - vm_compute. discriminate.
  - apply Hruns.
    + reflexivity.
    + exact small_append_wf.
    + reflexivity.
    + reflexivity.
    + by vm_compute.
Defined.

End SmallClaims.

(** * Further properties of the operations *)

Section Properties.
Context {cfg : Config}.
Hypothesis cfg_ok : config_ok.

(** ** The block allocator *)

(** [data_block_alloc] hands out the free block of the lowest number and
    marks it taken; when no block is free it returns -1 and leaves the
    state as it is.  It never returns a block that is taken. *)
Theorem data_block_alloc_lowest s :
  lk_data_blocks (locks s) = false ->
  exists r s1,
    data_block_alloc s = Some (r, s1)
    /\ ((r = -1 /\ s1 = s
         /\ forall j, valid_block_number j = true ->
                      sel (free_blocks s) j = TAKEN)
        \/ (valid_block_number r = true
            /\ sel (free_blocks s) r = FREE
            /\ (forall j, 0 <= j < r -> sel (free_blocks s) j = TAKEN)
            /\ s1 = set_free_blocks (upd (free_blocks s) r TAKEN) s)).
Proof.
  intros Hlk. rewrite data_block_alloc_run by done.
  destruct (first_free (free_blocks s) (Z.to_nat DATA_BLOCKS) 0) as [b|] eqn:Hb.
  - eexists _, _. split; [reflexivity|]. right.
    destruct (first_free_Some _ _ _ _ Hb) as (Hr & Hf & Hlow).
    pose proof (DATA_BLOCKS_pos cfg_ok).
    split; [apply valid_block_number_range; lia|]. split; [done|].
    split; [|done]. intros j Hj. specialize (Hlow j Hj).
    by destruct (sel (free_blocks s) j).
  - eexists _, _. split; [reflexivity|]. left. split; [done|]. split; [done|].
    intros j Hj. apply valid_block_number_range in Hj.
    pose proof (first_free_None _ _ _ Hb j) as Hn.
    destruct (sel (free_blocks s) j); [|done].
    exfalso. apply Hn; [lia | done].
Qed.

(** Freeing the block that [data_block_alloc] has just returned gives
    back the state before the allocation. *)
Theorem data_block_alloc_free_roundtrip s b s1 :
  data_block_alloc s = Some (b, s1) -> b <> -1 ->
  data_block_free b s1 = Some (0, s).
Proof.
  intros H Hb.
  apply data_block_alloc_inv in H as [Hlk [(_ & -> & _) | (Hf & ->)]]; [done|].
  destruct (first_free_valid _ _ Hf) as (Hv & Hfree & _).
  rewrite data_block_free_valid by done. do 2 f_equal.
  cbn [free_blocks set_free_blocks]. rewrite upd_upd_eq, upd_same by done.
  by destruct s.
Qed.

End Properties.

Section SmallProperties.

#[local] Existing Instance small_cfg.

Lemma data_block_alloc_lowest_witness :
  exists s1, data_block_alloc small_opened = Some (1, s1).
Proof.
  destruct (data_block_alloc_lowest small_cfg_ok small_opened eq_refl)
    as (r & s1 & Hrun & Hcase).
  exists s1. rewrite Hrun. do 2 f_equal.
  destruct Hcase as [(_ & _ & Hall) | (_ & Hfree & Hlow & _)].
  - specialize (Hall 1 eq_refl). vm_compute in Hall. discriminate.
  - destruct (Z.lt_trichotomy r 1) as [Hlt | [Heq | Hgt]]; [|done|].
    + assert (r = 0 \/ r < 0) as [-> | Hneg] by lia.
      * vm_compute in Hfree. discriminate.
      * vm_compute in Hrun. by injection Hrun as <- _.
    + specialize (Hlow 1 ltac:(lia)). vm_compute in Hlow. discriminate.
Defined.

Lemma data_block_alloc_free_roundtrip_witness :
  data_block_free 1 (exec data_block_alloc small_opened)
  = Some (0, small_opened).
Proof.
  apply (data_block_alloc_free_roundtrip small_opened 1).
  - vm_compute. reflexivity.
  - discriminate.
Defined.

End SmallProperties.

(** Push the property [P] of states along the runs of the context;
    [P] does not depend on the parts of the state that the updates
    between the runs change, and [tac] turns a run into its step. *)
Ltac fwd_prop P tac :=
  repeat match goal with
    | H : ?m ?st = Some (_, ?s') |- _ =>
        lazymatch goal with | _ : P s' |- _ => fail | _ => idtac end;
        let Hst := fresh "Hp" in
        assert (P st) as Hst
          by (match goal with Hq : P _ |- _ => exact Hq end);
        let H' := fresh in
        pose proof H as H'; tac H'; [ | exact Hst]
    end.

(** Close a goal [P st] by the [P st0] of the context it is convertible
    with. *)
Ltac by_conv P := match goal with Hq : P _ |- _ => exact Hq end.

Section Properties.
Context {cfg : Config}.
Hypothesis cfg_ok : config_ok.

(** ** The open-file table *)

Lemma mutex_lock_count m s u s1 :
  count_inv s -> pthread_mutex_lock m s = Some (u, s1) -> count_inv s1.
Proof. intros Hp H. by apply mutex_lock_inv in H as [_ ->]. Qed.

Lemma mutex_unlock_count m s u s1 :
  count_inv s -> pthread_mutex_unlock m s = Some (u, s1) -> count_inv s1.
Proof.
  intros Hp H. unfold pthread_mutex_unlock in H. by apply modify_inv in H as ->.
Qed.

Lemma wrlock_count i s u s1 :
  count_inv s -> pthread_rwlock_wrlock i s = Some (u, s1) -> count_inv s1.
Proof. intros Hp H. by apply wrlock_inv in H as ->. Qed.

Lemma rdlock_count i s u s1 :
  count_inv s -> pthread_rwlock_rdlock i s = Some (u, s1) -> count_inv s1.
Proof. intros Hp H. by apply rdlock_inv in H as [r ->]. Qed.

Lemma rwlock_unlock_count i s u s1 :
  count_inv s -> pthread_rwlock_unlock i s = Some (u, s1) -> count_inv s1.
Proof.
  intros Hp H. unfold pthread_rwlock_unlock in H. by apply modify_inv in H as ->.
Qed.

Lemma data_block_alloc_count s r s1 :
  count_inv s -> data_block_alloc s = Some (r, s1) -> count_inv s1.
Proof.
  intros Hp H.
  by apply data_block_alloc_inv in H as [_ [(_ & _ & ->) | (_ & ->)]].
Qed.

Lemma data_block_free_count b s r s1 :
  count_inv s -> data_block_free b s = Some (r, s1) -> count_inv s1.
Proof.
  intros Hp H.
  by apply data_block_free_inv in H as [(_ & _ & ->) | (_ & _ & _ & ->)].
Qed.

End Properties.

(** The steps of the primitives for [count_inv]. *)
Ltac prim_count H :=
  first [ apply mutex_lock_count in H | apply mutex_unlock_count in H
        | apply wrlock_count in H | apply rdlock_count in H
        | apply rwlock_unlock_count in H
        | apply data_block_alloc_count in H
        | apply data_block_free_count in H ].

Section Properties.
Context {cfg : Config}.
Hypothesis cfg_ok : config_ok.

Lemma inode_extend_unsafe_count i s r s1 :
  count_inv s -> inode_extend_unsafe i s = Some (r, s1) -> count_inv s1.
Proof.
  intros Hp H. unfold inode_extend_unsafe in H. run_inv.
  all: fwd_prop (@count_inv cfg) ltac:(fun H => prim_count H).
  all: by_conv (@count_inv cfg).
Qed.

End Properties.

Section Properties.
Context {cfg : Config}.
Hypothesis cfg_ok : config_ok.

Lemma taken_count_take tbl g :
  (Z.to_nat g < length tbl)%nat -> sel tbl g = FREE ->
  Z.of_nat (length (filter (fun a => a = TAKEN) (upd tbl g TAKEN)))
  = Z.of_nat (length (filter (fun a => a = TAKEN) tbl)) + 1.
Proof.
  intros Hlen Hfree. unfold upd.
  assert (<[Z.to_nat g:=TAKEN]> tbl !! Z.to_nat g = Some TAKEN) as Hl
    by (by apply list_lookup_insert_eq).
  pose proof (filter_insert_drop (fun a => a = TAKEN)
                (<[Z.to_nat g:=TAKEN]> tbl) (Z.to_nat g) FREE TAKEN Hl eq_refl)
    as H.
  assert (FREE <> TAKEN) as Hne by done. specialize (H Hne).
  rewrite list_insert_insert_eq in H.
  rewrite (list_insert_id tbl (Z.to_nat g) FREE) in H; [lia|].
  rewrite <- Hfree. by apply list_lookup_lookup_total_lt.
Qed.

Lemma taken_count_release tbl g :
  (Z.to_nat g < length tbl)%nat -> sel tbl g = TAKEN ->
  Z.of_nat (length (filter (fun a => a = TAKEN) (upd tbl g FREE)))
  = Z.of_nat (length (filter (fun a => a = TAKEN) tbl)) - 1.
Proof.
  intros Hlen Ht. unfold upd.
  assert (tbl !! Z.to_nat g = Some TAKEN) as Hl.
  { rewrite <- Ht. by apply list_lookup_lookup_total_lt. }
  pose proof (filter_insert_drop (fun a => a = TAKEN) tbl (Z.to_nat g)
                FREE TAKEN Hl eq_refl) as H.
  assert (FREE <> TAKEN) as Hne by done. specialize (H Hne). lia.
Qed.

Lemma add_to_open_file_table_inv s inumber append g s1 :
  add_to_open_file_table inumber append s = Some (g, s1) ->
  lk_open_file_table (locks s) = false
  /\ ((first_free (free_open_file_entries s) (Z.to_nat MAX_OPEN_FILES) 0 = None
       /\ g = -1 /\ s1 = s)
      \/ (first_free (free_open_file_entries s) (Z.to_nat MAX_OPEN_FILES) 0
          = Some g
          /\ s1 = set_open_file_count (open_file_count s + 1)
                    (set_open_file_table
                       (upd (open_file_table s) g (mk_entry inumber append 0))
                       (set_free_open_file_entries
                          (upd (free_open_file_entries s) g TAKEN) s)))).
Proof.
  intros H.
  destruct (lk_open_file_table (locks s)) eqn:Hlk.
  { unfold add_to_open_file_table, bind, pthread_mutex_lock in H.
    cbn [mutex_held] in H. by rewrite Hlk in H. }
  split; [done|].
  destruct (first_free (free_open_file_entries s) (Z.to_nat MAX_OPEN_FILES) 0)
    as [g'|] eqn:Hf.
  - rewrite (add_to_open_file_table_run s inumber append g') in H by done.
    injection H as <- <-. by right.
  - rewrite add_to_open_file_table_full in H by done.
    injection H as <- <-. by left.
Qed.

Lemma remove_from_open_file_table_inv s fhandle r s1 :
  remove_from_open_file_table fhandle s = Some (r, s1) ->
  lk_open_file_table (locks s) = false
  /\ ((r = -1 /\ s1 = s
       /\ (valid_file_handle fhandle = false
           \/ sel (free_open_file_entries s) fhandle = FREE))
      \/ (r = 0 /\ valid_file_handle fhandle = true
          /\ sel (free_open_file_entries s) fhandle = TAKEN
          /\ s1 = set_open_file_count (open_file_count s - 1)
                    (set_free_open_file_entries
                       (upd (free_open_file_entries s) fhandle FREE) s))).
Proof.
  intros H.
  destruct (lk_open_file_table (locks s)) eqn:Hlk.
  { unfold remove_from_open_file_table, bind, pthread_mutex_lock in H.
    cbn [mutex_held] in H. by rewrite Hlk in H. }
  split; [done|].
  destruct (valid_file_handle fhandle) eqn:Hv.
  - destruct (sel (free_open_file_entries s) fhandle) eqn:Ht.
    + left. unfold remove_from_open_file_table in H.
      rewrite (bind_run _ _ _ _ _
                 (mutex_lock_run open_file_table_mutex s Hlk)) in H.
      rewrite bind_gets in H. cbn [free_open_file_entries set_locks] in H.
      rewrite Hv, Ht in H. cbn [negb orb] in H.
      rewrite bool_decide_eq_false_2 in H by done. cbn [negb] in H.
      unfold pthread_mutex_unlock in H. rewrite bind_modify in H.
      apply ret_inv in H as [Hr Hs]; subst r s1.
      split; [done|]. split; [|by right].
      rewrite locks_set_locks, table_mutex_restore by done.
      by destruct s.
    + right. rewrite remove_from_open_file_table_run in H by done.
      by injection H as <- <-.
  - left. unfold remove_from_open_file_table in H.
    rewrite (bind_run _ _ _ _ _
               (mutex_lock_run open_file_table_mutex s Hlk)) in H.
    rewrite bind_gets in H. rewrite Hv in H. cbn [negb orb] in H.
    unfold pthread_mutex_unlock in H. rewrite bind_modify in H.
    apply ret_inv in H as [Hr Hs]; subst r s1.
    split; [done|]. split; [|by left].
    rewrite locks_set_locks, table_mutex_restore by done.
    by destruct s.
Qed.

Lemma add_to_open_file_table_count s inumber append g s1 :
  count_inv s -> add_to_open_file_table inumber append s = Some (g, s1) ->
  count_inv s1.
Proof.
  intros [Hlen Hc] H.
  apply add_to_open_file_table_inv in H as [_ [(_ & _ & ->) | (Hf & ->)]];
    [done|].
  destruct (first_free_Some _ _ _ _ Hf) as (Hr & Hfree & _).
  split; cbn; [by rewrite length_upd|].
  unfold taken_count in *. cbn.
  rewrite taken_count_take by (done || lia). lia.
Qed.

Lemma remove_from_open_file_table_count s fhandle r s1 :
  count_inv s -> remove_from_open_file_table fhandle s = Some (r, s1) ->
  count_inv s1.
Proof.
  intros [Hlen Hc] H.
  apply remove_from_open_file_table_inv in H
    as [_ [(_ & -> & _) | (_ & Hv & Ht & ->)]]; [done|].
  apply valid_file_handle_range in Hv.
  split; cbn; [by rewrite length_upd|].
  unfold taken_count in *. cbn.
  rewrite taken_count_release by (done || lia). lia.
Qed.

Lemma inode_create_unsafe_count t s r s1 :
  count_inv s -> inode_create_unsafe t s = Some (r, s1) -> count_inv s1.
Proof.
  intros Hp H. unfold inode_create_unsafe in H. run_inv.
  all: fwd_prop (@count_inv cfg)
         ltac:(fun H => apply inode_extend_unsafe_count in H).
  all: by_conv (@count_inv cfg).
Qed.

Lemma clear_direct_loop_count fuel i k s r s1 :
  count_inv s -> clear_direct_loop fuel i k s = Some (r, s1) -> count_inv s1.
Proof.
  revert k s. induction fuel as [|fuel IH]; intros k s Hp H; simpl in H.
  - by run_inv.
  - run_inv.
    all: fwd_prop (@count_inv cfg)
           ltac:(fun H => first [prim_count H | apply IH in H]).
    all: by_conv (@count_inv cfg).
Qed.

Lemma clear_indirect_loop_count fuel i refs k s r s1 :
  count_inv s -> clear_indirect_loop fuel i refs k s = Some (r, s1) ->
  count_inv s1.
Proof.
  revert k s. induction fuel as [|fuel IH]; intros k s Hp H; simpl in H.
  - by run_inv.
  - run_inv.
    all: fwd_prop (@count_inv cfg)
           ltac:(fun H => first [prim_count H | apply IH in H]).
    all: by_conv (@count_inv cfg).
Qed.

Lemma inode_clear_unsafe_count i s r s1 :
  count_inv s -> inode_clear_unsafe i s = Some (r, s1) -> count_inv s1.
Proof.
  intros Hp H. unfold inode_clear_unsafe in H. run_inv.
  all: fwd_prop (@count_inv cfg)
         ltac:(fun H => first [ prim_count H
                              | apply clear_direct_loop_count in H
                              | apply clear_indirect_loop_count in H ]).
  all: by_conv (@count_inv cfg).
Qed.

Lemma inode_create_count t s r s1 :
  count_inv s -> inode_create t s = Some (r, s1) -> count_inv s1.
Proof.
  intros Hp H. unfold inode_create in H. run_inv.
  all: fwd_prop (@count_inv cfg)
         ltac:(fun H => first [ prim_count H
                              | apply inode_create_unsafe_count in H ]).
  all: by_conv (@count_inv cfg).
Qed.

Lemma inode_clear_count i s r s1 :
  count_inv s -> inode_clear i s = Some (r, s1) -> count_inv s1.
Proof.
  intros Hp H. unfold inode_clear in H. run_inv.
  all: fwd_prop (@count_inv cfg)
         ltac:(fun H => first [ prim_count H
                              | apply inode_clear_unsafe_count in H ]).
  all: by_conv (@count_inv cfg).
Qed.

Lemma inode_delete_count i s r s1 :
  count_inv s -> inode_delete i s = Some (r, s1) -> count_inv s1.
Proof.
  intros Hp H. unfold inode_delete in H. run_inv.
  all: fwd_prop (@count_inv cfg)
         ltac:(fun H => first [ prim_count H
                              | apply inode_clear_unsafe_count in H ]).
  all: by_conv (@count_inv cfg).
Qed.

Lemma find_in_dir_count i name s r s1 :
  count_inv s -> find_in_dir i name s = Some (r, s1) -> count_inv s1.
Proof.
  intros Hp H. unfold find_in_dir in H. run_inv.
  all: fwd_prop (@count_inv cfg) ltac:(fun H => prim_count H).
  all: by_conv (@count_inv cfg).
Qed.

Lemma add_dir_entry_unsafe_count i j name s r s1 :
  count_inv s -> add_dir_entry_unsafe i j name s = Some (r, s1) ->
  count_inv s1.
Proof.
  intros Hp H. unfold add_dir_entry_unsafe in H. run_inv.
  all: by_conv (@count_inv cfg).
Qed.

Lemma create_in_dir_count i t name s r s1 :
  count_inv s -> create_in_dir i t name s = Some (r, s1) -> count_inv s1.
Proof.
  intros Hp H. unfold create_in_dir in H. run_inv.
  all: fwd_prop (@count_inv cfg)
         ltac:(fun H => first [ prim_count H
                              | apply inode_create_unsafe_count in H
                              | apply add_dir_entry_unsafe_count in H ]).
  all: by_conv (@count_inv cfg).
Qed.

Lemma write_loop_count fuel fhandle buffer to_write written s r s1 :
  count_inv s ->
  write_loop fuel fhandle buffer to_write written s = Some (r, s1) ->
  count_inv s1.
Proof.
  revert written s. induction fuel as [|fuel IH]; intros written s Hp H;
    simpl in H.
  - by run_inv.
  - run_inv.
    all: fwd_prop (@count_inv cfg)
           ltac:(fun H => first [ apply inode_extend_unsafe_count in H
                                | apply IH in H ]).
    all: by_conv (@count_inv cfg).
Qed.

Lemma read_loop_count fuel fhandle buffer to_read read s r s1 :
  count_inv s ->
  read_loop fuel fhandle buffer to_read read s = Some (r, s1) ->
  count_inv s1.
Proof.
  revert buffer read s. induction fuel as [|fuel IH]; intros buffer read s Hp H;
    simpl in H.
  - by run_inv.
  - run_inv.
    all: fwd_prop (@count_inv cfg) ltac:(fun H => apply IH in H).
    all: by_conv (@count_inv cfg).
Qed.

Lemma write_to_open_file_count fhandle buffer to_write s r s1 :
  count_inv s ->
  write_to_open_file fhandle buffer to_write s = Some (r, s1) -> count_inv s1.
Proof.
  intros Hp H. unfold write_to_open_file in H. run_inv.
  all: fwd_prop (@count_inv cfg)
         ltac:(fun H => first [ prim_count H | apply write_loop_count in H ]).
  all: by_conv (@count_inv cfg).
Qed.

Lemma read_from_open_file_count fhandle buffer to_read s r s1 :
  count_inv s ->
  read_from_open_file fhandle buffer to_read s = Some (r, s1) -> count_inv s1.
Proof.
  intros Hp H. unfold read_from_open_file in H. run_inv.
  all: fwd_prop (@count_inv cfg)
         ltac:(fun H => first [ prim_count H | apply read_loop_count in H ]).
  all: by_conv (@count_inv cfg).
Qed.

Lemma filter_taken_replicate n :
  filter (fun a => a = TAKEN) (replicate n FREE) = [].
Proof.
  induction n as [|n IHn]; [done|].
  cbn [replicate]. by rewrite filter_cons_False.
Qed.

Lemma state_init_count s r s1 : state_init s = Some (r, s1) -> count_inv s1.
Proof.
  intros H. unfold state_init in H. run_inv. split.
  - cbn. by rewrite length_replicate.
  - unfold taken_count.
    cbn [open_file_count free_open_file_entries set_locks set_open_file_count
         set_free_open_file_entries].
    by rewrite filter_taken_replicate.
Qed.

Lemma tfs_open_count name flags s r s1 :
  count_inv s -> tfs_open name flags s = Some (r, s1) -> count_inv s1.
Proof.
  intros Hp H. unfold tfs_open, tfs_create, tfs_lookup in H. run_inv.
  all: fwd_prop (@count_inv cfg)
         ltac:(fun H => first [ apply create_in_dir_count in H
                              | apply find_in_dir_count in H
                              | apply inode_clear_count in H
                              | apply add_to_open_file_table_count in H ]).
  all: by_conv (@count_inv cfg).
Qed.

(** [open_file_count] is the number of taken slots of the open-file
    table, in every state that the operations reach: [tfs_init]
    establishes it, whatever the state it starts in, and every other
    call keeps it. *)
Theorem open_file_count_counts_taken (c : api_call) s r s1 :
  count_inv s \/ c = Call_tfs_init ->
  run_call c s = Some (r, s1) -> count_inv s1.
Proof.
  intros Hp H. destruct c; cbn [run_call] in H.
  1: { unfold tfs_init in H. run_inv.
       all: match goal with
         | Hi : state_init _ = Some _ |- _ => apply state_init_count in Hi
         end.
       all: fwd_prop (@count_inv cfg)
              ltac:(fun H => apply inode_create_count in H).
       all: by_conv (@count_inv cfg). }
  all: destruct Hp as [Hp|Hp]; [|discriminate Hp].
  - unfold tfs_destroy, state_destroy in H. by run_inv.
  - unfold tfs_lookup in H. run_inv; [done|].
    by apply find_in_dir_count in H.
  - by apply tfs_open_count in H.
  - by apply remove_from_open_file_table_count in H.
  - by apply write_to_open_file_count in H.
  - run_inv. unfold tfs_read in *.
    match goal with
    | H : read_from_open_file _ _ _ _ = Some _ |- _ =>
        by apply read_from_open_file_count in H
    end.
  - by apply inode_create_count in H.
  - by apply inode_delete_count in H.
  - by apply inode_clear_count in H.
  - by apply inode_extend_unsafe_count in H.
  - by apply create_in_dir_count in H.
Qed.

End Properties.

Section Properties.
Context {cfg : Config}.
Hypothesis cfg_ok : config_ok.

Lemma remove_from_open_file_table_closed s fhandle :
  lk_open_file_table (locks s) = false ->
  valid_file_handle fhandle = false
  \/ sel (free_open_file_entries s) fhandle = FREE ->
  remove_from_open_file_table fhandle s = Some (-1, s).
Proof.
  intros Hlk Hc. unfold remove_from_open_file_table.
  rewrite (bind_run _ _ _ _ _ (mutex_lock_run open_file_table_mutex s Hlk)).
  rewrite bind_gets. cbn [free_open_file_entries set_locks].
  assert (negb (valid_file_handle fhandle)
          || negb (bool_decide (sel (free_open_file_entries s) fhandle = TAKEN))
          = true) as ->.
  { destruct Hc as [-> | ->]; [done|].
    rewrite bool_decide_eq_false_2 by done. by rewrite orb_true_r. }
  unfold pthread_mutex_unlock. rewrite bind_modify. unfold ret. do 2 f_equal.
  rewrite locks_set_locks, table_mutex_restore by done. by destruct s.
Qed.

(** Closing the handle that [add_to_open_file_table] has just returned
    succeeds and gives back the state before the opening, but for the
    entry of the handle, which keeps what the opening wrote; closing the
    handle a second time returns -1 and changes nothing. *)
Theorem open_close_roundtrip s inumber append g s1 :
  shape s ->
  add_to_open_file_table inumber append s = Some (g, s1) -> g <> -1 ->
  remove_from_open_file_table g s1
  = Some (0, set_open_file_table
               (upd (open_file_table s) g (mk_entry inumber append 0)) s)
  /\ remove_from_open_file_table g
       (set_open_file_table
          (upd (open_file_table s) g (mk_entry inumber append 0)) s)
     = Some (-1, set_open_file_table
                   (upd (open_file_table s) g (mk_entry inumber append 0)) s).
Proof.
  intros Hsh H Hg.
  apply add_to_open_file_table_inv in H as [Hlk [(_ & -> & _) | (Hf & ->)]];
    [done|].
  destruct (first_free_Some _ _ _ _ Hf) as (Hr & Hfree & _).
  pose proof (MAX_OPEN_FILES_pos cfg_ok) as Hm.
  assert (valid_file_handle g = true) as Hv
    by (apply valid_file_handle_range; lia).
  assert (Z.to_nat g < length (free_open_file_entries s))%nat as Hin
    by (rewrite (shape_free_open_file_entries s Hsh); lia).
  split.
  - rewrite remove_from_open_file_table_run; try done.
    + do 2 f_equal. cbn. rewrite upd_upd_eq, upd_same by done.
      replace (open_file_count s + 1 - 1) with (open_file_count s) by lia.
      by destruct s.
    + cbn. by rewrite sel_upd_eq.
  - apply remove_from_open_file_table_closed; [done | by right].
Qed.

(** ** Opening what is not there *)

(** [tfs_open] returns -1 and leaves the state as it is when the path
    is not valid (no leading [/], or nothing after it), and when the
    create flag is not set and the root directory has no entry of the
    name; it takes no slot of the open-file table and truncates
    nothing. *)
Theorem tfs_open_missing s name flags :
  shape s ->
  sel (lk_inode (locks s)) ROOT_DIR_INUM = RwFree ->
  valid_pathname name = false
  \/ (Z.land flags TFS_O_CREAT = 0
      /\ find_in_dir_unsafe s ROOT_DIR_INUM (tl name) = -1) ->
  tfs_open name flags s = Some (-1, s).
Proof.
  intros Hsh Hrw Hc. unfold tfs_open.
  destruct (valid_pathname name) eqn:Hv; [|done].
  destruct Hc as [|[Hf Hfind]]; [done|]. cbn [negb].
  rewrite Hf. cbn [Z.eqb negb]. unfold tfs_lookup. rewrite Hv. cbn [negb].
  rewrite (bind_run _ _ _ _ _
             (find_in_dir_run s ROOT_DIR_INUM (tl name) Hsh
                (root_valid cfg_ok) Hrw)).
  by rewrite Hfind.
Qed.

End Properties.

Section SmallProperties.

#[local] Existing Instance small_cfg.

Lemma small_fresh_count_inv : count_inv small_fresh.
Proof. split; reflexivity. Qed.

Lemma open_file_count_counts_taken_witness :
  open_file_count small_opened = 1 /\ taken_count small_opened = 1.
Proof.
  destruct (open_file_count_counts_taken (Call_tfs_open path_a 1)
              small_fresh 0 small_opened) as [_ Hc].
  - left. exact small_fresh_count_inv.
  - vm_compute. reflexivity.
  - split; [reflexivity|]. rewrite <- Hc. reflexivity.
Defined.

Lemma open_close_roundtrip_witness :
  remove_from_open_file_table 1
    (exec (add_to_open_file_table 1 0) small_opened)
  = Some (0, set_open_file_table
               (upd (open_file_table small_opened) 1 (mk_entry 1 0 0))
               small_opened).
Proof.
  apply (open_close_roundtrip small_cfg_ok small_opened 1 0 1).
  - exact small_opened_shape.
  - vm_compute. reflexivity.
  - discriminate.
Defined.

Lemma tfs_open_missing_witness :
  tfs_open path_b 0 small_opened = Some (-1, small_opened).
Proof.
  apply (tfs_open_missing small_cfg_ok small_opened path_b 0).
  - exact small_opened_shape.
  - reflexivity.
  - right. split; reflexivity.
Defined.

End SmallProperties.

Section Properties.
Context {cfg : Config}.
Hypothesis cfg_ok : config_ok.

(** ** Reading *)

(** A taken inode with one block, which is taken, is a well-formed
    file. *)
Lemma wf_file_one_block s i :
  valid_inumber i = true -> sel (free_inode_ts s) i = TAKEN ->
  i_data_block_count (inode_at s i) = 1 ->
  0 <= i_size (inode_at s i) <= BLOCK_SIZE ->
  valid_block_number (sel (i_data_block (inode_at s i)) 0) = true ->
  sel (free_blocks s) (sel (i_data_block (inode_at s i)) 0) = TAKEN ->
  wf_file s i.
Proof.
  intros Hv Ht Hc Hs Hb Hbt.
  pose proof (max_indirect_refs_pos cfg_ok).
  pose proof (INODE_DIRECT_REFS_pos cfg_ok).
  assert (forall k, 0 <= k < 1 ->
            inode_get_block_unsafe s i k = sel (i_data_block (inode_at s i)) 0)
    as Hget.
  { intros k Hk. assert (k = 0) as -> by lia.
    unfold inode_get_block_unsafe. rewrite Hv, Ht, Hc. cbn [negb orb].
    rewrite bool_decide_eq_false_2 by done.
    replace (0 <? INODE_DIRECT_REFS) with true by lia. done. }
  constructor; try done; try lia.
  intros q [(k & Hk & <-) | [Hk _]]; [|lia].
  rewrite Hc in Hk. by rewrite Hget.
Qed.

(** [tfs_read] through a handle on a well-formed file whose offset is
    within the file returns [min (len, size - offset)]: it never reads
    beyond the size of the file, and returns 0 at its end.  The bytes it
    puts in the buffer are the bytes of the file from the offset on, the
    rest of the buffer is as it was, the offset of the handle is advanced
    by the count, and nothing else of the state changes, the locks
    included. *)
Theorem tfs_read_returns_file_bytes s fhandle buffer len :
  shape s -> valid_file_handle fhandle = true ->
  wf_file s (of_inumber (entry_at s fhandle)) ->
  sel (lk_of (locks s)) fhandle = false ->
  sel (lk_inode (locks s)) (of_inumber (entry_at s fhandle)) = RwFree ->
  0 <= start_offset s fhandle
  <= i_size (inode_at s (of_inumber (entry_at s fhandle))) ->
  0 <= len <= Z.of_nat (length buffer) ->
  exists n out,
    n = Z.min len (i_size (inode_at s (of_inumber (entry_at s fhandle)))
                   - start_offset s fhandle)
    /\ tfs_read fhandle buffer len s
       = Some ((n, out),
               set_open_file_table
                 (upd (open_file_table s) fhandle
                    (set_of_offset (start_offset s fhandle + n)
                       (entry_at s fhandle))) s)
    /\ length out = length buffer
    /\ (forall k, 0 <= k < n ->
          sel out k = file_byte s (of_inumber (entry_at s fhandle))
                                (start_offset s fhandle + k))
    /\ (forall k, n <= k -> sel out k = sel buffer k).
Proof.
  intros Hsh Hv Hwf Hm Hrw Hoff Hlen.
  destruct (read_total cfg_ok s fhandle buffer len Hsh Hv Hwf Hm Hrw Hoff Hlen)
    as (out & Hrun & Hl & Hin & Hout).
  eexists _, out. split; [reflexivity|]. by repeat split.
Qed.

(** Two reads through the same handle return together what one read of
    the sum of their lengths returns: the second read continues where
    the first one stopped. *)
Theorem tfs_read_twice s fhandle buf1 buf2 a b :
  shape s -> valid_file_handle fhandle = true ->
  wf_file s (of_inumber (entry_at s fhandle)) ->
  sel (lk_of (locks s)) fhandle = false ->
  sel (lk_inode (locks s)) (of_inumber (entry_at s fhandle)) = RwFree ->
  0 <= start_offset s fhandle
  <= i_size (inode_at s (of_inumber (entry_at s fhandle))) ->
  0 <= a <= Z.of_nat (length buf1) ->
  0 <= b <= Z.of_nat (length buf2) ->
  exists n1 out1 s1 n2 out2 s2,
    tfs_read fhandle buf1 a s = Some ((n1, out1), s1)
    /\ tfs_read fhandle buf2 b s1 = Some ((n2, out2), s2)
    /\ n1 + n2
       = Z.min (a + b) (i_size (inode_at s (of_inumber (entry_at s fhandle)))
                        - start_offset s fhandle)
    /\ (forall k, 0 <= k < n1 ->
          sel out1 k = file_byte s (of_inumber (entry_at s fhandle))
                                 (start_offset s fhandle + k))
    /\ (forall k, 0 <= k < n2 ->
          sel out2 k = file_byte s (of_inumber (entry_at s fhandle))
                                 (start_offset s fhandle + n1 + k))
    /\ (exists out, tfs_read fhandle (buf1 ++ buf2) (a + b) s
                    = Some ((n1 + n2, out), s2)).
Proof.
  intros Hsh Hv Hwf Hm Hrw Hoff Ha Hb.
  set (i := of_inumber (entry_at s fhandle)) in *.
  set (off := start_offset s fhandle) in *.
  destruct (read_total cfg_ok s fhandle buf1 a Hsh Hv Hwf Hm Hrw Hoff Ha)
    as (out1 & Hrun1 & _ & Hin1 & _).
  fold i off in Hrun1, Hin1.
  set (n1 := Z.min a (i_size (inode_at s i) - off)) in *.
  set (s1 := set_open_file_table
               (upd (open_file_table s) fhandle
                  (set_of_offset (off + n1) (entry_at s fhandle))) s) in *.
  pose proof (move_offset_same_fs s fhandle (off + n1)) as Hsame.
  fold s1 in Hsame.
  pose proof (entry_in_range s fhandle Hsh Hv) as Hin.
  assert (entry_at s1 fhandle = set_of_offset (off + n1) (entry_at s fhandle))
    as He1.
  { unfold s1, entry_at. cbn [open_file_table set_open_file_table].
    by rewrite sel_upd_eq. }
  assert (of_inumber (entry_at s1 fhandle) = i) as Hi1 by (by rewrite He1).
  assert (shape s1) as Hsh1.
  { destruct Hsh. constructor; try done.
    unfold s1. cbn [open_file_table set_open_file_table].
    by rewrite length_upd. }
  assert (start_offset s1 fhandle
          = if of_append (entry_at s fhandle) =? 0 then off + n1
            else i_size (inode_at s i)) as Hst1.
  { unfold start_offset. rewrite Hi1, He1, (same_fs_inode _ _ _ Hsame).
    by destruct (entry_at s fhandle). }
  assert (off + n1 = start_offset s1 fhandle) as Hadv.
  { rewrite Hst1. destruct (of_append (entry_at s fhandle) =? 0) eqn:E;
      [done|].
    assert (off = i_size (inode_at s i)) as Eoff
      by (unfold off, start_offset; by rewrite E).
    unfold n1. rewrite Eoff. lia. }
  destruct (read_total cfg_ok s1 fhandle buf2 b) as (out2 & Hrun2 & _ & Hin2 & _);
    try done.
  { rewrite Hi1. by apply (same_fs_wf s). }
  { by rewrite Hi1. }
  { rewrite Hi1, (same_fs_inode _ _ _ Hsame), <- Hadv. unfold n1. lia. }
  rewrite Hi1, (same_fs_inode _ _ _ Hsame), <- Hadv in Hrun2, Hin2.
  set (n2 := Z.min b (i_size (inode_at s i) - (off + n1))) in *.
  destruct (read_total cfg_ok s fhandle (buf1 ++ buf2) (a + b)
              Hsh Hv Hwf Hm Hrw Hoff) as (out & Hrun & _).
  { rewrite length_app. lia. }
  fold i off in Hrun.
  assert (n1 + n2 = Z.min (a + b) (i_size (inode_at s i) - off)) as Hsum
    by (unfold n1, n2; lia).
  eexists n1, out1, s1, n2, out2, _.
  split; [exact Hrun1|]. split; [exact Hrun2|]. split; [exact Hsum|].
  split; [exact Hin1|]. split.
  - intros k Hk. by rewrite (Hin2 k Hk), (same_fs_file_byte _ _ _ _ Hsame).
  - exists out. unfold tfs_read. rewrite Hrun, <- Hsum. do 2 f_equal.
    unfold s1.
    pose proof (move_offset_twice s fhandle (off + n1) (off + n1 + n2) Hsh Hv)
      as Htw.
    cbv zeta in Htw. rewrite Htw. by rewrite Z.add_assoc.
Qed.

End Properties.

(** Push the property [P] along the runs of the context, as [fwd_prop]
    does, with [solve] for the states between the runs. *)
Ltac fwd_rel P solve tac :=
  repeat match goal with
    | H : ?m ?st = Some (_, ?s') |- _ =>
        lazymatch goal with | _ : P s' |- _ => fail | _ => idtac end;
        let Hst := fresh "Hp" in
        assert (P st) as Hst by solve;
        let H' := fresh in
        pose proof H as H'; tac H'; [ | exact Hst]
    end.

Section Properties.
Context {cfg : Config}.
Hypothesis cfg_ok : config_ok.

Lemma cursor_moved_refl fhandle s : cursor_moved fhandle s s.
Proof. by repeat split. Qed.

Lemma cursor_moved_entry fhandle s st f :
  (forall e, of_inumber (f e) = of_inumber e
             /\ of_append (f e) = of_append e) ->
  cursor_moved fhandle s st -> cursor_moved fhandle s (upd_entry fhandle f st).
Proof.
  intros Hf (H1 & H2 & H3 & H4 & H5 & H6 & H7 & H8 & H9 & H10).
  assert (forall g, Z.to_nat g <> Z.to_nat fhandle ->
            entry_at (upd_entry fhandle f st) g = entry_at st g) as Hother.
  { intros g Hg. unfold entry_at, upd_entry.
    cbn [open_file_table set_open_file_table]. by rewrite sel_upd_other. }
  assert (of_inumber (entry_at (upd_entry fhandle f st) fhandle)
          = of_inumber (entry_at st fhandle)
          /\ of_append (entry_at (upd_entry fhandle f st) fhandle)
             = of_append (entry_at st fhandle)) as [Hi Ha].
  { unfold entry_at, upd_entry. cbn [open_file_table set_open_file_table].
    destruct (decide (Z.to_nat fhandle < length (open_file_table st))%nat).
    - rewrite sel_upd_eq by done. apply Hf.
    - by rewrite upd_out. }
  repeat split; try done.
  - unfold upd_entry. cbn [open_file_table set_open_file_table].
    by rewrite length_upd.
  - by rewrite Hi.
  - by rewrite Ha.
  - intros g Hg. rewrite Hother by done. by apply H10.
Qed.

Lemma mutex_lock_cursor fhandle s m st u s' :
  cursor_moved fhandle s st -> pthread_mutex_lock m st = Some (u, s') ->
  cursor_moved fhandle s s'.
Proof. intros Hp H. by apply mutex_lock_inv in H as [_ ->]. Qed.

Lemma mutex_unlock_cursor fhandle s m st u s' :
  cursor_moved fhandle s st -> pthread_mutex_unlock m st = Some (u, s') ->
  cursor_moved fhandle s s'.
Proof.
  intros Hp H. unfold pthread_mutex_unlock in H. by apply modify_inv in H as ->.
Qed.

Lemma rdlock_cursor fhandle s i st u s' :
  cursor_moved fhandle s st -> pthread_rwlock_rdlock i st = Some (u, s') ->
  cursor_moved fhandle s s'.
Proof. intros Hp H. by apply rdlock_inv in H as [r ->]. Qed.

Lemma rwlock_unlock_cursor fhandle s i st u s' :
  cursor_moved fhandle s st -> pthread_rwlock_unlock i st = Some (u, s') ->
  cursor_moved fhandle s s'.
Proof.
  intros Hp H. unfold pthread_rwlock_unlock in H. by apply modify_inv in H as ->.
Qed.

Lemma read_loop_cursor fuel fhandle s buffer to_read read st r s' :
  cursor_moved fhandle s st ->
  read_loop fuel fhandle buffer to_read read st = Some (r, s') ->
  cursor_moved fhandle s s'.
Proof.
  revert buffer read st.
  induction fuel as [|fuel IH]; intros buffer read st Hp H; simpl in H.
  - by run_inv.
  - run_inv; try done.
    eapply IH; [|exact H]. by apply cursor_moved_entry.
Qed.

(** Reading changes nothing of the file system.  Whatever
    [read_from_open_file] returns, and from whatever state, the inode
    table, the blocks and their allocation map, the slots of the
    open-file table and their count are as before the call, as are the
    entries of the other handles and the inode and the mode of the
    handle: only its offset and the locks can differ. *)
Theorem read_changes_cursor_only s fhandle buffer to_read r s1 :
  read_from_open_file fhandle buffer to_read s = Some (r, s1) ->
  cursor_moved fhandle s s1.
Proof.
  intros H. pose proof (cursor_moved_refl fhandle s) as Hp.
  unfold read_from_open_file in H. run_inv.
  all: fwd_rel (cursor_moved fhandle s)
         ltac:(first [ by_conv (cursor_moved fhandle s)
                     | apply cursor_moved_entry;
                       [done | by_conv (cursor_moved fhandle s)] ])
         ltac:(fun H => first [ apply (mutex_lock_cursor fhandle s) in H
                              | apply (mutex_unlock_cursor fhandle s) in H
                              | apply (rdlock_cursor fhandle s) in H
                              | apply (rwlock_unlock_cursor fhandle s) in H
                              | apply (read_loop_cursor _ fhandle s) in H ]).
  all: by_conv (cursor_moved fhandle s).
Qed.

End Properties.

Section SmallProperties.

#[local] Existing Instance small_cfg.

Lemma small_reopened_shape : shape small_reopened.
Proof. constructor; try by vm_compute. vm_compute. repeat constructor. Qed.

Lemma small_reopened_wf : wf_file small_reopened 1.
Proof. apply (wf_file_one_block small_cfg_ok); by vm_compute. Qed.

Lemma tfs_read_returns_file_bytes_witness :
  exists out s1,
    tfs_read 0 [0; 0; 0] 3 small_reopened = Some ((2, out), s1)
    /\ sel out 0 = 97 /\ sel out 1 = 98 /\ sel out 2 = 0.
Proof.
  destruct (tfs_read_returns_file_bytes small_cfg_ok small_reopened 0
              [0; 0; 0] 3)
    as (n & out & Hn & Hrun & _ & Hin & Hout).
  - exact small_reopened_shape.
  - by vm_compute.
  - exact small_reopened_wf.
  - by vm_compute.
  - by vm_compute.
  - by vm_compute.
  - by vm_compute.
  - assert (n = 2) as -> by (rewrite Hn; by vm_compute).
    exists out. eexists. split; [exact Hrun|].
    split; [|split].
    + rewrite (Hin 0) by lia. by vm_compute.
    + rewrite (Hin 1) by lia. by vm_compute.
    + rewrite (Hout 2) by lia. by vm_compute.
Defined.

Lemma tfs_read_twice_witness :
  exists n1 out1 s1 n2 out2 s2 out,
    tfs_read 0 [0] 1 small_reopened = Some ((n1, out1), s1)
    /\ tfs_read 0 [0; 0] 2 s1 = Some ((n2, out2), s2)
    /\ n1 + n2 = 2
    /\ tfs_read 0 [0; 0; 0] 3 small_reopened = Some ((n1 + n2, out), s2).
Proof.
  destruct (tfs_read_twice small_cfg_ok small_reopened 0 [0] [0; 0] 1 2)
    as (n1 & out1 & s1 & n2 & out2 & s2 & H1 & H2 & Hsum & _ & _ & out & H3).
  - exact small_reopened_shape.
  - by vm_compute.
  - exact small_reopened_wf.
  - by vm_compute.
  - by vm_compute.
  - by vm_compute.
  - by vm_compute.
  - by vm_compute.
  - exists n1, out1, s1, n2, out2, s2, out.
    split; [exact H1|]. split; [exact H2|]. split; [|exact H3].
    rewrite Hsum. by vm_compute.
Defined.

Lemma read_changes_cursor_only_witness :
  fs_data (exec (read_from_open_file 0 [0; 0; 0] 3) small_reopened)
  = fs_data small_reopened.
Proof.
  assert (read_from_open_file 0 [0; 0; 0] 3 small_reopened
          = Some ((2, [97; 98; 0]),
                  exec (read_from_open_file 0 [0; 0; 0] 3) small_reopened))
    as Hrun by (vm_compute; reflexivity).
  destruct (read_changes_cursor_only small_reopened 0 [0; 0; 0] 3 _ _ Hrun)
    as (_ & _ & Hdata & _).
  exact Hdata.
Defined.

End SmallProperties.

(** ** The locks after a call *)

Section Properties.
Context {cfg : Config}.
Hypothesis cfg_ok : config_ok.

Lemma mutex_lock_locks m st u s' :
  pthread_mutex_lock m st = Some (u, s') ->
  mutex_held m (locks st) = false /\ locks s' = set_mutex m true (locks st).
Proof. intros H. by apply mutex_lock_inv in H as [? ->]. Qed.

Lemma mutex_unlock_locks m st u s' :
  pthread_mutex_unlock m st = Some (u, s') ->
  locks s' = set_mutex m false (locks st).
Proof.
  intros H. unfold pthread_mutex_unlock in H. by apply modify_inv in H as ->.
Qed.

Lemma wrlock_locks i st u s' :
  pthread_rwlock_wrlock i st = Some (u, s') ->
  exists r, lk_inode (locks st) !! Z.to_nat i = Some (rwlock_release r)
            /\ locks s' = set_rwlock i r (locks st).
Proof.
  unfold pthread_rwlock_wrlock. intros H.
  destruct (lk_inode (locks st) !! Z.to_nat i) as [[| |]|] eqn:E; try done.
  destruct (0 <=? i); [|done]. injection H as _ <-. by exists RwWrite.
Qed.

Lemma rdlock_locks i st u s' :
  pthread_rwlock_rdlock i st = Some (u, s') ->
  exists r, lk_inode (locks st) !! Z.to_nat i = Some (rwlock_release r)
            /\ locks s' = set_rwlock i r (locks st).
Proof.
  unfold pthread_rwlock_rdlock. intros H.
  destruct (lk_inode (locks st) !! Z.to_nat i) as [[|n|]|] eqn:E; try done.
  - destruct (0 <=? i); [|done]. injection H as _ <-. by exists (RwRead 0).
  - destruct (0 <=? i); [|done]. injection H as _ <-. by exists (RwRead (S n)).
Qed.

Lemma rwlock_unlock_locks i st u s' :
  pthread_rwlock_unlock i st = Some (u, s') ->
  locks s' = set_rwlock i (rwlock_release (sel (lk_inode (locks st)) i))
               (locks st).
Proof.
  intros H. unfold pthread_rwlock_unlock in H. by apply modify_inv in H as ->.
Qed.

(** A lock of the table that is taken and released is as it was. *)
Lemma rwlock_taken_released (l : list rwlock) i r :
  l !! Z.to_nat i = Some (rwlock_release r) ->
  upd (upd l i r) i (rwlock_release (sel (upd l i r) i)) = l.
Proof.
  intros Hl. pose proof (lookup_lt_Some _ _ _ Hl) as Hlt.
  rewrite sel_upd_eq by done. rewrite upd_upd_eq. unfold upd.
  by apply list_insert_id.
Qed.

Lemma mutex_taken_released (l : list bool) i b :
  sel l i = false -> upd (upd l i b) i false = l.
Proof. intros H. rewrite upd_upd_eq. by apply upd_same. Qed.

Lemma data_block_alloc_locks st r s' :
  data_block_alloc st = Some (r, s') -> locks s' = locks st.
Proof.
  intros H. by apply data_block_alloc_inv in H as [_ [(_ & _ & ->) | (_ & ->)]].
Qed.

Lemma data_block_free_locks b st r s' :
  data_block_free b st = Some (r, s') -> locks s' = locks st.
Proof.
  intros H.
  by apply data_block_free_inv in H as [(_ & _ & ->) | (_ & _ & _ & ->)].
Qed.

End Properties.

(** The locks after each of the runs of the context, from the locks
    before it; [sub] is for the runs of the operations. *)
Ltac locks_eqs sub :=
  repeat match goal with
    | H : pthread_mutex_lock _ _ = Some _ |- _ =>
        apply mutex_lock_locks in H as [? ?]
    | H : pthread_mutex_unlock _ _ = Some _ |- _ =>
        apply mutex_unlock_locks in H
    | H : pthread_rwlock_wrlock _ _ = Some _ |- _ =>
        apply wrlock_locks in H as (? & ? & ?)
    | H : pthread_rwlock_rdlock _ _ = Some _ |- _ =>
        apply rdlock_locks in H as (? & ? & ?)
    | H : pthread_rwlock_unlock _ _ = Some _ |- _ =>
        apply rwlock_unlock_locks in H
    | H : data_block_alloc _ = Some _ |- _ => apply data_block_alloc_locks in H
    | H : data_block_free _ _ = Some _ |- _ => apply data_block_free_locks in H
    | H : _ _ = Some (_, _) |- _ => sub H
    end.

(** Express the locks of every state by those of the first one, and
    compare the two records field by field. *)
Ltac locks_solve :=
  unfold upd_inode, upd_entry, set_inode_state in *;
  cbn [locks set_inode_table set_free_inode_ts set_fs_data set_free_blocks
       set_open_file_table set_free_open_file_entries set_open_file_count
       set_locks] in *;
  repeat match goal with
    | E : locks ?x = _ |- _ => is_var x; rewrite E in *; clear E
    end;
  try done;
  match goal with
  | |- _ = ?l =>
      destruct l as [li lt ld lo lf];
      unfold set_mutex, set_rwlock, mutex_held in *;
      cbn [lk_inode lk_inode_table lk_data_blocks lk_open_file_table lk_of]
        in *;
      subst; f_equal;
      first [ done | by apply rwlock_taken_released
            | by apply mutex_taken_released ]
  end.

Section Properties.
Context {cfg : Config}.
Hypothesis cfg_ok : config_ok.

Lemma inode_extend_unsafe_locks i st r s' :
  inode_extend_unsafe i st = Some (r, s') -> locks s' = locks st.
Proof.
  intros H. unfold inode_extend_unsafe in H. run_inv.
  all: locks_eqs ltac:(fun H => fail).
  all: locks_solve.
Qed.

Lemma inode_create_unsafe_locks t st r s' :
  inode_create_unsafe t st = Some (r, s') -> locks s' = locks st.
Proof.
  intros H. unfold inode_create_unsafe in H. run_inv.
  all: locks_eqs ltac:(fun H => apply inode_extend_unsafe_locks in H).
  all: locks_solve.
Qed.

Lemma clear_direct_loop_locks fuel i k st r s' :
  clear_direct_loop fuel i k st = Some (r, s') -> locks s' = locks st.
Proof.
  revert k st. induction fuel as [|fuel IH]; intros k st H; [done|].
  cbn [clear_direct_loop] in H. run_inv.
  all: locks_eqs ltac:(fun H => apply IH in H).
  all: locks_solve.
Qed.

Lemma clear_indirect_loop_locks fuel i refs k st r s' :
  clear_indirect_loop fuel i refs k st = Some (r, s') -> locks s' = locks st.
Proof.
  revert k st. induction fuel as [|fuel IH]; intros k st H; [done|].
  cbn [clear_indirect_loop] in H. run_inv.
  all: locks_eqs ltac:(fun H => apply IH in H).
  all: locks_solve.
Qed.

Lemma inode_clear_unsafe_locks i st r s' :
  inode_clear_unsafe i st = Some (r, s') -> locks s' = locks st.
Proof.
  intros H. unfold inode_clear_unsafe in H. run_inv.
  all: locks_eqs ltac:(fun H =>
         first [ apply clear_direct_loop_locks in H
               | apply clear_indirect_loop_locks in H ]).
  all: locks_solve.
Qed.

Lemma add_dir_entry_unsafe_locks i sub name st r s' :
  add_dir_entry_unsafe i sub name st = Some (r, s') -> locks s' = locks st.
Proof.
  intros H. unfold add_dir_entry_unsafe in H. run_inv.
  all: locks_solve.
Qed.

Lemma write_loop_locks fuel fhandle buffer to_write written st r s' :
  write_loop fuel fhandle buffer to_write written st = Some (r, s') ->
  locks s' = locks st.
Proof.
  revert written st. induction fuel as [|fuel IH]; intros written st H;
    cbn [write_loop] in H; destruct (written <? to_write); run_inv; try done.
  all: locks_eqs ltac:(fun H =>
         first [ apply inode_extend_unsafe_locks in H | apply IH in H ]).
  all: locks_solve.
Qed.

Lemma read_loop_locks fuel fhandle buffer to_read read st r s' :
  read_loop fuel fhandle buffer to_read read st = Some (r, s') ->
  locks s' = locks st.
Proof.
  revert buffer read st. induction fuel as [|fuel IH]; intros buffer read st H;
    cbn [read_loop] in H; destruct (read <? to_read); run_inv; try done.
  all: locks_eqs ltac:(fun H => apply IH in H).
  all: locks_solve.
Qed.

End Properties.

Ltac sub_locks H :=
  first [ apply inode_extend_unsafe_locks in H
        | apply inode_create_unsafe_locks in H
        | apply inode_clear_unsafe_locks in H
        | apply add_dir_entry_unsafe_locks in H
        | apply write_loop_locks in H
        | apply read_loop_locks in H ].

Section Properties.
Context {cfg : Config}.
Hypothesis cfg_ok : config_ok.

Lemma inode_create_locks t st r s' :
  inode_create t st = Some (r, s') -> locks s' = locks st.
Proof.
  intros H. unfold inode_create in H. run_inv.
  all: locks_eqs sub_locks.
  all: locks_solve.
Qed.

Lemma inode_clear_locks i st r s' :
  inode_clear i st = Some (r, s') -> locks s' = locks st.
Proof.
  intros H. unfold inode_clear in H. run_inv.
  all: locks_eqs sub_locks.
  all: locks_solve.
Qed.

Lemma inode_delete_locks i st r s' :
  inode_delete i st = Some (r, s') -> locks s' = locks st.
Proof.
  intros H. unfold inode_delete in H. run_inv.
  all: locks_eqs sub_locks.
  all: locks_solve.
Qed.

Lemma find_in_dir_locks i name st r s' :
  find_in_dir i name st = Some (r, s') -> locks s' = locks st.
Proof.
  intros H. unfold find_in_dir in H. run_inv.
  all: locks_eqs sub_locks.
  all: locks_solve.
Qed.

Lemma create_in_dir_locks i t name st r s' :
  create_in_dir i t name st = Some (r, s') -> locks s' = locks st.
Proof.
  intros H. unfold create_in_dir in H. run_inv.
  all: locks_eqs sub_locks.
  all: locks_solve.
Qed.

Lemma add_to_open_file_table_locks i a st r s' :
  add_to_open_file_table i a st = Some (r, s') -> locks s' = locks st.
Proof.
  intros H. unfold add_to_open_file_table in H. run_inv.
  all: locks_eqs sub_locks.
  all: locks_solve.
Qed.

Lemma remove_from_open_file_table_locks fhandle st r s' :
  remove_from_open_file_table fhandle st = Some (r, s') -> locks s' = locks st.
Proof.
  intros H. unfold remove_from_open_file_table, pthread_cond_signal in H.
  run_inv.
  all: locks_eqs sub_locks.
  all: locks_solve.
Qed.

Lemma write_to_open_file_locks fhandle buffer to_write st r s' :
  write_to_open_file fhandle buffer to_write st = Some (r, s') ->
  locks s' = locks st.
Proof.
  intros H. unfold write_to_open_file, inode_get in H. run_inv.
  all: locks_eqs sub_locks.
  all: locks_solve.
Qed.

End Properties.

Section Properties.
Context {cfg : Config}.
Hypothesis cfg_ok : config_ok.

Lemma tfs_open_locks name flags st r s' :
  tfs_open name flags st = Some (r, s') -> locks s' = locks st.
Proof.
  intros H. unfold tfs_open, tfs_create, tfs_lookup in H. run_inv.
  all: locks_eqs ltac:(fun H =>
         first [ apply create_in_dir_locks in H
               | apply find_in_dir_locks in H
               | apply inode_clear_locks in H
               | apply add_to_open_file_table_locks in H ]).
  all: locks_solve.
Qed.

Lemma read_from_open_file_locks fhandle buffer to_read st r s' :
  (valid_file_handle fhandle = true ->
   valid_inumber (of_inumber (entry_at st fhandle)) = true) ->
  read_from_open_file fhandle buffer to_read st = Some (r, s') ->
  locks s' = locks st.
Proof.
  intros Hv H. unfold read_from_open_file, inode_get in H.
  destruct (valid_file_handle fhandle); cbn [negb] in H; [|by run_inv].
  specialize (Hv eq_refl).
  apply bind_inv in H as (u & s0 & Hl & H).
  apply bind_inv in H as (inum & s0' & Hg & H).
  apply gets_inv in Hg as [-> ->].
  assert (entry_at s0 fhandle = entry_at st fhandle) as E.
  { apply mutex_lock_inv in Hl as [_ ->]. done. }
  rewrite E, Hv in H. cbn [negb] in H. run_inv.
  all: locks_eqs sub_locks.
  all: locks_solve.
Qed.

(** The locks that a call takes are released again on each of its return
    paths on which the pthread calls succeed.  These are the paths that
    the embedding has: where a lock, unlock or signal call fails the
    source returns -1 at once, with the locks it holds at that point, and
    the embedding has no such return.  For every call but [tfs_init] and
    [tfs_destroy], which set the locks up and destroy them, the mutexes
    and the read-write locks are on return as they were at the call.  For
    [tfs_read] this holds when the inumber of the handle is one of the
    inode table. *)
Theorem calls_restore_locks (c : api_call) s r s1 :
  c <> Call_tfs_init -> c <> Call_tfs_destroy ->
  (forall fhandle buffer len,
     c = Call_tfs_read fhandle buffer len ->
     valid_file_handle fhandle = true ->
     valid_inumber (of_inumber (entry_at s fhandle)) = true) ->
  run_call c s = Some (r, s1) -> locks s1 = locks s.
Proof.
  intros Hc Hd Hread H. destruct c; cbn [run_call] in H; try done.
  - unfold tfs_lookup in H. run_inv; [done|].
    by eapply find_in_dir_locks.
  - by eapply tfs_open_locks.
  - by eapply remove_from_open_file_table_locks.
  - by eapply write_to_open_file_locks.
  - run_inv. eapply read_from_open_file_locks; [|eassumption].
    by apply (Hread fhandle buffer len).
  - by eapply inode_create_locks.
  - by eapply inode_delete_locks.
  - by eapply inode_clear_locks.
  - by eapply inode_extend_unsafe_locks.
  - by eapply create_in_dir_locks.
Qed.

End Properties.

Section SmallProperties.
#[local] Existing Instance small_cfg.

Lemma calls_restore_locks_witness :
  exists s1, run_call (Call_tfs_write 0 [97; 98] 2) small_opened = Some (2, s1)
             /\ locks s1 = locks small_opened.
Proof.
  destruct (run_call (Call_tfs_write 0 [97; 98] 2) small_opened)
    as [[r s1]|] eqn:Hrun; [|by vm_compute in Hrun].
  assert (r = 2) as ->.
  { assert (fst <$> run_call (Call_tfs_write 0 [97; 98] 2) small_opened
            = Some r) as Hr by (by rewrite Hrun).
    vm_compute in Hr. by injection Hr as <-. }
  exists s1. split; [done|].
  apply (calls_restore_locks (Call_tfs_write 0 [97; 98] 2) small_opened 2 s1);
    [done | done | done | exact Hrun].
Defined.

End SmallProperties.

(** ** Directory entries *)

Section Properties.
Context {cfg : Config}.
Hypothesis cfg_ok : config_ok.

Lemma sel_ext (l1 l2 : list Z) :
  length l1 = length l2 ->
  (forall k, 0 <= k < Z.of_nat (length l1) -> sel l1 k = sel l2 k) ->
  l1 = l2.
Proof.
  intros Hlen Hext. apply list_eq. intros k.
  destruct (decide (k < length l1)%nat) as [Hk|Hk].
  - rewrite !list_lookup_lookup_total_lt by lia. f_equal.
    specialize (Hext (Z.of_nat k) ltac:(lia)). unfold sel in Hext.
    by rewrite Nat2Z.id in Hext.
  - rewrite !lookup_ge_None_2; [done | lia | lia].
Qed.

Lemma length_strncpy name n : length (strncpy name n) = Z.to_nat n.
Proof.
  unfold strncpy. cbv zeta. rewrite length_app, length_replicate, length_take.
  lia.
Qed.

Lemma strncpy_short name n :
  strlen name <= n ->
  strncpy name n
  = c_chars name ++ replicate (Z.to_nat n - length (c_chars name))%nat 0.
Proof.
  unfold strlen, strncpy. intros H. cbv zeta. by rewrite take_ge by lia.
Qed.

(** A stored name, whatever zero bytes follow it, compares equal to the
    name it was copied from. *)
Lemma strncmp_eq_stored n name zs :
  Forall (fun z => z = 0) zs -> strncmp_eq n (c_chars name ++ zs) name = true.
Proof.
  intros Hzs. revert n. induction name as [|c rest IH]; intros [|n]; try done.
  - cbn. destruct zs as [|z zs']; [done|].
    apply Forall_cons in Hzs as [-> _]. done.
  - cbn [c_chars strncmp_eq]. destruct (c =? 0) eqn:Ec.
    + apply Z.eqb_eq in Ec as ->. cbn. destruct zs as [|z zs']; [done|].
      apply Forall_cons in Hzs as [-> _]. done.
    + cbn. rewrite Z.eqb_refl, Ec. apply IH.
Qed.

Lemma find_entry_none mem de name n : forall i0,
  find_entry mem de name n i0 = -1 ->
  forall j, i0 <= j < i0 + Z.of_nat n -> entry_matches mem de name j = false.
Proof.
  induction n as [|n IH]; intros i0 H j Hj; [lia|].
  cbn [find_entry] in H. fold (entry_matches mem de name i0) in H.
  destruct (entry_matches mem de name i0) eqn:E.
  - unfold entry_matches in E. apply andb_true_iff in E as [E _].
    rewrite H in E. done.
  - destruct (decide (j = i0)) as [->|Hne]; [done|].
    apply (IH (i0 + 1)); [done | lia].
Qed.

Lemma find_entry_hit mem de name n i : forall i0,
  i0 <= i < i0 + Z.of_nat n ->
  (forall j, i0 <= j < i -> entry_matches mem de name j = false) ->
  entry_matches mem de name i = true ->
  find_entry mem de name n i0 = d_inumber mem de i.
Proof.
  induction n as [|n IH]; intros i0 Hi Hbefore Hat; [lia|].
  cbn [find_entry]. fold (entry_matches mem de name i0).
  destruct (decide (i = i0)) as [->|Hne].
  - by rewrite Hat.
  - rewrite Hbefore by lia. apply IH; [lia | | done].
    intros j Hj. apply Hbefore. lia.
Qed.

Lemma first_empty_entry_Some mem de n : forall i0 i,
  first_empty_entry mem de n i0 = Some i ->
  i0 <= i < i0 + Z.of_nat n /\ d_inumber mem de i = -1
  /\ forall j, i0 <= j < i -> d_inumber mem de j <> -1.
Proof.
  induction n as [|n IH]; intros i0 i H; [done|].
  cbn [first_empty_entry] in H.
  destruct (d_inumber mem de i0 =? -1) eqn:E.
  - injection H as <-. apply Z.eqb_eq in E. repeat split; [lia | lia | done | lia].
  - apply IH in H as (H1 & H2 & H3). apply Z.eqb_neq in E.
    repeat split; [lia | lia | done |].
    intros j Hj. destruct (decide (j = i0)) as [->|Hne]; [done|].
    apply H3. lia.
Qed.

Lemma first_empty_entry_None mem de n : forall i0,
  first_empty_entry mem de n i0 = None ->
  forall j, i0 <= j < i0 + Z.of_nat n -> d_inumber mem de j <> -1.
Proof.
  induction n as [|n IH]; intros i0 H j Hj; [lia|].
  cbn [first_empty_entry] in H.
  destruct (d_inumber mem de i0 =? -1) eqn:E; [done|].
  apply Z.eqb_neq in E.
  destruct (decide (j = i0)) as [->|Hne]; [done|].
  apply (IH (i0 + 1)); [done | lia].
Qed.

Lemma max_dir_entries_nonneg : 0 <= MAX_DIR_ENTRIES.
Proof.
  unfold MAX_DIR_ENTRIES.
  apply Z.div_pos; [pose proof (BLOCK_SIZE_pos cfg_ok); lia|].
  pose proof (MAX_FILE_NAME_pos cfg_ok).
  unfold SIZEOF_DIR_ENTRY, D_INUMBER_OFFSET, SIZEOF_INT.
  pose proof (Z.div_pos (MAX_FILE_NAME + 3) 4). lia.
Qed.

Section Filled.

Variables (mem : list Z) (q i sub_inumber : Z) (sub_name : list Z).
Hypothesis Hlen : length mem = Z.to_nat (BLOCK_SIZE * DATA_BLOCKS).
Hypothesis Hq : valid_block_number q = true.
Hypothesis Hi : 0 <= i < MAX_DIR_ENTRIES.

Let de := q * BLOCK_SIZE.
Let mem' := entry_filled mem de i sub_inumber sub_name.

Lemma entry_in_arena j :
  0 <= j < MAX_DIR_ENTRIES ->
  0 <= de + j * SIZEOF_DIR_ENTRY
  /\ MAX_FILE_NAME <= D_INUMBER_OFFSET
  /\ 0 < MAX_FILE_NAME
  /\ de + j * SIZEOF_DIR_ENTRY + SIZEOF_DIR_ENTRY <= Z.of_nat (length mem).
Proof.
  intros Hj. destruct (dir_entry_bounds cfg_ok j Hj) as (H1 & H2 & H3).
  apply valid_block_number_range in Hq.
  pose proof (BLOCK_SIZE_pos cfg_ok). pose proof (MAX_FILE_NAME_pos cfg_ok).
  subst de. rewrite Hlen. repeat split; try done; nia.
Qed.

Lemma length_entry_filled : length mem' = length mem.
Proof.
  subst mem'. unfold entry_filled. cbv zeta.
  by rewrite !length_memcpy, length_store_int.
Qed.

Lemma sel_entry_filled_out a :
  0 <= a ->
  a < de + i * SIZEOF_DIR_ENTRY
  \/ de + i * SIZEOF_DIR_ENTRY + SIZEOF_DIR_ENTRY <= a ->
  sel mem' a = sel mem a.
Proof.
  intros Ha Hout. destruct (entry_in_arena i Hi) as (H1 & H2 & H3 & H4).
  subst mem'. unfold entry_filled. cbv zeta.
  unfold SIZEOF_DIR_ENTRY, SIZEOF_INT in *.
  rewrite sel_memcpy_out; [|lia|lia|cbn [length]; lia].
  rewrite sel_memcpy_out; [|lia|lia|rewrite length_strncpy; lia].
  apply sel_store_int_out; unfold SIZEOF_INT; lia.
Qed.

Lemma entry_filled_other j :
  0 <= j < MAX_DIR_ENTRIES -> j <> i ->
  d_inumber mem' de j = d_inumber mem de j
  /\ d_name mem' de j = d_name mem de j.
Proof.
  intros Hj Hne. destruct (entry_in_arena i Hi) as (H1 & H2 & H3 & H4).
  destruct (entry_in_arena j Hj) as (J1 & _ & _ & J4).
  assert (0 < SIZEOF_DIR_ENTRY) as Hs
    by (unfold SIZEOF_DIR_ENTRY, SIZEOF_INT; lia).
  split.
  - unfold d_inumber, load_int. f_equal.
    apply load_bytes_ext; [lia | apply length_entry_filled |].
    intros a Ha. apply sel_entry_filled_out; [lia|].
    unfold SIZEOF_DIR_ENTRY in *. nia.
  - unfold d_name. apply load_bytes_ext; [lia | apply length_entry_filled |].
    intros a Ha. apply sel_entry_filled_out; [lia|].
    unfold SIZEOF_DIR_ENTRY, SIZEOF_INT in *. nia.
Qed.

Lemma entry_filled_inumber :
  -2147483648 <= sub_inumber < 2147483648 ->
  d_inumber mem' de i = sub_inumber.
Proof.
  intros Hsub. destruct (entry_in_arena i Hi) as (H1 & H2 & H3 & H4).
  subst mem'. unfold d_inumber, entry_filled. cbv zeta.
  unfold SIZEOF_DIR_ENTRY in *.
  rewrite load_int_memcpy_out; [|lia|lia|cbn [length]; lia].
  rewrite load_int_memcpy_out; [|lia|lia|rewrite length_strncpy; lia].
  apply load_store_int; [lia | lia | done].
Qed.

Lemma entry_filled_name :
  d_name mem' de i = strncpy sub_name (MAX_FILE_NAME - 1) ++ [0].
Proof.
  destruct (entry_in_arena i Hi) as (H1 & H2 & H3 & H4).
  unfold SIZEOF_DIR_ENTRY, SIZEOF_INT in *.
  assert (length (d_name mem' de i) = Z.to_nat MAX_FILE_NAME) as Hl.
  { unfold d_name, SIZEOF_DIR_ENTRY, SIZEOF_INT. apply length_load_bytes; [lia | lia |].
    rewrite length_entry_filled. lia. }
  apply sel_ext.
  - rewrite Hl, length_app, length_strncpy. cbn [length]. lia.
  - rewrite Hl. intros k Hk. unfold d_name, SIZEOF_DIR_ENTRY, SIZEOF_INT.
    rewrite sel_load_bytes by lia.
    subst mem'. unfold entry_filled, SIZEOF_DIR_ENTRY, SIZEOF_INT. cbv zeta.
    destruct (decide (k = MAX_FILE_NAME - 1)) as [->|Hne].
    + rewrite sel_memcpy_in;
        [|lia|cbn [length]; lia
         |rewrite length_memcpy, length_store_int; lia].
      unfold sel at 2. rewrite lookup_total_app_r by (rewrite length_strncpy; lia).
      rewrite length_strncpy.
      replace (de + i * (D_INUMBER_OFFSET + 4) + (MAX_FILE_NAME - 1)
               - (de + i * (D_INUMBER_OFFSET + 4) + (MAX_FILE_NAME - 1)))
        with 0 by lia.
      replace (Z.to_nat (MAX_FILE_NAME - 1) - Z.to_nat (MAX_FILE_NAME - 1))%nat
        with 0%nat by lia.
      done.
    + rewrite sel_memcpy_out; [|lia|lia|cbn [length]; lia].
      rewrite sel_memcpy_in;
        [|lia|rewrite length_strncpy; lia|rewrite length_store_int; lia].
      unfold sel. rewrite lookup_total_app_l by (rewrite length_strncpy; lia).
      f_equal. lia.
Qed.

Lemma entry_filled_matches :
  0 <= sub_inumber < 2147483648 ->
  strlen sub_name < MAX_FILE_NAME ->
  entry_matches mem' de sub_name i = true.
Proof.
  intros Hsub Hshort. unfold entry_matches.
  rewrite entry_filled_inumber by lia.
  destruct (sub_inumber =? -1) eqn:E; [apply Z.eqb_eq in E; lia|].
  cbn [negb andb]. rewrite entry_filled_name.
  rewrite strncpy_short by lia. rewrite <- app_assoc.
  apply strncmp_eq_stored. apply Forall_app. split.
  - by apply Forall_replicate.
  - by repeat constructor.
Qed.

End Filled.

End Properties.

(** ** Adding to a directory and looking up *)

Section Properties.
Context {cfg : Config}.
Hypothesis cfg_ok : config_ok.

(** The two outcomes of [add_dir_entry_unsafe]. *)
Lemma add_dir_entry_unsafe_inv inumber sub_inumber name st r s1 :
  add_dir_entry_unsafe inumber sub_inumber name st = Some (r, s1) ->
  (r = -1 /\ s1 = st)
  \/ (r = 0 /\ valid_inumber inumber = true
      /\ valid_inumber sub_inumber = true
      /\ i_node_type (inode_at st inumber) = T_DIRECTORY
      /\ strlen name <> 0
      /\ exists q i,
           q = sel (i_data_block (inode_at st inumber)) 0
           /\ valid_block_number q = true
           /\ first_empty_entry (fs_data st) (q * BLOCK_SIZE)
                (Z.to_nat MAX_DIR_ENTRIES) 0 = Some i
           /\ s1 = set_fs_data
                     (entry_filled (fs_data st) (q * BLOCK_SIZE) i sub_inumber
                                   name) st).
Proof.
  intros H. unfold add_dir_entry_unsafe in H.
  destruct (valid_inumber inumber) eqn:Hv; cbn [negb orb] in H;
    [|run_inv; by left].
  destruct (valid_inumber sub_inumber) eqn:Hvs; cbn [negb orb] in H;
    [|run_inv; by left].
  rewrite bind_gets in H.
  destruct (bool_decide (i_node_type (inode_at st inumber) = T_DIRECTORY))
    eqn:Ht; cbn [negb] in H; [|run_inv; by left].
  apply bool_decide_eq_true in Ht.
  destruct (strlen name =? 0) eqn:Hn; [run_inv; by left|].
  apply Z.eqb_neq in Hn.
  unfold data_block_get in H.
  destruct (valid_block_number (sel (i_data_block (inode_at st inumber)) 0))
    eqn:Hq; cbn [negb] in H; [|run_inv; by left].
  rewrite bind_gets in H.
  destruct (first_empty_entry _ _ _ _) as [i|] eqn:Hi; [|run_inv; by left].
  rewrite !bind_modify in H. apply ret_inv in H as [-> ->].
  right. repeat split; try done. by eexists _, i.
Qed.

(** [add_dir_entry_unsafe] always returns. *)
Lemma add_dir_entry_unsafe_total inumber sub_inumber name st :
  exists r s1, add_dir_entry_unsafe inumber sub_inumber name st = Some (r, s1).
Proof.
  unfold add_dir_entry_unsafe.
  destruct (negb _ || negb _); [by eexists _, _|].
  rewrite bind_gets. destruct (negb _); [by eexists _, _|].
  destruct (strlen name =? 0); [by eexists _, _|].
  destruct (data_block_get _); [|by eexists _, _].
  rewrite bind_gets. destruct (first_empty_entry _ _ _ _); [|by eexists _, _].
  rewrite !bind_modify. by eexists _, _.
Qed.

(** The entries of a directory, looked up after an entry was filled. *)
Lemma find_filled st inumber sub_inumber name q i :
  shape st ->
  valid_inumber sub_inumber = true ->
  strlen name < MAX_FILE_NAME ->
  i_node_type (inode_at st inumber) = T_DIRECTORY ->
  q = sel (i_data_block (inode_at st inumber)) 0 ->
  valid_block_number q = true ->
  first_empty_entry (fs_data st) (q * BLOCK_SIZE) (Z.to_nat MAX_DIR_ENTRIES) 0
  = Some i ->
  find_in_dir_unsafe st inumber name = -1 ->
  find_in_dir_unsafe
    (set_fs_data (entry_filled (fs_data st) (q * BLOCK_SIZE) i sub_inumber name)
                 st) inumber name = sub_inumber.
Proof.
  intros Hsh Hvs Hshort Ht -> Hq Hi Habs.
  pose proof max_dir_entries_nonneg cfg_ok as Hmax.
  apply first_empty_entry_Some in Hi as (Hi & Hempty & Hfull).
  unfold find_in_dir_unsafe in *.
  change (inode_at (set_fs_data _ st) inumber) with (inode_at st inumber).
  rewrite Ht in *. rewrite bool_decide_eq_true_2 in * by done.
  cbn [negb] in *. unfold data_block_get in *. rewrite Hq in *.
  cbn [negb fs_data set_fs_data] in *.
  pose proof (find_entry_none _ _ _ _ _ Habs) as Hnone.
  apply valid_inumber_range in Hvs as Hsub.
  pose proof (inumber_fits_int cfg_ok) as Hfit.
  rewrite (find_entry_hit _ _ _ _ i); [| lia | |].
  - apply (entry_filled_inumber cfg_ok); try done; try lia.
    apply (shape_fs_data _ Hsh).
  - intros j Hj. unfold entry_matches.
    destruct (entry_filled_other cfg_ok (fs_data st) _ i sub_inumber name
                (shape_fs_data _ Hsh) Hq ltac:(lia) j ltac:(lia) ltac:(lia))
      as [-> ->].
    apply Hnone. lia.
  - apply (entry_filled_matches cfg_ok); try done; try lia.
    apply (shape_fs_data _ Hsh).
Qed.

Lemma add_dir_entry_then_find_aux st inumber sub_inumber name s1 :
  shape st ->
  strlen name < MAX_FILE_NAME ->
  find_in_dir_unsafe st inumber name = -1 ->
  add_dir_entry_unsafe inumber sub_inumber name st = Some (0, s1) ->
  find_in_dir_unsafe s1 inumber name = sub_inumber.
Proof.
  intros Hsh Hshort Habs H.
  apply add_dir_entry_unsafe_inv in H
    as [[? _] | (_ & Hv & Hvs & Ht & Hn & q & i & Eq & Hq & Hi & ->)]; [done|].
  by eapply find_filled.
Qed.

End Properties.

Section Properties.
Context {cfg : Config}.
Hypothesis cfg_ok : config_ok.

(** [strncmp] reads its second argument up to its first NUL. *)
Lemma strncmp_eq_c_chars n : forall a b,
  strncmp_eq n a b = strncmp_eq n a (c_chars b).
Proof.
  induction n as [|n IH]; intros a b; [done|].
  destruct b as [|c rest]; [done|].
  cbn [strncmp_eq c_chars]. destruct (c =? 0) eqn:Ec.
  - apply Z.eqb_eq in Ec as ->. cbn. by destruct (hd 0 a =? 0).
  - cbn [hd tl]. by rewrite (IH (tl a) rest).
Qed.

(** A name that compares equal to a stored name of fewer than [n]
    characters has the characters of the stored name. *)
Lemma strncmp_eq_stored_inv name zs : forall n name',
  Forall (fun z => z = 0) zs ->
  strlen name < Z.of_nat n ->
  strncmp_eq n (c_chars name ++ zs) name' = true ->
  c_chars name' = c_chars name.
Proof.
  assert (forall n name', (0 < n)%nat ->
            strncmp_eq n zs name' = true -> Forall (fun z => z = 0) zs ->
            c_chars name' = []) as Hnil.
  { intros [|n] name' Hn H Hzs; [lia|]. cbn [strncmp_eq] in H.
    assert (hd 0 zs = 0) as E.
    { destruct zs as [|z zs']; [done|]. by apply Forall_cons in Hzs as [-> _]. }
    rewrite E in H. destruct name' as [|c rest]; [done|]. cbn [hd] in H.
    destruct (0 =? c) eqn:Ec; [|done]. apply Z.eqb_eq in Ec as <-. done. }
  unfold strlen.
  induction name as [|c rest IH]; intros n name' Hzs Hlen H.
  - cbn in *. apply (Hnil n); [lia | done | done].
  - cbn [c_chars] in *. destruct (c =? 0) eqn:Ec.
    + cbn in *. apply (Hnil n); [lia | done | done].
    + destruct n as [|n]; [cbn in Hlen; lia|].
      cbn [strncmp_eq app hd tl] in H. rewrite Ec in H.
      destruct name' as [|c' rest']; cbn [hd tl] in H.
      * rewrite Ec in H. done.
      * destruct (c =? c') eqn:Ec'; [|done]. apply Z.eqb_eq in Ec' as <-.
        cbn [c_chars]. rewrite Ec. f_equal.
        apply (IH n); [done | cbn [length] in Hlen; lia | done].
Qed.

Lemma entry_matches_c_chars mem de name j :
  entry_matches mem de name j = entry_matches mem de (c_chars name) j.
Proof. unfold entry_matches. by rewrite strncmp_eq_c_chars. Qed.

(** The lookup in two arenas whose entries give the same tests and
    inumbers. *)
Lemma find_entry_same mem mem' de name n : forall i0,
  (forall j, i0 <= j < i0 + Z.of_nat n ->
     entry_matches mem' de name j = entry_matches mem de name j
     /\ (entry_matches mem de name j = true ->
         d_inumber mem' de j = d_inumber mem de j)) ->
  find_entry mem' de name n i0 = find_entry mem de name n i0.
Proof.
  induction n as [|n IH]; intros i0 Hsame; [done|].
  cbn [find_entry]. fold (entry_matches mem de name i0).
  fold (entry_matches mem' de name i0).
  destruct (Hsame i0 ltac:(lia)) as [-> Hd].
  destruct (entry_matches mem de name i0); [by apply Hd|].
  apply IH. intros j Hj. apply Hsame. lia.
Qed.

Lemma find_entry_c_chars mem de name n i0 :
  find_entry mem de name n i0 = find_entry mem de (c_chars name) n i0.
Proof.
  revert i0. induction n as [|n IH]; intros i0; [done|].
  cbn [find_entry]. fold (entry_matches mem de name i0).
  fold (entry_matches mem de (c_chars name) i0).
  rewrite <- entry_matches_c_chars. by rewrite IH.
Qed.

Lemma find_filled_other st inumber sub_inumber name q i name' :
  shape st ->
  valid_inumber sub_inumber = true ->
  strlen name < MAX_FILE_NAME ->
  q = sel (i_data_block (inode_at st inumber)) 0 ->
  valid_block_number q = true ->
  first_empty_entry (fs_data st) (q * BLOCK_SIZE) (Z.to_nat MAX_DIR_ENTRIES) 0
  = Some i ->
  find_in_dir_unsafe st inumber name = -1 ->
  find_in_dir_unsafe st inumber name' <> -1 ->
  find_in_dir_unsafe
    (set_fs_data (entry_filled (fs_data st) (q * BLOCK_SIZE) i sub_inumber name)
                 st) inumber name'
  = find_in_dir_unsafe st inumber name'.
Proof.
  intros Hsh Hvs Hshort -> Hq Hi Habs Hpres.
  pose proof max_dir_entries_nonneg cfg_ok as Hmax.
  pose proof (MAX_FILE_NAME_pos cfg_ok) as Hmfn.
  apply first_empty_entry_Some in Hi as (Hi & Hempty & Hfull).
  unfold find_in_dir_unsafe in *.
  change (inode_at (set_fs_data _ st) inumber) with (inode_at st inumber).
  destruct (negb _); [done|].
  unfold data_block_get in *. rewrite Hq in *.
  cbn [negb fs_data set_fs_data] in *.
  apply valid_inumber_range in Hvs as Hsub.
  pose proof (inumber_fits_int cfg_ok) as Hfit.
  apply find_entry_same. intros j Hj.
  destruct (decide (j = i)) as [->|Hne].
  - assert (entry_matches (fs_data st)
              (sel (i_data_block (inode_at st inumber)) 0 * BLOCK_SIZE)
              name' i = false) as Hold.
    { unfold entry_matches. rewrite Hempty. done. }
    rewrite Hold. split; [|done].
    apply not_true_is_false. intros Hnew. apply Hpres.
    unfold entry_matches in Hnew. apply andb_true_iff in Hnew as [_ Hnew].
    rewrite (entry_filled_name cfg_ok) in Hnew;
      [| apply (shape_fs_data _ Hsh) | done | lia].
    rewrite strncpy_short in Hnew by lia. rewrite <- app_assoc in Hnew.
    apply strncmp_eq_stored_inv in Hnew; [| | lia].
    + rewrite find_entry_c_chars, Hnew, <- find_entry_c_chars. done.
    + apply Forall_app. split; [by apply Forall_replicate|].
      by repeat constructor.
  - unfold entry_matches.
    destruct (entry_filled_other cfg_ok (fs_data st) _ i sub_inumber name
                (shape_fs_data _ Hsh) Hq ltac:(lia) j ltac:(lia) Hne)
      as [-> ->].
    done.
Qed.

(** A name of fewer than [MAX_FILE_NAME] characters that was not in the
    directory is found after [add_dir_entry_unsafe] has added it, with the
    inumber it was added with, and the names that were in the directory are
    found with the inumbers they had. *)
Theorem add_dir_entry_then_find st inumber sub_inumber name s1 :
  shape st ->
  strlen name < MAX_FILE_NAME ->
  find_in_dir_unsafe st inumber name = -1 ->
  add_dir_entry_unsafe inumber sub_inumber name st = Some (0, s1) ->
  find_in_dir_unsafe s1 inumber name = sub_inumber
  /\ forall name', find_in_dir_unsafe st inumber name' <> -1 ->
       find_in_dir_unsafe s1 inumber name'
       = find_in_dir_unsafe st inumber name'.
Proof.
  intros Hsh Hshort Habs H. split.
  - by eapply add_dir_entry_then_find_aux.
  - intros name' Hpres.
    apply add_dir_entry_unsafe_inv in H
      as [[? _] | (_ & Hv & Hvs & Ht & Hn & q & i & Eq & Hq & Hi & ->)];
      [done|].
    by eapply find_filled_other.
Qed.

End Properties.

(** ** Creating a file in a directory *)

Section Properties.
Context {cfg : Config}.
Hypothesis cfg_ok : config_ok.

Lemma inode_create_unsafe_file s :
  inode_create_unsafe T_FILE s
  = match first_free (free_inode_ts s) (Z.to_nat INODE_TABLE_SIZE) 0 with
    | Some k => Some (k, file_created k s)
    | None => Some (-1, s)
    end.
Proof.
  unfold inode_create_unsafe. rewrite bind_gets.
  destruct (first_free _ _ _) as [k|]; [|done].
  rewrite !bind_modify. by destruct (decide (T_FILE = T_DIRECTORY)).
Qed.

(** [add_dir_entry_unsafe] does not look at the locks. *)
Lemma add_dir_entry_unsafe_set_locks l inumber sub_inumber name st :
  add_dir_entry_unsafe inumber sub_inumber name (set_locks l st)
  = match add_dir_entry_unsafe inumber sub_inumber name st with
    | Some (r, s2) => Some (r, set_locks l s2)
    | None => None
    end.
Proof.
  unfold add_dir_entry_unsafe.
  destruct (negb _ || negb _); [done|].
  rewrite !bind_gets.
  change (inode_at (set_locks l st) inumber) with (inode_at st inumber).
  destruct (negb _); [done|].
  destruct (strlen name =? 0); [done|].
  destruct (data_block_get _); [|done].
  rewrite !bind_gets.
  change (fs_data (set_locks l st)) with (fs_data st).
  destruct (first_empty_entry _ _ _ _); [|done].
  by rewrite !bind_modify.
Qed.

Lemma add_dir_entry_unsafe_keeps_locks inumber sub_inumber name st r s2 :
  add_dir_entry_unsafe inumber sub_inumber name st = Some (r, s2) ->
  locks s2 = locks st.
Proof.
  intros H. by apply add_dir_entry_unsafe_inv in H
    as [[_ ->] | (_ & _ & _ & _ & _ & q & i & _ & _ & _ & ->)].
Qed.

(** The two unlocks that end [create_in_dir]. *)
Lemma unlock_inode_and_table s i s2 :
  shape s -> valid_inumber i = true ->
  lk_inode_table (locks s) = false ->
  sel (lk_inode (locks s)) i = RwFree ->
  locks s2 = set_rwlock i RwWrite (set_mutex inode_table_mutex true (locks s)) ->
  (pthread_rwlock_unlock i ;; pthread_mutex_unlock inode_table_mutex ;; ret tt)
    s2
  = Some (tt, set_locks (locks s) s2).
Proof.
  intros Hsh Hv Hm Hrw E.
  unfold pthread_rwlock_unlock, pthread_mutex_unlock.
  rewrite !bind_modify. unfold ret. do 2 f_equal.
  change (set_locks ?a (set_locks ?b s2)) with (set_locks a s2).
  f_equal. rewrite locks_set_locks, E.
  apply valid_inumber_range in Hv. pose proof (shape_lk_inode s Hsh) as Hl.
  destruct (locks s) as [li lt ld lo lf]. cbn in *. subst lt.
  rewrite sel_upd_eq by lia. cbn. rewrite upd_upd_eq.
  by rewrite (upd_same _ _ _ Hrw).
Qed.

(** [create_in_dir] for a file, when the mutex of the inode table and the
    lock of the directory are free. *)
Lemma create_in_dir_file_run s inumber name :
  shape s -> valid_inumber inumber = true ->
  lk_inode_table (locks s) = false ->
  sel (lk_inode (locks s)) inumber = RwFree ->
  create_in_dir inumber T_FILE name s
  = if 0 <=? find_in_dir_unsafe s inumber name
    then Some (find_in_dir_unsafe s inumber name, s)
    else
      match first_free (free_inode_ts s) (Z.to_nat INODE_TABLE_SIZE) 0 with
      | None => Some (-1, s)
      | Some k =>
          match add_dir_entry_unsafe inumber k name (file_created k s) with
          | Some (r, s2) => Some (if r =? -1 then -1 else k, s2)
          | None => None
          end
      end.
Proof.
  intros Hsh Hv Hm Hrw. unfold create_in_dir. rewrite Hv. cbn [negb].
  apply valid_inumber_range in Hv as Hvr.
  erewrite bind_run by (by apply mutex_lock_run).
  erewrite bind_run.
  2: { apply wrlock_run; [lia | | done].
       cbn. rewrite (shape_lk_inode s Hsh). lia. }
  rewrite bind_gets.
  set (l1 := set_rwlock inumber RwWrite _).
  change (set_locks l1 (set_locks _ s)) with (set_locks l1 s).
  change (find_in_dir_unsafe (set_locks l1 s) inumber name)
    with (find_in_dir_unsafe s inumber name).
  assert (forall {A} (a : A) s2, locks s2 = l1 ->
            (pthread_rwlock_unlock inumber ;;
             pthread_mutex_unlock inode_table_mutex ;; ret a) s2
            = Some (a, set_locks (locks s) s2)) as Hun.
  { intros A a s2 E.
    pose proof (unlock_inode_and_table s inumber s2 Hsh Hv Hm Hrw E) as Hu.
    unfold bind in *.
    destruct (pthread_rwlock_unlock inumber s2) as [[u s3]|]; [|done].
    destruct (pthread_mutex_unlock inode_table_mutex s3) as [[u' s4]|];
      [|done].
    unfold ret in *. by injection Hu as <-. }
  destruct (0 <=? _).
  - rewrite Hun by done. by destruct s.
  - unfold bind at 1. rewrite inode_create_unsafe_file.
    change (free_inode_ts (set_locks l1 s)) with (free_inode_ts s).
    destruct (first_free _ _ _) as [k|] eqn:Hk.
    + apply first_free_Some in Hk as (Hk & _).
      destruct (k =? -1) eqn:Ek; [apply Z.eqb_eq in Ek; lia|].
      change (file_created k (set_locks l1 s))
        with (set_locks l1 (file_created k s)).
      unfold bind at 1. rewrite add_dir_entry_unsafe_set_locks.
      destruct (add_dir_entry_unsafe inumber k name (file_created k s))
        as [[r s2]|] eqn:Hadd; [|done].
      apply add_dir_entry_unsafe_keeps_locks in Hadd.
      destruct (r =? -1); rewrite Hun by done;
        change (set_locks (locks s) (set_locks l1 s2))
          with (set_locks (locks s) s2);
        change (locks s) with (locks (file_created k s));
        rewrite <- Hadd; by rewrite set_locks_id.
    + change (-1 =? -1) with true. cbv iota.
      rewrite Hun by done. by destruct s.
Qed.

End Properties.

Section Properties.
Context {cfg : Config}.
Hypothesis cfg_ok : config_ok.

Lemma inode_taken_shape t k s : shape s -> shape (inode_taken t k s).
Proof.
  intros Hsh. unfold inode_taken.
  eapply (shape_change (set_inode_state k TAKEN s) _ k); try done.
  destruct Hsh as [H1 H2 H3 H4 H5 H6 H7 H8 H9].
  constructor; try done. cbn. by rewrite length_upd.
Qed.

Lemma file_created_other k s i :
  Z.to_nat i <> Z.to_nat k ->
  inode_at (file_created k s) i = inode_at s i.
Proof.
  intros Hne. unfold file_created, inode_taken, upd_inode, inode_at.
  cbn [inode_table set_inode_table set_inode_state set_free_inode_ts].
  by apply sel_upd_other.
Qed.

Lemma first_free_other s k i :
  valid_inumber i = true -> sel (free_inode_ts s) i = TAKEN ->
  first_free (free_inode_ts s) (Z.to_nat INODE_TABLE_SIZE) 0 = Some k ->
  0 <= k < INODE_TABLE_SIZE /\ Z.to_nat i <> Z.to_nat k.
Proof.
  intros Hv Ht Hk. apply first_free_Some in Hk as (Hk & Hfree & _).
  apply valid_inumber_range in Hv. split; [lia|].
  intros E. assert (i = k) as -> by lia. congruence.
Qed.

Lemma file_created_find k s i name :
  Z.to_nat i <> Z.to_nat k ->
  find_in_dir_unsafe (file_created k s) i name = find_in_dir_unsafe s i name.
Proof.
  intros Hne. unfold find_in_dir_unsafe.
  by rewrite (file_created_other k s i Hne).
Qed.

(** When the directory has no empty entry, [create_in_dir] of a name that
    is not in it returns -1 after [inode_create_unsafe] has taken an inode
    for the file: the inode stays taken, with a size of 0, and nothing else
    of the state has changed. *)
Theorem create_in_full_dir_takes_inode s inumber name k :
  shape s -> valid_inumber inumber = true ->
  lk_inode_table (locks s) = false ->
  sel (lk_inode (locks s)) inumber = RwFree ->
  sel (free_inode_ts s) inumber = TAKEN ->
  find_in_dir_unsafe s inumber name < 0 ->
  first_empty_entry (fs_data s)
    (sel (i_data_block (inode_at s inumber)) 0 * BLOCK_SIZE)
    (Z.to_nat MAX_DIR_ENTRIES) 0 = None ->
  first_free (free_inode_ts s) (Z.to_nat INODE_TABLE_SIZE) 0 = Some k ->
  create_in_dir inumber T_FILE name s = Some (-1, file_created k s)
  /\ sel (free_inode_ts s) k = FREE
  /\ sel (free_inode_ts (file_created k s)) k = TAKEN
  /\ find_in_dir_unsafe (file_created k s) inumber name
     = find_in_dir_unsafe s inumber name.
Proof.
  intros Hsh Hv Hm Hrw Ht Habs Hfull Hk.
  destruct (first_free_other s k inumber Hv Ht Hk) as [Hkr Hne].
  rewrite create_in_dir_file_run by done.
  apply Z.leb_gt in Habs as ->. rewrite Hk.
  destruct (add_dir_entry_unsafe_total inumber k name (file_created k s))
    as (r & s2 & Hadd).
  rewrite Hadd.
  apply add_dir_entry_unsafe_inv in Hadd
    as [[-> ->] | (_ & _ & _ & _ & _ & q & i & -> & _ & Hi & _)].
  - split; [done|]. apply first_free_Some in Hk as (_ & Hfree & _).
    split; [done|]. split; [|by apply file_created_find].
    unfold file_created, inode_taken, upd_inode, set_inode_state.
    cbn [free_inode_ts set_inode_table set_free_inode_ts].
    apply sel_upd_eq. rewrite (shape_free_inode_ts s Hsh). lia.
  - rewrite (file_created_other k s inumber Hne) in Hi.
    change (fs_data (file_created k s)) with (fs_data s) in Hi. congruence.
Qed.

(** [tfs_create] of a name of fewer than [MAX_FILE_NAME] characters gives
    the name to one file: when it has returned an inumber, [tfs_lookup] of
    the name returns that inumber and [tfs_create] of the name returns it
    again, both without a change of the state. *)
Theorem tfs_create_then_lookup s name i s1 :
  shape s ->
  sel (free_inode_ts s) ROOT_DIR_INUM = TAKEN ->
  strlen (tl name) < MAX_FILE_NAME ->
  -1 <= find_in_dir_unsafe s ROOT_DIR_INUM (tl name) ->
  tfs_create name T_FILE s = Some (i, s1) -> i <> -1 ->
  tfs_lookup name s1 = Some (i, s1)
  /\ tfs_create name T_FILE s1 = Some (i, s1).
Proof.
  intros Hsh Hroot Hshort Hfind H Hi.
  unfold tfs_create, tfs_lookup in *.
  destruct (valid_pathname name); cbn [negb] in *;
    [|by apply ret_inv in H as [-> _]].
  pose proof (root_valid cfg_ok) as Hv.
  assert (lk_inode_table (locks s) = false
          /\ sel (lk_inode (locks s)) ROOT_DIR_INUM = RwFree) as [Hm Hrw].
  { pose proof H as H'. unfold create_in_dir in H'. rewrite Hv in H'.
    cbn [negb] in H'.
    apply bind_inv in H' as (u & s0 & Hl & H').
    apply bind_inv in H' as (u' & s0' & Hw & _).
    apply mutex_lock_inv in Hl as [Hl ->]. split; [done|].
    unfold pthread_rwlock_wrlock in Hw. cbn [locks set_locks] in Hw.
    change (lk_inode (set_mutex inode_table_mutex true (locks s)))
      with (lk_inode (locks s)) in Hw.
    unfold sel.
    destruct (lk_inode (locks s) !! Z.to_nat ROOT_DIR_INUM) as [[| |]|] eqn:E;
      try done.
    by rewrite (list_lookup_total_correct _ _ _ E). }
  rewrite create_in_dir_file_run in H by done.
  destruct (0 <=? find_in_dir_unsafe s ROOT_DIR_INUM (tl name)) eqn:Ef.
  - injection H as <- <-. split.
    + by apply find_in_dir_run.
    + rewrite create_in_dir_file_run by done. by rewrite Ef.
  - apply Z.leb_gt in Ef.
    assert (find_in_dir_unsafe s ROOT_DIR_INUM (tl name) = -1) as Habs by lia.
    destruct (first_free _ _ _) as [k|] eqn:Hk; [|by injection H as <- _].
    destruct (first_free_other s k ROOT_DIR_INUM Hv Hroot Hk) as [Hkr Hne].
    destruct (add_dir_entry_unsafe _ _ _ _) as [[r s2]|] eqn:Hadd; [|done].
    destruct (r =? -1) eqn:Er; injection H as <- <-; [done|].
    pose proof (add_dir_entry_unsafe_keeps_locks _ _ _ _ _ _ Hadd) as Hlk.
    pose proof (inode_taken_shape T_FILE k s Hsh : shape (file_created k s))
      as Hsh'.
    pose proof Hadd as Hadd'.
    apply add_dir_entry_unsafe_inv in Hadd'
      as [[-> _] | (-> & _ & Hvk & Ht & Hn & q & j & Eq & Hq & Hj & Es2)];
      [done|].
    assert (find_in_dir_unsafe s2 ROOT_DIR_INUM (tl name) = k) as Hfound.
    { apply (add_dir_entry_then_find_aux cfg_ok (file_created k s)); try done.
      by rewrite file_created_find. }
    assert (shape s2) as Hsh2.
    { subst s2. destruct Hsh' as [H1 H2 H3 H4 H5 H6 H7 H8 H9].
      constructor; try done. cbn [fs_data set_fs_data].
      by rewrite (length_entry_filled (fs_data (file_created k s))). }
    assert (locks s2 = locks s) as Hlk2 by (by rewrite Hlk).
    split.
    + rewrite find_in_dir_run; [by rewrite Hfound | done | done |].
      by rewrite Hlk2.
    + rewrite create_in_dir_file_run; [| done | done | | ]; rewrite ?Hlk2;
        try done.
      rewrite Hfound. destruct Hkr as [Hk0 _]. by apply Z.leb_le in Hk0 as ->.
Qed.

End Properties.

Section SmallProperties.
#[local] Existing Instance small_cfg.

Lemma small_dir_full_shape : shape small_dir_full.
Proof. constructor; try by vm_compute. vm_compute. repeat constructor. Qed.

Lemma add_dir_entry_then_find_witness :
  exists s1,
    add_dir_entry_unsafe 0 2 [98] small_opened = Some (0, s1)
    /\ find_in_dir_unsafe s1 0 [98] = 2
    /\ forall name', find_in_dir_unsafe small_opened 0 name' <> -1 ->
         find_in_dir_unsafe s1 0 name' = find_in_dir_unsafe small_opened 0 name'.
Proof.
  destruct (add_dir_entry_unsafe 0 2 [98] small_opened) as [[r s1]|] eqn:Hrun;
    [|by vm_compute in Hrun].
  assert (r = 0) as ->.
  { assert (fst <$> add_dir_entry_unsafe 0 2 [98] small_opened = Some r)
      as Hr by (by rewrite Hrun).
    vm_compute in Hr. by injection Hr as <-. }
  exists s1. split; [done|].
  apply (add_dir_entry_then_find small_cfg_ok small_opened 0 2 [98] s1).
  - exact small_opened_shape.
  - by vm_compute.
  - by vm_compute.
  - exact Hrun.
Defined.

Lemma create_in_full_dir_takes_inode_witness :
  create_in_dir 0 T_FILE [101] small_dir_full
  = Some (-1, file_created 3 small_dir_full)
  /\ sel (free_inode_ts small_dir_full) 3 = FREE
  /\ sel (free_inode_ts (file_created 3 small_dir_full)) 3 = TAKEN
  /\ find_in_dir_unsafe (file_created 3 small_dir_full) 0 [101]
     = find_in_dir_unsafe small_dir_full 0 [101].
Proof.
  apply (create_in_full_dir_takes_inode small_dir_full 0 [101] 3).
  - exact small_dir_full_shape.
  - by vm_compute.
  - by vm_compute.
  - by vm_compute.
  - by vm_compute.
  - by vm_compute.
  - by vm_compute.
  - by vm_compute.
Defined.

Lemma tfs_create_then_lookup_witness :
  exists s1,
    tfs_create path_a T_FILE small_fresh = Some (1, s1)
    /\ tfs_lookup path_a s1 = Some (1, s1)
    /\ tfs_create path_a T_FILE s1 = Some (1, s1).
Proof.
  destruct (tfs_create path_a T_FILE small_fresh) as [[r s1]|] eqn:Hrun;
    [|by vm_compute in Hrun].
  assert (r = 1) as ->.
  { assert (fst <$> tfs_create path_a T_FILE small_fresh = Some r)
      as Hr by (by rewrite Hrun).
    vm_compute in Hr. by injection Hr as <-. }
  exists s1. split; [done|].
  apply (tfs_create_then_lookup small_cfg_ok small_fresh path_a 1 s1).
  - exact small_fresh_shape.
  - by vm_compute.
  - by vm_compute.
  - by vm_compute.
  - exact Hrun.
  - done.
Defined.

End SmallProperties.

(** ** The file system after [tfs_init] *)

Section Properties.
Context {cfg : Config}.
Hypothesis cfg_ok : config_ok.

Lemma first_free_replicate n :
  (0 < n)%nat -> first_free (replicate n FREE) n 0 = Some 0.
Proof.
  intros Hn. destruct n as [|n]; [lia|]. cbn [first_free].
  rewrite decide_True; [done|]. done.
Qed.

(** [clear_dir_entries] sets the inumbers of the entries from [i0] on to
    -1 and keeps those of the entries before. *)
Lemma clear_dir_entries_spec q n : forall i0 mem,
  valid_block_number q = true ->
  length mem = Z.to_nat (BLOCK_SIZE * DATA_BLOCKS) ->
  0 <= i0 -> i0 + Z.of_nat n <= MAX_DIR_ENTRIES ->
  length (clear_dir_entries n i0 (q * BLOCK_SIZE) mem) = length mem
  /\ (forall j, 0 <= j < i0 ->
        d_inumber (clear_dir_entries n i0 (q * BLOCK_SIZE) mem)
                  (q * BLOCK_SIZE) j
        = d_inumber mem (q * BLOCK_SIZE) j)
  /\ (forall j, i0 <= j < i0 + Z.of_nat n ->
        d_inumber (clear_dir_entries n i0 (q * BLOCK_SIZE) mem)
                  (q * BLOCK_SIZE) j = -1).
Proof.
  induction n as [|n IH]; intros i0 mem Hq Hlen Hi0 Hfit.
  - cbn [clear_dir_entries]. repeat split; try done. intros j Hj. lia.
  - cbn [clear_dir_entries].
    set (mem1 := store_int mem _ (-1)).
    assert (length mem1 = length mem) as Hlen1 by apply length_store_int.
    destruct (IH (i0 + 1) mem1 Hq ltac:(by rewrite Hlen1) ltac:(lia)
                ltac:(lia)) as (IH1 & IH2 & IH3).
    destruct (entry_in_arena cfg_ok mem q Hlen Hq i0 ltac:(lia))
      as (H1 & H2 & H3 & H4).
    split; [by rewrite IH1|]. split.
    + intros j Hj. rewrite IH2 by lia. unfold d_inumber. subst mem1.
      destruct (entry_in_arena cfg_ok mem q Hlen Hq j ltac:(lia))
        as (J1 & _ & _ & J4).
      apply load_int_store_int_out; unfold SIZEOF_DIR_ENTRY, SIZEOF_INT in *;
        [lia|lia|].
      left. nia.
    + intros j Hj. destruct (decide (j = i0)) as [->|Hne].
      * rewrite IH2 by lia. unfold d_inumber. subst mem1.
        apply load_store_int; unfold SIZEOF_DIR_ENTRY, SIZEOF_INT in *; lia.
      * apply IH3. lia.
Qed.

Lemma find_entry_all_empty mem de name n : forall i0,
  (forall j, i0 <= j < i0 + Z.of_nat n -> d_inumber mem de j = -1) ->
  find_entry mem de name n i0 = -1.
Proof.
  induction n as [|n IH]; intros i0 Hall; [done|].
  cbn [find_entry]. rewrite (Hall i0) by lia. cbn [Z.eqb negb andb].
  apply IH. intros j Hj. apply Hall. lia.
Qed.

(** [inode_create_unsafe] for a directory, when an inode and a block are
    free. *)
Lemma inode_create_unsafe_dir_run s k b :
  shape s -> lk_data_blocks (locks s) = false ->
  first_free (free_inode_ts s) (Z.to_nat INODE_TABLE_SIZE) 0 = Some k ->
  first_free (free_blocks s) (Z.to_nat DATA_BLOCKS) 0 = Some b ->
  exists s1,
    inode_create_unsafe T_DIRECTORY s = Some (k, s1)
    /\ i_node_type (inode_at s1 k) = T_DIRECTORY
    /\ i_size (inode_at s1 k) = 0
    /\ i_data_block_count (inode_at s1 k) = 1
    /\ sel (i_data_block (inode_at s1 k)) 0 = b
    /\ fs_data s1
       = clear_dir_entries (Z.to_nat MAX_DIR_ENTRIES) 0 (b * BLOCK_SIZE)
                           (fs_data s)
    /\ free_inode_ts s1 = upd (free_inode_ts s) k TAKEN
    /\ free_blocks s1 = upd (free_blocks s) b TAKEN
    /\ open_file_table s1 = open_file_table s
    /\ free_open_file_entries s1 = free_open_file_entries s
    /\ open_file_count s1 = open_file_count s
    /\ locks s1 = locks s
    /\ length (inode_table s1) = length (inode_table s).
Proof.
  intros Hsh Hlk Hk Hb.
  pose proof (inode_taken_shape T_DIRECTORY k s Hsh) as Hsh1.
  apply first_free_Some in Hk as Hk'. destruct Hk' as (Hkr & _ & _).
  assert (valid_inumber k = true) as Hvk by (apply valid_inumber_range; lia).
  destruct (first_free_valid _ _ Hb) as (Hvb & _ & Hbne).
  pose proof (INODE_DIRECT_REFS_pos cfg_ok) as Hdr.
  assert (Z.to_nat k < length (inode_table s))%nat as Hin
    by (rewrite (shape_inode_table s Hsh); lia).
  assert (inode_at (inode_taken T_DIRECTORY k s) k
          = set_i_data_block_count 0
              (set_i_size 0 (set_i_node_type T_DIRECTORY (inode_at s k))))
    as Ek.
  { unfold inode_taken, upd_inode, inode_at.
    cbn [inode_table set_inode_table set_inode_state set_free_inode_ts].
    by rewrite sel_upd_eq. }
  pose proof (extend_direct (inode_taken T_DIRECTORY k s) k b Hsh1 Hvk)
    as Hext.
  rewrite Ek in Hext. cbn [i_data_block_count set_i_data_block_count] in Hext.
  specialize (Hext ltac:(unfold inode_taken, upd_inode, set_inode_state;
                         cbn [free_inode_ts set_inode_table set_free_inode_ts];
                         apply sel_upd_eq;
                         rewrite (shape_free_inode_ts s Hsh); lia)
                   Hlk Hb Hdr).
  eexists. split.
  - unfold inode_create_unsafe. rewrite bind_gets, Hk, !bind_modify.
    rewrite decide_True by done.
    change (upd_inode k _ (set_inode_state k TAKEN s))
      with (inode_taken T_DIRECTORY k s).
    rewrite (bind_run _ _ _ _ _ Hext).
    apply Z.eqb_neq in Hbne as ->.
    unfold data_block_get. rewrite Hvb. cbn [negb].
    rewrite bind_modify. reflexivity.
  - assert (Z.to_nat 0 < length (i_data_block (inode_at s k)))%nat as Hdl.
    { pose proof (shape_i_data_block s Hsh) as Hall.
      unfold inode_at, sel.
      destruct (lookup_lt_is_Some_2 _ _ Hin) as [n Hl].
      rewrite (list_lookup_total_correct _ _ _ Hl).
      rewrite (proj1 (Forall_lookup _ _) Hall _ _ Hl). lia. }
    unfold inode_taken, upd_inode, set_inode_state, inode_at.
    cbn [inode_table free_inode_ts fs_data free_blocks open_file_table
         free_open_file_entries open_file_count locks
         set_inode_table set_free_inode_ts set_fs_data set_free_blocks].
    rewrite !sel_upd_eq by (rewrite ?length_upd; done).
    cbn [i_node_type i_size i_data_block_count i_data_block
         set_i_node_type set_i_size set_i_data_block_count set_i_data_block].
    rewrite sel_upd_eq by done.
    repeat split; try done. by rewrite !length_upd.
Qed.

End Properties.

Section Properties.
Context {cfg : Config}.
Hypothesis cfg_ok : config_ok.

(** The state that [state_init] leaves. *)
Lemma state_init_run s :
  shape s ->
  exists s0,
    state_init s = Some (0, s0)
    /\ fs_inv s0
    /\ free_inode_ts s0 = replicate (Z.to_nat INODE_TABLE_SIZE) FREE
    /\ free_blocks s0 = replicate (Z.to_nat DATA_BLOCKS) FREE
    /\ free_open_file_entries s0 = replicate (Z.to_nat MAX_OPEN_FILES) FREE
    /\ open_file_count s0 = 0
    /\ lk_inode (locks s0) = replicate (Z.to_nat INODE_TABLE_SIZE) RwFree
    /\ lk_inode_table (locks s0) = lk_inode_table (locks s)
    /\ lk_data_blocks (locks s0) = lk_data_blocks (locks s).
Proof.
  intros Hsh. eexists. split.
  { unfold state_init. rewrite bind_modify. reflexivity. }
  split; [|done]. split.
  - constructor; cbn; rewrite ?length_replicate; try done; try lens Hsh.
    apply (shape_i_data_block _ Hsh).
  - intros i Hv Ht. cbn in Ht. apply valid_inumber_range in Hv.
    rewrite sel_replicate in Ht by lia. done.
Qed.

(** [tfs_init] returns 0 and leaves a file system with the root directory
    and nothing else: every lookup returns -1, the root is the one taken
    inode, its block is the one taken block, and no file is open. *)
Theorem tfs_init_fresh s :
  shape s ->
  lk_inode_table (locks s) = false -> lk_data_blocks (locks s) = false ->
  exists s1,
    tfs_init s = Some (0, s1)
    /\ (forall name, tfs_lookup name s1 = Some (-1, s1))
    /\ (forall i, valid_inumber i = true ->
          sel (free_inode_ts s1) i = TAKEN <-> i = ROOT_DIR_INUM)
    /\ (forall b, valid_block_number b = true ->
          sel (free_blocks s1) b = TAKEN
          <-> b = sel (i_data_block (inode_at s1 ROOT_DIR_INUM)) 0)
    /\ i_node_type (inode_at s1 ROOT_DIR_INUM) = T_DIRECTORY
    /\ (forall h, valid_file_handle h = true ->
          sel (free_open_file_entries s1) h = FREE)
    /\ open_file_count s1 = 0
    /\ fs_inv s1.
Proof.
  intros Hsh Hm Hd.
  destruct (state_init_run s Hsh)
    as (s0 & Hinit & Hinv0 & Ei & Eb & Eo & Ec & El & Em & Ed).
  pose proof (INODE_TABLE_SIZE_pos cfg_ok) as Hn.
  pose proof (DATA_BLOCKS_pos cfg_ok) as Hdb.
  pose proof (BLOCK_SIZE_pos cfg_ok) as Hbs.
  set (s0l := set_locks (set_mutex inode_table_mutex true (locks s0)) s0).
  assert (pthread_mutex_lock inode_table_mutex s0 = Some (tt, s0l)) as Hlock.
  { apply mutex_lock_run. cbn [mutex_held]. by rewrite Em. }
  assert (fs_inv s0l) as Hinv0l.
  { eapply same_inodes_fs_inv; [|exact Hinv0]. by eapply mutex_lock_same. }
  destruct (inode_create_unsafe_dir_run cfg_ok s0l 0 0 (proj1 Hinv0l))
    as (s' & Hrun & Ht & Hsz & Hbc & Hblk & Hmem & Hfi & Hfb & Hot & Hoe & Hoc
        & Hlk & Hlen).
  { subst s0l. cbn. by rewrite Ed. }
  { change (free_inode_ts s0l) with (free_inode_ts s0). rewrite Ei.
    apply first_free_replicate. lia. }
  { change (free_blocks s0l) with (free_blocks s0). rewrite Eb.
    apply first_free_replicate. lia. }
  set (s1 := set_locks (set_mutex inode_table_mutex false (locks s')) s').
  assert (inode_create T_DIRECTORY s0 = Some (0, s1)) as Hcreate.
  { unfold inode_create. rewrite (bind_run _ _ _ _ _ Hlock).
    rewrite (bind_run _ _ _ _ _ Hrun). unfold pthread_mutex_unlock.
    by rewrite bind_modify. }
  assert (fs_inv s1) as Hinv1.
  { eapply (inode_create_fs_inv cfg_ok); [exact Hinv0 | exact Hcreate]. }
  assert (valid_block_number 0 = true) as Hv0
    by (apply valid_block_number_range; lia).
  assert (forall name, find_in_dir_unsafe s1 ROOT_DIR_INUM name = -1) as Hfind.
  { intros name. unfold find_in_dir_unsafe.
    change (inode_at s1 ROOT_DIR_INUM) with (inode_at s' 0).
    change (fs_data s1) with (fs_data s').
    rewrite Ht, Hblk. rewrite bool_decide_eq_true_2 by done. cbn [negb].
    unfold data_block_get. rewrite Hv0. cbn [negb]. rewrite Hmem.
    apply find_entry_all_empty. intros j Hj.
    pose proof (max_dir_entries_nonneg cfg_ok).
    apply (clear_dir_entries_spec cfg_ok 0); try done; try lia.
    apply (shape_fs_data _ (proj1 Hinv0l)). }
  exists s1. split.
  { unfold tfs_init. rewrite (bind_run _ _ _ _ _ Hinit). cbn [Z.eqb].
    rewrite (bind_run _ _ _ _ _ Hcreate). done. }
  split.
  { intros name. unfold tfs_lookup. destruct (valid_pathname name); [|done].
    cbn [negb]. rewrite find_in_dir_run; [by rewrite Hfind | apply Hinv1 | |].
    - apply (root_valid cfg_ok).
    - change (lk_inode (locks s1)) with (lk_inode (locks s')).
      rewrite Hlk. change (lk_inode (locks s0l)) with (lk_inode (locks s0)).
      rewrite El. apply sel_replicate. unfold ROOT_DIR_INUM. lia. }
  split.
  { intros i Hv. change (free_inode_ts s1) with (free_inode_ts s').
    rewrite Hfi. change (free_inode_ts s0l) with (free_inode_ts s0).
    rewrite Ei. apply valid_inumber_range in Hv. unfold ROOT_DIR_INUM.
    destruct (decide (i = 0)) as [->|Hne].
    - rewrite sel_upd_eq by (rewrite length_replicate; lia). done.
    - rewrite sel_upd_ne by lia. rewrite sel_replicate by lia. done. }
  split.
  { intros b Hv. change (free_blocks s1) with (free_blocks s').
    change (inode_at s1 ROOT_DIR_INUM) with (inode_at s' 0).
    rewrite Hfb, Hblk. change (free_blocks s0l) with (free_blocks s0).
    rewrite Eb. apply valid_block_number_range in Hv.
    destruct (decide (b = 0)) as [->|Hne].
    - rewrite sel_upd_eq by (rewrite length_replicate; lia). done.
    - rewrite sel_upd_ne by lia. rewrite sel_replicate by lia. done. }
  split; [exact Ht|]. split.
  { intros h Hv. change (free_open_file_entries s1)
      with (free_open_file_entries s').
    rewrite Hoe. change (free_open_file_entries s0l)
      with (free_open_file_entries s0).
    rewrite Eo. apply valid_file_handle_range in Hv.
    apply sel_replicate. lia. }
  split; [|exact Hinv1].
  change (open_file_count s1) with (open_file_count s'). by rewrite Hoc.
Qed.

End Properties.

Section SmallProperties.
#[local] Existing Instance small_cfg.

Lemma small_ab_shape : shape small_ab.
Proof. constructor; try by vm_compute. vm_compute. repeat constructor. Qed.

Lemma tfs_init_fresh_witness :
  find_in_dir_unsafe small_ab ROOT_DIR_INUM [97] = 1
  /\ exists s1,
       tfs_init small_ab = Some (0, s1)
       /\ (forall name, tfs_lookup name s1 = Some (-1, s1))
       /\ (forall i, valid_inumber i = true ->
             sel (free_inode_ts s1) i = TAKEN <-> i = ROOT_DIR_INUM)
       /\ (forall b, valid_block_number b = true ->
             sel (free_blocks s1) b = TAKEN
             <-> b = sel (i_data_block (inode_at s1 ROOT_DIR_INUM)) 0)
       /\ i_node_type (inode_at s1 ROOT_DIR_INUM) = T_DIRECTORY
       /\ (forall h, valid_file_handle h = true ->
             sel (free_open_file_entries s1) h = FREE)
       /\ open_file_count s1 = 0
       /\ fs_inv s1.
Proof.
  split; [by vm_compute|].
  apply (tfs_init_fresh small_cfg_ok small_ab).
  - exact small_ab_shape.
  - by vm_compute.
  - by vm_compute.
Defined.

End SmallProperties.

(** ** Releasing the blocks of an inode *)

Section Properties.
Context {cfg : Config}.
Hypothesis cfg_ok : config_ok.

Lemma blocks_released_refl i s : blocks_released i s s.
Proof. repeat split; try done. intros q _. by left. Qed.

(** One more block of the inode is released. *)
Lemma blocks_released_step i s st blk :
  shape s -> blocks_released i s st ->
  owned s i blk -> valid_block_number blk = true ->
  blocks_released i s (set_free_blocks (upd (free_blocks st) blk FREE) st)
  /\ sel (upd (free_blocks st) blk FREE) blk = FREE
  /\ forall x, sel (free_blocks st) x = FREE ->
       sel (upd (free_blocks st) blk FREE) x = FREE.
Proof.
  intros Hsh (H1 & H2 & H3 & H4 & H5 & H6 & H7 & H8 & H9) Ho Hv.
  assert (Z.to_nat blk < length (free_blocks st))%nat as Hin.
  { rewrite H8. by apply block_in_range. }
  assert (forall x, sel (free_blocks st) x = FREE ->
            sel (upd (free_blocks st) blk FREE) x = FREE) as Hkeep.
  { intros x Hx.
    destruct (decide (Z.to_nat x = Z.to_nat blk)) as [E|E].
    - by apply sel_upd_same.
    - by rewrite sel_upd_other. }
  split; [|split; [by apply sel_upd_eq | done]].
  repeat split; try done.
  - cbn. by rewrite length_upd.
  - intros q Hq. cbn [free_blocks set_free_blocks].
    destruct (decide (Z.to_nat q = Z.to_nat blk)) as [E|E].
    + right. apply valid_block_number_range in Hq, Hv.
      assert (q = blk) as -> by lia. split; [done | by apply sel_upd_eq].
    + rewrite sel_upd_other by done.
      destruct (H9 q Hq) as [Hs | [Hoq Hf]]; [by left | by right].
Qed.

Section Loops.

Variables (s : state) (i : Z).
Hypothesis Hsh : shape s.
Hypothesis Hwf : wf_file s i.
Hypothesis Hlk : lk_data_blocks (locks s) = false.

Let count := i_data_block_count (inode_at s i).
Let m := Z.min count INODE_DIRECT_REFS.

Lemma released_inode st : blocks_released i s st -> inode_at st i = inode_at s i.
Proof. intros (H1 & _). unfold inode_at. by rewrite H1. Qed.

Lemma released_free st blk :
  blocks_released i s st -> owned s i blk ->
  data_block_free blk st
  = Some (0, set_free_blocks (upd (free_blocks st) blk FREE) st).
Proof.
  intros HR Ho. destruct (wf_owned s i Hwf blk Ho) as [Hv _].
  rewrite data_block_free_run, Hv; [done|].
  destruct HR as (_ & _ & _ & _ & _ & _ & -> & _). done.
Qed.

Lemma clear_direct_loop_run : forall fuel k st,
  blocks_released i s st ->
  0 <= k <= m -> (Z.to_nat (m - k) < fuel)%nat ->
  (forall j, 0 <= j < k ->
     sel (free_blocks st) (inode_get_block_unsafe s i j) = FREE) ->
  exists st',
    clear_direct_loop fuel i k st = Some (Some m, st')
    /\ blocks_released i s st'
    /\ forall j, 0 <= j < m ->
         sel (free_blocks st') (inode_get_block_unsafe s i j) = FREE.
Proof.
  induction fuel as [|fuel IH]; intros k st HR Hk Hfuel Hdone; [lia|].
  cbn [clear_direct_loop]. rewrite bind_gets.
  rewrite (released_inode st HR). fold count.
  destruct (decide (k < m)) as [Hlt|Hge].
  - replace ((k <? count) && (k <? INODE_DIRECT_REFS)) with true by lia.
    assert (inode_get_block_unsafe s i k = sel (i_data_block (inode_at s i)) k)
      as Eblk.
    { apply get_block_direct; [apply Hwf | apply Hwf | fold count; lia | lia]. }
    assert (owned s i (sel (i_data_block (inode_at s i)) k)) as Ho.
    { left. exists k. split; [fold count; lia | done]. }
    rewrite (bind_run _ _ _ _ _ (released_free st _ HR Ho)).
    cbn [Z.eqb].
    destruct (blocks_released_step i s st _ Hsh HR Ho
                (proj1 (wf_owned s i Hwf _ Ho))) as (HR' & Hnew & Hkeep).
    apply IH; [done | lia | lia |].
    intros j Hj. cbn [free_blocks set_free_blocks].
    destruct (decide (j = k)) as [->|Hne].
    + by rewrite Eblk.
    + apply Hkeep. apply Hdone. lia.
  - replace ((k <? count) && (k <? INODE_DIRECT_REFS)) with false by lia.
    assert (k = m) as -> by lia. eexists. split; [reflexivity|]. done.
Qed.

Hypothesis Hind : INODE_DIRECT_REFS < count.

Let refs := i_data_extension_block (inode_at s i) * BLOCK_SIZE.

Lemma clear_indirect_loop_run : forall fuel k st,
  blocks_released i s st ->
  INODE_DIRECT_REFS <= k <= count -> (Z.to_nat (count - k) < fuel)%nat ->
  (forall j, 0 <= j < k ->
     sel (free_blocks st) (inode_get_block_unsafe s i j) = FREE) ->
  exists st',
    clear_indirect_loop fuel i refs k st = Some (Some count, st')
    /\ blocks_released i s st'
    /\ forall j, 0 <= j < count ->
         sel (free_blocks st') (inode_get_block_unsafe s i j) = FREE.
Proof.
  pose proof (INODE_DIRECT_REFS_pos cfg_ok) as Hdr.
  assert (valid_block_number (i_data_extension_block (inode_at s i)) = true)
    as Hext.
  { apply (wf_owned s i Hwf). right. by fold count. }
  induction fuel as [|fuel IH]; intros k st HR Hk Hfuel Hdone; [lia|].
  cbn [clear_indirect_loop]. rewrite bind_gets.
  rewrite (released_inode st HR). fold count.
  destruct (decide (k < count)) as [Hlt|Hge].
  - replace (k <? count) with true by lia.
    pose proof (wf_count s i Hwf) as Hc. fold count in Hc.
    replace (MAX_INDIRECT_REFS + INODE_DIRECT_REFS <=? k) with false by lia.
    rewrite bind_gets.
    assert (fs_data st = fs_data s) as ->
      by (by destruct HR as (_ & _ & -> & _)).
    assert (inode_get_block_unsafe s i k
            = load_int (fs_data s) (refs + (k - INODE_DIRECT_REFS) * SIZEOF_INT))
      as Eblk.
    { apply get_block_indirect;
        [apply Hwf | apply Hwf | fold count; lia | lia | done]. }
    rewrite <- Eblk.
    assert (owned s i (inode_get_block_unsafe s i k)) as Ho.
    { left. exists k. split; [fold count; lia | done]. }
    rewrite (bind_run _ _ _ _ _ (released_free st _ HR Ho)).
    cbn [Z.eqb].
    destruct (blocks_released_step i s st _ Hsh HR Ho
                (proj1 (wf_owned s i Hwf _ Ho))) as (HR' & Hnew & Hkeep).
    apply IH; [done | lia | lia |].
    intros j Hj. cbn [free_blocks set_free_blocks].
    destruct (decide (j = k)) as [->|Hne]; [done|].
    apply Hkeep. apply Hdone. lia.
  - replace (k <? count) with false by lia.
    assert (k = count) as -> by lia. eexists. split; [reflexivity|]. done.
Qed.

End Loops.

(** [inode_clear_unsafe] on a well-formed file. *)
Lemma inode_clear_unsafe_run s i :
  shape s -> wf_file s i -> lk_data_blocks (locks s) = false ->
  exists st,
    inode_clear_unsafe i s
    = Some (0, upd_inode i (fun n => set_i_data_block_count 0 (set_i_size 0 n))
                 st)
    /\ blocks_released i s st
    /\ forall q, owned s i q -> sel (free_blocks st) q = FREE.
Proof.
  intros Hsh Hwf Hlk.
  pose proof (INODE_DIRECT_REFS_pos cfg_ok) as Hdr.
  pose proof (wf_count s i Hwf) as Hc.
  set (count := i_data_block_count (inode_at s i)) in *.
  set (m := Z.min count INODE_DIRECT_REFS).
  unfold inode_clear_unsafe. rewrite bind_gets, (wf_taken s i Hwf).
  rewrite bool_decide_eq_false_2 by done.
  destruct (clear_direct_loop_run s i Hsh Hwf Hlk
              (S (Z.to_nat INODE_DIRECT_REFS)) 0 s (blocks_released_refl i s))
    as (st1 & Hrun1 & HR1 & Hdone1); [fold count; lia | fold count; lia | lia |].
  fold count in Hrun1, Hdone1. fold m in Hrun1, Hdone1.
  rewrite (bind_run _ _ _ _ _ Hrun1). rewrite bind_gets.
  rewrite (released_inode s i st1 HR1). fold count.
  destruct (decide (INODE_DIRECT_REFS < count)) as [Hind|Hdir].
  - replace (m <? count) with true by lia.
    assert (owned s i (i_data_extension_block (inode_at s i))) as Hoe.
    { right. by fold count. }
    destruct (wf_owned s i Hwf _ Hoe) as [Hext _].
    unfold data_block_get. rewrite Hext. cbn [negb].
    destruct (clear_indirect_loop_run s i Hsh Hwf Hlk Hind
                (S (S (Z.to_nat MAX_INDIRECT_REFS))) m st1 HR1)
      as (st2 & Hrun2 & HR2 & Hdone2);
      [fold count; lia | fold count; lia | fold count; fold m; done |].
    fold count in Hrun2, Hdone2.
    rewrite (bind_run _ _ _ _ _ Hrun2).
    rewrite (bind_run _ _ _ _ _ (released_free s i Hwf Hlk st2 _ HR2 Hoe)).
    cbn [Z.eqb]. rewrite bind_modify.
    destruct (blocks_released_step i s st2 _ Hsh HR2 Hoe Hext)
      as (HR3 & Hnew & Hkeep).
    eexists. split; [reflexivity|]. split; [exact HR3|].
    intros q [(k & Hk & <-) | [_ ->]]; cbn [free_blocks set_free_blocks].
    + apply Hkeep. apply Hdone2. by fold count in Hk.
    + exact Hnew.
  - replace (m <? count) with false by lia. rewrite bind_modify.
    exists st1. split; [done|]. split; [done|].
    intros q [(k & Hk & <-) | [Hlt _]]; [|by fold count in Hlt].
    apply Hdone1. fold count in Hk. lia.
Qed.

End Properties.

Section Properties.
Context {cfg : Config}.
Hypothesis cfg_ok : config_ok.

Lemma unlock_inode_and_table_ret {A} (a : A) s i s2 :
  shape s -> valid_inumber i = true ->
  lk_inode_table (locks s) = false ->
  sel (lk_inode (locks s)) i = RwFree ->
  locks s2 = set_rwlock i RwWrite (set_mutex inode_table_mutex true (locks s)) ->
  (pthread_rwlock_unlock i ;; pthread_mutex_unlock inode_table_mutex ;; ret a)
    s2
  = Some (a, set_locks (locks s) s2).
Proof.
  intros Hsh Hv Hm Hrw E.
  pose proof (unlock_inode_and_table s i s2 Hsh Hv Hm Hrw E) as Hu.
  unfold bind in *.
  destruct (pthread_rwlock_unlock i s2) as [[u s3]|]; [|done].
  destruct (pthread_mutex_unlock inode_table_mutex s3) as [[u' s4]|];
    [|done].
  unfold ret in *. by injection Hu as <-.
Qed.

Lemma unlock_inode_ret {A} (a : A) s i s2 :
  shape s -> valid_inumber i = true ->
  sel (lk_inode (locks s)) i = RwFree ->
  locks s2 = set_rwlock i RwWrite (locks s) ->
  (pthread_rwlock_unlock i ;; ret a) s2 = Some (a, set_locks (locks s) s2).
Proof.
  intros Hsh Hv Hrw E. unfold pthread_rwlock_unlock.
  rewrite bind_modify. unfold ret. do 3 f_equal. rewrite E.
  apply valid_inumber_range in Hv. pose proof (shape_lk_inode s Hsh) as Hl.
  destruct (locks s) as [li lt ld lo lf]. unfold set_rwlock.
  cbn [lk_inode lk_inode_table lk_data_blocks lk_open_file_table lk_of] in *.
  rewrite sel_upd_eq by lia. cbn [rwlock_release]. rewrite upd_upd_eq.
  by rewrite (upd_same _ _ _ Hrw).
Qed.

(** The blocks released in a state that differs from [s] in its locks. *)
Lemma blocks_released_set_locks i s l st :
  blocks_released i (set_locks l s) st ->
  blocks_released i s (set_locks (locks s) st).
Proof.
  intros (H1 & H2 & H3 & H4 & H5 & H6 & H7 & H8 & H9).
  repeat split; try done.
Qed.

Lemma inode_clear_run s i :
  shape s -> wf_file s i ->
  lk_data_blocks (locks s) = false ->
  sel (lk_inode (locks s)) i = RwFree ->
  exists st,
    inode_clear i s
    = Some (0, upd_inode i (fun n => set_i_data_block_count 0 (set_i_size 0 n))
                 st)
    /\ blocks_released i s st
    /\ forall q, owned s i q -> sel (free_blocks st) q = FREE.
Proof.
  intros Hsh Hwf Hd Hrw.
  pose proof (wf_valid s i Hwf) as Hv.
  apply valid_inumber_range in Hv as Hvr.
  set (sl := set_locks (set_rwlock i RwWrite (locks s)) s).
  assert (pthread_rwlock_wrlock i s = Some (tt, sl)) as Hlock.
  { apply wrlock_run; [lia | rewrite (shape_lk_inode s Hsh); lia | done]. }
  assert (shape sl) as Hshl.
  { eapply same_inodes_shape; [|exact Hsh]. by eapply wrlock_same. }
  assert (wf_file sl i) as Hwfl.
  { eapply same_fs_wf; [|exact Hwf]. apply same_fs_set_locks. }
  destruct (inode_clear_unsafe_run cfg_ok sl i Hshl Hwfl Hd)
    as (st & Hrun & HR & Hfree).
  exists (set_locks (locks s) st). split; [|split].
  - unfold inode_clear. rewrite Hv. cbn [negb].
    rewrite (bind_run _ _ _ _ _ Hlock), (bind_run _ _ _ _ _ Hrun).
    rewrite (unlock_inode_ret 0 s i); [reflexivity | done | done | done |].
    cbn [locks upd_inode set_inode_table].
    by destruct HR as (_ & _ & _ & _ & _ & _ & -> & _).
  - by eapply blocks_released_set_locks.
  - intros q Hq. by apply Hfree.
Qed.

(** [inode_clear] on a well-formed file returns 0 and releases every block
    that the inode refers to, its indirect block included.  It sets the
    size and the block count of the inode to 0, and leaves the other
    blocks, the other inodes, the arena and the locks as they were. *)
Theorem inode_clear_releases_blocks s i :
  shape s -> wf_file s i ->
  lk_data_blocks (locks s) = false ->
  sel (lk_inode (locks s)) i = RwFree ->
  exists s1,
    inode_clear i s = Some (0, s1)
    /\ i_size (inode_at s1 i) = 0
    /\ i_data_block_count (inode_at s1 i) = 0
    /\ (forall q, owned s i q -> sel (free_blocks s1) q = FREE)
    /\ (forall q, valid_block_number q = true -> ~ owned s i q ->
          sel (free_blocks s1) q = sel (free_blocks s) q)
    /\ (forall j, Z.to_nat j <> Z.to_nat i -> inode_at s1 j = inode_at s j)
    /\ free_inode_ts s1 = free_inode_ts s
    /\ fs_data s1 = fs_data s
    /\ locks s1 = locks s.
Proof.
  intros Hsh Hwf Hd Hrw.
  destruct (inode_clear_run s i Hsh Hwf Hd Hrw) as (st & Hrun & HR & Hfree).
  destruct HR as (E1 & E2 & E3 & E4 & E5 & E6 & E7 & E8 & E9).
  pose proof (inode_in_range s i Hsh (wf_valid s i Hwf)) as Hin.
  eexists. split; [exact Hrun|].
  unfold upd_inode, inode_at.
  cbn [inode_table free_inode_ts fs_data free_blocks locks set_inode_table].
  rewrite E1. rewrite sel_upd_eq by done.
  repeat split; try done.
  - intros q Hq Hno. by destruct (E9 q Hq) as [? | [? _]].
  - intros j Hne. by rewrite sel_upd_other.
Qed.

(** [inode_delete] on a well-formed file returns 0, releases every block
    that the inode refers to and frees the inode.  It leaves the arena as
    it is: a directory entry that names the inode stays, and is found by
    the lookups in the directories other than [i] as before. *)
Theorem inode_delete_releases_blocks s i :
  shape s -> wf_file s i ->
  lk_inode_table (locks s) = false ->
  lk_data_blocks (locks s) = false ->
  sel (lk_inode (locks s)) i = RwFree ->
  exists st s1,
    inode_delete i s = Some (0, s1)
    /\ s1 = set_inode_state i FREE
              (upd_inode i (fun n => set_i_data_block_count 0 (set_i_size 0 n))
                 st)
    /\ blocks_released i s st
    /\ (forall q, owned s i q -> sel (free_blocks s1) q = FREE)
    /\ sel (free_inode_ts s1) i = FREE
    /\ forall d name, Z.to_nat d <> Z.to_nat i ->
         find_in_dir_unsafe s1 d name = find_in_dir_unsafe s d name.
Proof.
  intros Hsh Hwf Hm Hd Hrw.
  pose proof (wf_valid s i Hwf) as Hv.
  apply valid_inumber_range in Hv as Hvr.
  set (sm := set_locks (set_mutex inode_table_mutex true (locks s)) s).
  set (sl := set_locks (set_rwlock i RwWrite (locks sm)) sm).
  assert (pthread_mutex_lock inode_table_mutex s = Some (tt, sm)) as Hlock1
    by (by apply mutex_lock_run).
  assert (pthread_rwlock_wrlock i sm = Some (tt, sl)) as Hlock2.
  { apply wrlock_run; [lia | | done].
    cbn. rewrite (shape_lk_inode s Hsh). lia. }
  assert (shape sl) as Hshl.
  { eapply same_inodes_shape; [by eapply wrlock_same|].
    eapply same_inodes_shape; [by eapply mutex_lock_same | exact Hsh]. }
  assert (wf_file sl i) as Hwfl.
  { eapply same_fs_wf; [|exact Hwf]. apply (same_fs_set_locks s). }
  destruct (inode_clear_unsafe_run cfg_ok sl i Hshl Hwfl Hd)
    as (st & Hrun & HR & Hfree).
  pose proof HR as (E1 & E2 & E3 & E4 & E5 & E6 & E7 & E8 & E9).
  exists (set_locks (locks s) st). eexists. split; [|split; [reflexivity|]].
  - unfold inode_delete.
    rewrite (bind_run _ _ _ _ _ Hlock1), (bind_run _ _ _ _ _ Hlock2).
    rewrite bind_gets. change (free_inode_ts sl) with (free_inode_ts s).
    rewrite Hv, (wf_taken s i Hwf). cbn [negb orb].
    rewrite bool_decide_eq_false_2 by done.
    rewrite (bind_run _ _ _ _ _ Hrun). cbn [Z.eqb]. rewrite bind_modify.
    rewrite (unlock_inode_and_table_ret 0 s i);
      [reflexivity | done | done | done | done |].
    cbn [locks set_inode_state set_free_inode_ts upd_inode set_inode_table].
    by rewrite E7.
  - split; [by eapply (blocks_released_set_locks i s _ st)|].
    split; [intros q Hq; by apply Hfree|]. split.
    + cbn [free_inode_ts set_inode_state set_free_inode_ts upd_inode
           set_inode_table set_locks].
      apply sel_upd_eq. rewrite E2.
      change (free_inode_ts sl) with (free_inode_ts s).
      rewrite (shape_free_inode_ts s Hsh). lia.
    + intros d name Hne. unfold find_in_dir_unsafe, inode_at.
      cbn [inode_table fs_data set_inode_state set_free_inode_ts upd_inode
           set_inode_table set_locks].
      rewrite sel_upd_other by done. by rewrite E1, E3.
Qed.

End Properties.

Section SmallProperties.
#[local] Existing Instance small_cfg.

Lemma small_three_wf : wf_file small_three 1.
Proof.
  assert (i_data_block_count (inode_at small_three 1) = 3) as Hc
    by (by vm_compute).
  constructor.
  - by vm_compute.
  - by vm_compute.
  - rewrite Hc. clear Hc. by vm_compute.
  - rewrite Hc. clear Hc. by vm_compute.
  - intros q [(k & Hk & <-) | [_ ->]]; [|clear Hc; by vm_compute].
    rewrite Hc in Hk. clear Hc.
    assert (k = 0 \/ k = 1 \/ k = 2) as [-> | [-> | ->]] by lia;
      clear Hk; by vm_compute.
  - intros k k' Hk Hk'. rewrite Hc in Hk'. clear Hc.
    assert ((k = 0 /\ k' = 1) \/ (k = 0 /\ k' = 2) \/ (k = 1 /\ k' = 2))
      as [[-> ->] | [[-> ->] | [-> ->]]] by lia; clear Hk Hk'; by vm_compute.
  - intros k _ Hk. rewrite Hc in Hk. clear Hc.
    assert (k = 0 \/ k = 1 \/ k = 2) as [-> | [-> | ->]] by lia;
      clear Hk; by vm_compute.
Qed.

Lemma inode_clear_releases_blocks_witness :
  owned small_three 1 (i_data_extension_block (inode_at small_three 1))
  /\ exists s1,
       inode_clear 1 small_three = Some (0, s1)
       /\ i_size (inode_at s1 1) = 0
       /\ i_data_block_count (inode_at s1 1) = 0
       /\ (forall q, owned small_three 1 q -> sel (free_blocks s1) q = FREE)
       /\ (forall q, valid_block_number q = true -> ~ owned small_three 1 q ->
             sel (free_blocks s1) q = sel (free_blocks small_three) q)
       /\ (forall j, Z.to_nat j <> Z.to_nat 1 ->
             inode_at s1 j = inode_at small_three j)
       /\ free_inode_ts s1 = free_inode_ts small_three
       /\ fs_data s1 = fs_data small_three
       /\ locks s1 = locks small_three.
Proof.
  split; [right; by vm_compute|].
  apply (inode_clear_releases_blocks small_cfg_ok small_three 1).
  - exact small_three_shape.
  - exact small_three_wf.
  - by vm_compute.
  - by vm_compute.
Defined.

Lemma inode_delete_releases_blocks_witness :
  find_in_dir_unsafe small_three 0 [97] = 1
  /\ exists st s1,
       inode_delete 1 small_three = Some (0, s1)
       /\ s1 = set_inode_state 1 FREE
                 (upd_inode 1
                    (fun n => set_i_data_block_count 0 (set_i_size 0 n)) st)
       /\ blocks_released 1 small_three st
       /\ (forall q, owned small_three 1 q -> sel (free_blocks s1) q = FREE)
       /\ sel (free_inode_ts s1) 1 = FREE
       /\ forall d name, Z.to_nat d <> Z.to_nat 1 ->
            find_in_dir_unsafe s1 d name = find_in_dir_unsafe small_three d name.
Proof.
  split; [by vm_compute|].
  apply (inode_delete_releases_blocks small_cfg_ok small_three 1).
  - exact small_three_shape.
  - exact small_three_wf.
  - by vm_compute.
  - by vm_compute.
  - by vm_compute.
Defined.

End SmallProperties.

(** ** The teardown and the calls that close *)

Section Properties.
Context {cfg : Config}.

(** The call beside the waiting thread is [remove_from_open_file_table]:
    the same result and the same state. *)
Lemma remove_from_open_file_table_cond_run fhandle s :
  remove_from_open_file_table fhandle s
  = match Teardown.remove_from_open_file_table_cond fhandle s with
    | Some ((r, _), s1) => Some (r, s1)
    | None => None
    end.
Proof.
  unfold remove_from_open_file_table, Teardown.remove_from_open_file_table_cond.
  unfold bind, gets, pthread_cond_signal, pthread_mutex_unlock, modify, ret.
  destruct (pthread_mutex_lock open_file_table_mutex s) as [[[] s0]|]; [|done].
  destruct (negb (valid_file_handle fhandle) || _); [done|].
  by destruct (_ =? 0).
Qed.

(** [remove_from_open_file_table] calls [pthread_cond_signal] on one path
    only: the one on which it has freed the slot of the handle, has
    brought [open_file_count] to zero, and returns 0. *)
Lemma cond_signal_sent fhandle s r s1 :
  Teardown.remove_from_open_file_table_cond fhandle s = Some ((r, true), s1) ->
  r = 0 /\ open_file_count s1 = 0.
Proof.
  intros H. unfold Teardown.remove_from_open_file_table_cond in H.
  apply bind_inv in H as ([] & s0 & Hlock & H).
  rewrite bind_gets in H.
  destruct (negb (valid_file_handle fhandle) || _).
  - unfold bind, pthread_mutex_unlock, modify, ret in H. by injection H.
  - rewrite !bind_modify, bind_gets in H.
    destruct (open_file_count _ =? 0) eqn:Ec.
    + apply Z.eqb_eq in Ec.
      unfold bind, pthread_cond_signal, pthread_mutex_unlock, modify, ret in H.
      injection H as <- <-. done.
    + unfold bind, pthread_mutex_unlock, modify, ret in H. by injection H.
Qed.

(** The one step that wakes the teardown, when [pthread_cond_wait] does
    not wake by itself, is a close that succeeds and leaves no file
    open. *)
Lemma step_wakes e w w1 :
  e <> Teardown.Ev_spurious ->
  Teardown.step e w = Some w1 ->
  before_wakeup (Teardown.w_pc w) = true ->
  before_wakeup (Teardown.w_pc w1) = false ->
  exists fh,
    e = Teardown.Ev_close fh
    /\ Teardown.w_pc w = Teardown.Waiting
    /\ Teardown.w_pc w1 = Teardown.Signalled
    /\ open_file_count (Teardown.w_state w1) = 0
    /\ remove_from_open_file_table fh (Teardown.w_state w)
       = Some (0, Teardown.w_state w1).
Proof.
  intros Hns Hstep Hpre Hpost. destruct w as [s pc]. cbn in *.
  destruct e as [| inumber append | fh |]; cbn in Hstep; [| | |done].
  - destruct pc; try done;
      repeat match type of Hstep with
        | match ?m with Some _ => _ | None => _ end = _ =>
            destruct m as [[? ?]|]; [|done]
        end;
      injection Hstep as <-; done.
  - destruct (add_to_open_file_table _ _ _) as [[r s1]|]; [|done].
    injection Hstep as <-. cbn in Hpost. congruence.
  - pose proof (remove_from_open_file_table_cond_run fh s) as Hsame.
    destruct (Teardown.remove_from_open_file_table_cond fh s)
      as [[[r signalled] s1]|] eqn:Hrun; [|done].
    injection Hstep as <-. cbn in *. exists fh.
    destruct signalled; [|congruence].
    destruct (cond_signal_sent fh s r s1 Hrun) as [-> Hcount].
    destruct pc; cbn in *; done.
Qed.

(** In every schedule in which [pthread_cond_wait] does not wake without
    a signal, the teardown gets past its wait only after a call of
    [remove_from_open_file_table] has sent the signal, which it does when
    it returns 0 and has left no file open, while the teardown waited:
    whatever the number of open files when
    [state_destroy_after_all_closed] is called, zero included, it does not
    return before such a close.  The wait of the source is not in a loop
    that tests [open_file_count]: a wake-up without a signal takes the
    teardown past it with no close at all
    ([spurious_wakeup_tears_down]). *)
Theorem teardown_waits_for_close es : forall w0 ws n w,
  Forall (fun e => e <> Teardown.Ev_spurious) es ->
  before_wakeup (Teardown.w_pc w0) = true ->
  Teardown.run es w0 = Some ws ->
  ws !! n = Some w ->
  before_wakeup (Teardown.w_pc w) = false ->
  exists k fh w1 w2,
    (k < n)%nat
    /\ es !! k = Some (Teardown.Ev_close fh)
    /\ ws !! k = Some w1 /\ ws !! S k = Some w2
    /\ Teardown.w_pc w1 = Teardown.Waiting
    /\ Teardown.w_pc w2 = Teardown.Signalled
    /\ open_file_count (Teardown.w_state w2) = 0
    /\ remove_from_open_file_table fh (Teardown.w_state w1)
       = Some (0, Teardown.w_state w2).
Proof.
  induction es as [|e es IH]; intros w0 ws n w Hes Hpre Hrun Hn Hpost.
  - cbn in Hrun. injection Hrun as <-.
    destruct n as [|n]; [|done]. cbn in Hn. injection Hn as <-. congruence.
  - apply Forall_cons in Hes as [He Hes].
    cbn [Teardown.run] in Hrun.
    destruct (Teardown.step e w0) as [w1|] eqn:Hstep; [|done].
    destruct (Teardown.run es w1) as [ws1|] eqn:Hrest; [|done].
    injection Hrun as <-.
    destruct n as [|n]; [cbn in Hn; injection Hn as <-; congruence|].
    cbn in Hn.
    destruct (before_wakeup (Teardown.w_pc w1)) eqn:Hpre1.
    + destruct (IH w1 ws1 n w Hes Hpre1 Hrest Hn Hpost)
        as (k & fh & wa & wb & Hk & Hek & Ha & Hb & Hrestk).
      exists (S k), fh, wa, wb. split; [lia|]. done.
    + destruct (step_wakes e w0 w1 He Hstep Hpre Hpre1)
        as (fh & -> & Hw & Hs & Hc & Hclose).
      exists 0%nat, fh, w0, w1. split; [lia|]. repeat split; try done.
      destruct es; cbn in Hrest.
      * by injection Hrest as <-.
      * destruct (Teardown.step _ w1); [|done].
        destruct (Teardown.run _ _); [|done]. by injection Hrest as <-.
Qed.

End Properties.

Section SmallProperties.
#[local] Existing Instance small_cfg.

(** With one file open, the teardown waits, wakes without a signal,
    destroys the state and returns: no call has closed the file, which is
    open in every state of the schedule. *)
Lemma spurious_wakeup_tears_down :
  exists ws w,
    Teardown.run
      [Teardown.Ev_destroyer; Teardown.Ev_destroyer; Teardown.Ev_spurious;
       Teardown.Ev_destroyer; Teardown.Ev_destroyer; Teardown.Ev_destroyer]
      (Teardown.mk_world small_opened Teardown.At_lock) = Some ws
    /\ ws !! 6%nat = Some w
    /\ Teardown.w_pc w = Teardown.Returned
    /\ Forall (fun w => open_file_count (Teardown.w_state w) = 1
                        /\ Teardown.some_open (Teardown.w_state w) = true) ws.
Proof.
  eexists _, _. split; [vm_compute; reflexivity|].
  split; [reflexivity|]. split; [reflexivity|]. repeat constructor.
Qed.

Lemma teardown_waits_for_close_witness :
  exists ws w,
    Teardown.run
      [Teardown.Ev_destroyer; Teardown.Ev_destroyer; Teardown.Ev_close 0;
       Teardown.Ev_destroyer; Teardown.Ev_destroyer; Teardown.Ev_destroyer]
      (Teardown.mk_world small_opened Teardown.At_lock) = Some ws
    /\ ws !! 6%nat = Some w
    /\ Teardown.w_pc w = Teardown.Returned
    /\ exists k fh w1 w2,
         (k < 6)%nat
         /\ [Teardown.Ev_destroyer; Teardown.Ev_destroyer; Teardown.Ev_close 0;
             Teardown.Ev_destroyer; Teardown.Ev_destroyer;
             Teardown.Ev_destroyer] !! k = Some (Teardown.Ev_close fh)
         /\ ws !! k = Some w1 /\ ws !! S k = Some w2
         /\ Teardown.w_pc w1 = Teardown.Waiting
         /\ Teardown.w_pc w2 = Teardown.Signalled
         /\ open_file_count (Teardown.w_state w2) = 0
         /\ remove_from_open_file_table fh (Teardown.w_state w1)
            = Some (0, Teardown.w_state w2).
Proof.
  set (es := [Teardown.Ev_destroyer; Teardown.Ev_destroyer;
              Teardown.Ev_close 0; Teardown.Ev_destroyer;
              Teardown.Ev_destroyer; Teardown.Ev_destroyer]).
  set (w0 := Teardown.mk_world small_opened Teardown.At_lock).
  assert (match Teardown.run es w0 with
          | Some ws => Teardown.w_pc <$> ws !! 6%nat
          | None => None
          end = Some Teardown.Returned) as Hlast by (by vm_compute).
  destruct (Teardown.run es w0) as [ws|] eqn:Hrun; [|done].
  destruct (ws !! 6%nat) as [w|] eqn:Hw; [|done].
  injection Hlast as Hpc.
  exists ws, w. split; [done|]. split; [done|]. split; [done|].
  apply (teardown_waits_for_close es w0 ws 6 w).
  - subst es. repeat constructor; discriminate.
  - reflexivity.
  - exact Hrun.
  - exact Hw.
  - by rewrite Hpc.
Defined.

End SmallProperties.

(** ** Writing to one file and the other files *)

Section Properties.
Context {cfg : Config}.
Hypothesis cfg_ok : config_ok.

(** A file has the blocks it had when its inode and the arena in its
    blocks are as they were. *)
Lemma other_file_blocks s s1 j :
  shape s -> shape s1 -> wf_file s j ->
  inode_at s1 j = inode_at s j ->
  free_inode_ts s1 = free_inode_ts s ->
  (forall q, owned s j q ->
     forall a, block_region q a -> sel (fs_data s1) a = sel (fs_data s) a) ->
  forall k, inode_get_block_unsafe s1 j k = inode_get_block_unsafe s j k.
Proof.
  intros Hsh Hsh1 Hwf Hin Hts Hreg k.
  pose proof (BLOCK_SIZE_pos cfg_ok) as Hbs.
  pose proof (max_indirect_refs_bound Hbs) as [Hm0 Hm].
  pose proof (wf_valid s j Hwf) as Hv. pose proof (wf_taken s j Hwf) as Ht.
  pose proof (wf_count s j Hwf) as Hc.
  destruct (decide (0 <= k < i_data_block_count (inode_at s j))) as [Hk|Hk].
  - destruct (decide (k < INODE_DIRECT_REFS)) as [Hd|Hd].
    + rewrite !get_block_direct; try done; rewrite ?Hin, ?Hts; done.
    + assert (owned s j (i_data_extension_block (inode_at s j))) as Ho.
      { right. split; [lia | done]. }
      destruct (wf_owned s j Hwf _ Ho) as [Hext _].
      rewrite !get_block_indirect; try done; rewrite ?Hin, ?Hts; try done;
        try lia.
      unfold load_int. f_equal.
      apply valid_block_number_range in Hext as Her.
      apply load_bytes_ext.
      * unfold SIZEOF_INT. nia.
      * by rewrite (shape_fs_data _ Hsh), (shape_fs_data _ Hsh1).
      * intros a Ha. apply (Hreg _ Ho). unfold block_region.
        unfold SIZEOF_INT in *. nia.
  - rewrite !get_block_out_of_range; try done; rewrite ?Hin; lia.
Qed.

(** A write to a file that returns a count leaves every other well-formed
    file that shares no block with it as it is: its inode, its blocks and
    the bytes in them. *)
Theorem tfs_write_keeps_other_files s fhandle buffer to_write r s1 j :
  shape s -> valid_file_handle fhandle = true ->
  wf_file s (of_inumber (entry_at s fhandle)) ->
  sel (lk_of (locks s)) fhandle = false ->
  sel (lk_inode (locks s)) (of_inumber (entry_at s fhandle)) = RwFree ->
  lk_data_blocks (locks s) = false ->
  0 <= start_offset s fhandle
  <= i_size (inode_at s (of_inumber (entry_at s fhandle))) ->
  0 <= to_write <= Z.of_nat (length buffer) ->
  tfs_write fhandle buffer to_write s = Some (r, s1) -> r <> -1 ->
  wf_file s j -> j <> of_inumber (entry_at s fhandle) ->
  (forall q, owned s j q -> ~ owned s (of_inumber (entry_at s fhandle)) q) ->
  wf_file s1 j
  /\ inode_at s1 j = inode_at s j
  /\ (forall k, inode_get_block_unsafe s1 j k = inode_get_block_unsafe s j k)
  /\ forall p, 0 <= p < i_data_block_count (inode_at s j) * BLOCK_SIZE ->
       file_byte s1 j p = file_byte s j p.
Proof.
  intros Hsh Hvf Hwf Hm Hrw Hlk Hoff Hn Hrun Hr Hwfj Hne Hdisj.
  pose proof (BLOCK_SIZE_pos cfg_ok) as Hbs.
  destruct (write_total cfg_ok s fhandle buffer to_write Hsh Hvf Hwf Hm Hrw Hlk
              Hoff Hn) as (r' & s1' & Hrun' & Hok & _).
  unfold tfs_write in Hrun. rewrite Hrun' in Hrun. injection Hrun as -> ->.
  destruct (Hok Hr) as [_ W]. clear Hok.
  set (i := of_inumber (entry_at s fhandle)) in *.
  pose proof (wf_valid s j Hwfj) as Hvj.
  apply valid_inumber_range in Hvj as Hvjr.
  assert (inode_at s1 j = inode_at s j) as Hin
    by (apply (wo_others _ _ _ _ _ W); [lia | done]).
  assert (forall q, owned s j q -> protected s i q) as Hprot.
  { intros q Ho. destruct (wf_owned s j Hwfj q Ho) as [Hq Hqt].
    split; [done|]. split; [done|]. by apply Hdisj. }
  assert (forall q, owned s j q ->
            forall a, block_region q a -> sel (fs_data s1) a = sel (fs_data s) a)
    as Hreg.
  { intros q Ho. apply (wo_protected _ _ _ _ _ W). by apply Hprot. }
  pose proof (other_file_blocks s s1 j Hsh (wo_shape _ _ _ _ _ W) Hwfj Hin
                (wo_free_inode_ts _ _ _ _ _ W) Hreg) as Hblk.
  pose proof (owned_ext s s1 j Hin Hblk) as Hown.
  split; [|split; [done|split; [done|]]].
  - destruct Hwfj as [Wv Wt Wc Ws Wo Wd Wi].
    constructor; rewrite ?Hin; try done.
    + by rewrite (wo_free_inode_ts _ _ _ _ _ W).
    + intros q Hq. apply Hown in Hq.
      destruct (wo_protected _ _ _ _ _ W q (Hprot q Hq)) as [(H1 & H2 & _) _].
      done.
    + intros k k' Hk Hk'. rewrite !Hblk. by apply Wd.
    + intros k Hd Hk. rewrite !Hblk. by apply Wi.
  - intros p Hp. unfold file_byte. rewrite Hblk.
    assert (0 <= p / BLOCK_SIZE < i_data_block_count (inode_at s j)) as Hk.
    { split; [apply Z.div_pos; lia|]. apply Z.div_lt_upper_bound; lia. }
    apply (Hreg (inode_get_block_unsafe s j (p / BLOCK_SIZE))).
    + left. by exists (p / BLOCK_SIZE).
    + unfold block_region.
      pose proof (Z.mod_pos_bound p BLOCK_SIZE Hbs). lia.
Qed.

End Properties.

Section SmallProperties.
#[local] Existing Instance small_cfg.

Lemma small_two_files_shape : shape small_two_files.
Proof. constructor; try by vm_compute. vm_compute. repeat constructor. Qed.

Lemma small_two_files_wf_a : wf_file small_two_files 1.
Proof. apply (wf_file_one_block small_cfg_ok); by vm_compute. Qed.

Lemma small_two_files_wf_b : wf_file small_two_files 2.
Proof. apply (wf_file_empty small_cfg_ok); by vm_compute. Qed.

Lemma small_two_files_disjoint q :
  owned small_two_files 1 q ->
  ~ owned small_two_files (of_inumber (entry_at small_two_files 1)) q.
Proof.
  assert (of_inumber (entry_at small_two_files 1) = 2) as E
    by (vm_compute; reflexivity).
  rewrite E. clear E.
  assert (i_data_block_count (inode_at small_two_files 2) = 0) as Hc
    by (vm_compute; reflexivity).
  intros _ [(k & Hk & _) | [Hlt _]]; rewrite Hc in *; clear Hc.
  - lia.
  - vm_compute in Hlt. discriminate Hlt.
Qed.

Lemma tfs_write_keeps_other_files_witness :
  exists s1,
    tfs_write 1 [120; 121] 2 small_two_files = Some (2, s1)
    /\ wf_file s1 1
    /\ inode_at s1 1 = inode_at small_two_files 1
    /\ (forall k, inode_get_block_unsafe s1 1 k
                  = inode_get_block_unsafe small_two_files 1 k)
    /\ forall p,
         0 <= p < i_data_block_count (inode_at small_two_files 1) * BLOCK_SIZE ->
         file_byte s1 1 p = file_byte small_two_files 1 p.
Proof.
  destruct (tfs_write 1 [120; 121] 2 small_two_files) as [[r s1]|] eqn:Hrun;
    [|by vm_compute in Hrun].
  assert (r = 2) as ->.
  { assert (fst <$> tfs_write 1 [120; 121] 2 small_two_files = Some r)
      as Hr by (by rewrite Hrun).
    vm_compute in Hr. by injection Hr as <-. }
  exists s1. split; [done|].
  apply (tfs_write_keeps_other_files small_cfg_ok small_two_files 1 [120; 121]
           2 2 s1 1).
  - exact small_two_files_shape.
  - by vm_compute.
  - exact small_two_files_wf_b.
  - by vm_compute.
  - by vm_compute.
  - by vm_compute.
  - clear Hrun. by vm_compute.
  - clear Hrun. by vm_compute.
  - exact Hrun.
  - intros [=].
  - exact small_two_files_wf_a.
  - by vm_compute.
  - exact small_two_files_disjoint.
Defined.

End SmallProperties.

(** ** Opening with truncation when the open-file table is full *)

Section Properties.
Context {cfg : Config}.
Hypothesis cfg_ok : config_ok.

(** [tfs_open] truncates before it looks for a slot of the open-file
    table: with the truncation flag, on a file that exists, it returns -1
    when the table is full, and the blocks of the file have been released
    and its size set to 0. *)
Theorem tfs_open_truncates_before_slot s name flags i :
  shape s -> valid_pathname name = true ->
  Z.land flags TFS_O_CREAT = 0 -> Z.land flags TFS_O_TRUNC <> 0 ->
  find_in_dir_unsafe s ROOT_DIR_INUM (tl name) = i ->
  wf_file s i ->
  sel (lk_inode (locks s)) ROOT_DIR_INUM = RwFree ->
  sel (lk_inode (locks s)) i = RwFree ->
  lk_data_blocks (locks s) = false ->
  lk_open_file_table (locks s) = false ->
  first_free (free_open_file_entries s) (Z.to_nat MAX_OPEN_FILES) 0 = None ->
  exists s1,
    tfs_open name flags s = Some (-1, s1)
    /\ i_size (inode_at s1 i) = 0
    /\ i_data_block_count (inode_at s1 i) = 0
    /\ (forall q, owned s i q -> sel (free_blocks s1) q = FREE)
    /\ open_file_table s1 = open_file_table s
    /\ free_open_file_entries s1 = free_open_file_entries s
    /\ open_file_count s1 = open_file_count s.
Proof.
  intros Hsh Hvp Hcreat Htrunc Hfind Hwf Hroot Hrw Hd Ht Hfull.
  pose proof (wf_valid s i Hwf) as Hv.
  apply valid_inumber_range in Hv as Hvr.
  destruct (inode_clear_run cfg_ok s i Hsh Hwf Hd Hrw)
    as (st & Hrun & HR & Hfree).
  destruct HR as (E1 & E2 & E3 & E4 & E5 & E6 & E7 & E8 & E9).
  pose proof (inode_in_range s i Hsh Hv) as Hin.
  eexists. split.
  - unfold tfs_open. rewrite Hvp, Hcreat. cbn [negb Z.eqb].
    unfold tfs_lookup. rewrite Hvp. cbn [negb].
    rewrite (bind_run _ _ _ _ _
               (find_in_dir_run s ROOT_DIR_INUM (tl name) Hsh
                  (root_valid cfg_ok) Hroot)).
    rewrite Hfind. replace (i =? -1) with false by lia.
    apply Z.eqb_neq in Htrunc as ->. cbn [negb].
    erewrite bind_run
      by (rewrite (bind_run _ _ _ _ _ Hrun); reflexivity).
    cbn [Z.eqb negb].
    apply add_to_open_file_table_full.
    + cbn [locks upd_inode set_inode_table]. by rewrite E7.
    + cbn [free_open_file_entries upd_inode set_inode_table]. by rewrite E5.
  - unfold upd_inode, inode_at.
    cbn [inode_table free_inode_ts fs_data free_blocks locks set_inode_table
         open_file_table free_open_file_entries open_file_count].
    rewrite E1. rewrite sel_upd_eq by done.
    repeat split; try done.
Qed.

End Properties.

Section SmallProperties.
#[local] Existing Instance small_cfg.

Lemma small_table_full_shape : shape small_table_full.
Proof. constructor; try by vm_compute. vm_compute. repeat constructor. Qed.

Lemma small_table_full_wf : wf_file small_table_full 1.
Proof. apply (wf_file_one_block small_cfg_ok); by vm_compute. Qed.

Lemma tfs_open_truncates_before_slot_witness :
  i_size (inode_at small_table_full 1) = 2
  /\ exists s1,
       tfs_open path_a TFS_O_TRUNC small_table_full = Some (-1, s1)
       /\ i_size (inode_at s1 1) = 0
       /\ i_data_block_count (inode_at s1 1) = 0
       /\ (forall q, owned small_table_full 1 q -> sel (free_blocks s1) q = FREE)
       /\ open_file_table s1 = open_file_table small_table_full
       /\ free_open_file_entries s1 = free_open_file_entries small_table_full
       /\ open_file_count s1 = open_file_count small_table_full.
Proof.
  split; [by vm_compute|].
  apply (tfs_open_truncates_before_slot small_cfg_ok small_table_full path_a
           TFS_O_TRUNC 1).
  - exact small_table_full_shape.
  - by vm_compute.
  - by vm_compute.
  - by vm_compute.
  - by vm_compute.
  - exact small_table_full_wf.
  - by vm_compute.
  - by vm_compute.
  - by vm_compute.
  - by vm_compute.
  - by vm_compute.
Defined.

End SmallProperties.

(** ** Reading and writing through a closed handle *)

Section Properties.
Context {cfg : Config}.
Hypothesis cfg_ok : config_ok.

(** [read_from_open_file] and [write_to_open_file] test the range of the
    handle and not the state of its slot: after [tfs_close] has returned 0
    and freed the slot, [tfs_read] through the handle returns the bytes of
    the file from the offset of the handle on, and [tfs_write] through it
    returns other than an error when blocks are free. *)
Theorem closed_handle_reads_and_writes s fhandle buffer len s1 :
  shape s ->
  wf_file s (of_inumber (entry_at s fhandle)) ->
  sel (lk_of (locks s)) fhandle = false ->
  sel (lk_inode (locks s)) (of_inumber (entry_at s fhandle)) = RwFree ->
  lk_data_blocks (locks s) = false ->
  0 <= start_offset s fhandle
  <= i_size (inode_at s (of_inumber (entry_at s fhandle))) ->
  0 <= len <= Z.of_nat (length buffer) ->
  tfs_close fhandle s = Some (0, s1) ->
  sel (free_open_file_entries s1) fhandle = FREE
  /\ (exists out s2,
        tfs_read fhandle buffer len s1
        = Some ((Z.min len
                   (i_size (inode_at s (of_inumber (entry_at s fhandle)))
                    - start_offset s fhandle), out), s2)
        /\ forall k,
             0 <= k < Z.min len
                        (i_size (inode_at s (of_inumber (entry_at s fhandle)))
                         - start_offset s fhandle) ->
             sel out k = file_byte s (of_inumber (entry_at s fhandle))
                                   (start_offset s fhandle + k))
  /\ (exists r s2,
        tfs_write fhandle buffer len s1 = Some (r, s2)
        /\ (INODE_DIRECT_REFS + MAX_INDIRECT_REFS + 1
            <= free_count s + owned_count s (of_inumber (entry_at s fhandle)) ->
            r = Z.min len (MAX_FILE_SIZE - start_offset s fhandle))).
Proof.
  intros Hsh Hwf Hm Hrw Hd Hoff Hlen Hclose.
  unfold tfs_close in Hclose.
  apply remove_from_open_file_table_inv in Hclose
    as [Hlk [(Hr & _) | (_ & Hv & Ht & ->)]]; [done|].
  set (s1 := set_open_file_count _ _).
  assert (same_fs s s1) as Hsame by (by constructor).
  assert (shape s1) as Hsh1.
  { destruct Hsh as [H1 H2 H3 H4 H5 H6 H7 H8 H9].
    constructor; try done. cbn. by rewrite length_upd. }
  assert (wf_file s1 (of_inumber (entry_at s1 fhandle))) as Hwf1.
  { change (entry_at s1 fhandle) with (entry_at s fhandle).
    by eapply same_fs_wf. }
  split.
  { cbn. apply sel_upd_eq. rewrite (shape_free_open_file_entries s Hsh).
    apply valid_file_handle_range in Hv. lia. }
  split.
  - destruct (read_total cfg_ok s1 fhandle buffer len Hsh1 Hv Hwf1 Hm Hrw Hoff
                Hlen) as (out & Hrun & _ & Hbytes & _).
    exists out. eexists. split; [exact Hrun|].
    intros k Hk. rewrite (Hbytes k Hk). by apply same_fs_file_byte.
  - destruct (write_total cfg_ok s1 fhandle buffer len Hsh1 Hv Hwf1 Hm Hrw Hd
                Hoff Hlen) as (r & s2 & Hrun & Hok & Hsucc).
    exists r, s2. split; [exact Hrun|].
    intros Hroom. apply Hok. apply Hsucc.
    change (entry_at s1 fhandle) with (entry_at s fhandle).
    by rewrite (same_fs_free_count _ _ Hsame), (same_fs_owned_count _ _ _ Hsame).
Qed.

End Properties.

Section SmallProperties.
#[local] Existing Instance small_cfg.

Lemma closed_handle_reads_and_writes_witness :
  exists s1,
    tfs_close 0 small_reopened = Some (0, s1)
    /\ sel (free_open_file_entries s1) 0 = FREE
    /\ (exists out s2,
          tfs_read 0 [0; 0; 0] 3 s1
          = Some ((Z.min 3 (i_size (inode_at small_reopened
                                      (of_inumber (entry_at small_reopened 0)))
                            - start_offset small_reopened 0), out), s2)
          /\ forall k,
               0 <= k < Z.min 3
                          (i_size (inode_at small_reopened
                                     (of_inumber (entry_at small_reopened 0)))
                           - start_offset small_reopened 0) ->
               sel out k
               = file_byte small_reopened
                   (of_inumber (entry_at small_reopened 0))
                   (start_offset small_reopened 0 + k))
    /\ (exists r s2,
          tfs_write 0 [0; 0; 0] 3 s1 = Some (r, s2)
          /\ (INODE_DIRECT_REFS + MAX_INDIRECT_REFS + 1
              <= free_count small_reopened
                 + owned_count small_reopened
                     (of_inumber (entry_at small_reopened 0)) ->
              r = Z.min 3 (MAX_FILE_SIZE - start_offset small_reopened 0))).
Proof.
  destruct (tfs_close 0 small_reopened) as [[r s1]|] eqn:Hrun;
    [|by vm_compute in Hrun].
  assert (r = 0) as ->.
  { assert (fst <$> tfs_close 0 small_reopened = Some r)
      as Hr by (by rewrite Hrun).
    vm_compute in Hr. by injection Hr as <-. }
  exists s1. split; [done|].
  apply (closed_handle_reads_and_writes small_cfg_ok small_reopened 0
           [0; 0; 0] 3 s1).
  - exact small_reopened_shape.
  - assert (of_inumber (entry_at small_reopened 0) = 1) as ->
      by (vm_compute; reflexivity).
    exact small_reopened_wf.
  - vm_compute; reflexivity.
  - vm_compute; reflexivity.
  - vm_compute; reflexivity.
  - clear Hrun. by vm_compute.
  - clear Hrun. by vm_compute.
  - exact Hrun.
Defined.

End SmallProperties.

(** ** An extension that fails *)

Section Properties.
Context {cfg : Config}.
Hypothesis cfg_ok : config_ok.

(** An extension that fails leaks no block: when [inode_extend_unsafe]
    returns -1, the allocation map of the blocks and the arena are as they
    were before the call (the block that was allocated for the extension
    has been released again). *)
Theorem extend_failure_leaks_no_block s i s1 :
  shape s -> inode_extend_unsafe i s = Some (-1, s1) ->
  free_blocks s1 = free_blocks s /\ fs_data s1 = fs_data s.
Proof.
  intros Hsh H. unfold inode_extend_unsafe in H. run_inv.
  all: repeat match goal with
    | H : data_block_alloc _ = Some _ |- _ =>
        apply data_block_alloc_inv in H
          as [? [(? & ? & ?) | (? & ?)]]
    | H : data_block_free _ _ = Some _ |- _ =>
        apply data_block_free_inv in H
          as [(? & ? & ?) | (? & ? & ? & ?)]
    end; subst.
  all: try done.
  all: repeat match goal with
    | H : first_free _ (Z.to_nat DATA_BLOCKS) 0 = Some _ |- _ =>
        apply first_free_valid in H as (? & ? & ?)
    | H : (_ =? _) = true |- _ => apply Z.eqb_eq in H
    | H : (_ =? _) = false |- _ => apply Z.eqb_neq in H
    | H : negb (negb (?x =? ?y)) = true |- _ =>
        destruct (Z.eqb_spec x y); [|done]
    end.
  all: cbn [free_blocks fs_data upd_inode set_inode_table set_free_blocks
            set_fs_data] in *.
  all: try congruence.
  all: try (split; [|done]; rewrite ?upd_upd_eq; by apply upd_same).
  all: try done.
  (* the indirect block was allocated: it is the block of the reference *)
  exfalso.
  match goal with
  | Hg : data_block_get
           (i_data_extension_block
              (inode_at (upd_inode i (set_i_data_extension_block ?e) ?st) i))
         = None |- _ =>
      assert (i_data_extension_block
                (inode_at (upd_inode i (set_i_data_extension_block e) st) i)
              = e) as E;
      [| rewrite E in Hg; unfold data_block_get in Hg;
         assert (valid_block_number e = true) as Hve by done;
         by rewrite Hve in Hg ]
  end.
  unfold inode_at, upd_inode.
  cbn [inode_table set_inode_table set_free_blocks].
  rewrite sel_upd_eq; [done|].
  apply orb_false_iff in Hc as [Hv _]. apply negb_false_iff in Hv.
  by apply inode_in_range.
Qed.

End Properties.

Section SmallProperties.
#[local] Existing Instance small_cfg.

Lemma extend_failure_leaks_no_block_witness :
  exists s1,
    inode_extend_unsafe 1 small_full = Some (-1, s1)
    /\ free_blocks s1 = free_blocks small_full
    /\ fs_data s1 = fs_data small_full.
Proof.
  destruct (inode_extend_unsafe 1 small_full) as [[r s1]|] eqn:Hrun;
    [|by vm_compute in Hrun].
  assert (r = -1) as ->.
  { assert (fst <$> inode_extend_unsafe 1 small_full = Some r)
      as Hr by (by rewrite Hrun).
    vm_compute in Hr. by injection Hr as <-. }
  exists s1. split; [done|].
  apply (extend_failure_leaks_no_block small_full 1 s1).
  - exact small_full_shape.
  - exact Hrun.
Defined.

End SmallProperties.

(** ** Two writes through one handle *)

Section Properties.
Context {cfg : Config}.
Hypothesis cfg_ok : config_ok.

Lemma wf_size_max s i :
  wf_file s i -> i_size (inode_at s i) <= MAX_FILE_SIZE.
Proof.
  intros Hwf. pose proof (wf_size s i Hwf). pose proof (wf_count s i Hwf).
  pose proof (BLOCK_SIZE_pos cfg_ok). unfold MAX_FILE_SIZE. nia.
Qed.

(** Two writes through one handle that return counts store their buffers
    one after the other: the second write starts where the first one
    stopped, whether the handle appends or not, and keeps what the first
    has written. *)
Theorem tfs_write_twice s fhandle buf1 buf2 a b r1 s1 r2 s2 :
  shape s -> valid_file_handle fhandle = true ->
  wf_file s (of_inumber (entry_at s fhandle)) ->
  sel (lk_of (locks s)) fhandle = false ->
  sel (lk_inode (locks s)) (of_inumber (entry_at s fhandle)) = RwFree ->
  lk_data_blocks (locks s) = false ->
  0 <= start_offset s fhandle
  <= i_size (inode_at s (of_inumber (entry_at s fhandle))) ->
  0 <= a <= Z.of_nat (length buf1) ->
  0 <= b <= Z.of_nat (length buf2) ->
  tfs_write fhandle buf1 a s = Some (r1, s1) -> r1 <> -1 ->
  tfs_write fhandle buf2 b s1 = Some (r2, s2) -> r2 <> -1 ->
  r1 = Z.min a (MAX_FILE_SIZE - start_offset s fhandle)
  /\ r2 = Z.min b (MAX_FILE_SIZE - start_offset s fhandle - r1)
  /\ (forall k, 0 <= k < r1 ->
        file_byte s2 (of_inumber (entry_at s fhandle))
                  (start_offset s fhandle + k) = sel buf1 k)
  /\ (forall k, 0 <= k < r2 ->
        file_byte s2 (of_inumber (entry_at s fhandle))
                  (start_offset s fhandle + r1 + k) = sel buf2 k)
  /\ i_size (inode_at s2 (of_inumber (entry_at s fhandle)))
     = Z.max (i_size (inode_at s (of_inumber (entry_at s fhandle))))
             (start_offset s fhandle + r1 + r2)
  /\ of_offset (entry_at s2 fhandle) = start_offset s fhandle + r1 + r2.
Proof.
  intros Hsh Hv Hwf Hm Hrw Hd Hoff Ha Hb Hrun1 Hr1 Hrun2 Hr2.
  unfold tfs_write in *.
  set (i := of_inumber (entry_at s fhandle)) in *.
  set (off := start_offset s fhandle) in *.
  destruct (write_total cfg_ok s fhandle buf1 a Hsh Hv Hwf Hm Hrw Hd Hoff Ha)
    as (r1' & s1' & Hrun1' & Hok1 & _).
  rewrite Hrun1' in Hrun1. injection Hrun1 as -> ->.
  destruct (Hok1 Hr1) as [E1 W1]. clear Hok1. fold off in E1. fold i in W1.
  pose proof (wf_size_max s i Hwf) as Hmax.
  assert (0 <= r1) as Hr1pos by lia.
  pose proof (wo_entry _ _ _ _ _ W1) as He1. fold off in He1.
  assert (of_inumber (entry_at s1 fhandle) = i) as Ei1 by (by rewrite He1).
  pose proof (wo_size _ _ _ _ _ W1) as Esz1. fold i off in Esz1.
  assert (start_offset s1 fhandle = off + r1) as Eoff1.
  { unfold start_offset. rewrite Ei1, He1. cbn [of_append of_offset set_of_offset].
    destruct (of_append (entry_at s fhandle) =? 0) eqn:Eapp; [done|].
    rewrite Esz1.
    assert (off = i_size (inode_at s i)) as <-;
      [subst off; unfold start_offset; by rewrite Eapp | lia]. }
  destruct (write_total cfg_ok s1 fhandle buf2 b (wo_shape _ _ _ _ _ W1) Hv)
    as (r2' & s2' & Hrun2' & Hok2 & _).
  { rewrite Ei1. apply (wo_wf _ _ _ _ _ W1). }
  { by rewrite (wo_locks _ _ _ _ _ W1). }
  { rewrite Ei1. by rewrite (wo_locks _ _ _ _ _ W1). }
  { by rewrite (wo_locks _ _ _ _ _ W1). }
  { rewrite Ei1, Eoff1, Esz1. lia. }
  { done. }
  rewrite Hrun2' in Hrun2. injection Hrun2 as -> ->.
  destruct (Hok2 Hr2) as [E2 W2]. clear Hok2.
  rewrite Eoff1 in E2.
  pose proof (wo_size _ _ _ _ _ W2) as Esz2.
  pose proof (wo_entry _ _ _ _ _ W2) as He2.
  rewrite Ei1, Eoff1 in Esz2. rewrite Eoff1 in He2.
  pose proof (wf_size_max s1 i (wo_wf _ _ _ _ _ W1)) as Hmax1.
  assert (0 <= r2) as Hr2pos by lia.
  split; [done|]. split; [lia|]. split; [|split; [|split]].
  - intros k Hk.
    pose proof (wo_before _ _ _ _ _ W2 (off + k)) as Hb2.
    rewrite Ei1, Eoff1 in Hb2. rewrite Hb2 by lia.
    by apply (wo_bytes _ _ _ _ _ W1).
  - intros k Hk.
    pose proof (wo_bytes _ _ _ _ _ W2 k Hk) as Hb2.
    by rewrite Ei1, Eoff1 in Hb2.
  - rewrite Esz2, Esz1. lia.
  - by rewrite He2.
Qed.

End Properties.

Section SmallProperties.
#[local] Existing Instance small_cfg.

Lemma tfs_write_twice_witness :
  exists s1 s2,
    tfs_write 0 [97; 98] 2 small_opened = Some (2, s1)
    /\ tfs_write 0 [99] 1 s1 = Some (1, s2)
    /\ 2 = Z.min 2 (MAX_FILE_SIZE - start_offset small_opened 0)
    /\ 1 = Z.min 1 (MAX_FILE_SIZE - start_offset small_opened 0 - 2)
    /\ (forall k, 0 <= k < 2 ->
          file_byte s2 (of_inumber (entry_at small_opened 0))
                    (start_offset small_opened 0 + k) = sel [97; 98] k)
    /\ (forall k, 0 <= k < 1 ->
          file_byte s2 (of_inumber (entry_at small_opened 0))
                    (start_offset small_opened 0 + 2 + k) = sel [99] k)
    /\ i_size (inode_at s2 (of_inumber (entry_at small_opened 0)))
       = Z.max (i_size (inode_at small_opened
                          (of_inumber (entry_at small_opened 0))))
               (start_offset small_opened 0 + 2 + 1)
    /\ of_offset (entry_at s2 0) = start_offset small_opened 0 + 2 + 1.
Proof.
  destruct (tfs_write 0 [97; 98] 2 small_opened) as [[r1 s1]|] eqn:Hrun1;
    [|by vm_compute in Hrun1].
  assert (r1 = 2) as ->.
  { assert (fst <$> tfs_write 0 [97; 98] 2 small_opened = Some r1)
      as Hr by (by rewrite Hrun1).
    vm_compute in Hr. by injection Hr as <-. }
  destruct (tfs_write 0 [99] 1 s1) as [[r2 s2]|] eqn:Hrun2.
  2: { assert ((snd <$> tfs_write 0 [97; 98] 2 small_opened)
               ≫= (fun st => fst <$> tfs_write 0 [99] 1 st) = None) as Hn
         by (rewrite Hrun1; cbn -[tfs_write]; by rewrite Hrun2).
       by vm_compute in Hn. }
  assert (r2 = 1) as ->.
  { assert ((snd <$> tfs_write 0 [97; 98] 2 small_opened)
            ≫= (fun st => fst <$> tfs_write 0 [99] 1 st) = Some r2) as Hr
      by (rewrite Hrun1; cbn -[tfs_write]; by rewrite Hrun2).
    vm_compute in Hr. by injection Hr as <-. }
  exists s1, s2. split; [done|]. split; [done|].
  assert (of_inumber (entry_at small_opened 0) = 1) as Ei
    by (vm_compute; reflexivity).
  apply (tfs_write_twice small_cfg_ok small_opened 0 [97; 98] [99] 2 1 2 s1 1
           s2).
  - exact small_opened_shape.
  - vm_compute; reflexivity.
  - rewrite Ei. exact small_opened_wf.
  - vm_compute; reflexivity.
  - vm_compute; reflexivity.
  - vm_compute; reflexivity.
  - clear. by vm_compute.
  - clear. by vm_compute.
  - clear. by vm_compute.
  - exact Hrun1.
  - intros [=].
  - exact Hrun2.
  - intros [=].
Defined.

End SmallProperties.
